(* ===== verification/_CoqProject ===== *)
-Q . S2P
Prelude.v
Uring.v
ConnInfo.v
EventLoop.v
BatchLoop.v
RefKernel.v
Script.v
BatchScript.v
Libc.v
Setup.v
EchoServer.v
EchoInv.v
EchoTheorems.v
EchoTurn.v
EchoMain.v
FileRing.v
Options.v
Tables.v
Registration.v
Startup.v
TableInv.v
EchoV1.v
EchoV1Inv.v
EchoV1Main.v
EchoV1Theorems.v
BufRing.v
EchoV2.v
EchoV2Inv.v
EchoV2Main.v
EchoV2Theorems.v
EchoV3.v
EchoV3Inv.v
EchoV3Main.v
EchoV3Theorems.v
Sockets.v
BlockingDemo.v
EpollProtocol.v
EpollServer.v
IoOp.v
EpollEchoDemo.v
RingDemo.v
RingDemoTheorems.v
CoServer.v
CoServerInv.v
CoServerTheorems.v
CoEquivalence.v
CoServerMain.v
EpollRing.v
EpollRingTheorems.v
EpollRingMain.v
BenchDemo.v
BenchRun.v
EventfdDemo.v
HelloDemo.v
