(* ===== verification/Prelude.v ===== *)
(** * Verification of the C programs of iowrapper

    iowrapper collects network and file programs written against the Linux
    asynchronous I/O interfaces: echo servers and demos that use io_uring
    through liburing, the same servers on epoll and on blocking sockets for
    comparison, and a small C library through which a Go package reads and
    writes files.  This development models the C and C++ programs as executable
    functions and proves what makes them correct, for every kernel that keeps
    the laws stated by the type classes of the development.

    ** How the programs are modelled

    A C function is a function in the monad [M] of this file: it takes the
    state it can reach and returns a value and the new state, or stops the
    process ([exit] with a status), or is undefined ([ub]: a null pointer, an
    index outside a table, a signed overflow).  Integers are [Z] with the
    conversions between widths written out; tables are lists whose lookups
    fail out of range.

    liburing (a git submodule, absent from the tree) and the kernel are
    parameters: [Uring.Liburing] and [Uring.Kernel] are their operations,
    [Uring.LiburingOk] and [Uring.KernelOk] the laws the theorems use, each
    with the manual page it is taken from ([Uring.MultishotOk] where requests may complete more than once);
    [Setup.Setup], [Setup.Register], [BufRing.BufRing], [Sockets.Sockets] and
    [EpollProtocol.Epoll] do the same for start-up, file registration, the
    buffer ring, blocking socket calls and epoll.  [RefKernel], [Setup], [Sockets] and
    [EpollProtocol] also give reference instances that satisfy the laws;
    every theorem with hypotheses is applied on one of them to a concrete run.

    The programs are infinite loops that run concurrently with the kernel.
    [EventLoop] and [BatchLoop] are their control structures as step
    relations in which the kernel may complete a request between any two
    steps of the program; the invariants hold in every reachable state.

    ** Files and the code they model

    Shared: [Prelude] (machine integers, the monad, lists, permutations),
    [Uring] (entries, completions, classes and laws), [RefKernel], [Script]
    and [BatchScript] (reference kernels and scheduled runs on them),
    [EventLoop] and [BatchLoop] (the loops), [Libc] ([atoi], [strtol],
    [strtoull], [htons], [strcmp]), [Setup] (calls made before the loop), [Sockets]
    (blocking calls and their trace), [EpollProtocol] (laws of epoll, the
    echo protocol as an automaton), [Tables] (global arrays and their bounds),
    [Registration] and [Startup] (what the table-based servers do alike before
    their loops), [TableInv] (one request per descriptor, for any table),
    [BufRing] (the buffer ring shared with the kernel).

    - [ConnInfo]: [struct conn_info] and its packing into [user_data], in
      netpoll/echo/c-iouring-server/io_uring_echo_server.c and demo/io_op.c.
    - [EchoServer], [EchoInv], [EchoTheorems], [EchoTurn], [EchoMain]: the
      provided-buffers server, io_uring_echo_server.c: request builders,
      completion handler and loop; resource ownership; theorems on the handler
      and on a whole turn; [main] up to the loop.
    - [Options]: the [getopt] loop of the table-based servers.
    - [EchoV1], [EchoV1Inv], [EchoV1Main], [EchoV1Theorems]: the first
      table-based server, io_uring_echo_server_v1.c: builders, handler and loop
      over the tables [conns], [bufs] and [registered_files]; invariant;
      [main]; theorems.
    - [EchoV2], [EchoV2Inv], [EchoV2Main], [EchoV2Theorems]: the same for
      io_uring_echo_server_v2.c, which receives into a buffer ring.
    - [EchoV3], [EchoV3Inv], [EchoV3Main], [EchoV3Theorems]: the same for
      io_uring_echo_server_v3.c, with three tables and multishot polls.
    - [FileRing]: iouring/liburing.c: [push_read_request],
      [push_write_request], [pop_request], [queue_submit], [queue_init],
      [queue_exit] over a heap of allocations and a record of the calls to Go.
    - [BlockingDemo]: demo/tcp_send_recvmsg_echo_demo.c and
      demo/tcp_send_recvmsg_demo.c.
    - [EpollServer]: netpoll/echo/c-epoll-server/main.c.
    - [EpollEchoDemo]: demo/tcp_epoll_send_recvmsg_echo_demo.c.
    - [IoOp]: demo/io_op.c and io_op.h, the request builders of the ring-based
      demos, with the stack frames their message headers live in, and
      [create_server_socket].
    - [RingDemo], [RingDemoTheorems]:
      demo/tcp_iouring_send_recvmsg_echo_demo.c,
      demo/tcp_iouring_send_recvmsg_provide_buff_echo_demo.c and
      demo/tcp_iouring_send_recv_provide_buff_echo_demo.c.
    - [EpollRing], [EpollRingTheorems], [EpollRingMain]:
      demo/tcp_epoll_send_recvmsg_iouring_echo_demo.c, with the scope of its
      message headers and the reuse of completion entries; refinement of the
      protocol; start-up and a reference system.
    - [CoServer], [CoServerInv], [CoServerTheorems], [CoEquivalence],
      [CoServerMain]: the coroutine server
      netpoll/echo/cpp-coroutine-iouring-server/coroutine_io_uring_echo_server.cpp:
      awaitables, coroutine and completion handler; invariant; theorems;
      comparison with io_uring_echo_server.c; [main].
    - [BenchDemo], [BenchRun]: demo/bench.c.
    - [EventfdDemo]: demo/eventfd.c, two processes in any interleaving.
    - [HelloDemo]: demo/helloworld.c.

    ** What the theorems show

    - Provided-buffers server: each connection, each buffer but number 0 and
      the accept token has one owner in every reachable state, so sends do not
      share a buffer; no null submission entry while the connections fit the
      ring, no [-ENOBUFS] exit while a buffer is free; what each completion, and
      a whole turn of the loop, leads to; a receive that ends without reporting
      a buffer provides buffer 0 a second time; start-up establishes the initial
      state.
    - File ring: blocks partition the file; pop undoes push for reads and
      writes, heap included; a failed completion is never consumed; a failed
      allocation leaks.
    - [user_data] is a bijection; what [main] makes of every command line
      written with the documented options.
    - Version 1: one outstanding request per descriptor, the shared table
      describes it, buffers are exclusive; the handler is defined under stated
      conditions, and a failed accept and a long run break it; a reused
      registered descriptor is not registered again.
    - Version 2: the same discipline of requests; but messages are answered
      with bytes of a pointer table, and the buffers of the ring lose their
      numbers.
    - Version 3: the tables are truthful although the number of requests per
      connection is not bounded; a batch is handled without undefined
      behaviour, and a turn comes to its end and consumes its batch, under stated
      conditions; a receive may go into a buffer that is being sent.
    - Blocking and epoll programs: every run makes exactly the system calls of
      a protocol automaton; the epoll server never closes a descriptor.
    - Demo builders: the plain builders queue what they say; those with a
      [msghdr] leave a dangling pointer in the queue.
    - Ring-based demos: the two with message headers have no defined run in
      which a client is served.
    - Epoll demo with a ring: it refines the protocol of the epoll demo, and is
      undefined only where a wait has returned without a completion; the ring is
      empty between transfers, which makes its use of released completions
      harmless.
    - Coroutine server: the live coroutines are those of the outstanding
      requests, each suspended where it waits for its own; the handler is safe;
      while receives return data it queues the same requests as the C server
      for the same events; a failed receive is answered with a huge send.
    - Benchmark: a round neither loses a poll nor counts one twice, whatever
      calls fail.
    - Eventfd demo: the parent prints the sum of a prefix of the numbers; both
      processes end, unless all are 0.

    ** Bounds

    There is no fuel in the server loops: theorems quantify over the number
    of turns or over the reachable states of a step relation.  The benchmark's
    [do ... while] has fuel for concrete runs; its theorem is about one round,
    from any state with nothing queued.  Printing the decimal numbers of option
    strings ([Libc.dec_digits]) has fuel for the digits of a 31-bit number.
    Ring sizes are those [main] asks for, rounded up to a power of two as the
    kernel does (16384 entries for 10240), and the theorems are stated for any
    size the connections fit.

    ** Not modelled

    Calls that block for ever: the waits of a ring and the blocking socket
    calls are functions that return, so that what is proved of them is what
    holds when they return (the eventfd is modelled with its blocking);
    messages printed to the user; [workload] in _v2.c and _v3.c, which is never
    called; the contents of message buffers in the ring-based servers;
    exceptions of the C++ library other than those of [std::map::at]; the files
    demo/bounded_queue_mpmc.cc and demo/spinlock_rwlock.cc, which hold only a
    link; the Go and Rust servers, scripts and benchmark configurations, which
    are not C. *)

From stdpp Require Export base list gmap sets fin_maps.
From Stdlib Require Export ZArith Lia.

Open Scope Z_scope.

#[export] Set Warnings "-clear-no-such-hyp".

(** ** Machine integers

    A C integer of width [w] is a [Z]; a conversion between widths is the
    wrap-around the (two's complement) implementation performs. *)

Definition to_u8 (z : Z) : Z := z `mod` 2 ^ 8.
Definition to_u16 (z : Z) : Z := z `mod` 2 ^ 16.
Definition to_u32 (z : Z) : Z := z `mod` 2 ^ 32.
Definition to_u64 (z : Z) : Z := z `mod` 2 ^ 64.
Definition to_i32 (z : Z) : Z := (z + 2 ^ 31) `mod` 2 ^ 32 - 2 ^ 31.

Definition is_u16 (z : Z) : Prop := 0 <= z < 2 ^ 16.
Definition is_u32 (z : Z) : Prop := 0 <= z < 2 ^ 32.
Definition is_i32 (z : Z) : Prop := - 2 ^ 31 <= z < 2 ^ 31.
(** A descriptor the kernel hands out: a non-negative [int]. *)
Definition is_fd (z : Z) : Prop := 0 <= z < 2 ^ 31.

Create HintDb machine.

Lemma to_u16_id z : is_u16 z -> to_u16 z = z.
Proof. intros H. unfold to_u16. by apply Z.mod_small. Qed.

Lemma to_u32_id z : is_u32 z -> to_u32 z = z.
Proof. intros H. unfold to_u32. by apply Z.mod_small. Qed.

Lemma to_i32_id z : is_i32 z -> to_i32 z = z.
Proof.
  unfold is_i32, to_i32. intros H.
  rewrite Z.mod_small; lia.
Qed.

Lemma to_u16_range z : is_u16 (to_u16 z).
Proof. apply Z.mod_pos_bound. lia. Qed.

Lemma to_u32_range z : is_u32 (to_u32 z).
Proof. apply Z.mod_pos_bound. lia. Qed.

(** A descriptor stored in a [__u32] field and read back as an [int]. *)
Lemma fd_roundtrip fd : is_fd fd -> to_i32 (to_u32 fd) = fd.
Proof.
  unfold is_fd. intros H. rewrite to_u32_id; [apply to_i32_id|];
    unfold is_i32, is_u32; lia.
Qed.

Lemma is_fd_u32 fd : is_fd fd -> is_u32 fd.
Proof. unfold is_fd, is_u32. lia. Qed.

Lemma is_fd_i32 fd : is_fd fd -> is_i32 fd.
Proof. unfold is_fd, is_i32. lia. Qed.

#[export] Hint Resolve to_u16_range to_u32_range is_fd_u32 is_fd_i32 : machine.

(** ** Bytes of an integer, least significant first *)

Fixpoint le_bytes (n : nat) (z : Z) : list Z :=
  match n with
  | O => []
  | S n => z `mod` 256 :: le_bytes n (z / 256)
  end.

Fixpoint le_value (bs : list Z) : Z :=
  match bs with
  | [] => 0
  | b :: bs => b + 256 * le_value bs
  end.

Definition is_byte (b : Z) : Prop := 0 <= b < 256.

Lemma length_le_bytes n z : length (le_bytes n z) = n.
Proof. revert z. induction n; simpl; auto. Qed.

Lemma le_bytes_byte n z : Forall is_byte (le_bytes n z).
Proof.
  revert z. induction n as [|n IH]; intros z; simpl; constructor; [|apply IH].
  apply Z.mod_pos_bound. lia.
Qed.

Lemma le_value_bytes n z : le_value (le_bytes n z) = z `mod` 256 ^ Z.of_nat n.
Proof.
  revert z. induction n as [|n IH]; intros z.
  - simpl. by rewrite Z.mod_1_r.
  - cbn [le_bytes le_value]. rewrite IH, Nat2Z.inj_succ, Z.pow_succ_r by lia.
    rewrite Z.rem_mul_r; lia.
Qed.

Lemma le_value_range bs : Forall is_byte bs -> 0 <= le_value bs < 256 ^ Z.of_nat (length bs).
Proof.
  induction 1 as [|b bs Hb _ IH]; [done|]. unfold is_byte in Hb. cbn [length le_value].
  rewrite Nat2Z.inj_succ, Z.pow_succ_r by lia. lia.
Qed.

(** The bytes of a value above the first [n] do not matter. *)
Lemma le_bytes_mod n z : le_bytes n (z `mod` 256 ^ Z.of_nat n) = le_bytes n z.
Proof.
  revert z. induction n as [|n IH]; intros z; [done|]. cbn [le_bytes].
  rewrite Nat2Z.inj_succ, Z.pow_succ_r by lia.
  rewrite Z.rem_mul_r by lia. f_equal.
  - rewrite (Z.mul_comm 256), Z.mod_add by lia. apply Z.mod_mod. lia.
  - rewrite <- (IH (z / 256)). f_equal.
    rewrite Z.add_comm, (Z.mul_comm 256), Z.div_add_l by lia.
    rewrite (Z.div_small (z `mod` 256)) by (apply Z.mod_pos_bound; lia). lia.
Qed.

Lemma le_bytes_split n m z : le_bytes (n + m) z = le_bytes n z ++ le_bytes m (z / 256 ^ Z.of_nat n).
Proof.
  revert z. induction n as [|n IH]; intros z; [by rewrite Z.div_1_r|].
  cbn [Nat.add le_bytes app]. rewrite IH, Z.div_div by lia. do 4 f_equal.
  rewrite Nat2Z.inj_succ, Z.pow_succ_r by lia. done.
Qed.

Lemma le_bytes_value bs :
  Forall is_byte bs -> le_bytes (length bs) (le_value bs) = bs.
Proof.
  induction 1 as [|b bs Hb _ IH]; [done|]. unfold is_byte in Hb. cbn [length le_bytes le_value].
  rewrite (Z.mul_comm 256), Z.mod_add, Z.div_add, Z.mod_small, Z.div_small by lia.
  by rewrite Z.add_0_l, IH.
Qed.

(** ** Outcomes

    A C function either returns a value, terminates the process with
    [exit]/[return] from [main], or performs an operation the C standard
    leaves undefined (a NULL dereference, an out-of-bounds access). *)

Inductive outcome (S A : Type) : Type :=
| Ok (a : A) (s : S)
| Exit (code : Z) (s : S)
| Ub (s : S).

Arguments Ok {S A} a s.
Arguments Exit {S A} code s.
Arguments Ub {S A} s.

Definition M (S A : Type) : Type := S -> outcome S A.

#[export] Instance M_ret S : MRet (M S) := fun A a s => Ok a s.
#[export] Instance M_bind S : MBind (M S) := fun A B k m s =>
  match m s with
  | Ok a s' => k a s'
  | Exit code s' => Exit code s'
  | Ub s' => Ub s'
  end.

Definition exit_ {S A} (code : Z) : M S A := fun s => Exit code s.
Definition ub {S A} : M S A := fun s => Ub s.
Definition get {S} : M S S := fun s => Ok s s.
Definition modify {S} (f : S -> S) : M S unit := fun s => Ok tt (f s).

(** [for (i = 0; i < n; i++) body(i)] over the elements of a list. *)
Fixpoint for_each {S A} (body : A -> M S unit) (l : list A) : M S unit :=
  match l with
  | [] => mret tt
  | a :: l => body a ;; for_each body l
  end.

Definition final {S A} (o : outcome S A) : S :=
  match o with Ok _ s => s | Exit _ s => s | Ub s => s end.

Definition no_ub {S A} (o : outcome S A) : Prop :=
  match o with Ub _ => False | _ => True end.

Lemma bind_ok {S A B} (m : M S A) (k : A -> M S B) s a s' :
  m s = Ok a s' -> (m ≫= k) s = k a s'.
Proof. unfold mbind, M_bind. by intros ->. Qed.

Lemma bind_exit {S A B} (m : M S A) (k : A -> M S B) s code s' :
  m s = Exit code s' -> (m ≫= k) s = Exit code s'.
Proof. unfold mbind, M_bind. by intros ->. Qed.

Lemma bind_ub {S A B} (m : M S A) (k : A -> M S B) s s' :
  m s = Ub s' -> (m ≫= k) s = Ub s'.
Proof. unfold mbind, M_bind. by intros ->. Qed.

Lemma bind_assoc {S A B C} (m : M S A) (k : A -> M S B) (h : B -> M S C) s :
  ((m ≫= k) ≫= h) s = (m ≫= (fun a => k a ≫= h)) s.
Proof. unfold mbind, M_bind. by destruct (m s). Qed.

(** Inversion of a successful sequence. *)
Lemma bind_inv_ok {S A B} (m : M S A) (k : A -> M S B) s b s'' :
  (m ≫= k) s = Ok b s'' -> exists a s', m s = Ok a s' /\ k a s' = Ok b s''.
Proof. unfold mbind, M_bind. destruct (m s); naive_solver. Qed.

Lemma bind_no_ub {S A B} (m : M S A) (k : A -> M S B) s :
  no_ub (m s) -> (forall a s', m s = Ok a s' -> no_ub (k a s')) -> no_ub ((m ≫= k) s).
Proof. unfold mbind, M_bind. destruct (m s); simpl; auto. Qed.

(** The value a computation returns, without its state. *)
Definition returned {S A} (o : outcome S A) : option A :=
  match o with Ok a _ => Some a | _ => None end.

Lemma returns_final {S A} (o : outcome S A) a : returned o = Some a -> o = Ok a (final o).
Proof. by destruct o; intros [= ->]. Qed.

(** A predicate on states carried through a sequence: if [m] keeps [P]
    whatever its outcome and so does every continuation, so does the whole. *)
Lemma bind_final {S A B} (P : S -> Prop) (m : M S A) (k : A -> M S B) s :
  P (final (m s)) -> (forall a s', m s = Ok a s' -> P (final (k a s'))) ->
  P (final ((m ≫= k) s)).
Proof. unfold mbind, M_bind. destruct (m s); simpl; auto. Qed.

(** Computations that do not stop the process. *)
Definition no_exit {S A} (o : outcome S A) : Prop :=
  match o with Exit _ _ => False | _ => True end.
Definition never_exits {S A} (m : M S A) : Prop := forall s, no_exit (m s).

Lemma bind_no_exit {S A B} (m : M S A) (k : A -> M S B) s :
  no_exit (m s) -> (forall a s', m s = Ok a s' -> no_exit (k a s')) -> no_exit ((m ≫= k) s).
Proof. unfold mbind, M_bind. destruct (m s); simpl; auto. Qed.

Lemma never_exits_bind {S A B} (m : M S A) (k : A -> M S B) :
  never_exits m -> (forall a, never_exits (k a)) -> never_exits (m ≫= k).
Proof. intros Hm Hk s. apply bind_no_exit; [apply Hm|]. intros a s' _. apply Hk. Qed.

Lemma never_exits_if {S A} (b : bool) (m m' : M S A) :
  never_exits m -> never_exits m' -> never_exits (if b then m else m').
Proof. by destruct b. Qed.

(** What cannot stop the process and is not undefined returns. *)
Lemma returns_Ok {S A} (o : outcome S A) : no_exit o -> no_ub o -> exists a s', o = Ok a s'.
Proof. destruct o; simpl; eauto; done. Qed.

Create HintDb exits.
#[export] Hint Resolve never_exits_if : exits.
#[export] Hint Extern 2 (never_exits (_ ≫= _)) => apply never_exits_bind; [|intros ?] : exits.
#[export] Hint Extern 3 (never_exits _) => solve [intros ?; done] : exits.

(** A part of the state that a computation leaves alone when it returns. *)
Definition preserving {S X A} (f : S -> X) (m : M S A) : Prop :=
  forall s a s', m s = Ok a s' -> f s' = f s.

Lemma preserving_ret {S X A} (f : S -> X) (a : A) : preserving f (mret a : M S A).
Proof. by intros s b s' [= _ <-]. Qed.

Lemma preserving_exit {S X A} (f : S -> X) code : preserving f (exit_ code : M S A).
Proof. done. Qed.

Lemma preserving_ub {S X A} (f : S -> X) : preserving f (ub : M S A).
Proof. done. Qed.

Lemma preserving_bind {S X A B} (f : S -> X) (m : M S A) (k : A -> M S B) :
  preserving f m -> (forall a, preserving f (k a)) -> preserving f (m ≫= k).
Proof.
  intros Hm Hk s b s'' (a & s' & H1 & H2)%bind_inv_ok.
  rewrite (Hk _ _ _ _ H2). eauto.
Qed.

Lemma preserving_if {S X A} (f : S -> X) (b : bool) (m m' : M S A) :
  preserving f m -> preserving f m' -> preserving f (if b then m else m').
Proof. by destruct b. Qed.

Create HintDb frame.
#[export] Hint Resolve preserving_ret preserving_exit preserving_ub preserving_if : frame.
#[export] Hint Extern 2 (preserving _ (_ ≫= _)) => apply preserving_bind; [|intros ?] : frame.

(** Unfold one level of the monad. *)
Ltac mred := unfold mbind, M_bind, mret, M_ret, get, modify, exit_, ub; cbn beta iota.

(** ** Lists *)

Create HintDb lists.

Lemma list_filter_id {A} (P : A -> Prop) `{!forall x, Decision (P x)} (l : list A) :
  (forall x, x ∈ l -> P x) -> filter P l = l.
Proof.
  induction l as [|x l IH]; intros Hl; [done|]. rewrite filter_cons, decide_True by (apply Hl; left).
  f_equal. apply IH. intros y Hy. apply Hl. by right.
Qed.

Lemma list_bind_app {A B} (f : A -> list B) l k :
  (l ++ k) ≫= f = (l ≫= f) ++ (k ≫= f).
Proof. apply bind_app. Qed.

Lemma list_bind_snoc {A B} (f : A -> list B) l a :
  (l ++ [a]) ≫= f = (l ≫= f) ++ f a.
Proof. rewrite bind_app. simpl. by rewrite app_nil_r. Qed.

Lemma list_bind_middle {A B} (f : A -> list B) l a r :
  (l ++ a :: r) ≫= f ≡ₚ f a ++ ((l ++ r) ≫= f).
Proof. rewrite !bind_app, bind_cons. solve_Permutation. Qed.

Lemma list_bind_singletons {A B} (f : A -> B) l : l ≫= (fun a => [f a]) = f <$> l.
Proof. induction l as [|a l IH]; [done|]. by rewrite bind_cons, IH. Qed.

(** A list without the first occurrence of [x]. *)
Fixpoint remove_first `{EqDecision A} (x : A) (l : list A) : option (list A) :=
  match l with
  | [] => None
  | y :: l => if decide (x = y) then Some l else cons y <$> remove_first x l
  end.

Lemma remove_first_Some `{EqDecision A} (x : A) l k : remove_first x l = Some k -> l ≡ₚ x :: k.
Proof.
  revert k. induction l as [|y l IH]; simpl; intros k; [done|].
  case_decide; [by intros [= <-]; subst|].
  destruct (remove_first x l) as [k'|]; [|done]. intros [= <-].
  rewrite (IH k') by done. apply Permutation_swap.
Qed.

Lemma NoDup_of_submseteq {A} (l k : list A) : l ⊆+ k -> NoDup k -> NoDup l.
Proof.
  intros Hs Hn. apply submseteq_Permutation in Hs as [r Hr].
  rewrite Hr in Hn. by apply NoDup_app in Hn as [? _].
Qed.
