(* ===== verification/Uring.v ===== *)
(** * The io_uring interface the servers program against

    liburing (a git submodule) and the Linux kernel are not part of the
    repository.  Their data structures, as far as the C sources write or read
    them, are the records [sqe] and [cqe]; their operations are the classes
    [Liburing] and [Kernel], which every definition of the development takes
    as an argument.  What the manual pages promise about those operations is
    stated by the classes [LiburingOk] and [KernelOk]; theorems that need it
    name it.  [RefKernel.v] gives an instance of all four. *)

From S2P Require Import Prelude.

(** ** ABI constants used by the sources (uapi/linux/io_uring.h, errno.h) *)

Definition IOSQE_FIXED_FILE : Z := 1.
Definition IOSQE_BUFFER_SELECT : Z := 2 ^ 5.
Definition IORING_CQE_F_BUFFER : Z := 1.
Definition IORING_CQE_F_MORE : Z := 2.
Definition IORING_POLL_ADD_MULTI : Z := 1.
Definition IORING_CQE_BUFFER_SHIFT : Z := 16.
Definition ENOBUFS : Z := 105.
Definition EFAULT : Z := 14.
Definition EMSGSIZE : Z := 90.
Definition EINVAL : Z := 22.
Definition EAGAIN : Z := 11.

(** ** Submission and completion entries

    [A] is the type of the addresses a program passes to the kernel and [U]
    what it stores in the 64-bit [user_data] field.  [io_op] records which
    [io_uring_prep_*] function prepared an entry, with its arguments. *)

Inductive io_op (A : Type) : Type :=
| OpAccept (fd : Z) (addr addrlen : A) (flags : Z)
| OpRecv (fd : Z) (buf : A) (len flags : Z)
| OpSend (fd : Z) (buf : A) (len flags : Z)
| OpRecvmsg (fd : Z) (msg : A) (flags : Z)
| OpSendmsg (fd : Z) (msg : A) (flags : Z)
| OpProvideBuffers (addr : A) (len nr bgid bid : Z)
| OpPollAdd (fd mask : Z)
| OpReadv (fd : Z) (iovecs : A) (nr_vecs offset : Z)
| OpWritev (fd : Z) (iovecs : A) (nr_vecs offset : Z)
| OpWrite (fd : Z) (buf : A) (nbytes offset : Z).

Arguments OpAccept {A}.
Arguments OpRecv {A}.
Arguments OpSend {A}.
Arguments OpRecvmsg {A}.
Arguments OpSendmsg {A}.
Arguments OpProvideBuffers {A}.
Arguments OpPollAdd {A}.
Arguments OpReadv {A}.
Arguments OpWritev {A}.
Arguments OpWrite {A}.

Record sqe (A U : Type) : Type := Sqe {
  sqe_op : io_op A;
  sqe_flags : Z;
  sqe_len : Z;
  sqe_buf_group : Z;
  sqe_user_data : U
}.

Arguments Sqe {A U}.
Arguments sqe_op {A U}.
Arguments sqe_flags {A U}.
Arguments sqe_len {A U}.
Arguments sqe_buf_group {A U}.
Arguments sqe_user_data {A U}.

Record cqe (U : Type) : Type := Cqe {
  cqe_user_data : U;
  cqe_res : Z;
  cqe_flags : Z
}.

Arguments Cqe {U}.
Arguments cqe_user_data {U}.
Arguments cqe_res {U}.
Arguments cqe_flags {U}.

(** Direct assignments to fields of an entry: [sqe->flags |= f],
    [sqe->buf_group = g], [sqe->len = n], [memcpy(&sqe->user_data, ...)]. *)
Definition sqe_or_flags {A U} (f : Z) (e : sqe A U) : sqe A U :=
  Sqe (sqe_op e) (Z.lor (sqe_flags e) f) (sqe_len e) (sqe_buf_group e) (sqe_user_data e).
Definition sqe_put_buf_group {A U} (g : Z) (e : sqe A U) : sqe A U :=
  Sqe (sqe_op e) (sqe_flags e) (sqe_len e) (to_u16 g) (sqe_user_data e).
Definition sqe_put_len {A U} (n : Z) (e : sqe A U) : sqe A U :=
  Sqe (sqe_op e) (sqe_flags e) n (sqe_buf_group e) (sqe_user_data e).
Definition sqe_put_user_data {A U} (u : U) (e : sqe A U) : sqe A U :=
  Sqe (sqe_op e) (sqe_flags e) (sqe_len e) (sqe_buf_group e) u.

(** ** liburing's user-side functions

    [lib_get_sqe q] is [io_uring_get_sqe] when the entries of [q] have been
    handed out and not submitted: a vacant entry with whatever it last held,
    or NULL.  [lib_prep] stands for the family [io_uring_prep_*]. *)

Class Liburing (A U : Type) : Type := {
  lib_get_sqe : list (sqe A U) -> option (sqe A U);
  lib_prep : io_op A -> sqe A U -> sqe A U;
  lib_set_flags : Z -> sqe A U -> sqe A U
}.

(** io_uring_get_sqe(3): a vacant entry, NULL when the ring of [entries]
    entries is full.  io_uring_prep_*(3): the entry describes the operation
    and carries no flags.  io_uring_sqe_set_flags(3): overwrites the flags. *)
Class LiburingOk (A U : Type) `{!Liburing A U} (entries : nat) : Prop := {
  get_sqe_room q : (length q < entries)%nat -> is_Some (lib_get_sqe q);
  get_sqe_full q : (entries <= length q)%nat -> lib_get_sqe q = None;
  prep_op o e : sqe_op (lib_prep o e) = o;
  prep_flags o e : sqe_flags (lib_prep o e) = 0;
  set_flags_flags f e : sqe_flags (lib_set_flags f e) = f;
  set_flags_op f e : sqe_op (lib_set_flags f e) = sqe_op e;
  set_flags_group f e : sqe_buf_group (lib_set_flags f e) = sqe_buf_group e
}.

(** ** The kernel's side

    What a program can learn about a kernel state [k]: the requests in
    flight, the completions posted and not yet consumed, the identifiers of
    the buffers available in each buffer group, and the descriptors that
    [accept] returned and that have not been closed since. *)

Class KernelView (A U K : Type) : Type := {
  k_inflight : K -> list (sqe A U);
  k_cq : K -> list (cqe U);
  k_group : K -> Z -> list Z;
  k_conns : K -> list Z
}.

(** What it can ask of it. *)
Class Kernel (A U K : Type) : Type := {
  kernel_view :: KernelView A U K;
  (** [io_uring_submit_and_wait]: the entries not yet submitted, how many
      completions to wait for (none: [io_uring_submit]); the return value,
      the number of entries consumed, the state on return. *)
  k_submit : list (sqe A U) -> nat -> K -> Z * nat * K;
  (** [io_uring_cq_advance] *)
  k_cq_advance : nat -> K -> K;
  (** [io_uring_wait_cqe]: return value and state once it has returned. *)
  k_wait : K -> Z * K;
  k_close : Z -> K -> Z * K;
  k_shutdown : Z -> Z -> K -> Z * K;
  (** One request completes and its completion is posted. *)
  k_post : K -> K -> Prop
}.

Section kernel_laws.
Context {A U K : Type} `{!KernelView A U K}.

(** Which descriptors and buffer groups a completion changes. *)
Definition same_conns (k k' : K) : Prop := k_conns k' = k_conns k.
Definition same_groups (k k' : K) : Prop := forall g, k_group k' g = k_group k g.

(** accept(2): a descriptor that is not open, or a negative error. *)
Definition accept_completes (c : cqe U) (k k' : K) : Prop :=
  same_groups k k' /\
  ((is_fd (cqe_res c) /\ (cqe_res c ∉ k_conns k) /\ k_conns k' = (cqe_res c :: k_conns k)) \/
   (cqe_res c < 0 /\ same_conns k k')).

(** io_uring_prep_provide_buffers(3): [nr] buffers numbered from [bid] join
    group [g], or a negative error. *)
Definition provide_completes (g bid nr : Z) (c : cqe U) (k k' : K) : Prop :=
  same_conns k k' /\
  ((0 <= cqe_res c /\ k_group k' g ≡ₚ (k_group k g ++ seqZ bid nr) /\
    forall g', g' <> g -> k_group k' g' = k_group k g') \/
   (cqe_res c < 0 /\ same_groups k k')).

(** The completion reports the buffer [bid]: io_uring_enter(2),
    IOSQE_BUFFER_SELECT. *)
Definition reports_buffer (c : cqe U) (bid : Z) : Prop :=
  is_u16 bid /\
  cqe_flags c = Z.lor IORING_CQE_F_BUFFER (Z.shiftl bid IORING_CQE_BUFFER_SHIFT).

(** [cqe->flags >> 16] recovers the buffer id. *)
Lemma shiftr_reported (c : cqe U) bid :
  reports_buffer c bid -> Z.shiftr (cqe_flags c) 16 = bid.
Proof.
  intros [Hb ->]. unfold IORING_CQE_F_BUFFER, IORING_CQE_BUFFER_SHIFT.
  rewrite Z.shiftr_lor, Z.shiftr_shiftl_l by lia.
  by rewrite Z.sub_diag, Z.shiftl_0_r.
Qed.

(** A receive with buffer selection from group [g] takes a buffer out of the
    group and reports it; or it fails with [-ENOBUFS] because the group is
    empty; or it fails or sees end of file without keeping a buffer, and
    reports none. *)
Definition select_completes (g : Z) (c : cqe U) (k k' : K) : Prop :=
  same_conns k k' /\ (forall g', g' <> g -> k_group k' g' = k_group k g') /\
  ((exists bid, reports_buffer c bid /\ cqe_res c <> - ENOBUFS /\
      k_group k g ≡ₚ (bid :: k_group k' g)) \/
   (cqe_res c = - ENOBUFS /\ k_group k g = [] /\ k_group k' g = [] /\ cqe_flags c = 0) \/
   (cqe_res c <= 0 /\ cqe_res c <> - ENOBUFS /\ k_group k' g = k_group k g /\ cqe_flags c = 0)).

Definition has_flag (f x : Z) : bool := negb (Z.land f x =? 0).

Definition completes (e : sqe A U) (c : cqe U) (k k' : K) : Prop :=
  match sqe_op e with
  | OpAccept _ _ _ _ => accept_completes c k k'
  | OpProvideBuffers _ _ nr g bid => provide_completes g bid nr c k k'
  | OpRecv _ _ _ _ | OpRecvmsg _ _ _ =>
      if has_flag (sqe_flags e) IOSQE_BUFFER_SELECT
      then select_completes (sqe_buf_group e) c k k'
      else same_conns k k' /\ same_groups k k'
  | _ => same_conns k k' /\ same_groups k k'
  end.

(** One request leaves the in-flight set and its completion, with the same
    [user_data], joins the completion queue. *)
Definition posts (k k' : K) (e : sqe A U) (c : cqe U) : Prop :=
  k_inflight k ≡ₚ (e :: k_inflight k') /\
  k_cq k' = k_cq k ++ [c] /\
  cqe_user_data c = sqe_user_data e /\
  is_i32 (cqe_res c) /\
  completes e c k k'.

(** The two states of a posting determine the request and its completion. *)
Lemma posts_functional (k k' : K) e c e' c' :
  posts k k' e c -> posts k k' e' c' -> e' = e /\ c' = c.
Proof.
  intros (Hin & Hcq & _) (Hin' & Hcq' & _). split.
  - rewrite Hin in Hin'. apply (Permutation_app_inv_r (k_inflight k') [e] [e']) in Hin'.
    by apply Permutation_length_1 in Hin'.
  - rewrite Hcq in Hcq'. by apply app_inj_2 in Hcq' as [_ [= ->]].
Qed.

(** io_uring_prep_poll_multishot(3): a poll whose [len] carries
    IORING_POLL_ADD_MULTI stays in flight when it completes, as long as its
    completions carry IORING_CQE_F_MORE. *)
Definition is_multishot (e : sqe A U) : Prop :=
  (exists fd mask, sqe_op e = OpPollAdd fd mask) /\
  has_flag (sqe_len e) IORING_POLL_ADD_MULTI = true.

Definition posts_more (k k' : K) (e : sqe A U) (c : cqe U) : Prop :=
  is_multishot e /\ e ∈ k_inflight k /\
  k_inflight k' = k_inflight k /\
  k_cq k' = k_cq k ++ [c] /\
  cqe_user_data c = sqe_user_data e /\
  is_i32 (cqe_res c) /\
  has_flag (cqe_flags c) IORING_CQE_F_MORE = true /\
  same_conns k k' /\ same_groups k k'.

(** The requests [l] are queued in flight, nothing else changes. *)
Definition queues (l : list (sqe A U)) (k k' : K) : Prop :=
  k_inflight k' = k_inflight k ++ l /\ k_cq k' = k_cq k /\
  same_conns k k' /\ same_groups k k'.

End kernel_laws.

(** What the manual pages promise of the calls: submission moves a prefix of
    the entries in flight, after which requests may complete; advancing
    consumes completions; waiting lets requests complete; closing frees one
    descriptor. *)
Class KernelCalls (A U K : Type) `{!Kernel A U K} : Prop := {
  submit_spec q w k : let '(ret, n, k') := k_submit q w k in
    (exists k1, queues (take n q) k k1 /\ rtc k_post k1 k') /\
    (0 <= ret -> (w <= length (k_cq k'))%nat);
  advance_cq n k : k_cq (k_cq_advance n k) = drop n (k_cq k);
  advance_frame n k : k_inflight (k_cq_advance n k) = k_inflight k /\
    same_conns k (k_cq_advance n k) /\ same_groups k (k_cq_advance n k);
  wait_spec k : let '(ret, k') := k_wait k in
    rtc k_post k k' /\ ret <= 0 /\ (ret = 0 -> k_cq k' <> []);
  close_spec fd k : let '(_, k') := k_close fd k in
    k_inflight k' = k_inflight k /\ k_cq k' = k_cq k /\ same_groups k k' /\
    k_conns k' = filter (fun x => x <> fd) (k_conns k);
  shutdown_spec fd how k : let '(_, k') := k_shutdown fd how k in
    k_inflight k' = k_inflight k /\ k_cq k' = k_cq k /\
    same_conns k k' /\ same_groups k k'
}.

(** What they promise of completions, for a program all of whose requests
    are single-shot: each request completes at most once. *)
Class KernelOk (A U K : Type) `{!Kernel A U K} : Prop := {
  kernel_calls :: KernelCalls A U K;
  post_spec k k' : k_post k k' -> exists e c, posts k k' e c
}.

Section single_shot.
Context {A U K : Type} `{!Kernel A U K} `{!KernelOk A U K}.

(** With nothing in flight nothing completes, with one request at most that. *)
Lemma posts_none (k k' : K) : k_inflight k = [] -> rtc k_post k k' -> k' = k.
Proof.
  intros Hk. destruct 1 as [|k k1 k' H1 _]; [done|].
  destruct (post_spec _ _ H1) as (e & c & Hp & _). rewrite Hk in Hp.
  by apply Permutation_nil_l in Hp.
Qed.

Lemma posts_single (k k' : K) e :
  k_inflight k = [e] -> rtc k_post k k' ->
  k' = k \/ (exists c, k_post k k' /\ posts k k' e c /\ k_inflight k' = []).
Proof.
  intros Hk. destruct 1 as [|k k1 k' H1 H2]; [by left|]. right.
  destruct (post_spec _ _ H1) as (e' & c & Hp). pose proof Hp as (Hin & _).
  rewrite Hk in Hin. apply Permutation_singleton_l in Hin as [= He' Hnil].
  symmetry in Hnil. apply posts_none in H2 as ->; [|done]. exists c. by rewrite He'.
Qed.

(** One request on an empty ring, submitted and waited for: nothing has
    completed, or the request has, and it is the only one. *)
Lemma one_request (e : sqe A U) (k k1 k2 : K) ret n w :
  k_inflight k = [] -> k_cq k = [] -> k_submit [e] 0 k = (ret, n, k1) -> k_wait k1 = (w, k2) ->
  k_cq k2 = [] \/
  (exists k0 c, drop n [e] = [] /\ queues [e] k k0 /\ k_post k0 k2 /\ posts k0 k2 e c /\
     k_cq k2 = [c] /\ k_inflight k2 = []).
Proof.
  intros Hinf Hcq H1 H2. pose proof (submit_spec [e] 0 k) as Hs. rewrite H1 in Hs.
  destruct Hs as [(k0 & Hq & Hp) _]. pose proof (wait_spec k1) as Hw. rewrite H2 in Hw. destruct Hw as [Hp' _].
  assert (Hall : rtc k_post k0 k2) by (by etrans). pose proof Hq as (Hi0 & Hc0 & _). rewrite Hinf in Hi0. rewrite Hcq in Hc0.
  destruct n as [|n]; simpl in Hi0.
  { left. by apply posts_none in Hall as ->. }
  assert (Ht : take (S n) [e] = [e]) by (by destruct n). rewrite take_nil in Hi0. rewrite Ht in Hq.
  apply (posts_single _ _ e) in Hall as [->|(c & Hpost & Hps & Hi2)]; [by left| |done]. right. exists k0, c.
  pose proof Hps as (_ & Hc2 & _). rewrite Hc0 in Hc2. split; [by destruct n|]. done.
Qed.

End single_shot.

(** For a program with multishot polls: as before, or a multishot request
    posts and stays in flight. *)
Class MultishotOk (A U K : Type) `{!Kernel A U K} : Prop := {
  multishot_calls :: KernelCalls A U K;
  multi_post_spec k k' : k_post k k' -> exists e c, posts k k' e c \/ posts_more k k' e c
}.

(** What a server relies on beyond that: [accept] does not return the
    listening descriptor [lfd], which is open (accept(2)); a receive returns at
    most as many bytes as were asked for (recv(2)). *)
Class SocketsOk {A U K : Type} `{!Kernel A U K} (lfd : Z) : Prop := {
  accept_fresh (k k' : K) e c fd a l fl :
    k_post k k' -> posts k k' e c -> sqe_op e = OpAccept fd a l fl -> cqe_res c <> lfd;
  recv_within (k k' : K) e c fd b n fl :
    k_post k k' -> posts k k' e c -> sqe_op e = OpRecv fd b n fl -> 0 <= n -> cqe_res c <= n
}.

(** ** Programs over a ring

    The state of a single-threaded program that owns one ring: the entries
    it obtained and has not submitted, the kernel, and its own memory.  A
    [struct io_uring_sqe *] is a position in [rs_sq]; [None] is NULL, and
    every access through it is undefined. *)

Record rstate (A U K Mem : Type) : Type := RState {
  rs_sq : list (sqe A U);
  rs_kern : K;
  rs_mem : Mem
}.

Arguments RState {A U K Mem}.
Arguments rs_sq {A U K Mem}.
Arguments rs_kern {A U K Mem}.
Arguments rs_mem {A U K Mem}.

Section ring_programs.
Context {A U K Mem : Type} `{!Liburing A U} `{!Kernel A U K}.

Local Abbreviation st := (rstate A U K Mem).

Definition put_sq (q : list (sqe A U)) (s : st) : st := RState q (rs_kern s) (rs_mem s).
Definition put_kern (k : K) (s : st) : st := RState (rs_sq s) k (rs_mem s).
Definition put_mem (m : Mem) (s : st) : st := RState (rs_sq s) (rs_kern s) m.

(** One more entry at the end of the submission queue. *)
Definition push_sqe (e : sqe A U) (s : st) : st := put_sq (rs_sq s ++ [e]) s.

Definition io_uring_get_sqe : M st (option nat) := fun s =>
  match lib_get_sqe (rs_sq s) with
  | Some e => Ok (Some (length (rs_sq s))) (push_sqe e s)
  | None => Ok None s
  end.

(** A store through a [struct io_uring_sqe *]. *)
Definition sqe_update (p : option nat) (f : sqe A U -> sqe A U) : M st unit := fun s =>
  match p with
  | None => Ub s
  | Some i => match rs_sq s !! i with
              | Some e => Ok tt (put_sq (<[i := f e]> (rs_sq s)) s)
              | None => Ub s
              end
  end.

Definition io_uring_prep (p : option nat) (o : io_op A) : M st unit := sqe_update p (lib_prep o).
Definition io_uring_sqe_set_flags (p : option nat) (f : Z) : M st unit :=
  sqe_update p (lib_set_flags f).

(** [io_uring_sqe_set_data] and [memcpy(&sqe->user_data, ...)]. *)
Definition set_user_data (p : option nat) (u : U) : M st unit :=
  sqe_update p (sqe_put_user_data u).

Definition io_uring_submit_and_wait (wait_nr : nat) : M st Z := fun s =>
  let '(ret, n, k) := k_submit (rs_sq s) wait_nr (rs_kern s) in
  Ok ret (put_sq (drop n (rs_sq s)) (put_kern k s)).

Definition io_uring_submit : M st Z := io_uring_submit_and_wait 0.

(** The return value and the entry at the head of the queue. *)
Definition io_uring_wait_cqe : M st (Z * option (cqe U)) := fun s =>
  let '(ret, k) := k_wait (rs_kern s) in
  Ok (ret, head (k_cq k)) (put_kern k s).

Definition io_uring_cq_advance (n : nat) : M st unit :=
  modify (fun s => put_kern (k_cq_advance n (rs_kern s)) s).
Definition io_uring_cqe_seen : M st unit := io_uring_cq_advance 1.

Definition close (fd : Z) : M st Z := fun s =>
  let '(ret, k) := k_close fd (rs_kern s) in Ok ret (put_kern k s).
Definition shutdown (fd how : Z) : M st Z := fun s =>
  let '(ret, k) := k_shutdown fd how (rs_kern s) in Ok ret (put_kern k s).

(** None of the calls on the ring stops the process. *)
Lemma get_sqe_never_exits : never_exits io_uring_get_sqe.
Proof. intros s. unfold io_uring_get_sqe. by destruct (lib_get_sqe _). Qed.

Lemma sqe_update_never_exits p f : never_exits (sqe_update p f).
Proof. intros s. unfold sqe_update. destruct p as [i|]; [|done]. by destruct (rs_sq s !! i). Qed.

Lemma cq_advance_never_exits n : never_exits (io_uring_cq_advance n).
Proof. done. Qed.

Lemma close_never_exits fd : never_exits (close fd).
Proof. intros s. unfold close. by destruct (k_close _ _). Qed.

Lemma shutdown_never_exits fd how : never_exits (shutdown fd how).
Proof. intros s. unfold shutdown. by destruct (k_shutdown _ _ _). Qed.

(** Preparing requests and closing descriptors leave the completion queue
    alone. *)
Definition cq_of (s : st) : list (cqe U) := k_cq (rs_kern s).

Lemma get_sqe_cq : preserving cq_of io_uring_get_sqe.
Proof. intros s a s'. unfold io_uring_get_sqe. by destruct (lib_get_sqe _); intros [= _ <-]. Qed.

Lemma sqe_update_cq p f : preserving cq_of (sqe_update p f).
Proof. intros s a s'. unfold sqe_update. by repeat case_match; intros [= _ <-]. Qed.

Lemma close_cq `{!KernelCalls A U K} fd : preserving cq_of (close fd).
Proof.
  intros s a s'. unfold close. pose proof (close_spec fd (rs_kern s)) as Hc.
  destruct (k_close _ _) as [r k]. intros [= _ <-]. apply Hc.
Qed.

Lemma shutdown_cq `{!KernelCalls A U K} fd how : preserving cq_of (shutdown fd how).
Proof.
  intros s a s'. unfold shutdown. pose proof (shutdown_spec fd how (rs_kern s)) as Hc.
  destruct (k_shutdown _ _ _) as [r k]. intros [= _ <-]. apply Hc.
Qed.

(** Queue one entry, or fault when the ring has none left. *)
Definition queue_one (f : sqe A U -> sqe A U) : M st unit := fun s =>
  match lib_get_sqe (rs_sq s) with
  | Some e => Ok tt (push_sqe (f e) s)
  | None => Ub s
  end.

(** The shape all request builders share: obtain an entry, then fill it.  The
    pointer is NULL exactly when [lib_get_sqe] finds the ring full, and then
    the first store is undefined. *)
Lemma get_sqe_fill (f : sqe A U -> sqe A U) (k : option nat -> M st unit) s :
  (forall i t e, rs_sq t !! i = Some e ->
     k (Some i) t = Ok tt (put_sq (<[i := f e]> (rs_sq t)) t)) ->
  (forall t, k None t = Ub t) ->
  (io_uring_get_sqe ≫= k) s = queue_one f s.
Proof.
  intros Hsome Hnone. unfold mbind, M_bind, io_uring_get_sqe, queue_one.
  destruct (lib_get_sqe (rs_sq s)) as [e|]; [|apply Hnone].
  rewrite (Hsome _ _ e); simpl.
  - rewrite insert_app_r_alt by lia. by rewrite Nat.sub_diag.
  - rewrite lookup_app_r by lia. by rewrite Nat.sub_diag.
Qed.

(** The state in which the entry at [i] reads [e]. *)
Definition put_entry (i : nat) (e : sqe A U) (t : st) : st :=
  put_sq (<[i := e]> (rs_sq t)) t.

Lemma put_entry_id i e (t : st) : rs_sq t !! i = Some e -> put_entry i e t = t.
Proof. intros He. unfold put_entry. rewrite list_insert_id by done. by destruct t. Qed.

(** Successive stores through one pointer. *)
Lemma sqe_update_entry i f e e0 (t : st) :
  rs_sq t !! i = Some e0 ->
  sqe_update (Some i) f (put_entry i e t) = Ok tt (put_entry i (f e) t).
Proof.
  intros He. unfold sqe_update, put_entry; simpl.
  rewrite list_lookup_insert_eq by (by eapply lookup_lt_Some).
  by rewrite list_insert_insert_eq.
Qed.

(** The same for a builder that returns something. *)
Lemma get_sqe_fill_ret {X} (f : sqe A U -> sqe A U) (x : X) (k : option nat -> M st X) s :
  (forall i t e, rs_sq t !! i = Some e -> k (Some i) t = Ok x (put_entry i (f e) t)) ->
  (forall t, k None t = Ub t) ->
  (io_uring_get_sqe ≫= k) s = (queue_one f ;; mret x) s.
Proof.
  intros Hsome Hnone. unfold mbind, M_bind, io_uring_get_sqe, queue_one.
  destruct (lib_get_sqe (rs_sq s)) as [e|]; [|apply Hnone].
  rewrite (Hsome _ _ e); simpl; unfold put_entry; simpl.
  - rewrite insert_app_r_alt by lia. by rewrite Nat.sub_diag.
  - rewrite lookup_app_r by lia. by rewrite Nat.sub_diag.
Qed.

(** A builder that also writes memory: it fills the entry it obtained as [f]
    says and updates the memory as [upd] says, undefined where [upd] is. *)
Definition builds (f : sqe A U -> sqe A U) (upd : Mem -> option Mem) (s : st) (out : outcome st unit) : Prop :=
  exists t, out =
    match lib_get_sqe (rs_sq s), upd (rs_mem s) with
    | Some e, Some m => Ok tt (put_mem m (push_sqe (f e) s))
    | _, _ => Ub t
    end.

(** From the part of the builder that follows [io_uring_get_sqe]. *)
Lemma get_sqe_builds f upd (k : option nat -> M st unit) s :
  (forall i t e, rs_sq t !! i = Some e -> rs_mem t = rs_mem s -> exists t', k (Some i) t =
     match upd (rs_mem t) with
     | Some m => Ok tt (put_entry i (f e) (put_mem m t))
     | None => Ub t'
     end) ->
  (exists t, k None s = Ub t) ->
  builds f upd s ((io_uring_get_sqe ≫= k) s).
Proof.
  intros Hsome [t Hnone]. unfold builds, mbind, M_bind, io_uring_get_sqe.
  destruct (lib_get_sqe (rs_sq s)) as [e|]; [|by exists t].
  destruct (Hsome (length (rs_sq s)) (push_sqe e s) e) as [t' Ht]; [|done|].
  { simpl. rewrite lookup_app_r by lia. by rewrite Nat.sub_diag. }
  exists t'. rewrite Ht. simpl. destruct (upd (rs_mem s)); [|done].
  unfold put_entry, push_sqe; simpl. rewrite insert_app_r_alt by lia. by rewrite Nat.sub_diag.
Qed.

(** A builder that returned. *)
Lemma builds_inv f upd (s s' : st) :
  builds f upd s (Ok tt s') -> exists e m, upd (rs_mem s) = Some m /\ s' = put_mem m (push_sqe (f e) s).
Proof.
  intros [t Ht]. destruct (lib_get_sqe _) as [e|]; [|done]. destruct (upd _) as [m|]; [|done].
  injection Ht as ->. eauto.
Qed.

(** One that must return. *)
Lemma builds_total {entries} `{!LiburingOk A U entries} f upd m (s : st) out :
  builds f upd s out -> (length (rs_sq s) < entries)%nat -> upd (rs_mem s) = Some m ->
  exists e, out = Ok tt (put_mem m (push_sqe (f e) s)).
Proof. intros [t ->] Hroom ->. destruct (get_sqe_room _ Hroom) as [e ->]. eauto. Qed.

End ring_programs.

#[export] Hint Resolve get_sqe_cq sqe_update_cq close_cq shutdown_cq : frame.
#[export] Hint Resolve get_sqe_never_exits sqe_update_never_exits cq_advance_never_exits
  close_never_exits shutdown_never_exits : exits.

(** Proves the specification of a request builder from its body: the entry it
    leaves in the queue is [f] applied to the vacant one. *)
Ltac fill_sqe f :=
  apply (get_sqe_fill f); [|reflexivity];
  let i := fresh "i" in let t := fresh "t" in let e := fresh "e" in let He := fresh "He" in
  intros i t e He; rewrite <- (put_entry_id i e t He) at 1;
  unfold io_uring_prep, io_uring_sqe_set_flags, set_user_data;
  repeat (erewrite bind_ok by (eapply sqe_update_entry; exact He));
  erewrite sqe_update_entry by exact He; reflexivity.

Ltac fill_sqe_ret f x :=
  apply (get_sqe_fill_ret f x); [|reflexivity];
  let i := fresh "i" in let t := fresh "t" in let e := fresh "e" in let He := fresh "He" in
  intros i t e He; rewrite <- (put_entry_id i e t He) at 1;
  unfold io_uring_prep, io_uring_sqe_set_flags, set_user_data;
  repeat (erewrite bind_ok by (eapply sqe_update_entry; exact He)); reflexivity.
