(* ===== verification/ConnInfo.v ===== *)
(** * [struct conn_info] and the [user_data] word

    [io_uring_echo_server.c] and [demo/io_op.c] keep the state of a request
    in the 64-bit [user_data] field itself: [memcpy] copies the eight bytes of
    a [conn_info] into it, and out of it when the request completes. *)

From S2P Require Import Prelude.

Record conn_info : Type := ConnInfo {
  ci_fd : Z;    (* __u32 *)
  ci_type : Z;  (* __u16 *)
  ci_bid : Z    (* __u16 *)
}.

#[export] Instance conn_info_eq_dec : EqDecision conn_info.
Proof. solve_decision. Defined.

Definition conn_info_ok (c : conn_info) : Prop :=
  is_u32 (ci_fd c) /\ is_u16 (ci_type c) /\ is_u16 (ci_bid c).

(** A designated initialiser: the operands convert to the field widths. *)
Definition mk_conn_info (fd type bid : Z) : conn_info :=
  ConnInfo (to_u32 fd) (to_u16 type) (to_u16 bid).

(** The object representation: fields at offsets 0, 4 and 6, each least
    significant byte first, no padding. *)
Definition conn_info_bytes (c : conn_info) : list Z :=
  le_bytes 4 (ci_fd c) ++ le_bytes 2 (ci_type c) ++ le_bytes 2 (ci_bid c).

Definition conn_info_of_bytes (bs : list Z) : conn_info :=
  ConnInfo (le_value (take 4 bs)) (le_value (take 2 (drop 4 bs))) (le_value (take 2 (drop 6 bs))).

(** [memcpy(&sqe->user_data, &conn_i, sizeof(conn_i))] *)
Definition user_data_of_conn_info (c : conn_info) : Z := le_value (conn_info_bytes c).

(** [memcpy(&conn_i, &cqe->user_data, sizeof(conn_i))] *)
Definition conn_info_of_user_data (u : Z) : conn_info := conn_info_of_bytes (le_bytes 8 u).

Lemma mk_conn_info_ok fd type bid : conn_info_ok (mk_conn_info fd type bid).
Proof. unfold conn_info_ok; simpl. auto with machine. Qed.

Lemma conn_info_of_bytes_bytes c : conn_info_ok c -> conn_info_of_bytes (conn_info_bytes c) = c.
Proof.
  destruct c as [fd type bid]. intros (Hf & Ht & Hb); simpl in *.
  unfold conn_info_of_bytes, conn_info_bytes; cbn [ci_fd ci_type ci_bid].
  rewrite take_app_length', drop_app_length', take_app_length'
    by (rewrite ?length_app, ?length_le_bytes; done).
  rewrite (app_assoc (le_bytes 4 fd)), drop_app_length', take_ge
    by (rewrite ?length_app, ?length_le_bytes; done).
  rewrite !le_value_bytes. unfold is_u32, is_u16 in *.
  f_equal; apply Z.mod_small; simpl; lia.
Qed.

Lemma conn_info_bytes_ok c : Forall is_byte (conn_info_bytes c).
Proof. unfold conn_info_bytes. rewrite !Forall_app. auto using le_bytes_byte. Qed.

Lemma length_conn_info_bytes c : length (conn_info_bytes c) = 8%nat.
Proof. done. Qed.

Lemma user_data_roundtrip c :
  conn_info_ok c -> conn_info_of_user_data (user_data_of_conn_info c) = c.
Proof.
  intros Hc. unfold conn_info_of_user_data, user_data_of_conn_info.
  rewrite <- (length_conn_info_bytes c), le_bytes_value by apply conn_info_bytes_ok.
  by apply conn_info_of_bytes_bytes.
Qed.

Lemma user_data_of_mk fd type bid :
  conn_info_of_user_data (user_data_of_conn_info (mk_conn_info fd type bid)) =
  mk_conn_info fd type bid.
Proof. apply user_data_roundtrip, mk_conn_info_ok. Qed.

(** Whatever the word, the fields read from it fit their widths. *)
Lemma conn_info_of_user_data_ok u : conn_info_ok (conn_info_of_user_data u).
Proof.
  unfold conn_info_ok, conn_info_of_user_data, conn_info_of_bytes, is_u32, is_u16. cbn [ci_fd ci_type ci_bid].
  pose proof (le_bytes_byte 8 u) as Hb. pose proof (length_le_bytes 8 u) as Hn.
  assert (Hr : forall i m, (i + m <= 8)%nat -> 0 <= le_value (take m (drop i (le_bytes 8 u))) < 256 ^ Z.of_nat m).
  { intros i m Him. replace m with (length (take m (drop i (le_bytes 8 u)))) at 3 by (rewrite length_take, length_drop; lia).
    apply le_value_range. by apply Forall_take, Forall_drop. }
  pose proof (Hr 0%nat 4%nat ltac:(lia)). pose proof (Hr 4%nat 2%nat ltac:(lia)). pose proof (Hr 6%nat 2%nat ltac:(lia)).
  by rewrite drop_0 in *.
Qed.

(** What the [user_data] of a request says: its kind and its descriptor. *)
Definition kind (u : Z) : Z := ci_type (conn_info_of_user_data u).
Definition owner (u : Z) : Z := to_i32 (ci_fd (conn_info_of_user_data u)).

(** Evaluate the comparisons of a decoded [type] with the constants. *)
Ltac decode_type :=
  cbn [ci_type ci_fd ci_bid mk_conn_info];
  repeat match goal with
  | |- context [to_u16 ?a =? ?b] =>
      let v := eval vm_compute in (to_u16 a =? b) in change (to_u16 a =? b) with v
  end; cbv iota.

(** ** The packing is exact *)

Lemma user_data_range c : 0 <= user_data_of_conn_info c < 2 ^ 64.
Proof.
  unfold user_data_of_conn_info.
  pose proof (le_value_range _ (conn_info_bytes_ok c)) as Hr.
  by rewrite length_conn_info_bytes in Hr.
Qed.

(** C14: the [user_data] word carries a [conn_info] exactly.  What
    [memcpy] writes for a well-formed [conn_info] is a 64-bit value from which
    the same [conn_info] is read back, and every 64-bit value is the image of
    the well-formed [conn_info] read from it: the packing is a bijection. *)
Theorem user_data_bijection :
  (forall c, conn_info_ok c -> 0 <= user_data_of_conn_info c < 2 ^ 64 /\
     conn_info_of_user_data (user_data_of_conn_info c) = c) /\
  (forall u, 0 <= u < 2 ^ 64 -> conn_info_ok (conn_info_of_user_data u) /\
     user_data_of_conn_info (conn_info_of_user_data u) = u).
Proof.
  split; [intros c Hc; auto using user_data_range, user_data_roundtrip|].
  intros u Hu.
  assert (Hb : le_bytes 8 u = le_bytes 4 u ++ le_bytes 2 (u / 2 ^ 32) ++ le_bytes 2 (u / 2 ^ 48)).
  { change 8%nat with (4 + 4)%nat. rewrite le_bytes_split.
    change (le_bytes 4 (u / 256 ^ Z.of_nat 4)) with (le_bytes (2 + 2) (u / 256 ^ Z.of_nat 4)).
    rewrite le_bytes_split, Z.div_div by lia. done. }
  assert (Hc : conn_info_of_user_data u = mk_conn_info u (u / 2 ^ 32) (u / 2 ^ 48)).
  { unfold conn_info_of_user_data, conn_info_of_bytes, mk_conn_info. rewrite Hb.
    rewrite take_app_length', drop_app_length', take_app_length' by (by rewrite ?length_le_bytes).
    rewrite (app_assoc (le_bytes 4 u)), drop_app_length', take_ge
      by (rewrite ?length_app, ?length_le_bytes; done).
    by rewrite !le_value_bytes. }
  rewrite Hc. split; [apply mk_conn_info_ok|].
  unfold user_data_of_conn_info, conn_info_bytes, mk_conn_info; simpl ci_fd; simpl ci_type; simpl ci_bid.
  unfold to_u32, to_u16. change (2 ^ 32) with (256 ^ Z.of_nat 4) at 1.
  change (2 ^ 16) with (256 ^ Z.of_nat 2).
  rewrite !le_bytes_mod, <- Hb, le_value_bytes. apply Z.mod_small. lia.
Qed.

(** The packing of descriptor 5, READ, buffer 2. *)
Lemma user_data_bijection_witness :
  user_data_of_conn_info (ConnInfo 5 1 2) = 562954248388613 /\
  conn_info_of_user_data (user_data_of_conn_info (ConnInfo 5 1 2)) = ConnInfo 5 1 2.
Proof.
  split; [vm_compute; reflexivity|]. apply (proj1 user_data_bijection).
  unfold conn_info_ok, is_u32, is_u16; simpl. lia.
Defined.
