(* ===== verification/EventLoop.v ===== *)
(** * Event loops that drain the completion queue

    The control structure of [while (1) { submit_and_wait; for each
    completion: handle; cq_advance }], with the kernel posting completions at
    any moment, also while the loop iterates ([io_uring_for_each_cqe] reads
    the tail again on every turn).  [step] is generic in the handler; the
    servers instantiate it. *)

From S2P Require Import Prelude Uring.

Section event_loop.
Context {A U K Mem : Type} `{!Kernel A U K}.

Local Abbreviation st := (rstate A U K Mem).

(** What the loop does before the completions of a turn, for each of them,
    and after them, given how many were handled. *)
Context (turn_start : M st unit) (handle : cqe U -> M st unit) (turn_end : nat -> M st unit).

(** [AtTop]: at the head of [while (1)].  [Draining s n]: inside the inner
    loop, [n] completions handled and not yet consumed. *)
Inductive sys : Type :=
| AtTop (s : st)
| Draining (s : st) (n : nat)
| Exited (code : Z)
| Crashed.

Definition after (o : outcome st unit) (next : st -> sys) : sys :=
  match o with
  | Ok _ s => next s
  | Exit code _ => Exited code
  | Ub _ => Crashed
  end.

Inductive step : sys -> sys -> Prop :=
| step_post_top s k' :
    k_post (rs_kern s) k' -> step (AtTop s) (AtTop (put_kern k' s))
| step_post_draining s n k' :
    k_post (rs_kern s) k' -> step (Draining s n) (Draining (put_kern k' s) n)
| step_start s :
    step (AtTop s) (after (turn_start s) (fun s' => Draining s' 0))
| step_handle s n c :
    k_cq (rs_kern s) !! n = Some c ->
    step (Draining s n) (after (handle c s) (fun s' => Draining s' (S n)))
| step_end s n :
    k_cq (rs_kern s) !! n = None ->
    step (Draining s n) (after (turn_end n s) AtTop).

Definition reachable (s0 : st) (x : sys) : Prop := rtc step (AtTop s0) x.

(** How many completions at the head of the queue are already handled. *)
Definition holds (I : st -> nat -> Prop) (x : sys) : Prop :=
  match x with
  | AtTop s => I s O
  | Draining s n => I s n
  | _ => True
  end.

(** Invariants: what the three program pieces and the kernel keep holds in
    every reachable state. *)
Lemma loop_invariant (I : st -> nat -> Prop) s0 x :
  (forall s n k', I s n -> k_post (rs_kern s) k' -> I (put_kern k' s) n) ->
  (forall s s', I s 0%nat -> turn_start s = Ok tt s' -> I s' 0%nat) ->
  (forall s n c s', I s n -> k_cq (rs_kern s) !! n = Some c -> handle c s = Ok tt s' -> I s' (S n)) ->
  (forall s n s', I s n -> k_cq (rs_kern s) !! n = None -> turn_end n s = Ok tt s' -> I s' 0%nat) ->
  I s0 0%nat -> reachable s0 x -> holds I x.
Proof.
  intros Hpost Hstart Hhandle Hend H0 Hr.
  assert (Hgen : forall x0, rtc step x0 x -> holds I x0 -> holds I x);
    [|by apply (Hgen (AtTop s0))].
  clear Hr H0. intros x0. induction 1 as [|x y z Hxy _ IH]; [done|]. intros Hx. apply IH. clear IH.
  destruct Hxy as [s k' Hk|s n k' Hk|s|s n c Hc|s n Hc]; simpl in *; eauto.
  - destruct (turn_start s) as [[] s'| |] eqn:E; simpl; eauto.
  - destruct (handle c s) as [[] s'| |] eqn:E; simpl; eauto.
  - destruct (turn_end n s) as [[] s'| |] eqn:E; simpl; eauto.
Qed.

(** A sequential turn: nothing is posted while the completions that were
    there at its start are handled. *)
Definition turn : M st unit :=
  turn_start ;;
  s ← get;
  let cqes := k_cq (rs_kern s) in
  for_each handle cqes ;;
  turn_end (length cqes).

(** Handling the completions from position [n] on, one by one. *)
Lemma drain_steps (cqes : list (cqe U)) s n s' :
  (forall c t t', handle c t = Ok tt t' -> k_cq (rs_kern t') = k_cq (rs_kern t)) ->
  drop n (k_cq (rs_kern s)) = cqes ->
  for_each handle cqes s = Ok tt s' ->
  rtc step (Draining s n) (Draining s' (n + length cqes)) /\ k_cq (rs_kern s') = k_cq (rs_kern s).
Proof.
  intros Hcq. revert s n. induction cqes as [|c cqes IH]; intros s n Hdrop Hrun.
  - injection Hrun as <-. rewrite Nat.add_0_r. done.
  - apply bind_inv_ok in Hrun as ([] & t & Hc & Hrun).
    assert (Hn : k_cq (rs_kern s) !! n = Some c).
    { rewrite <- (Nat.add_0_r n), <- lookup_drop, Hdrop. done. }
    pose proof (Hcq _ _ _ Hc) as Ht.
    destruct (IH t (S n)) as [Hsteps Heq]; [|exact Hrun|].
    { rewrite Ht. erewrite drop_S in Hdrop by exact Hn. by injection Hdrop. }
    split; [|congruence].
    eapply rtc_l; [|cbn [length]; rewrite <- Nat.add_succ_comm; exact Hsteps].
    pose proof (step_handle s n c Hn) as Hstep. by rewrite Hc in Hstep.
Qed.

(** The sequential turn is one of the behaviours of the loop. *)
Lemma turn_steps s s' :
  (forall c t t', handle c t = Ok tt t' -> k_cq (rs_kern t') = k_cq (rs_kern t)) ->
  turn s = Ok tt s' -> rtc step (AtTop s) (AtTop s').
Proof.
  intros Hcq Hrun. apply bind_inv_ok in Hrun as ([] & s1 & H1 & Hrun).
  apply bind_inv_ok in Hrun as (s1' & ? & [= <- <-] & Hrun).
  apply bind_inv_ok in Hrun as ([] & s2 & H2 & H3).
  destruct (drain_steps (k_cq (rs_kern s1)) s1 0 s2) as [Hsteps Heq]; auto.
  pose proof (step_start s) as Hs. rewrite H1 in Hs.
  pose proof (step_end s2 (length (k_cq (rs_kern s1)))) as He.
  rewrite H3 in He. eapply rtc_l; [exact Hs|]. eapply rtc_r; [exact Hsteps|].
  apply He. rewrite Heq. by apply lookup_ge_None.
Qed.

End event_loop.

Arguments sys : clear implicits.
