(* ===== verification/BatchLoop.v ===== *)
(** * Event loops that take a batch of completions

    The control structure of the table-based servers: [while (1) {
    submit_and_wait; n = io_uring_peek_batch_cqe(cqes); for each of the [n]:
    handle; ... }].  Unlike [EventLoop], the completions of a turn are fixed
    when the turn starts; the kernel goes on posting behind them. *)

From S2P Require Import Prelude Uring.

Section batch_loop.
Context {A U K Mem : Type} `{!Kernel A U K}.

Local Abbreviation st := (rstate A U K Mem).

(** The start of a turn returns the batch; [turn_end] gets its length. *)
Context (turn_start : M st (list (cqe U))) (handle : cqe U -> M st unit) (turn_end : nat -> M st unit).

(** [Batch s done rest]: [done] completions of the batch handled, [rest] to
    come. *)
Inductive bsys : Type :=
| BTop (s : st)
| Batch (s : st) (done : nat) (rest : list (cqe U))
| BExited (code : Z)
| BCrashed.

Definition bafter {X} (o : outcome st X) (next : X -> st -> bsys) : bsys :=
  match o with
  | Ok x s => next x s
  | Exit code _ => BExited code
  | Ub _ => BCrashed
  end.

Inductive bstep : bsys -> bsys -> Prop :=
| bstep_post_top s k' :
    k_post (rs_kern s) k' -> bstep (BTop s) (BTop (put_kern k' s))
| bstep_post_batch s n rest k' :
    k_post (rs_kern s) k' -> bstep (Batch s n rest) (Batch (put_kern k' s) n rest)
| bstep_start s :
    bstep (BTop s) (bafter (turn_start s) (fun cqes s' => Batch s' 0 cqes))
| bstep_handle s n c rest :
    bstep (Batch s n (c :: rest)) (bafter (handle c s) (fun _ s' => Batch s' (S n) rest))
| bstep_end s n :
    bstep (Batch s n []) (bafter (turn_end n s) (fun _ s' => BTop s')).

Definition breachable (s0 : st) (x : bsys) : Prop := rtc bstep (BTop s0) x.

(** What holds between turns and, during a turn, for the number of completions
    handled and those still to come. *)
Definition bholds (I : st -> Prop) (J : st -> nat -> list (cqe U) -> Prop) (x : bsys) : Prop :=
  match x with
  | BTop s => I s
  | Batch s n rest => J s n rest
  | _ => True
  end.

(** The state of a system that is still running. *)
Definition in_state (x : bsys) (s : st) : Prop :=
  x = BTop s \/ exists n rest, x = Batch s n rest.

Lemma bholds_in_state (I : st -> Prop) (J : st -> nat -> list (cqe U) -> Prop) x s :
  (forall s n rest, J s n rest -> I s) -> bholds I J x -> in_state x s -> I s.
Proof. intros Hw Hx [->|(n & rest & ->)]; simpl in Hx; eauto. Qed.

(** What every step keeps holds in all that follows. *)
Lemma batch_preserves (I : st -> Prop) (J : st -> nat -> list (cqe U) -> Prop) x0 x :
  (forall s k', I s -> k_post (rs_kern s) k' -> I (put_kern k' s)) ->
  (forall s n rest k', J s n rest -> k_post (rs_kern s) k' -> J (put_kern k' s) n rest) ->
  (forall s cqes s', I s -> turn_start s = Ok cqes s' -> J s' 0%nat cqes) ->
  (forall s n c rest s', J s n (c :: rest) -> handle c s = Ok tt s' -> J s' (S n) rest) ->
  (forall s n s', J s n [] -> turn_end n s = Ok tt s' -> I s') ->
  rtc bstep x0 x -> bholds I J x0 -> bholds I J x.
Proof.
  intros Hpost Hpost' Hstart Hhandle Hend.
  induction 1 as [|x y z Hxy _ IH]; [done|]. intros Hx. apply IH. clear IH.
  destruct Hxy as [s k' Hk|s n rest k' Hk|s|s n c rest|s n]; simpl in *; eauto.
  - destruct (turn_start s) as [cqes s'| |] eqn:E; simpl; eauto.
  - destruct (handle c s) as [[] s'| |] eqn:E; simpl; eauto.
  - destruct (turn_end n s) as [[] s'| |] eqn:E; simpl; eauto.
Qed.

Lemma batch_invariant (I : st -> Prop) (J : st -> nat -> list (cqe U) -> Prop) s0 x :
  (forall s k', I s -> k_post (rs_kern s) k' -> I (put_kern k' s)) ->
  (forall s n rest k', J s n rest -> k_post (rs_kern s) k' -> J (put_kern k' s) n rest) ->
  (forall s cqes s', I s -> turn_start s = Ok cqes s' -> J s' 0%nat cqes) ->
  (forall s n c rest s', J s n (c :: rest) -> handle c s = Ok tt s' -> J s' (S n) rest) ->
  (forall s n s', J s n [] -> turn_end n s = Ok tt s' -> I s') ->
  I s0 -> breachable s0 x -> bholds I J x.
Proof. intros ? ? ? ? ? H0 Hr. by apply (batch_preserves I J (BTop s0)). Qed.

(** A sequential turn: nothing is posted while the batch is handled. *)
Definition bturn : M st unit :=
  cqes ← turn_start;
  for_each handle cqes ;;
  turn_end (length cqes).

Lemma batch_steps cqes s n s' :
  for_each handle cqes s = Ok tt s' ->
  rtc bstep (Batch s n cqes) (Batch s' (n + length cqes) []).
Proof.
  revert s n. induction cqes as [|c cqes IH]; intros s n Hrun.
  - injection Hrun as <-. rewrite Nat.add_0_r. done.
  - apply bind_inv_ok in Hrun as ([] & t & Hc & Hrun).
    eapply rtc_l; [|cbn [length]; rewrite <- Nat.add_succ_comm; by apply IH].
    pose proof (bstep_handle s n c cqes) as Hstep. by rewrite Hc in Hstep.
Qed.

Lemma bturn_steps s s' : bturn s = Ok tt s' -> rtc bstep (BTop s) (BTop s').
Proof.
  intros (cqes & s1 & H1 & Hrun)%bind_inv_ok. apply bind_inv_ok in Hrun as ([] & s2 & H2 & H3).
  pose proof (bstep_start s) as Hs. rewrite H1 in Hs.
  pose proof (bstep_end s2 (length cqes)) as He. rewrite H3 in He.
  eapply rtc_l; [exact Hs|]. eapply rtc_r; [by apply batch_steps|exact He].
Qed.

End batch_loop.

Arguments bsys : clear implicits.

(** [io_uring_peek_batch_cqe(ring, cqes, count)]: the completions at the head
    of the queue, at most [count] of them. *)
Definition io_uring_peek_batch_cqe {A U K Mem} `{!Kernel A U K} (count : nat) :
    M (rstate A U K Mem) (list (cqe U)) := fun s => Ok (take count (k_cq (rs_kern s))) s.

Lemma peek_batch_inv {A U K Mem} `{!Kernel A U K} count (s : rstate A U K Mem) cqes s' :
  io_uring_peek_batch_cqe count s = Ok cqes s' -> cqes `prefix_of` k_cq (rs_kern s) /\ s' = s.
Proof. intros [= <- <-]. split; [apply prefix_take|done]. Qed.
