(* ===== verification/RefKernel.v ===== *)
(** * A kernel and a library that keep the promises

    An instance of the classes of [Uring.v], used to show that their laws can
    hold together and to run the programs on concrete inputs.  [RefKernel ok]
    keeps the lists the interface exposes and completes any request in any
    way the laws allow and [ok] admits; it submits everything it is given. *)

From S2P Require Import Prelude Uring.

Section ref.
Context {A U : Type}.

Record ref_kernel : Type := RefK {
  rk_inflight : list (sqe A U);
  rk_cq : list (cqe U);
  rk_group : Z -> list Z;
  rk_conns : list Z
}.

#[local] Instance ref_view : KernelView A U ref_kernel := {
  k_inflight := rk_inflight;
  k_cq := rk_cq;
  k_group := rk_group;
  k_conns := rk_conns
}.

(** A call that would have to wait returns [-EINTR]. *)
Definition ref_submit (q : list (sqe A U)) (w : nat) (k : ref_kernel) : Z * nat * ref_kernel :=
  ((if (w <=? length (rk_cq k))%nat then Z.of_nat (length q) else -4), length q,
   RefK (rk_inflight k ++ q) (rk_cq k) (rk_group k) (rk_conns k)).

Definition ref_advance (n : nat) (k : ref_kernel) : ref_kernel :=
  RefK (rk_inflight k) (drop n (rk_cq k)) (rk_group k) (rk_conns k).

Definition ref_wait (k : ref_kernel) : Z * ref_kernel :=
  (match rk_cq k with [] => -4 | _ => 0 end, k).

Definition ref_close (fd : Z) (k : ref_kernel) : Z * ref_kernel :=
  (0, RefK (rk_inflight k) (rk_cq k) (rk_group k) (filter (fun x => x <> fd) (rk_conns k))).

Definition ref_kernel_ops (ok : sqe A U -> cqe U -> Prop) : Kernel A U ref_kernel := {|
  kernel_view := ref_view;
  k_submit := ref_submit;
  k_cq_advance := ref_advance;
  k_wait := ref_wait;
  k_close := ref_close;
  k_shutdown := fun _ _ k => (0, k);
  k_post := fun k k' => exists e c, posts k k' e c /\ ok e c
|}.

Lemma ref_kernel_ok (ok : sqe A U -> cqe U -> Prop) :
  @KernelOk A U ref_kernel (ref_kernel_ops ok).
Proof.
  split; [split|].
  - intros q w k. simpl. split.
    + exists (RefK (rk_inflight k ++ q) (rk_cq k) (rk_group k) (rk_conns k)).
      split; [|done]. unfold queues; simpl. by rewrite take_ge.
    + intros Hr. destruct (Nat.leb_spec w (length (rk_cq k))); [done|lia].
  - done.
  - done.
  - intros k. simpl. split; [done|]. by destruct (rk_cq k).
  - done.
  - done.
  - intros k k' (e & c & H & _). eauto.
Qed.

(** ** Completing a request

    [ref_finish i res flags k] completes the [i]-th request in flight with the
    given result, if the laws allow it. *)

Definition put_group (g : Z) (l : list Z) (f : Z -> list Z) : Z -> list Z :=
  fun g' => if g' =? g then l else f g'.

(** A receive that selects a buffer of group [g]. *)
Definition ref_select (g res flags : Z) (gs : Z -> list Z) (conns : list Z) :
    option ((Z -> list Z) * list Z) :=
  let bid := Z.shiftr flags 16 in
  if flags =? 0 then
    if res =? - ENOBUFS then
      match gs g with [] => Some (gs, conns) | _ => None end
    else if res <=? 0 then Some (gs, conns) else None
  else if (flags =? Z.lor 1 (Z.shiftl bid 16)) && (0 <=? bid) && (bid <? 2 ^ 16) &&
          negb (res =? - ENOBUFS) then
    rest ← remove_first bid (gs g); Some (put_group g rest gs, conns)
  else None.

(** The groups and connections after a completion with result [res] and flags
    [flags] of a request for [e], if such a completion is possible. *)
Definition ref_effect (e : sqe A U) (res flags : Z) (gs : Z -> list Z) (conns : list Z) :
    option ((Z -> list Z) * list Z) :=
  match sqe_op e with
  | OpAccept _ _ _ _ =>
      if res <? 0 then Some (gs, conns)
      else if decide (res ∈ conns) then None else Some (gs, res :: conns)
  | OpProvideBuffers _ _ nr g bid =>
      if res <? 0 then Some (gs, conns)
      else Some (put_group g (gs g ++ seqZ bid nr) gs, conns)
  | OpRecv _ _ _ _ | OpRecvmsg _ _ _ =>
      if has_flag (sqe_flags e) IOSQE_BUFFER_SELECT then
        ref_select (sqe_buf_group e) res flags gs conns
      else Some (gs, conns)
  | _ => Some (gs, conns)
  end.

Definition ref_finish (i : nat) (res flags : Z) (k : ref_kernel) : option ref_kernel :=
  e ← rk_inflight k !! i;
  eff ← ref_effect e res flags (rk_group k) (rk_conns k);
  if (- 2 ^ 31 <=? res) && (res <? 2 ^ 31) then
    Some (RefK (delete i (rk_inflight k)) (rk_cq k ++ [Cqe (sqe_user_data e) res flags])
               eff.1 eff.2)
  else None.

Lemma put_group_eq g l f : put_group g l f g = l.
Proof. unfold put_group. by rewrite Z.eqb_refl. Qed.

Lemma put_group_ne g g' l f : g' <> g -> put_group g l f g' = f g'.
Proof. intros Hne. unfold put_group. by rewrite (proj2 (Z.eqb_neq _ _) Hne). Qed.

Lemma ref_select_completes g res flags (u : U) (k k' : ref_kernel) :
  ref_select g res flags (rk_group k) (rk_conns k) = Some (rk_group k', rk_conns k') ->
  select_completes g (Cqe u res flags) k k'.
Proof.
  unfold ref_select. destruct (Z.eqb_spec flags 0) as [->|Hf].
  - destruct (Z.eqb_spec res (- ENOBUFS)) as [->|He].
    + destruct (rk_group k g) as [|] eqn:Hg; [|done].
      intros [= H1 H2]. unfold select_completes, same_conns; simpl. rewrite <- H1, <- H2. auto 10.
    + destruct (Z.leb_spec res 0); [|done].
      intros [= H1 H2]. unfold select_completes, same_conns; simpl. rewrite <- H1, <- H2. auto 10.
  - destruct (_ && _) eqn:Hb; [|done]. rewrite !andb_true_iff, negb_true_iff in Hb.
    destruct Hb as [[[Hfl%Z.eqb_eq H0%Z.leb_le] H1%Z.ltb_lt] He%Z.eqb_neq].
    destruct (remove_first _ _) as [rest|] eqn:Hrest; [|done]. intros [= H2 H3].
    unfold select_completes, same_conns, reports_buffer; simpl. rewrite <- H2, <- H3.
    split_and!; [done|intros; by apply put_group_ne|]. left. exists (Z.shiftr flags 16).
    rewrite put_group_eq. apply remove_first_Some in Hrest. unfold is_u16. auto.
Qed.

Lemma ref_effect_completes (e : sqe A U) res flags (k k' : ref_kernel) :
  is_i32 res ->
  ref_effect e res flags (rk_group k) (rk_conns k) = Some (rk_group k', rk_conns k') ->
  completes e (Cqe (sqe_user_data e) res flags) k k'.
Proof.
  unfold ref_effect, completes, is_i32. intros Hres.
  destruct (sqe_op e) as [| | | | |? ? nr g bid| | | |];
    try (intros [= H1 H2]; split; [done|intros ?; simpl; by rewrite <- H1]).
  - destruct (Z.ltb_spec res 0).
    + intros [= H1 H2]. split; [intros g; simpl; by rewrite <- H1|]. right.
      split; [done|]. unfold same_conns; simpl. done.
    + destruct (decide _) as [|Hn]; [done|]. intros [= H1 H2].
      split; [intros g; simpl; by rewrite <- H1|]. left. unfold is_fd; simpl. split_and!; done || lia.
  - destruct (has_flag (sqe_flags e) IOSQE_BUFFER_SELECT); [by apply ref_select_completes|].
    intros [= H1 H2]. split; [done|intros g; simpl; by rewrite <- H1].
  - destruct (has_flag (sqe_flags e) IOSQE_BUFFER_SELECT); [by apply ref_select_completes|].
    intros [= H1 H2]. split; [done|intros g'; simpl; by rewrite <- H1].
  - destruct (Z.ltb_spec res 0); intros [= H1 H2].
    + split; [done|right]. split; [done|intros g'; simpl; by rewrite <- H1].
    + split; [done|left]. split_and!; [done|simpl|intros g' Hg'; simpl]; rewrite <- H1.
      * by rewrite put_group_eq.
      * by apply put_group_ne.
Qed.

Lemma ref_finish_posts i res flags k k' :
  ref_finish i res flags k = Some k' ->
  exists e, rk_inflight k !! i = Some e /\ posts k k' e (Cqe (sqe_user_data e) res flags).
Proof.
  unfold ref_finish. destruct (rk_inflight k !! i) as [e|] eqn:He; [|done]; simpl.
  destruct (ref_effect _ _ _ _ _) as [[gs conns]|] eqn:Heff; [|done]; simpl.
  destruct (_ && _) eqn:Hb; [|done]. intros [= <-]. exists e. split; [done|].
  apply andb_true_iff in Hb as [H1%Z.leb_le H2%Z.ltb_lt].
  split_and!; [|done|done|split; simpl; lia|apply ref_effect_completes; [split; lia|done]].
  simpl. by rewrite <- delete_Permutation.
Qed.

(** The same, if [ok] admits the completion. *)
Definition ref_post (ok : sqe A U -> cqe U -> Prop) `{!forall e c, Decision (ok e c)}
    (i : nat) (res flags : Z) (k : ref_kernel) : option ref_kernel :=
  e ← rk_inflight k !! i;
  k' ← ref_finish i res flags k;
  if decide (ok e (Cqe (sqe_user_data e) res flags)) then Some k' else None.

Lemma ref_post_posts ok `{!forall e c, Decision (ok e c)} i res flags k k' :
  ref_post ok i res flags k = Some k' -> exists e c, posts k k' e c /\ ok e c.
Proof.
  unfold ref_post. destruct (rk_inflight k !! i) as [e|] eqn:He; [|done]; simpl.
  destruct (ref_finish i res flags k) as [k1|] eqn:Hk; [|done]; simpl.
  case_decide as Hok; [|done]. intros [= <-].
  destruct (ref_finish_posts _ _ _ _ _ Hk) as (e' & He' & Hp). simplify_eq. eauto.
Qed.

(** ** A kernel that works while it is waited for

    Like [ref_kernel_ops], but a wait with an empty completion queue completes
    the oldest request in flight with result 0. *)

Definition eager_wait (k : ref_kernel) : Z * ref_kernel :=
  match rk_cq k with
  | [] => match ref_finish 0 0 0 k with Some k' => (0, k') | None => (-4, k) end
  | _ => (0, k)
  end.

Definition eager_kernel_ops : Kernel A U ref_kernel := {|
  kernel_view := ref_view;
  k_submit := ref_submit;
  k_cq_advance := ref_advance;
  k_wait := eager_wait;
  k_close := ref_close;
  k_shutdown := fun _ _ k => (0, k);
  k_post := fun k k' => exists e c, posts k k' e c
|}.

Lemma eager_kernel_ok : @KernelOk A U ref_kernel eager_kernel_ops.
Proof.
  destruct (ref_kernel_ok (fun _ _ => True)) as [[H1 H2 H3 _ H5 H6] _].
  split; [split; [|exact H2|exact H3| |exact H5|exact H6]|done].
  - intros q w k. simpl. split.
    + exists (RefK (rk_inflight k ++ q) (rk_cq k) (rk_group k) (rk_conns k)).
      split; [|done]. unfold queues; simpl. by rewrite take_ge.
    + intros Hr. destruct (Nat.leb_spec w (length (rk_cq k))); [done|lia].
  - intros k. simpl. unfold eager_wait. destruct (rk_cq k) as [|c l] eqn:Hc; [|by rewrite Hc].
    destruct (ref_finish 0 0 0 k) as [k'|] eqn:Hk; [|done].
    apply ref_finish_posts in Hk as (e & _ & Hp). split; [apply rtc_once; eauto|].
    destruct Hp as (_ & Hq & _). simpl in Hq. rewrite Hq. by destruct (rk_cq k).
Qed.

(** ** A kernel that lets a request complete when it is waited for

    Like [ref_kernel_ops ok], but a call that has to wait completes the
    request [answer] names (its position among those in flight, the result and
    the flags), if [ok] admits it. *)

Section waiting.
Context (ok : sqe A U -> cqe U -> Prop) `{!forall e c, Decision (ok e c)} (answer : ref_kernel -> nat * Z * Z).

Definition complete_one (k : ref_kernel) : option ref_kernel :=
  let '(i, res, flags) := answer k in ref_post ok i res flags k.

Definition waiting_submit (q : list (sqe A U)) (w : nat) (k : ref_kernel) : Z * nat * ref_kernel :=
  let k1 := RefK (rk_inflight k ++ q) (rk_cq k) (rk_group k) (rk_conns k) in
  let k2 := if (w <=? length (rk_cq k))%nat then k1 else default k1 (complete_one k1) in
  ((if (w <=? length (rk_cq k2))%nat then Z.of_nat (length q) else -4), length q, k2).

Definition waiting_wait (k : ref_kernel) : Z * ref_kernel :=
  match rk_cq k with
  | [] => match complete_one k with Some k' => (0, k') | None => (-4, k) end
  | _ => (0, k)
  end.

Definition waiting_kernel_ops : Kernel A U ref_kernel := {|
  kernel_view := ref_view;
  k_submit := waiting_submit;
  k_cq_advance := ref_advance;
  k_wait := waiting_wait;
  k_close := ref_close;
  k_shutdown := fun _ _ k => (0, k);
  k_post := fun k k' => exists e c, posts k k' e c /\ ok e c
|}.

Lemma complete_one_post k k' :
  complete_one k = Some k' -> exists e c, posts k k' e c /\ ok e c.
Proof. unfold complete_one. destruct (answer k) as [[i res] flags]. apply ref_post_posts. Qed.

Lemma waiting_kernel_ok : @KernelOk A U ref_kernel waiting_kernel_ops.
Proof.
  destruct (ref_kernel_ok ok) as [[_ H2 H3 _ H5 H6] H7].
  split; [split; [|exact H2|exact H3| |exact H5|exact H6]|exact H7]; [intros q w k; simpl|].
  2:{ intros k. simpl. unfold waiting_wait. destruct (rk_cq k) as [|c l] eqn:Hc; [|by rewrite Hc].
      destruct (complete_one k) as [k'|] eqn:Hk; [|done]. apply complete_one_post in Hk as (e & c & Hp & Hok).
      split; [apply rtc_once; eauto|]. destruct Hp as (_ & Hq & _). simpl in Hq. rewrite Hq. by destruct (rk_cq k). }
  set (k1 := RefK (rk_inflight k ++ q) (rk_cq k) (rk_group k) (rk_conns k)).
  set (k2 := if (w <=? length (rk_cq k))%nat then k1 else default k1 (complete_one k1)). split.
  - exists k1. split; [unfold queues; simpl; by rewrite take_ge|]. unfold k2.
    destruct (w <=? length (rk_cq k))%nat; [done|].
    destruct (complete_one k1) as [k3|] eqn:Hk; [|done]. apply rtc_once. simpl.
    by apply complete_one_post.
  - intros Hr. destruct (Nat.leb_spec w (length (rk_cq k2))); [done|lia].
Qed.

(** ** A kernel with multishot polls

    Like [waiting_kernel_ops], and a multishot poll in flight may post a
    completion that announces more and stay in flight. *)

Definition multi_kernel_ops : Kernel A U ref_kernel := {|
  kernel_view := ref_view;
  k_submit := waiting_submit;
  k_cq_advance := ref_advance;
  k_wait := waiting_wait;
  k_close := ref_close;
  k_shutdown := fun _ _ k => (0, k);
  k_post := fun k k' => exists e c, (posts k k' e c \/ posts_more k k' e c) /\ ok e c
|}.

Definition is_multishotb (e : sqe A U) : bool :=
  match sqe_op e with
  | OpPollAdd _ _ => has_flag (sqe_len e) IORING_POLL_ADD_MULTI
  | _ => false
  end.

(** The [i]-th request in flight completes; a multishot poll whose completion
    announces more stays. *)
Definition multi_post (i : nat) (res flags : Z) (k : ref_kernel) : option ref_kernel :=
  e ← rk_inflight k !! i;
  if is_multishotb e && has_flag flags IORING_CQE_F_MORE then
    let c := Cqe (sqe_user_data e) res flags in
    if decide (ok e c) then
      if (- 2 ^ 31 <=? res) && (res <? 2 ^ 31)
      then Some (RefK (rk_inflight k) (rk_cq k ++ [c]) (rk_group k) (rk_conns k)) else None
    else None
  else ref_post ok i res flags k.

Lemma multi_post_ok i res flags k k' :
  multi_post i res flags k = Some k' ->
  exists e c, (posts k k' e c \/ posts_more k k' e c) /\ ok e c.
Proof.
  unfold multi_post. destruct (rk_inflight k !! i) as [e|] eqn:He; [|done]; simpl.
  destruct (_ && _) eqn:Hb.
  - apply andb_true_iff in Hb as [Hm Hf]. case_decide as Hok; [|done].
    destruct (_ && _) eqn:Hr; [|done]. apply andb_true_iff in Hr as [H1%Z.leb_le H2%Z.ltb_lt].
    intros [= <-]. do 2 eexists. split; [right|exact Hok].
    unfold is_multishotb in Hm. destruct (sqe_op e) eqn:Hop; try done.
    split_and!; [split; eauto|by eapply list_elem_of_lookup_2|done..|].
    by intros ?.
  - intros (e' & c & Hp & Hok)%ref_post_posts. eauto.
Qed.

Lemma multi_kernel_ok : @MultishotOk A U ref_kernel multi_kernel_ops.
Proof.
  destruct waiting_kernel_ok as [[H1 H2 H3 H4 H5 H6] _].
  split; [split; [|exact H2|exact H3| |exact H5|exact H6]|].
  - intros q w k. specialize (H1 q w k). simpl in *. destruct H1 as [(k1 & Hq & Hr) Hw].
    split; [|exact Hw]. exists k1. split; [exact Hq|].
    eapply rtc_subrel; [|exact Hr]. intros x y (e & c & Hp & Hok). eauto.
  - intros k. specialize (H4 k). simpl in *. destruct (waiting_wait k) as [ret k']. destruct H4 as [Hr Hw].
    split; [|exact Hw]. eapply rtc_subrel; [|exact Hr]. intros x y (e & c & Hp & Hok). eauto.
  - intros k k' (e & c & Hp & _). eauto.
Qed.

End waiting.

(** A ring of [entries] entries whose vacant entries read [blank]. *)
Definition ref_liburing (entries : nat) (blank : sqe A U) : Liburing A U := {|
  lib_get_sqe q := if (length q <? entries)%nat then Some blank else None;
  lib_prep o e := Sqe o 0 0 0 (sqe_user_data e);
  lib_set_flags f e := Sqe (sqe_op e) f (sqe_len e) (sqe_buf_group e) (sqe_user_data e)
|}.

Lemma ref_liburing_ok entries blank : @LiburingOk A U (ref_liburing entries blank) entries.
Proof.
  split; simpl; try done.
  - intros q Hq. rewrite (proj2 (Nat.ltb_lt _ _)) by done. eauto.
  - intros q Hq. by rewrite (proj2 (Nat.ltb_ge _ _)).
Qed.

End ref.

Arguments ref_kernel : clear implicits.
Arguments RefK {A U}.
