(* ===== verification/Script.v ===== *)
(** * Scripted runs on the reference kernel

    A schedule says when the program moves and which request the kernel
    completes with what result; [run] follows it as long as each move is
    possible.  Every run is a run of the loop, so its states are reachable. *)

From S2P Require Import Prelude Uring EventLoop RefKernel.

Inductive action : Type :=
| Start                          (* the loop begins a turn *)
| Finish (i : nat) (res flags : Z) (* the i-th request in flight completes *)
| Handle                         (* the loop handles the next completion *)
| End.                           (* the loop ends a turn *)

Section script.
Context {A U Mem : Type}.
Context (ok : sqe A U -> cqe U -> Prop) `{!forall e c, Decision (ok e c)}.

#[local] Instance script_kernel : Kernel A U (ref_kernel A U) := ref_kernel_ops ok.

Local Abbreviation st := (rstate A U (ref_kernel A U) Mem).

Context (turn_start : M st unit) (handle : cqe U -> M st unit) (turn_end : nat -> M st unit).

Local Abbreviation system := (sys A U (ref_kernel A U) Mem).

Definition finish (i : nat) (res flags : Z) (s : st) : option st :=
  (fun k => put_kern k s) <$> ref_post ok i res flags (rs_kern s).

Definition act (a : action) (x : system) : option system :=
  match a, x with
  | Start, AtTop s => Some (after (turn_start s) (fun s' => Draining s' 0))
  | Finish i res flags, AtTop s => AtTop <$> finish i res flags s
  | Finish i res flags, Draining s n => (fun s' => Draining s' n) <$> finish i res flags s
  | Handle, Draining s n =>
      c ← k_cq (rs_kern s) !! n; Some (after (handle c s) (fun s' => Draining s' (S n)))
  | End, Draining s n =>
      match k_cq (rs_kern s) !! n with
      | Some _ => None
      | None => Some (after (turn_end n s) AtTop)
      end
  | _, _ => None
  end.

Fixpoint run (acts : list action) (x : system) : system :=
  match acts with
  | [] => x
  | a :: acts => match act a x with Some y => run acts y | None => x end
  end.

Lemma finish_post i res flags (s s' : st) :
  finish i res flags s = Some s' ->
  exists k, k_post (rs_kern s) k /\ s' = put_kern k s.
Proof.
  intros (k & Hk & ->)%fmap_Some. exists k. split; [|done]. by apply ref_post_posts in Hk.
Qed.

Lemma act_step a x y : act a x = Some y -> step turn_start handle turn_end x y.
Proof.
  destruct a as [|i res flags| |], x as [s|s n|code|]; simpl; try done.
  - intros [= <-]. constructor.
  - intros (s' & Hf & ->)%fmap_Some. apply finish_post in Hf as (k & Hk & ->). by constructor.
  - intros (s' & Hf & ->)%fmap_Some. apply finish_post in Hf as (k & Hk & ->). by constructor.
  - intros (c & Hc & [= <-])%bind_Some. by constructor.
  - destruct (rk_cq (rs_kern s) !! n) eqn:Hc; [done|]. intros [= <-]. by constructor.
Qed.

Lemma run_steps acts x : rtc (step turn_start handle turn_end) x (run acts x).
Proof.
  revert x. induction acts as [|a acts IH]; intros x; simpl; [done|].
  destruct (act a x) as [y|] eqn:Ha; [|done].
  eapply rtc_l; [by eapply act_step|apply IH].
Qed.

End script.

(** Reading the outcome of a run. *)
Definition state_of {A U K Mem} (d : rstate A U K Mem) (x : sys A U K Mem) : rstate A U K Mem :=
  match x with AtTop s => s | Draining s _ => s | _ => d end.

Definition draining_at {A U K Mem} (x : sys A U K Mem) : option nat :=
  match x with Draining _ n => Some n | _ => None end.

Lemma draining_at_eq {A U K Mem} (d : rstate A U K Mem) x n :
  draining_at x = Some n -> x = Draining (state_of d x) n.
Proof. by destruct x; intros [= ->]. Qed.
