(* ===== verification/BatchScript.v ===== *)
(** * Scripted runs of the batch loops

    As [Script], for the loops of [BatchLoop] on any kernel for which [post]
    computes completions. *)

From S2P Require Import Prelude Uring BatchLoop RefKernel Script.

Section bscript.
Context {A U K Mem : Type} `{!Kernel A U K}.

(** The [i]-th request in flight completes with a result and flags. *)
Context (post : nat -> Z -> Z -> K -> option K).

Local Abbreviation st := (rstate A U K Mem).

Context (turn_start : M st (list (cqe U))) (handle : cqe U -> M st unit) (turn_end : nat -> M st unit).

Local Abbreviation system := (bsys A U K Mem).

Definition bfinish (i : nat) (res flags : Z) (s : st) : option st :=
  (fun k => put_kern k s) <$> post i res flags (rs_kern s).

Definition bact (a : action) (x : system) : option system :=
  match a, x with
  | Start, BTop s => Some (bafter (turn_start s) (fun cqes s' => Batch s' 0 cqes))
  | Finish i res flags, BTop s => BTop <$> bfinish i res flags s
  | Finish i res flags, Batch s n rest => (fun s' => Batch s' n rest) <$> bfinish i res flags s
  | Handle, Batch s n (c :: rest) => Some (bafter (handle c s) (fun _ s' => Batch s' (S n) rest))
  | End, Batch s n [] => Some (bafter (turn_end n s) (fun _ s' => BTop s'))
  | _, _ => None
  end.

Fixpoint brun (acts : list action) (x : system) : system :=
  match acts with
  | [] => x
  | a :: acts => match bact a x with Some y => brun acts y | None => x end
  end.

Context (post_ok : forall i res flags k k', post i res flags k = Some k' -> k_post k k').

Lemma bact_step a x y : bact a x = Some y -> bstep turn_start handle turn_end x y.
Proof.
  destruct a as [|i res flags| |], x as [s|s n [|c rest]|code|]; simpl; try done.
  - intros [= <-]. constructor.
  - intros (s' & Hf & ->)%fmap_Some. apply fmap_Some in Hf as (k & Hk%post_ok & ->). by constructor.
  - intros (s' & Hf & ->)%fmap_Some. apply fmap_Some in Hf as (k & Hk%post_ok & ->). by constructor.
  - intros (s' & Hf & ->)%fmap_Some. apply fmap_Some in Hf as (k & Hk%post_ok & ->). by constructor.
  - intros [= <-]. constructor.
  - intros [= <-]. constructor.
Qed.

Lemma brun_steps acts x : rtc (bstep turn_start handle turn_end) x (brun acts x).
Proof.
  revert x. induction acts as [|a acts IH]; intros x; simpl; [done|].
  destruct (bact a x) as [y|] eqn:Ha; [|done].
  eapply rtc_l; [by eapply bact_step|apply IH].
Qed.

End bscript.

(** Reading the outcome of a run. *)
Definition bstate_of {A U K Mem} (d : rstate A U K Mem) (x : bsys A U K Mem) : rstate A U K Mem :=
  match x with BTop s => s | Batch s _ _ => s | _ => d end.

Definition batch_of {A U K Mem} (x : bsys A U K Mem) : option (nat * list (cqe U)) :=
  match x with Batch _ n rest => Some (n, rest) | _ => None end.

Lemma batch_of_eq {A U K Mem} (d : rstate A U K Mem) x n rest :
  batch_of x = Some (n, rest) -> x = Batch (bstate_of d x) n rest.
Proof. by destruct x; intros [= -> ->]. Qed.
