(* ===== verification/Libc.v ===== *)
(** * The C library functions the programs use on their arguments

    [strtol]/[atoi] in base 10, [strtoull] in any base, [htons] on a
    little-endian host, [strcmp] against a literal.  Strings are lists of
    character codes without the terminating NUL. *)

From stdpp Require Import strings.
From S2P Require Import Prelude.

Definition chars (s : string) : list Z := (fun a => Z.of_nat (Ascii.nat_of_ascii a)) <$> String.list_ascii_of_string s.

Definition isspace (c : Z) : bool := (c =? 32) || ((9 <=? c) && (c <=? 13)).
Definition isdigit (c : Z) : bool := (48 <=? c) && (c <=? 57).

Fixpoint skip_space (l : list Z) : list Z :=
  match l with
  | c :: l' => if isspace c then skip_space l' else l
  | [] => []
  end.

(** The value of the longest prefix of digits, after [acc]. *)
Fixpoint digits (acc : Z) (l : list Z) : Z :=
  match l with
  | c :: l => if isdigit c then digits (10 * acc + (c - 48)) l else acc
  | [] => acc
  end.

Definition LONG_MAX : Z := 2 ^ 63 - 1.
Definition LONG_MIN : Z := - 2 ^ 63.

(** [strtol(s, NULL, 10)]: clamped to the range of [long]. *)
Definition strtol (s : list Z) : Z :=
  let v := match skip_space s with
           | [] => 0
           | c :: l => if c =? 43 then digits 0 l
                       else if c =? 45 then - digits 0 l
                       else digits 0 (c :: l)
           end in
  Z.max LONG_MIN (Z.min LONG_MAX v).

Definition atoi (s : list Z) : Z := to_i32 (strtol s).

(** The value of a digit in bases up to 36. *)
Definition digit_value (c : Z) : option Z :=
  if isdigit c then Some (c - 48)
  else if (97 <=? c) && (c <=? 122) then Some (c - 87)
  else if (65 <=? c) && (c <=? 90) then Some (c - 55)
  else None.

(** The value of the longest prefix of digits of [base], after [acc]. *)
Fixpoint digits_in (base acc : Z) (l : list Z) : Z :=
  match l with
  | c :: l =>
      match digit_value c with
      | Some d => if d <? base then digits_in base (base * acc + d) l else acc
      | None => acc
      end
  | [] => acc
  end.

(** A number in base 0: hexadecimal after [0x], octal after [0], decimal
    otherwise; [0x] without a digit is the number 0. *)
Definition any_base (l : list Z) : Z :=
  match l with
  | 48 :: x :: c :: l' =>
      if (x =? 120) || (x =? 88) then
        match digit_value c with
        | Some d => if d <? 16 then digits_in 16 0 (c :: l') else 0
        | None => 0
        end
      else digits_in 8 0 l
  | 48 :: _ => digits_in 8 0 l
  | _ => digits_in 10 0 l
  end.

Definition ULLONG_MAX : Z := 2 ^ 64 - 1.

(** [strtoull(s, NULL, 0)]: clamped to ULLONG_MAX; a minus sign negates in the type. *)
Definition strtoull (s : list Z) : Z :=
  let '(neg, l) := match skip_space s with
                   | c :: l => if c =? 43 then (false, l) else if c =? 45 then (true, l) else (false, c :: l)
                   | [] => (false, [])
                   end in
  let v := any_base l in
  if ULLONG_MAX <? v then ULLONG_MAX else if neg then to_u64 (- v) else v.

(** [strcmp(a, b) == 0] *)
Definition str_eqb (a b : list Z) : bool := bool_decide (a = b).

Definition htons (p : Z) : Z :=
  let p := to_u16 p in Z.lor (Z.shiftl (Z.land p 255) 8) (Z.shiftr p 8).
Definition ntohs : Z -> Z := htons.

(** ** Properties *)

(** The decimal representation of a natural number. *)
Fixpoint dec_digits (fuel : nat) (n : Z) : list Z :=
  match fuel with
  | O => []
  | S fuel => if n <? 10 then [48 + n] else dec_digits fuel (n / 10) ++ [48 + n `mod` 10]
  end.

Lemma digits_app acc l k :
  Forall (fun c => isdigit c = true) l -> digits acc (l ++ k) = digits (digits acc l) k.
Proof.
  intros Hl. revert acc. induction Hl as [|c l Hc _ IH]; intros acc; [done|].
  simpl. rewrite Hc. apply IH.
Qed.

Lemma digit_is_digit d : 0 <= d < 10 -> isdigit (48 + d) = true.
Proof. intros Hd. unfold isdigit. apply andb_true_iff. split; apply Z.leb_le; lia. Qed.

Lemma dec_digits_digits fuel n :
  0 <= n < 10 ^ Z.of_nat fuel ->
  Forall (fun c => isdigit c = true) (dec_digits fuel n) /\ digits 0 (dec_digits fuel n) = n.
Proof.
  revert n. induction fuel as [|fuel IH]; intros n Hn; cbn [dec_digits].
  - split; [constructor|]. simpl in *. lia.
  - rewrite Nat2Z.inj_succ, Z.pow_succ_r in Hn by lia.
    destruct (Z.ltb_spec n 10) as [Hlt|Hge].
    + pose proof (digit_is_digit n ltac:(lia)) as Hd.
      split; [by repeat constructor|]. cbn [digits]. rewrite Hd. lia.
    + destruct (IH (n / 10)) as [Hall Hval].
      { split; [apply Z.div_pos; lia|apply Z.div_lt_upper_bound; lia]. }
      pose proof (digit_is_digit (n `mod` 10) ltac:(apply Z.mod_pos_bound; lia)) as Hd.
      split; [apply Forall_app; split; [done|by repeat constructor]|].
      rewrite digits_app, Hval by done. cbn [digits]. rewrite Hd.
      pose proof (Z.div_mod n 10 ltac:(lia)). lia.
Qed.

(** A number printed in decimal is read back by [strtol]. *)
Lemma strtol_dec_digits fuel n :
  0 < n < 10 ^ Z.of_nat fuel -> n <= LONG_MAX -> strtol (dec_digits fuel n) = n.
Proof.
  intros Hn Hmax. destruct (dec_digits_digits fuel n) as [Hall Hval]; [lia|].
  unfold strtol. destruct (dec_digits fuel n) as [|c l] eqn:Hl; [simpl in Hval; lia|].
  apply Forall_cons in Hall as [Hc _]. unfold isdigit in Hc.
  apply andb_true_iff in Hc as [H1%Z.leb_le H2%Z.leb_le].
  assert (Hs : isspace c = false).
  { unfold isspace. apply orb_false_iff. split; [apply Z.eqb_neq; lia|].
    apply andb_false_iff. right. apply Z.leb_gt. lia. }
  cbn [skip_space]. rewrite Hs.
  rewrite !(proj2 (Z.eqb_neq _ _)) by lia. rewrite Hval. unfold LONG_MIN, LONG_MAX in *. lia.
Qed.

Lemma htons_involutive p : is_u16 p -> ntohs (htons p) = p.
Proof.
  intros Hp. unfold ntohs, htons. rewrite (to_u16_id p) by done. unfold is_u16 in Hp.
  assert (Hhi : Z.shiftr p 8 = p / 256) by (rewrite Z.shiftr_div_pow2; [done|lia]).
  assert (Hlo : Z.land p 255 = p `mod` 256) by (change 255 with (Z.ones 8); rewrite Z.land_ones; [done|lia]).
  pose proof (Z.mod_pos_bound p 256 ltac:(lia)) as Hm.
  pose proof (Z.div_lt_upper_bound p 256 256 ltac:(lia) ltac:(lia)) as Hd.
  pose proof (Z.div_pos p 256 ltac:(lia) ltac:(lia)) as Hd0.
  assert (Hswap : forall a b, 0 <= b < 256 -> Z.lor (Z.shiftl a 8) b = 256 * a + b).
  { intros a b Hb. pose proof (Z.add_lor_land (Z.shiftl a 8) b) as Hadd.
    assert (Hland : Z.land (Z.shiftl a 8) b = 0).
    { apply Z.bits_inj'. intros n Hn. rewrite Z.bits_0, Z.land_spec, Z.shiftl_spec by lia.
      destruct (Z.lt_ge_cases n 8).
      - by rewrite Z.testbit_neg_r by lia.
      - rewrite <- (Z.mod_small b (2 ^ 8)) by lia.
        rewrite Z.mod_pow2_bits_high by lia. apply andb_false_r. }
    rewrite Hland, Z.shiftl_mul_pow2 in * by lia. lia. }
  rewrite Hhi, Hlo, (Hswap (p `mod` 256) (p / 256)) by lia. clear Hhi Hlo.
  pose proof (Z.div_mod p 256 ltac:(lia)) as Hdm. revert Hm Hd Hd0 Hdm.
  generalize (p `mod` 256) (p / 256). intros m d Hm Hd Hd0 Hdm.
  rewrite to_u16_id by (unfold is_u16; lia).
  rewrite Z.shiftr_div_pow2 by lia. change 255 with (Z.ones 8). rewrite Z.land_ones by lia.
  change (2 ^ 8) with 256.
  assert (Hq : (256 * m + d) / 256 = m)
    by (rewrite (Z.mul_comm 256), Z.div_add_l, Z.div_small; lia).
  assert (Hr : (256 * m + d) `mod` 256 = d)
    by (rewrite (Z.mul_comm 256), Z.add_comm, Z.mod_add, Z.mod_small; lia).
  rewrite Hq, Hr, Hswap by lia. lia.
Qed.
