(* ===== verification/Setup.v ===== *)
(** * System calls made before the event loop

    Creating the listening socket and the ring, registering files, allocating
    tables.  As in [Uring.v] the kernel is
    a parameter: [Setup] is its interface, [SetupOk] says that these calls do
    not touch requests, completions, buffer groups or connections. *)

From S2P Require Import Prelude Uring RefKernel.

Definition AF_INET : Z := 2.
Definition SOCK_STREAM : Z := 1.
Definition SOCK_NONBLOCK : Z := 2048.
Definition SOL_SOCKET : Z := 1.
Definition SO_REUSEADDR : Z := 2.
Definition INADDR_ANY : Z := 0.
Definition SHUT_RDWR : Z := 2.
Definition IORING_SETUP_SQPOLL : Z := 2 ^ 1.
Definition IORING_FEAT_FAST_POLL : Z := 2 ^ 5.
Definition IORING_OP_PROVIDE_BUFFERS : Z := 31.

Record sockaddr_in : Type := SockAddrIn {
  sin_family : Z;
  sin_port : Z;
  sin_addr : Z
}.

Record io_uring_params : Type := Params {
  p_flags : Z;
  p_sq_thread_cpu : Z;
  p_sq_thread_idle : Z;
  p_features : Z
}.

(** [memset(&params, 0, sizeof(params))] *)
Definition zero_params : io_uring_params := Params 0 0 0 0.

Class Setup (K : Type) : Type := {
  k_socket : Z -> Z -> Z -> K -> Z * K;
  k_setsockopt : Z -> Z -> Z -> Z -> K -> Z * K;
  k_bind : Z -> sockaddr_in -> K -> Z * K;
  k_listen : Z -> Z -> K -> Z * K;
  (** [io_uring_queue_init_params]: the parameters it fills in. *)
  k_queue_init : Z -> io_uring_params -> K -> Z * io_uring_params * K;
  (** [io_uring_get_probe_ring], then [io_uring_opcode_supported]. *)
  k_probe : K -> option (Z -> bool) * K
}.

Section setup_laws.
Context {A U K : Type} `{!KernelView A U K}.

(** Nothing of what the interface exposes changes. *)
Definition same_view (k k' : K) : Prop :=
  k_inflight k' = k_inflight k /\ k_cq k' = k_cq k /\ same_conns k k' /\ same_groups k k'.

Lemma same_view_trans k1 k2 k3 : same_view k1 k2 -> same_view k2 k3 -> same_view k1 k3.
Proof.
  intros (H1 & H2 & H3 & H4) (H5 & H6 & H7 & H8). unfold same_view, same_conns, same_groups in *.
  split_and!; intros; congruence.
Qed.

End setup_laws.

Class SetupOk (A U K : Type) `{!KernelView A U K} `{!Setup K} : Prop := {
  socket_frame d t p k : same_view k (k_socket d t p k).2;
  setsockopt_frame fd l o v k : same_view k (k_setsockopt fd l o v k).2;
  bind_frame fd a k : same_view k (k_bind fd a k).2;
  listen_frame fd n k : same_view k (k_listen fd n k).2;
  queue_init_frame n p k : same_view k (k_queue_init n p k).2;
  probe_frame k : same_view k (k_probe k).2
}.

Section setup_programs.
Context {A U K Mem : Type} `{!Kernel A U K} `{!Setup K}.

Local Abbreviation st := (rstate A U K Mem).

(** A call that returns a value and leaves a new kernel state. *)
Definition syscall {R} (f : K -> R * K) : M st R := fun s =>
  let '(r, k) := f (rs_kern s) in Ok r (put_kern k s).

Definition socket (domain type protocol : Z) : M st Z := syscall (k_socket domain type protocol).
Definition setsockopt (fd level optname optval : Z) : M st Z :=
  syscall (k_setsockopt fd level optname optval).
Definition bind (fd : Z) (a : sockaddr_in) : M st Z := syscall (k_bind fd a).
Definition listen (fd backlog : Z) : M st Z := syscall (k_listen fd backlog).
Definition io_uring_queue_init_params (entries : Z) (p : io_uring_params) : M st (Z * io_uring_params) :=
  syscall (k_queue_init entries p).
Definition io_uring_get_probe_ring : M st (option (Z -> bool)) := syscall k_probe.

(** The ring and the checks of its features. *)
Definition init_ring (entries : Z) (params : io_uring_params) : M st unit :=
  r ← io_uring_queue_init_params entries params;
  if r.1 <? 0 then exit_ 1 else
  if negb (has_flag (p_features r.2) IORING_FEAT_FAST_POLL) then exit_ 0 else
  probe ← io_uring_get_probe_ring;
  match (probe : option (Z -> bool)) with
  | None => exit_ 0
  | Some supported => if supported IORING_OP_PROVIDE_BUFFERS then mret tt else exit_ 0
  end.

Lemma syscall_view {R} (f : K -> R * K) s r s' :
  syscall f s = Ok r s' -> (forall k, same_view k (f k).2) ->
  rs_sq s' = rs_sq s /\ rs_mem s' = rs_mem s /\ same_view (rs_kern s) (rs_kern s').
Proof.
  unfold syscall. intros Hs Hf. specialize (Hf (rs_kern s)).
  destruct (f (rs_kern s)) as [r' k]. by injection Hs as _ <-.
Qed.

End setup_programs.

(** ** Providing all buffers

    The demos and the provided-buffers server give their buffers to the kernel
    before anything else is submitted, and wait for the answer. *)
Section provide.
Context {A U K Mem : Type} `{!Liburing A U} `{!Kernel A U K}.

Local Abbreviation st := (rstate A U K Mem).

(** [nr] buffers of [len] bytes from address [a] on, numbered from 0.  The
    result of the wait is not looked at. *)
Definition provide_all (a : A) (len nr gid : Z) : M st unit :=
  sqe ← io_uring_get_sqe;
  io_uring_prep sqe (OpProvideBuffers a len nr gid 0) ;;
  io_uring_submit ;;
  r ← io_uring_wait_cqe;
  match snd (r : Z * option (cqe U)) with
  | None => ub
  | Some c => if cqe_res c <? 0 then exit_ 1 else io_uring_cqe_seen
  end.

Context `{!KernelOk A U K} {entries : nat} `{!LiburingOk A U entries}.

(** With no other request about, all of them are in the group when it returns. *)
Lemma provide_all_ok a len nr gid (s s' : st) :
  rs_sq s = [] -> k_inflight (rs_kern s) = [] -> k_cq (rs_kern s) = [] ->
  provide_all a len nr gid s = Ok tt s' ->
  rs_sq s' = [] /\ k_inflight (rs_kern s') = [] /\ k_cq (rs_kern s') = [] /\
  k_conns (rs_kern s') = k_conns (rs_kern s) /\
  k_group (rs_kern s') gid ≡ₚ k_group (rs_kern s) gid ++ seqZ 0 nr /\
  rs_mem s' = rs_mem s.
Proof.
  intros Hsq Hinf Hcq Hrun. unfold provide_all in Hrun.
  apply bind_inv_ok in Hrun as (p & s1 & H1 & Hrun). unfold io_uring_get_sqe in H1.
  destruct (lib_get_sqe (rs_sq s)) as [e0|]; [|by injection H1 as <- <-].
  injection H1 as <- <-. apply bind_inv_ok in Hrun as ([] & s2 & H2 & Hrun).
  unfold io_uring_prep, sqe_update, push_sqe in H2; simpl in H2. rewrite Hsq in H2. simpl in H2.
  injection H2 as <-. apply bind_inv_ok in Hrun as (r & s3 & H3 & Hrun).
  set (e := lib_prep _ e0) in H3.
  unfold io_uring_submit, io_uring_submit_and_wait in H3; simpl in H3.
  destruct (k_submit [e] 0 (rs_kern s)) as [[ret n] k1] eqn:Hsub. injection H3 as _ <-.
  apply bind_inv_ok in Hrun as (w & s4 & H4 & Hrun). unfold io_uring_wait_cqe in H4; simpl in H4.
  destruct (k_wait k1) as [wret k2] eqn:Hwait. injection H4 as <- <-. simpl in Hrun.
  destruct (one_request _ _ _ _ _ _ _ Hinf Hcq Hsub Hwait) as [Hc2|(k0 & c & Hn & (_ & _ & Hn0 & Hg0) & _ & Hp & Hc2 & Hi2)];
    rewrite Hc2 in Hrun; simpl in Hrun; [done|].
  destruct Hp as (_ & _ & _ & _ & Hd). unfold completes in Hd. unfold e in Hd. rewrite prep_op in Hd.
  destruct Hd as [Hn2 Hcases]. destruct (Z.ltb_spec (cqe_res c) 0); [done|]. injection Hrun as <-; simpl.
  destruct Hcases as [(_ & Hg2 & _)|[? _]]; [|lia]. destruct (advance_frame 1 k2) as (Hi5 & Hn5 & Hg5).
  rewrite advance_cq, Hc2, Hi5, Hi2, Hn5, Hn2, Hn0, Hg5. rewrite Hg0 in Hg2. done.
Qed.

End provide.

(** A kernel on which every set-up call succeeds. *)
Definition ref_setup {K} (listen_fd : Z) : Setup K := {|
  k_socket := fun _ _ _ k => (listen_fd, k);
  k_setsockopt := fun _ _ _ _ k => (0, k);
  k_bind := fun _ _ k => (0, k);
  k_listen := fun _ _ k => (0, k);
  k_queue_init := fun _ p k =>
    (0, Params (p_flags p) (p_sq_thread_cpu p) (p_sq_thread_idle p) IORING_FEAT_FAST_POLL, k);
  k_probe := fun k => (Some (fun _ => true), k)
|}.

Lemma ref_setup_ok {A U K} `{!KernelView A U K} fd : SetupOk A U K (Setup0 := ref_setup fd).
Proof. by split. Qed.

(** ** Registered files and memory

    The extra calls of the table-based servers: the resource limit, the ring's
    table of registered files and the allocator, of which they only need to
    know whether a call succeeded. *)

Class Register (K : Type) : Type := {
  (** [getrlimit(RLIMIT_NOFILE, &r)]: return value and [r.rlim_max]. *)
  k_getrlimit : K -> Z * Z * K;
  (** [io_uring_register_files(ring, files, n)] *)
  k_register_files : list Z -> K -> Z * K;
  (** [io_uring_register_files_update(ring, off, files, n)] *)
  k_register_files_update : Z -> list Z -> K -> Z * K;
  (** [calloc(a, b)] and [malloc(n)]: whether the result is not NULL. *)
  k_calloc : Z -> Z -> K -> bool * K;
  k_malloc : Z -> K -> bool * K
}.

Class RegisterOk (A U K : Type) `{!KernelView A U K} `{!Register K} : Prop := {
  getrlimit_frame k : same_view k (k_getrlimit k).2;
  getrlimit_range k : 0 <= (k_getrlimit k).1.2 < 2 ^ 64;
  register_files_frame l k : same_view k (k_register_files l k).2;
  register_files_update_frame off l k : same_view k (k_register_files_update off l k).2;
  calloc_frame a b k : same_view k (k_calloc a b k).2;
  (** calloc(3): an overflowing product is an error. *)
  calloc_overflow a b k : 2 ^ 64 <= a * b -> (k_calloc a b k).1 = false;
  malloc_frame n k : same_view k (k_malloc n k).2
}.

(** A kernel on which all of them succeed, with a limit of [rlim] files; the
    allocator refuses what does not fit 63 bits. *)
Definition ref_register {K} (rlim : Z) : Register K := {|
  k_getrlimit := fun k => (0, rlim, k);
  k_register_files := fun _ k => (0, k);
  k_register_files_update := fun _ l k => (Z.of_nat (length l), k);
  k_calloc := fun a b k => (a * b <? 2 ^ 63, k);
  k_malloc := fun n k => (n <? 2 ^ 63, k)
|}.

Lemma ref_register_ok {A U K} `{!KernelView A U K} rlim :
  0 <= rlim < 2 ^ 64 -> RegisterOk A U K (Register0 := ref_register rlim).
Proof.
  intros Hr. split; try done. intros a b k Hab. simpl. apply Z.ltb_ge. lia.
Qed.

(** ** Rings without parameters

    [io_uring_queue_init(entries, ring, flags)], [io_uring_queue_exit] and
    [io_uring_register_ring_fd], as the small programs use them. *)

Class RingSetup (K : Type) : Type := {
  k_ring_init : Z -> Z -> K -> Z * K;
  k_ring_exit : K -> K;
  k_register_ring_fd : K -> Z * K
}.

(** A new ring is empty, and registering it changes no request. *)
Class RingSetupOk (A U K : Type) `{!KernelView A U K} `{!RingSetup K} : Prop := {
  ring_init_frame n fl k : same_view k (k_ring_init n fl k).2;
  register_ring_fd_frame k : same_view k (k_register_ring_fd k).2
}.

Section ring_setup.
Context {A U K Mem : Type} `{!Kernel A U K} `{!RingSetup K}.

Local Abbreviation st := (rstate A U K Mem).

Definition io_uring_queue_init (entries flags : Z) : M st Z := syscall (k_ring_init entries flags).
Definition io_uring_register_ring_fd : M st Z := syscall k_register_ring_fd.
Definition io_uring_queue_exit : M st unit := modify (fun s => put_kern (k_ring_exit (rs_kern s)) s).

End ring_setup.

(** A kernel on which they succeed. *)
Definition ref_ring_setup {K} : RingSetup K := {|
  k_ring_init := fun _ _ k => (0, k);
  k_ring_exit := fun k => k;
  k_register_ring_fd := fun k => (1, k)
|}.

Lemma ref_ring_setup_ok {A U K} `{!KernelView A U K} : RingSetupOk A U K (RingSetup0 := ref_ring_setup).
Proof. by split. Qed.
