(* ===== verification/EchoServer.v ===== *)
(** * The provided-buffers echo server: [io_uring_echo_server.c]

    The request builders, the completion handler and the event loop of
    [netpoll/echo/c-iouring-server/io_uring_echo_server.c].  The server keeps
    no table of its own: what it must remember about a request travels in the
    request's [user_data] (see [ConnInfo]), and the message buffers are lent
    to the kernel as a buffer group. *)

From S2P Require Import Prelude Uring ConnInfo EventLoop.

Definition MAX_CONNECTIONS : Z := 4096.
Definition BACKLOG : Z := 512.
Definition MAX_MESSAGE_LEN : Z := 2048.
Definition BUFFERS_COUNT : Z := MAX_CONNECTIONS.
Definition group_id : Z := 1337.

Definition ACCEPT : Z := 0.
Definition READ : Z := 1.
Definition WRITE : Z := 2.
Definition PROV_BUF : Z := 3.

(** The addresses the program passes to the kernel: NULL, the two locals of
    [main] and the rows of [bufs]. *)
Inductive address : Type :=
| ANull
| AClientAddr
| AClientLen
| ABufs (bid : Z).

Section echo_server.
Context {K : Type} `{!Liburing address Z} `{!Kernel address Z K}.

Local Abbreviation st := (rstate address Z K unit).

Definition add_accept (fd : Z) (client_addr client_len : address) (flags : Z) : M st unit :=
  sqe ← io_uring_get_sqe;
  io_uring_prep sqe (OpAccept fd client_addr client_len 0) ;;
  io_uring_sqe_set_flags sqe flags ;;
  let conn_i := mk_conn_info fd ACCEPT 0 in
  set_user_data sqe (user_data_of_conn_info conn_i).

(** [message_size] is not used: the receive is prepared with length 0 and the
    kernel takes the length of the buffer it selects. *)
Definition add_socket_read (fd gid message_size flags : Z) : M st unit :=
  sqe ← io_uring_get_sqe;
  io_uring_prep sqe (OpRecv fd ANull 0 0) ;;
  io_uring_sqe_set_flags sqe flags ;;
  sqe_update sqe (sqe_put_buf_group gid) ;;
  let conn_i := mk_conn_info fd READ 0 in
  set_user_data sqe (user_data_of_conn_info conn_i).

(** [&bufs[bid]] is undefined beyond the rows of [bufs]. *)
Definition add_socket_write (fd bid message_size flags : Z) : M st unit :=
  let bid := to_u16 bid in
  sqe ← io_uring_get_sqe;
  if bid <? BUFFERS_COUNT then
    io_uring_prep sqe (OpSend fd (ABufs bid) message_size 0) ;;
    io_uring_sqe_set_flags sqe flags ;;
    let conn_i := mk_conn_info fd WRITE bid in
    set_user_data sqe (user_data_of_conn_info conn_i)
  else ub.

Definition add_provide_buf (bid gid : Z) : M st unit :=
  let bid := to_u16 bid in
  sqe ← io_uring_get_sqe;
  if bid <? BUFFERS_COUNT then
    io_uring_prep sqe (OpProvideBuffers (ABufs bid) MAX_MESSAGE_LEN 1 gid bid) ;;
    let conn_i := mk_conn_info 0 PROV_BUF 0 in
    set_user_data sqe (user_data_of_conn_info conn_i)
  else ub.

(** The body of [io_uring_for_each_cqe] in [main]. *)
Definition handle_cqe (sock_listen_fd : Z) (c : cqe Z) : M st unit :=
  let conn_i := conn_info_of_user_data (cqe_user_data c) in
  let type := ci_type conn_i in
  if cqe_res c =? - ENOBUFS then exit_ 1
  else if type =? PROV_BUF then
    if cqe_res c <? 0 then exit_ 1 else mret tt
  else if type =? ACCEPT then
    let sock_conn_fd := cqe_res c in
    (if 0 <=? sock_conn_fd
     then add_socket_read sock_conn_fd group_id MAX_MESSAGE_LEN IOSQE_BUFFER_SELECT
     else mret tt) ;;
    add_accept sock_listen_fd AClientAddr AClientLen 0
  else if type =? READ then
    let bytes_read := cqe_res c in
    let bid := Z.shiftr (cqe_flags c) 16 in
    if cqe_res c <=? 0 then
      add_provide_buf bid group_id ;;
      close (to_i32 (ci_fd conn_i)) ;;
      mret tt
    else add_socket_write (to_i32 (ci_fd conn_i)) bid bytes_read 0
  else if type =? WRITE then
    add_provide_buf (ci_bid conn_i) group_id ;;
    add_socket_read (to_i32 (ci_fd conn_i)) group_id MAX_MESSAGE_LEN IOSQE_BUFFER_SELECT
  else mret tt.

(** One turn of [while (1)]: the completions present when the call returns
    are handled in order, then all of them are consumed at once. *)
Definition event_loop_body (sock_listen_fd : Z) : M st unit :=
  io_uring_submit_and_wait 1 ;;
  s ← get;
  let cqes := k_cq (rs_kern s) in
  for_each (handle_cqe sock_listen_fd) cqes ;;
  io_uring_cq_advance (length cqes).

(** The two ends of a turn, for the interleaved loop of [EventLoop]. *)
Definition turn_start : M st unit := io_uring_submit_and_wait 1 ;; mret tt.
Definition turn_end (count : nat) : M st unit := io_uring_cq_advance count.

Definition echo_step (sock_listen_fd : Z) :=
  step turn_start (handle_cqe sock_listen_fd) turn_end.
Definition echo_reachable (sock_listen_fd : Z) :=
  reachable turn_start (handle_cqe sock_listen_fd) turn_end.

(** ** The entries the builders leave in the submission queue *)

Definition accept_sqe (fd : Z) (a l : address) (flags : Z) (e : sqe address Z) : sqe address Z :=
  sqe_put_user_data (user_data_of_conn_info (mk_conn_info fd ACCEPT 0))
    (lib_set_flags flags (lib_prep (OpAccept fd a l 0) e)).

Definition read_sqe (fd gid flags : Z) (e : sqe address Z) : sqe address Z :=
  sqe_put_user_data (user_data_of_conn_info (mk_conn_info fd READ 0))
    (sqe_put_buf_group gid (lib_set_flags flags (lib_prep (OpRecv fd ANull 0 0) e))).

Definition write_sqe (fd bid size flags : Z) (e : sqe address Z) : sqe address Z :=
  sqe_put_user_data (user_data_of_conn_info (mk_conn_info fd WRITE bid))
    (lib_set_flags flags (lib_prep (OpSend fd (ABufs bid) size 0) e)).

Definition provide_sqe (bid gid : Z) (e : sqe address Z) : sqe address Z :=
  sqe_put_user_data (user_data_of_conn_info (mk_conn_info 0 PROV_BUF 0))
    (lib_prep (OpProvideBuffers (ABufs bid) MAX_MESSAGE_LEN 1 gid bid) e).

Lemma bid_is_u16 bid : 0 <= bid < BUFFERS_COUNT -> is_u16 bid.
Proof. unfold BUFFERS_COUNT, MAX_CONNECTIONS, is_u16. lia. Qed.

Lemma add_accept_spec fd a l flags s :
  add_accept fd a l flags s = queue_one (accept_sqe fd a l flags) s.
Proof. fill_sqe (accept_sqe fd a l flags). Qed.

Lemma add_socket_read_spec fd gid n flags s :
  add_socket_read fd gid n flags s = queue_one (read_sqe fd gid flags) s.
Proof. fill_sqe (read_sqe fd gid flags). Qed.

Lemma add_socket_write_spec fd bid n flags s :
  0 <= bid < BUFFERS_COUNT ->
  add_socket_write fd bid n flags s = queue_one (write_sqe fd bid n flags) s.
Proof.
  intros Hb. unfold add_socket_write. rewrite to_u16_id by auto using bid_is_u16.
  rewrite (proj2 (Z.ltb_lt bid BUFFERS_COUNT)) by lia.
  fill_sqe (write_sqe fd bid n flags).
Qed.

Lemma add_provide_buf_spec bid gid s :
  0 <= bid < BUFFERS_COUNT ->
  add_provide_buf bid gid s = queue_one (provide_sqe bid gid) s.
Proof.
  intros Hb. unfold add_provide_buf. rewrite to_u16_id by auto using bid_is_u16.
  rewrite (proj2 (Z.ltb_lt bid BUFFERS_COUNT)) by lia.
  fill_sqe (provide_sqe bid gid).
Qed.

(** ** The handler, branch by branch

    Each lemma takes a completion whose [user_data] one of the builders wrote
    and gives the handler's effect: which entries it queues, what it closes,
    when it exits. *)

Lemma handle_enobufs lfd c s :
  cqe_res c = - ENOBUFS -> handle_cqe lfd c s = Exit 1 s.
Proof. intros Hr. unfold handle_cqe. by rewrite Hr. Qed.

Lemma handle_prov_buf lfd c s :
  cqe_user_data c = user_data_of_conn_info (mk_conn_info 0 PROV_BUF 0) ->
  handle_cqe lfd c s = if cqe_res c <? 0 then Exit 1 s else Ok tt s.
Proof.
  intros Hu. unfold handle_cqe. rewrite Hu, user_data_of_mk.
  destruct (Z.eqb_spec (cqe_res c) (- ENOBUFS)) as [->|_]; [done|].
  decode_type. by destruct (cqe_res c <? 0).
Qed.

Lemma handle_accept lfd fd c s :
  cqe_user_data c = user_data_of_conn_info (mk_conn_info fd ACCEPT 0) ->
  cqe_res c <> - ENOBUFS ->
  handle_cqe lfd c s =
    ((if 0 <=? cqe_res c
      then queue_one (read_sqe (cqe_res c) group_id IOSQE_BUFFER_SELECT)
      else mret tt) ;;
     queue_one (accept_sqe lfd AClientAddr AClientLen 0)) s.
Proof.
  intros Hu Hr. unfold handle_cqe. rewrite Hu, user_data_of_mk, (proj2 (Z.eqb_neq _ _) Hr).
  decode_type. mred. destruct (0 <=? cqe_res c); [rewrite add_socket_read_spec|].
  - destruct (queue_one _ _); auto using add_accept_spec.
  - apply add_accept_spec.
Qed.

Lemma handle_read_data lfd fd bid c s :
  is_fd fd -> 0 <= bid < BUFFERS_COUNT -> Z.shiftr (cqe_flags c) 16 = bid ->
  cqe_user_data c = user_data_of_conn_info (mk_conn_info fd READ 0) ->
  0 < cqe_res c ->
  handle_cqe lfd c s = queue_one (write_sqe fd bid (cqe_res c) 0) s.
Proof.
  intros Hfd Hb Hbid Hu Hr. unfold handle_cqe. rewrite Hu, user_data_of_mk, Hbid.
  rewrite (proj2 (Z.eqb_neq _ _)) by (unfold ENOBUFS; lia).
  decode_type. rewrite (proj2 (Z.leb_gt _ _) Hr), fd_roundtrip by done.
  by apply add_socket_write_spec.
Qed.

Lemma handle_read_end lfd fd bid c s :
  is_fd fd -> 0 <= bid < BUFFERS_COUNT -> Z.shiftr (cqe_flags c) 16 = bid ->
  cqe_user_data c = user_data_of_conn_info (mk_conn_info fd READ 0) ->
  cqe_res c <= 0 -> cqe_res c <> - ENOBUFS ->
  handle_cqe lfd c s =
    (queue_one (provide_sqe bid group_id) ;; close fd ;; mret tt) s.
Proof.
  intros Hfd Hb Hbid Hu Hr He. unfold handle_cqe. rewrite Hu, user_data_of_mk, Hbid.
  rewrite (proj2 (Z.eqb_neq _ _) He).
  decode_type. rewrite (proj2 (Z.leb_le _ _) Hr), fd_roundtrip by done.
  unfold mbind at 1 3, M_bind at 1 3. by rewrite add_provide_buf_spec.
Qed.

Lemma handle_write lfd fd bid c s :
  is_fd fd -> 0 <= bid < BUFFERS_COUNT ->
  cqe_user_data c = user_data_of_conn_info (mk_conn_info fd WRITE bid) ->
  cqe_res c <> - ENOBUFS ->
  handle_cqe lfd c s =
    (queue_one (provide_sqe bid group_id) ;;
     queue_one (read_sqe fd group_id IOSQE_BUFFER_SELECT)) s.
Proof.
  intros Hfd Hb Hu Hr. unfold handle_cqe. rewrite Hu, user_data_of_mk, (proj2 (Z.eqb_neq _ _) Hr).
  decode_type. rewrite fd_roundtrip, to_u16_id by auto using bid_is_u16.
  mred. rewrite add_provide_buf_spec by done.
  destruct (queue_one _ _); auto using add_socket_read_spec.
Qed.

Lemma handle_cqe_cq `{!KernelCalls address Z K} lfd c : preserving cq_of (handle_cqe lfd c).
Proof.
  unfold handle_cqe, add_provide_buf, add_socket_read, add_socket_write, add_accept,
    io_uring_prep, io_uring_sqe_set_flags, set_user_data.
  auto 20 with frame.
Qed.

End echo_server.
