(* ===== verification/EchoInv.v ===== *)
(** * Ownership in the provided-buffers echo server

    Every request the server issues holds resources: the accept token, a
    connection, a message buffer.  [handle_cqe] moves the resources a
    completion returns into the requests it queues; the kernel moves them
    between the submission queue, the requests in flight, the completions and
    the buffer group.  Nothing is lost, and nothing is duplicated except buffer
    0: a receive that fails or sees the end of the stream may report no buffer;
    its flags are then 0, which the handler takes for buffer 0, and it returns
    that buffer although nobody gave it out. *)

From S2P Require Import Prelude Uring ConnInfo EventLoop EchoServer.

Inductive resource : Type :=
| RAccept
| RConn (fd : Z)
| RBuf (bid : Z).

#[export] Instance resource_eq_dec : EqDecision resource.
Proof. solve_decision. Defined.

#[export] Instance RConn_inj : Inj (=) (=) RConn.
Proof. by intros ?? [= ->]. Qed.
#[export] Instance RBuf_inj : Inj (=) (=) RBuf.
Proof. by intros ?? [= ->]. Qed.

(** The resources a request holds, by the operation it asks for. *)
Definition sqe_resources (e : sqe address Z) : list resource :=
  match sqe_op e with
  | OpAccept _ _ _ _ => [RAccept]
  | OpRecv fd _ _ _ => [RConn fd]
  | OpSend fd (ABufs bid) _ _ => [RConn fd; RBuf bid]
  | OpProvideBuffers _ _ _ _ bid => [RBuf bid]
  | _ => []
  end.

(** The resources a completion hands back to the server, by its [user_data]. *)
Definition cqe_resources (c : cqe Z) : list resource :=
  let ci := conn_info_of_user_data (cqe_user_data c) in
  let fd := to_i32 (ci_fd ci) in
  if ci_type ci =? ACCEPT then
    RAccept :: (if 0 <=? cqe_res c then [RConn (cqe_res c)] else [])
  else if ci_type ci =? READ then
    RConn fd :: (if cqe_flags c =? 0 then [] else [RBuf (Z.shiftr (cqe_flags c) 16)])
  else if ci_type ci =? WRITE then [RConn fd; RBuf (ci_bid ci)]
  else [].

(** The completions on which the server gives up. *)
Definition fatal (c : cqe Z) : bool :=
  (cqe_res c =? - ENOBUFS) ||
  ((ci_type (conn_info_of_user_data (cqe_user_data c)) =? PROV_BUF) && (cqe_res c <? 0)).

(** A receive that reports no buffer. *)
Definition unreported (c : cqe Z) : bool :=
  (ci_type (conn_info_of_user_data (cqe_user_data c)) =? READ) && (cqe_flags c =? 0).

Definition bid_ok (bid : Z) : Prop := 0 <= bid < BUFFERS_COUNT.

(** The requests the server issues, with the [user_data] each carries. *)
Inductive request (lfd : Z) : sqe address Z -> Prop :=
| request_accept e a l :
    sqe_op e = OpAccept lfd a l 0 ->
    sqe_user_data e = user_data_of_conn_info (mk_conn_info lfd ACCEPT 0) ->
    request lfd e
| request_read e fd :
    is_fd fd -> sqe_op e = OpRecv fd ANull 0 0 ->
    sqe_flags e = IOSQE_BUFFER_SELECT -> sqe_buf_group e = group_id ->
    sqe_user_data e = user_data_of_conn_info (mk_conn_info fd READ 0) ->
    request lfd e
| request_write e fd bid n :
    is_fd fd -> bid_ok bid -> sqe_op e = OpSend fd (ABufs bid) n 0 ->
    sqe_user_data e = user_data_of_conn_info (mk_conn_info fd WRITE bid) ->
    request lfd e
| request_provide e bid :
    bid_ok bid ->
    sqe_op e = OpProvideBuffers (ABufs bid) MAX_MESSAGE_LEN 1 group_id bid ->
    sqe_user_data e = user_data_of_conn_info (mk_conn_info 0 PROV_BUF 0) ->
    request lfd e.

(** The completions of those requests. *)
Inductive completion (lfd : Z) : cqe Z -> Prop :=
| completion_accept c :
    cqe_user_data c = user_data_of_conn_info (mk_conn_info lfd ACCEPT 0) ->
    cqe_res c < 0 \/ is_fd (cqe_res c) ->
    completion lfd c
| completion_read c fd :
    is_fd fd ->
    cqe_user_data c = user_data_of_conn_info (mk_conn_info fd READ 0) ->
    (exists bid, reports_buffer c bid /\ bid_ok bid) \/ (cqe_flags c = 0 /\ cqe_res c <= 0) ->
    completion lfd c
| completion_write c fd bid :
    is_fd fd -> bid_ok bid ->
    cqe_user_data c = user_data_of_conn_info (mk_conn_info fd WRITE bid) ->
    completion lfd c
| completion_provide c :
    cqe_user_data c = user_data_of_conn_info (mk_conn_info 0 PROV_BUF 0) ->
    completion lfd c.

Lemma reported_flags (c : cqe Z) bid : reports_buffer c bid -> cqe_flags c <> 0.
Proof. intros [_ Hf] H0. rewrite Hf in H0. by apply Z.lor_eq_0_iff in H0 as [? _]. Qed.

Section ownership.
Context {K : Type} `{!Liburing address Z} `{!Kernel address Z K}.
Context {entries : nat} `{!LiburingOk address Z entries} `{!KernelOk address Z K}.
Context (lfd : Z).

Local Abbreviation st := (rstate address Z K unit).

(** ** The handler conserves resources *)

Lemma accept_sqe_request e : request lfd (accept_sqe lfd AClientAddr AClientLen 0 e).
Proof.
  eapply request_accept; simpl; [|done]. by rewrite set_flags_op, prep_op.
Qed.

Lemma read_sqe_request fd e :
  is_fd fd -> request lfd (read_sqe fd group_id IOSQE_BUFFER_SELECT e).
Proof.
  intros Hfd. eapply request_read; simpl; [done|..|done].
  - by rewrite set_flags_op, prep_op.
  - by rewrite set_flags_flags.
  - done.
Qed.

Lemma write_sqe_request fd bid n flags e :
  is_fd fd -> bid_ok bid -> request lfd (write_sqe fd bid n flags e).
Proof.
  intros Hfd Hb. eapply request_write; simpl; [done|done|..|done].
  by rewrite set_flags_op, prep_op.
Qed.

Lemma provide_sqe_request bid e : bid_ok bid -> request lfd (provide_sqe bid group_id e).
Proof. intros Hb. eapply request_provide; simpl; [done|..|done]. by rewrite prep_op. Qed.

Lemma accept_sqe_resources e : sqe_resources (accept_sqe lfd AClientAddr AClientLen 0 e) = [RAccept].
Proof. unfold sqe_resources; simpl. by rewrite set_flags_op, prep_op. Qed.

Lemma read_sqe_resources fd gid flags e : sqe_resources (read_sqe fd gid flags e) = [RConn fd].
Proof. unfold sqe_resources; simpl. by rewrite set_flags_op, prep_op. Qed.

Lemma write_sqe_resources fd bid n flags e :
  sqe_resources (write_sqe fd bid n flags e) = [RConn fd; RBuf bid].
Proof. unfold sqe_resources; simpl. by rewrite set_flags_op, prep_op. Qed.

Lemma provide_sqe_resources bid gid e : sqe_resources (provide_sqe bid gid e) = [RBuf bid].
Proof. unfold sqe_resources; simpl. by rewrite prep_op. Qed.

(** Closing the descriptors of a list, in order. *)
Definition close_all (fds : list Z) (k : K) : K := foldl (fun k fd => (k_close fd k).2) k fds.

(** What the handler makes out of nothing. *)
Definition invented (c : cqe Z) : list resource := if unreported c then [RBuf 0] else [].

(** What one call of the handler does: [new] requests queued, the descriptors
    [closed] closed, and the resources of the completion redistributed. *)
Definition handled (c : cqe Z) (s s' : st) : Prop :=
  fatal c = false /\
  exists new closed,
    rs_sq s' = rs_sq s ++ new /\ Forall (request lfd) new /\
    rs_kern s' = close_all closed (rs_kern s) /\
    cqe_resources c ++ invented c ≡ₚ (new ≫= sqe_resources) ++ (RConn <$> closed).

Lemma queue_one_inv f (s s' : st) :
  queue_one f s = Ok tt s' -> exists e, s' = push_sqe (f e) s.
Proof. unfold queue_one. destruct (lib_get_sqe _); naive_solver. Qed.

Lemma queue_two_inv f g (s s' : st) :
  (queue_one f ;; queue_one g) s = Ok tt s' ->
  exists e e', s' = push_sqe (g e') (push_sqe (f e) s).
Proof.
  intros ([] & s1 & H1 & H2)%bind_inv_ok.
  apply queue_one_inv in H1 as [e ->]. apply queue_one_inv in H2 as [e' ->]. eauto.
Qed.

Lemma close_inv fd (s s' : st) r :
  close fd s = Ok r s' -> s' = put_kern ((k_close fd (rs_kern s)).2) s.
Proof. unfold close. destruct (k_close fd (rs_kern s)); simpl. congruence. Qed.

(** The resources of a completion, decoded. *)
Lemma cqe_resources_read fd bid (c : cqe Z) :
  is_fd fd -> cqe_user_data c = user_data_of_conn_info (mk_conn_info fd READ 0) ->
  reports_buffer c bid -> cqe_resources c = [RConn fd; RBuf bid] /\ invented c = [].
Proof.
  intros Hfd Hu Hb. unfold cqe_resources, invented, unreported. rewrite Hu, user_data_of_mk, (shiftr_reported _ _ Hb).
  apply reported_flags in Hb. decode_type. by rewrite (proj2 (Z.eqb_neq _ _) Hb), fd_roundtrip.
Qed.

Lemma cqe_resources_unreported fd (c : cqe Z) :
  is_fd fd -> cqe_user_data c = user_data_of_conn_info (mk_conn_info fd READ 0) ->
  cqe_flags c = 0 -> cqe_resources c = [RConn fd] /\ invented c = [RBuf 0].
Proof.
  intros Hfd Hu Hf. unfold cqe_resources, invented, unreported. rewrite Hu, user_data_of_mk, Hf.
  decode_type. by rewrite fd_roundtrip.
Qed.

Lemma invented_other (c : cqe Z) fd type bid :
  cqe_user_data c = user_data_of_conn_info (mk_conn_info fd type bid) -> to_u16 type <> READ -> invented c = [].
Proof.
  intros Hu Ht. unfold invented, unreported. rewrite Hu, user_data_of_mk. simpl. by rewrite (proj2 (Z.eqb_neq _ _) Ht).
Qed.

Lemma cqe_resources_write fd bid (c : cqe Z) :
  is_fd fd -> bid_ok bid ->
  cqe_user_data c = user_data_of_conn_info (mk_conn_info fd WRITE bid) ->
  cqe_resources c = [RConn fd; RBuf bid].
Proof.
  intros Hfd Hb Hu. unfold cqe_resources. rewrite Hu, user_data_of_mk.
  decode_type. by rewrite fd_roundtrip, to_u16_id by auto using bid_is_u16.
Qed.

Lemma cqe_resources_accept fd (c : cqe Z) :
  cqe_user_data c = user_data_of_conn_info (mk_conn_info fd ACCEPT 0) ->
  cqe_resources c = RAccept :: (if 0 <=? cqe_res c then [RConn (cqe_res c)] else []).
Proof. intros Hu. unfold cqe_resources. rewrite Hu, user_data_of_mk. by decode_type. Qed.

Lemma cqe_resources_provide (c : cqe Z) :
  cqe_user_data c = user_data_of_conn_info (mk_conn_info 0 PROV_BUF 0) -> cqe_resources c = [].
Proof. intros Hu. unfold cqe_resources. rewrite Hu, user_data_of_mk. by decode_type. Qed.

Lemma fatal_spec (c : cqe Z) fd type bid :
  cqe_user_data c = user_data_of_conn_info (mk_conn_info fd type bid) ->
  fatal c = (cqe_res c =? - ENOBUFS) || ((to_u16 type =? PROV_BUF) && (cqe_res c <? 0)).
Proof. intros Hu. unfold fatal. by rewrite Hu, user_data_of_mk. Qed.

(** A fatal completion ends the server. *)
Lemma handle_fatal c (s : st) : completion lfd c -> fatal c = true -> handle_cqe lfd c s = Exit 1 s.
Proof.
  intros Hc Hf. destruct (Z.eq_dec (cqe_res c) (- ENOBUFS)) as [He|He];
    [by apply handle_enobufs|].
  destruct Hc as [c Hu _|c fd _ Hu _|c fd bid _ _ Hu|c Hu];
    rewrite (fatal_spec _ _ _ _ Hu), (proj2 (Z.eqb_neq _ _) He) in Hf; try done.
  rewrite handle_prov_buf by done.
  destruct (cqe_res c <? 0); [done|]. by rewrite andb_false_r in Hf.
Qed.

Lemma handle_handled c (s s' : st) :
  completion lfd c -> handle_cqe lfd c s = Ok tt s' -> handled c s s'.
Proof.
  intros Hc Hrun. destruct (fatal c) eqn:Hf; [by rewrite handle_fatal in Hrun|].
  assert (He : cqe_res c <> - ENOBUFS).
  { intros He. unfold fatal in Hf. by rewrite He, Z.eqb_refl in Hf. }
  split; [done|]. destruct Hc as [c Hu Hr|c fd Hfd Hu Hr|c fd bid Hfd Hb Hu|c Hu].
  - rewrite (handle_accept lfd lfd) in Hrun by done.
    rewrite (cqe_resources_accept lfd), (invented_other _ _ _ _ Hu), app_nil_r by done.
    destruct (Z.leb_spec 0 (cqe_res c)) as [Hp|Hn].
    + apply queue_two_inv in Hrun as (e & e' & ->). eexists [_; _], []. simpl.
      rewrite <- app_assoc. split_and!; [done| |done|].
      * repeat constructor; [|apply accept_sqe_request]. apply read_sqe_request.
        destruct Hr; [lia|done].
      * rewrite accept_sqe_resources, read_sqe_resources. simpl. apply Permutation_swap.
    + apply queue_one_inv in Hrun as (e & ->). eexists [_], []. simpl.
      rewrite accept_sqe_resources. split_and!; [done| |done|done].
      repeat constructor. apply accept_sqe_request.
  - destruct Hr as [(bid & Hrep & Hb)|[Hf0 Hn]].
    2:{ destruct (cqe_resources_unreported fd c) as [-> ->]; [done..|].
        rewrite (handle_read_end lfd fd 0) in Hrun by (done || by rewrite Hf0).
        apply bind_inv_ok in Hrun as ([] & s1 & H1 & Hrun). apply queue_one_inv in H1 as [e ->].
        apply bind_inv_ok in Hrun as (r & s2 & H2 & [= <-]). apply close_inv in H2 as ->.
        eexists [_], [fd]. simpl. rewrite provide_sqe_resources.
        split_and!; [done| |done|apply Permutation_swap].
        repeat constructor. by apply provide_sqe_request. }
    destruct (cqe_resources_read fd bid c) as [-> ->]; [done..|]. rewrite app_nil_r. apply shiftr_reported in Hrep.
    destruct (Z.leb_spec (cqe_res c) 0) as [Hn|Hp].
    + rewrite (handle_read_end lfd fd bid) in Hrun by done.
      apply bind_inv_ok in Hrun as ([] & s1 & H1 & Hrun). apply queue_one_inv in H1 as [e ->].
      apply bind_inv_ok in Hrun as (r & s2 & H2 & [= <-]). apply close_inv in H2 as ->.
      eexists [_], [fd]. simpl. rewrite provide_sqe_resources.
      split_and!; [done| |done|apply Permutation_swap].
      repeat constructor. by apply provide_sqe_request.
    + rewrite (handle_read_data lfd fd bid) in Hrun by done.
      apply queue_one_inv in Hrun as [e ->]. eexists [_], []. simpl.
      rewrite write_sqe_resources. split_and!; [done| |done|done].
      repeat constructor. by apply write_sqe_request.
  - rewrite (handle_write lfd fd bid) in Hrun by done.
    rewrite (cqe_resources_write fd bid), (invented_other _ _ _ _ Hu), app_nil_r by done.
    apply queue_two_inv in Hrun as (e & e' & ->). eexists [_; _], []. simpl.
    rewrite <- app_assoc. split_and!; [done| |done|].
    + repeat constructor; [by apply provide_sqe_request|by apply read_sqe_request].
    + rewrite provide_sqe_resources, read_sqe_resources. simpl. apply Permutation_swap.
  - rewrite handle_prov_buf in Hrun by done.
    rewrite cqe_resources_provide, (invented_other _ _ _ _ Hu) by done.
    destruct (cqe_res c <? 0); [done|]. injection Hrun as <-.
    exists [], []. by rewrite app_nil_r.
Qed.

(** ** The kernel conserves resources *)

(** All there is to own: the accept token, one token per open connection, one
    per message buffer. *)
Definition total (k : K) : list resource :=
  RAccept :: (RConn <$> k_conns k) ++ (RBuf <$> seqZ 0 BUFFERS_COUNT).

Definition pool (k : K) : list resource := RBuf <$> k_group k group_id.

(** The completion [c] of request [e] passes the resources of [e] on;
    [fresh] appear with a new connection, [lost] disappear. *)
Definition passes_on (e : sqe address Z) (c : cqe Z) (k k' : K) (fresh lost : list resource) : Prop :=
  sqe_resources e ++ pool k ++ fresh ≡ₚ cqe_resources c ++ pool k' ++ lost /\
  total k' ≡ₚ fresh ++ total k.

Lemma same_conns_total (k k' : K) : same_conns k k' -> total k' = total k.
Proof. unfold same_conns, total. by intros ->. Qed.

Lemma same_groups_pool (k k' : K) : same_groups k k' -> pool k' = pool k.
Proof. intros Hg. unfold pool. by rewrite Hg. Qed.

Lemma accept_passes_on e a l c (k k' : K) :
  sqe_op e = OpAccept lfd a l 0 ->
  cqe_user_data c = user_data_of_conn_info (mk_conn_info lfd ACCEPT 0) ->
  accept_completes c k k' ->
  exists fresh, passes_on e c k k' fresh [] /\ completion lfd c.
Proof.
  intros Hop Hu [Hg Hcases]. unfold passes_on, sqe_resources.
  rewrite Hop, (cqe_resources_accept lfd c Hu), (same_groups_pool _ _ Hg).
  destruct Hcases as [(Hfd & _ & Hc)|[Hneg Hc]].
  - exists [RConn (cqe_res c)]. split; [|by apply completion_accept; [|right]].
    rewrite (proj2 (Z.leb_le _ _)) by apply Hfd. unfold total. rewrite Hc, fmap_cons.
    generalize (RBuf <$> seqZ 0 BUFFERS_COUNT). intros bufs. split; solve_Permutation.
  - exists []. split; [|by apply completion_accept; [|left]].
    rewrite (proj2 (Z.leb_gt _ _)) by done. rewrite (same_conns_total _ _ Hc). done.
Qed.

Lemma provide_passes_on e bid c (k k' : K) :
  sqe_op e = OpProvideBuffers (ABufs bid) MAX_MESSAGE_LEN 1 group_id bid ->
  cqe_user_data c = user_data_of_conn_info (mk_conn_info 0 PROV_BUF 0) ->
  provide_completes group_id bid 1 c k k' ->
  exists lost, passes_on e c k k' [] lost /\ (lost = [] \/ fatal c = true).
Proof.
  intros Hop Hu [Hc Hcases]. unfold passes_on, sqe_resources.
  rewrite Hop, (cqe_resources_provide c Hu), (same_conns_total _ _ Hc).
  destruct Hcases as [(Hpos & Hg & _)|[Hneg Hg]].
  - exists []. split; [|by left]. split; [|done]. unfold pool. rewrite Hg, fmap_app.
    change (seqZ bid 1) with [0 + bid]. rewrite Z.add_0_l. simpl. solve_Permutation.
  - exists [RBuf bid]. rewrite (same_groups_pool _ _ Hg).
    split; [split; [solve_Permutation|done]|right].
    rewrite (fatal_spec _ _ _ _ Hu), (proj2 (Z.ltb_lt _ _) Hneg). apply orb_true_r.
Qed.

Lemma read_passes_on e fd c (k k' : K) :
  is_fd fd -> sqe_op e = OpRecv fd ANull 0 0 ->
  cqe_user_data c = user_data_of_conn_info (mk_conn_info fd READ 0) ->
  select_completes group_id c k k' -> Forall bid_ok (k_group k group_id) ->
  passes_on e c k k' [] [] /\ completion lfd c.
Proof.
  intros Hfd Hop Hu (Hc & _ & Hcases) Hok. unfold passes_on, sqe_resources.
  rewrite Hop, (same_conns_total _ _ Hc).
  destruct Hcases as [(bid & Hb & He & Hg)|[(He & Hg & Hg' & Hf)|(Hr & He & Hg & Hf)]].
  - destruct (cqe_resources_read fd bid c) as [-> _]; [done..|]. unfold pool. rewrite Hg.
    split; [split; [|done]; rewrite fmap_cons; solve_Permutation|].
    eapply completion_read; [done..|left; exists bid; split; [done|]].
    rewrite Hg in Hok. by apply Forall_cons in Hok as [? _].
  - destruct (cqe_resources_unreported fd c) as [-> _]; [done..|]. unfold pool. rewrite Hg, Hg'.
    split; [done|]. eapply completion_read; [done..|right]. split; [done|]. rewrite He. unfold ENOBUFS. lia.
  - destruct (cqe_resources_unreported fd c) as [-> _]; [done..|]. unfold pool. rewrite Hg.
    split; [done|]. eapply completion_read; [done..|by right].
Qed.

Lemma post_passes_on (k k' : K) e c :
  request lfd e -> Forall bid_ok (k_group k group_id) ->
  k_post k k' -> posts k k' e c ->
  exists fresh lost, passes_on e c k k' fresh lost /\
    completion lfd c /\ (lost = [] \/ fatal c = true).
Proof.
  intros Hreq Hok Hpost Hposts. pose proof Hposts as (_ & _ & Hu & _ & Hdone).
  destruct Hreq as [e a l Hop Hud|e fd Hfd Hop Hfl Hgr Hud|e fd bid n Hfd Hb Hop Hud|e bid Hb Hop Hud];
    unfold completes in Hdone; rewrite Hop in Hdone; rewrite Hud in Hu.
  - edestruct accept_passes_on as (fresh & ? & ?); [done..|]. exists fresh, []. auto.
  - rewrite Hfl, Hgr in Hdone. change (has_flag _ _) with true in Hdone.
    destruct (read_passes_on e fd c k k' Hfd Hop Hu Hdone) as [? ?]; [done|]. exists [], []. auto.
  - destruct Hdone as [Hc Hg]. exists [], []. unfold passes_on, sqe_resources.
    rewrite Hop, (cqe_resources_write fd bid), (same_conns_total _ _ Hc), (same_groups_pool _ _ Hg)
      by done.
    split; [done|split; [by eapply completion_write|by left]].
  - edestruct provide_passes_on as (lost & ? & ?); [done..|]. exists [], lost.
    split_and!; [done|by apply completion_provide|done].
Qed.

(** ** The invariant *)

(** Who owns what when the first [n] completions of the queue are handled. *)
Definition owned (s : st) (n : nat) : list resource :=
  (rs_sq s ≫= sqe_resources) ++ (k_inflight (rs_kern s) ≫= sqe_resources) ++
  (drop n (k_cq (rs_kern s)) ≫= cqe_resources) ++ pool (rs_kern s).

Record echo_inv (s : st) (n : nat) : Prop := EchoInvariant {
  inv_pos : (n <= length (k_cq (rs_kern s)))%nat;
  inv_sq : Forall (request lfd) (rs_sq s);
  inv_inflight : Forall (request lfd) (k_inflight (rs_kern s));
  inv_cq : Forall (completion lfd) (drop n (k_cq (rs_kern s)));
  inv_conns : NoDup (k_conns (rs_kern s));
  inv_owned : exists lost d, owned s n ++ lost ≡ₚ replicate d (RBuf 0) ++ total (rs_kern s) /\
    (lost = [] \/ Exists (fun c => fatal c = true) (drop n (k_cq (rs_kern s))))
}.

Lemma total_bufs (k : K) bid : RBuf bid ∈ total k <-> bid_ok bid.
Proof.
  unfold total, bid_ok. rewrite elem_of_cons, elem_of_app, !list_elem_of_fmap.
  setoid_rewrite elem_of_seqZ. naive_solver.
Qed.

Lemma total_conns (k : K) fd : RConn fd ∈ total k <-> fd ∈ k_conns k.
Proof. unfold total. rewrite elem_of_cons, elem_of_app, !list_elem_of_fmap. naive_solver. Qed.

(** Copies of buffer 0 are no new resource. *)
Lemma copies_in_total d r (k : K) : r ∈ replicate d (RBuf 0) ++ total k -> r ∈ total k.
Proof.
  intros [[-> _]%elem_of_replicate|Hr]%elem_of_app; [|done]. by apply total_bufs.
Qed.

Lemma owned_in_total s n r : echo_inv s n -> r ∈ owned s n -> r ∈ total (rs_kern s).
Proof.
  intros [_ _ _ _ _ (lost & d & Hp & _)] Hr. apply (copies_in_total d). rewrite <- Hp. apply elem_of_app. by left.
Qed.

Lemma inv_group s n : echo_inv s n -> Forall bid_ok (k_group (rs_kern s) group_id).
Proof.
  intros Hi. apply Forall_forall. intros bid Hb. apply (total_bufs (rs_kern s)).
  apply (owned_in_total s n _ Hi). unfold owned. rewrite !elem_of_app. do 3 right.
  apply list_elem_of_fmap. eauto.
Qed.

Lemma post_conns_nodup (k k' : K) e c :
  posts k k' e c -> NoDup (k_conns k) -> NoDup (k_conns k').
Proof.
  intros (_ & _ & _ & _ & Hd) Hn. unfold completes in Hd.
  assert (Hsame : same_conns k k' -> NoDup (k_conns k')) by (intros ->; done).
  destruct (sqe_op e); try (apply Hsame; tauto).
  - destruct Hd as [_ [(_ & Hf & ->)|[_ Hs]]]; [by constructor|auto].
  - destruct (has_flag _ _); apply Hsame; apply Hd.
  - destruct (has_flag _ _); apply Hsame; apply Hd.
  - apply Hsame, Hd.
Qed.

Lemma echo_inv_post s n k' :
  echo_inv s n -> k_post (rs_kern s) k' -> echo_inv (put_kern k' s) n.
Proof.
  intros Hi Hpost. pose proof (inv_group _ _ Hi) as Hgroup.
  destruct Hi as [Hpos Hsq Hfl Hcq Hconns (lost & d & Hown & Hlost)].
  destruct (post_spec _ _ Hpost) as (e & c & Hp).
  pose proof Hp as (Hin & Hq & _). rewrite Hin in Hfl. apply Forall_cons in Hfl as [He Hfl].
  destruct (post_passes_on (rs_kern s) k' e c) as (fresh & lost' & [Hbal Htot] & Hc & Hl); [done..|].
  split; simpl; try done.
  - rewrite Hq, length_app. lia.
  - rewrite Hq, drop_app_le, Forall_app by done. auto.
  - eauto using post_conns_nodup.
  - exists (lost' ++ lost), d. unfold owned in *; simpl. rewrite Hq, drop_app_le by done. rewrite list_bind_snoc.
    assert (Hall : replicate d (RBuf 0) ++ total k' ≡ₚ fresh ++ replicate d (RBuf 0) ++ total (rs_kern s))
      by (rewrite Htot; apply Permutation_app_swap_app).
    rewrite Hall, <- Hown, Hin, bind_cons. split.
    + transitivity ((rs_sq s ≫= sqe_resources) ++ (k_inflight k' ≫= sqe_resources) ++
        (drop n (k_cq (rs_kern s)) ≫= cqe_resources) ++
        (cqe_resources c ++ pool k' ++ lost') ++ lost); [solve_Permutation|].
      rewrite <- Hbal. solve_Permutation.
    + rewrite Exists_app, Exists_cons. destruct Hl as [->|Hl]; [|by right; right; left].
      destruct Hlost as [->|Hlost]; [by left|by right; left].
Qed.

Lemma echo_inv_posts s n k' :
  echo_inv s n -> rtc k_post (rs_kern s) k' -> echo_inv (put_kern k' s) n.
Proof.
  intros Hi Hr. remember (rs_kern s) as k eqn:Hk. revert s Hi Hk.
  induction Hr as [k|k k1 k' H1 _ IH]; intros s Hi ->; [by destruct s|].
  apply (IH (put_kern k1 s)); [|done]. by apply echo_inv_post.
Qed.

Lemma close_frame fd (k : K) :
  k_inflight (k_close fd k).2 = k_inflight k /\ k_cq (k_close fd k).2 = k_cq k /\
  same_groups k (k_close fd k).2 /\
  k_conns (k_close fd k).2 = filter (fun x => x <> fd) (k_conns k).
Proof. pose proof (close_spec fd k) as H. by destruct (k_close fd k). Qed.

Lemma close_all_frame fds (k : K) :
  k_inflight (close_all fds k) = k_inflight k /\ k_cq (close_all fds k) = k_cq k /\
  same_groups k (close_all fds k).
Proof.
  revert k. induction fds as [|fd fds IH]; intros k; [done|].
  change (close_all (fd :: fds) k) with (close_all fds (k_close fd k).2).
  destruct (IH (k_close fd k).2) as (-> & -> & Hg), (close_frame fd k) as (-> & -> & Hg' & _).
  split_and!; [done..|]. intros g. unfold same_groups in *. by rewrite <- Hg', <- Hg.
Qed.

Lemma close_total fd (k : K) :
  NoDup (k_conns k) -> fd ∈ k_conns k -> total k ≡ₚ RConn fd :: total (k_close fd k).2.
Proof.
  intros Hn Hin. unfold total. destruct (close_frame fd k) as (_ & _ & _ & ->).
  assert (Hp : k_conns k ≡ₚ fd :: filter (fun x => x <> fd) (k_conns k)).
  { apply NoDup_Permutation; [done| |].
    - constructor; [rewrite list_elem_of_filter; naive_solver|by apply NoDup_filter].
    - intros x. rewrite elem_of_cons, list_elem_of_filter. destruct (decide (x = fd)); naive_solver. }
  generalize (RBuf <$> seqZ 0 BUFFERS_COUNT). intros bufs.
  rewrite Hp at 1. rewrite fmap_cons. solve_Permutation.
Qed.

Lemma close_all_total fds rest d (k : K) :
  NoDup (k_conns k) -> (RConn <$> fds) ++ rest ≡ₚ replicate d (RBuf 0) ++ total k ->
  rest ≡ₚ replicate d (RBuf 0) ++ total (close_all fds k) /\ NoDup (k_conns (close_all fds k)).
Proof.
  revert k. induction fds as [|fd fds IH]; intros k Hn Hp; [done|].
  assert (Hin : fd ∈ k_conns k).
  { apply total_conns, (copies_in_total d). rewrite <- Hp. by left. }
  apply (IH (k_close fd k).2).
  - destruct (close_frame fd k) as (_ & _ & _ & ->). by apply NoDup_filter.
  - apply (Permutation_cons_inv (a := RConn fd)). rewrite fmap_cons in Hp. simpl in Hp.
    rewrite Hp, (close_total fd k) by done. symmetry. apply Permutation_middle.
Qed.

Lemma echo_inv_handle s n c s' :
  echo_inv s n -> k_cq (rs_kern s) !! n = Some c -> handle_cqe lfd c s = Ok tt s' ->
  echo_inv s' (S n).
Proof.
  intros [Hpos Hsq Hfl Hcq Hconns (lost & d & Hown & Hlost)] Hc Hrun.
  pose proof (drop_S _ _ _ Hc) as Hdrop. rewrite Hdrop in Hcq, Hlost.
  apply Forall_cons in Hcq as [Hcc Hcq].
  destruct (handle_handled c s s') as (Hnf & new & closed & Hs' & Hnew & Hk & Hres); [done..|].
  destruct (close_all_frame closed (rs_kern s)) as (Hinf & Hq & Hg). rewrite <- Hk in *.
  set (d' := (length (invented c) + d)%nat).
  assert (Hinv : invented c ++ replicate d (RBuf 0) = replicate d' (RBuf 0)).
  { unfold d', invented. by destruct (unreported c). }
  destruct (close_all_total closed (owned s' (S n) ++ lost) d' (rs_kern s)) as [Htot Hn]; [done| |].
  { rewrite <- Hinv, <- app_assoc, <- Hown. unfold owned. rewrite Hdrop, bind_cons, Hs', bind_app, Hinf, Hq.
    rewrite (same_groups_pool _ _ Hg).
    transitivity ((rs_sq s ≫= sqe_resources) ++ (k_inflight (rs_kern s) ≫= sqe_resources) ++
      (cqe_resources c ++ invented c) ++ (drop (S n) (k_cq (rs_kern s)) ≫= cqe_resources) ++ pool (rs_kern s) ++ lost);
      [rewrite Hres|]; solve_Permutation. }
  rewrite <- Hk in Htot, Hn. split; rewrite ?Hinf, ?Hq; auto.
  - by eapply lookup_lt_Some in Hc.
  - rewrite Hs'. by apply Forall_app.
  - exists lost, d'. split; [done|]. destruct Hlost as [|Hlost]; [by left|right].
    apply Exists_cons in Hlost as [?|?]; [congruence|done].
Qed.

Lemma echo_inv_advance s n :
  echo_inv s n -> k_cq (rs_kern s) !! n = None ->
  echo_inv (put_kern (k_cq_advance n (rs_kern s)) s) 0.
Proof.
  intros [Hpos Hsq Hfl Hcq Hconns (lost & d & Hown & Hlost)] Hend.
  destruct (advance_frame n (rs_kern s)) as (Hi & Hc & Hg).
  split; simpl; rewrite ?drop_0, ?advance_cq, ?Hi, ?Hc; try done; [lia|].
  exists lost, d. unfold owned in *; simpl.
  rewrite drop_0, advance_cq, Hi, (same_groups_pool _ _ Hg), (same_conns_total _ _ Hc). done.
Qed.

Lemma echo_inv_submit s n w r s' :
  echo_inv s n -> io_uring_submit_and_wait w s = Ok r s' -> echo_inv s' n.
Proof.
  intros Hi Hrun. unfold io_uring_submit_and_wait in Hrun.
  pose proof (submit_spec (rs_sq s) w (rs_kern s)) as Hs.
  destruct (k_submit _ _ _) as [[ret m] k']. injection Hrun as _ <-.
  destruct Hs as [(k1 & (Hinf & Hq & Hc & Hg) & Hposts) _].
  pose proof (echo_inv_posts (put_sq (drop m (rs_sq s)) (put_kern k1 s)) n k') as Hpost.
  apply Hpost; [|done]. clear Hpost Hposts.
  destruct Hi as [Hpos Hsq Hfl Hcq Hconns (lost & d & Hown & Hlost)].
  rewrite <- (take_drop m (rs_sq s)), Forall_app in Hsq. destruct Hsq as [Hsq1 Hsq2].
  split; simpl; rewrite ?Hq, ?Hinf, ?Hc; auto using Forall_app_2.
  exists lost, d. unfold owned in *; simpl. rewrite Hq, Hinf, (same_conns_total _ _ Hc), <- Hown.
  split; [|done]. rewrite (same_groups_pool _ _ Hg), bind_app.
  rewrite <- (take_drop m (rs_sq s)) at 3. rewrite bind_app. solve_Permutation.
Qed.

(** ** Reachable states *)

(** The state in which [main] enters its loop: the buffers are with the
    kernel, one accept is queued, nothing else is going on. *)
Record loop_entry (s : st) : Prop := LoopEntry {
  entry_sq : exists e, rs_sq s = [accept_sqe lfd AClientAddr AClientLen 0 e];
  entry_inflight : k_inflight (rs_kern s) = [];
  entry_cq : k_cq (rs_kern s) = [];
  entry_conns : k_conns (rs_kern s) = [];
  entry_group : k_group (rs_kern s) group_id ≡ₚ seqZ 0 BUFFERS_COUNT
}.

Lemma loop_entry_inv s : loop_entry s -> echo_inv s 0.
Proof.
  intros [[e Hsq] Hi Hc Hn Hg]. split; rewrite ?Hi, ?Hc, ?Hn, ?Hsq; simpl; try done.
  - apply Forall_singleton, accept_sqe_request.
  - constructor.
  - exists [], 0%nat. split; [|by left]. unfold owned, total, pool.
    revert Hg. generalize (seqZ 0 BUFFERS_COUNT). intros bids Hg.
    rewrite Hsq, Hi, Hc, Hn, Hg. cbn [mbind list_bind drop app].
    by rewrite accept_sqe_resources, app_nil_r.
Qed.

Lemma echo_reachable_inv s0 x :
  loop_entry s0 -> echo_reachable lfd s0 x -> holds echo_inv x.
Proof.
  intros H0 Hr. eapply loop_invariant; [..|exact Hr].
  - apply echo_inv_post.
  - intros s s' Hi Hrun. apply bind_inv_ok in Hrun as (r & s1 & H1 & [= <-]).
    by eapply echo_inv_submit.
  - apply echo_inv_handle.
  - intros s n s' Hi Hend [= <-]. by apply echo_inv_advance.
  - by apply loop_entry_inv.
Qed.

(** ** Counting owners *)

(** Holders of resource [r] among the elements of [l]. *)
Definition holders {X} (f : X -> list resource) (r : resource) (l : list X) : nat :=
  length (filter (fun x => r ∈ f x) l).

(** Requests not yet submitted, requests in flight, completions not yet
    handled and the buffer group, as owners of [r]. *)
Definition owners (s : st) (n : nat) (r : resource) : nat :=
  (holders sqe_resources r (rs_sq s) + holders sqe_resources r (k_inflight (rs_kern s)) +
   holders cqe_resources r (drop n (k_cq (rs_kern s))) +
   holders (fun bid => [RBuf bid]) r (k_group (rs_kern s) group_id))%nat.

Definition occurrences (r : resource) (l : list resource) : nat := length (filter (r =.) l).

Lemma occurrences_app r l k : occurrences r (l ++ k) = (occurrences r l + occurrences r k)%nat.
Proof. unfold occurrences. by rewrite filter_app, length_app. Qed.

Lemma occurrences_nodup r l : NoDup l -> occurrences r l = if decide (r ∈ l) then 1%nat else 0%nat.
Proof.
  unfold occurrences. induction 1 as [|x l Hx _ IH]; [done|].
  rewrite filter_cons. destruct (decide (r = x)) as [->|Hne]; simpl.
  - rewrite IH, decide_False by done. rewrite decide_True by (by left). done.
  - rewrite IH. destruct (decide (r ∈ l)), (decide (r ∈ x :: l)) as [Hin|Hin]; auto.
    + by destruct Hin; right.
    + by apply elem_of_cons in Hin as [|].
Qed.

Lemma holders_occurrences {X} (f : X -> list resource) r l :
  (forall x, NoDup (f x)) -> holders f r l = occurrences r (l ≫= f).
Proof.
  intros Hf. unfold holders. induction l as [|x l IH]; [done|].
  rewrite filter_cons, bind_cons, occurrences_app, occurrences_nodup, <- IH by apply Hf.
  by destruct (decide (r ∈ f x)).
Qed.

Lemma sqe_resources_nodup e : NoDup (sqe_resources e).
Proof.
  unfold sqe_resources. destruct (sqe_op e) as [| |? []| | | | | | |];
    repeat first [apply NoDup_nil_2 | apply NoDup_cons_2; [set_solver|]].
Qed.

Lemma cqe_resources_nodup c : NoDup (cqe_resources c).
Proof.
  unfold cqe_resources. repeat case_match;
    repeat first [apply NoDup_nil_2 | apply NoDup_cons_2; [set_solver|]].
Qed.

Lemma owners_owned s n r : owners s n r = occurrences r (owned s n).
Proof.
  unfold owners, owned. rewrite !occurrences_app.
  rewrite !holders_occurrences
    by auto using sqe_resources_nodup, cqe_resources_nodup, NoDup_singleton.
  unfold pool. by rewrite list_bind_singletons, !Nat.add_assoc.
Qed.

Lemma total_nodup (k : K) : NoDup (k_conns k) -> NoDup (total k).
Proof.
  intros Hn. unfold total. constructor.
  - rewrite elem_of_app, !list_elem_of_fmap. naive_solver.
  - apply NoDup_app. split_and!; [by apply (NoDup_fmap_2 _)| |apply (NoDup_fmap_2 _), NoDup_seqZ].
    intros r. rewrite !list_elem_of_fmap. naive_solver.
Qed.

Lemma occurrences_perm r l k : l ≡ₚ k -> occurrences r l = occurrences r k.
Proof. intros H. unfold occurrences. by rewrite H. Qed.

Lemma occurrences_copies r d :
  occurrences r (replicate d (RBuf 0)) = if decide (r = RBuf 0) then d else 0%nat.
Proof.
  unfold occurrences. induction d as [|d IH]; simpl; [by destruct (decide _)|].
  rewrite filter_cons. destruct (decide (r = RBuf 0)); simpl; congruence.
Qed.

Lemma occurrences_length r l : (occurrences r l <= length l)%nat.
Proof. apply length_filter. Qed.

(** The owners and the lost copies of a resource. *)
Lemma owners_balance s n r :
  echo_inv s n -> exists lost d,
    (owners s n r + occurrences r lost = (if decide (r = RBuf 0) then d else 0) +
       (if decide (r ∈ total (rs_kern s)) then 1 else 0))%nat /\
    (length (owned s n) + length lost = d + length (total (rs_kern s)))%nat /\
    (lost = [] \/ Exists (fun c => fatal c = true) (drop n (k_cq (rs_kern s)))).
Proof.
  intros [_ _ _ _ Hn (lost & d & Hp & Hl)]. exists lost, d. split_and!; [| |done].
  - apply (occurrences_perm r) in Hp as Ho. rewrite !occurrences_app, occurrences_copies in Ho.
    rewrite owners_owned, Ho. by rewrite (occurrences_nodup r (total _)) by by apply total_nodup.
  - apply Permutation_length in Hp. by rewrite !length_app, length_replicate in Hp.
Qed.

(** No resource but buffer 0 has two owners; when the server is not about to
    give up, every resource has one. *)
Lemma owners_le_one s n r : echo_inv s n -> r <> RBuf 0 -> (owners s n r <= 1)%nat.
Proof.
  intros Hi Hr. destruct (owners_balance s n r Hi) as (lost & d & Ho & _).
  rewrite (decide_False _ _ Hr) in Ho. case_decide; lia.
Qed.

Lemma owners_pos s n r :
  echo_inv s n -> Forall (fun c => fatal c = false) (drop n (k_cq (rs_kern s))) ->
  r ∈ total (rs_kern s) -> (1 <= owners s n r)%nat.
Proof.
  intros Hi Hf Hr. destruct (owners_balance s n r Hi) as (lost & d & Ho & _ & [->|Hl]).
  - rewrite (decide_True (P := r ∈ _)) in Ho by done. change (occurrences r []) with 0%nat in Ho. lia.
  - apply Exists_exists in Hl as (c & Hc & Hfc). rewrite Forall_forall in Hf. by rewrite Hf in Hfc.
Qed.

Lemma holders_pos {X} (f : X -> list resource) r l x :
  x ∈ l -> r ∈ f x -> (1 <= holders f r l)%nat.
Proof.
  intros Hx Hr. unfold holders.
  assert (Hin : x ∈ filter (fun x => r ∈ f x) l) by (by apply list_elem_of_filter).
  destruct (filter _ l); [by apply elem_of_nil in Hin|simpl; lia].
Qed.

(** Two different places of a list cannot hold the same resource. *)
Lemma holders_two {X} (f : X -> list resource) r l i j x y :
  l !! i = Some x -> l !! j = Some y -> i <> j -> r ∈ f x -> r ∈ f y ->
  (2 <= holders f r l)%nat.
Proof.
  intros Hi Hj Hne Hx Hy. revert i j Hi Hj Hne.
  induction l as [|z l IH]; intros [|i] [|j] Hi Hj Hne; simplify_eq/=.
  - unfold holders. rewrite filter_cons, decide_True by done. apply le_n_S.
    eapply holders_pos; [|exact Hy]. by eapply list_elem_of_lookup_2.
  - unfold holders. rewrite filter_cons, decide_True by done. apply le_n_S.
    eapply holders_pos; [|exact Hx]. by eapply list_elem_of_lookup_2.
  - specialize (IH i j Hi Hj ltac:(congruence)). unfold holders in *.
    rewrite filter_cons. destruct (decide (r ∈ f z)); simpl; lia.
Qed.

(** ** Room in the submission queue *)

Lemma request_resources e : request lfd e -> (1 <= length (sqe_resources e))%nat.
Proof.
  unfold sqe_resources. by destruct 1 as [e ? ? Hop _|e ? _ Hop|e ? ? ? _ _ Hop|e ? _ Hop]; rewrite Hop; simpl; lia.
Qed.

Lemma requests_resources l :
  Forall (request lfd) l -> (length l <= length (l ≫= sqe_resources))%nat.
Proof.
  induction 1 as [|e l He _ IH]; [done|]. rewrite bind_cons, length_app; simpl.
  apply request_resources in He. lia.
Qed.

Lemma length_total (k : K) : length (total k) = (4097 + length (k_conns k))%nat.
Proof.
  unfold total. rewrite length_cons, length_app, !length_fmap, length_seqZ.
  unfold BUFFERS_COUNT, MAX_CONNECTIONS. lia.
Qed.

(** Everything there is to hold: 4096 resources, the connections and the copies
    of buffer 0. *)
Lemma length_owned s n :
  echo_inv s n -> (length (owned s n) <= 4096 + length (k_conns (rs_kern s)) + owners s n (RBuf 0))%nat.
Proof.
  intros Hi. destruct (owners_balance s n (RBuf 0) Hi) as (lost & d & Ho & Hl & _).
  rewrite (decide_True (P := RBuf 0 = RBuf 0)), (decide_True (P := _ ∈ _)) in Ho by (done || by apply total_bufs).
  rewrite length_total in Hl. pose proof (occurrences_length (RBuf 0) lost). lia.
Qed.

Lemma room_for s n c :
  echo_inv s n -> k_cq (rs_kern s) !! n = Some c ->
  (length (rs_sq s) + length (cqe_resources c) <=
     4096 + length (k_conns (rs_kern s)) + owners s n (RBuf 0))%nat.
Proof.
  intros Hi Hc. etrans; [|by apply length_owned]. destruct Hi as [_ Hsq _ _ _ _]. apply requests_resources in Hsq.
  unfold owned. rewrite (drop_S _ _ _ Hc), bind_cons, !length_app. lia.
Qed.

Lemma queue_one_room f (s : st) :
  (length (rs_sq s) < entries)%nat -> exists e, queue_one f s = Ok tt (push_sqe (f e) s).
Proof.
  intros Hr. unfold queue_one. destruct (get_sqe_room (rs_sq s) Hr) as [e ->]. eauto.
Qed.

Lemma queue_two_room f g (s : st) :
  (S (length (rs_sq s)) < entries)%nat -> no_ub ((queue_one f ;; queue_one g) s).
Proof.
  intros Hr. destruct (queue_one_room f s) as [e He]; [lia|].
  rewrite (bind_ok _ _ _ _ _ He). destruct (queue_one_room g (push_sqe (f e) s)) as [e' ->]; [|done].
  simpl. rewrite length_app; simpl. lia.
Qed.

Lemma queue_one_no_ub f (s : st) : (length (rs_sq s) < entries)%nat -> no_ub (queue_one f s).
Proof. intros Hr. by destruct (queue_one_room f s Hr) as [e ->]. Qed.

Lemma handle_no_ub c s :
  completion lfd c -> (length (rs_sq s) + length (cqe_resources c) <= entries)%nat ->
  no_ub (handle_cqe lfd c s).
Proof.
  intros Hc Hr. destruct (decide (cqe_res c = - ENOBUFS)) as [He|He]; [by rewrite handle_enobufs|].
  destruct Hc as [c Hu Ha|c fd Hfd Hu Hcase|c fd bid Hfd Hok Hu|c Hu].
  - rewrite (handle_accept lfd lfd) by done. rewrite (cqe_resources_accept lfd) in Hr by done.
    destruct (0 <=? cqe_res c); simpl in Hr; [apply queue_two_room|apply queue_one_no_ub]; lia.
  - assert (Hb : exists bid, Z.shiftr (cqe_flags c) 16 = bid /\ bid_ok bid /\ (1 <= length (cqe_resources c))%nat).
    { destruct Hcase as [(bid & Hb & Hok)|[Hf Hn]].
      - exists bid. destruct (cqe_resources_read fd bid c) as [-> _]; [done..|]. simpl. auto using shiftr_reported with lia.
      - exists 0. destruct (cqe_resources_unreported fd c) as [-> _]; [done..|]. by rewrite Hf. }
    destruct Hb as (bid & Hb & Hok & Hlen). destruct (Z.leb_spec (cqe_res c) 0) as [Hn|Hn].
    + rewrite (handle_read_end lfd fd bid) by done.
      destruct (queue_one_room (provide_sqe bid group_id) s) as [e He']; [lia|].
      rewrite (bind_ok _ _ _ _ _ He'). mred. unfold close. by destruct (k_close _ _).
    + rewrite (handle_read_data lfd fd bid) by done. apply queue_one_no_ub. lia.
  - rewrite (cqe_resources_write fd bid) in Hr by done. simpl in Hr.
    rewrite (handle_write lfd fd bid) by done. apply queue_two_room. lia.
  - rewrite handle_prov_buf by done. by destruct (cqe_res c <? 0).
Qed.

(** The server exits on fatal completions only. *)
Lemma queue_one_no_exit f (s : st) : no_exit (queue_one f s).
Proof. unfold queue_one. by destruct (lib_get_sqe _). Qed.

Lemma queue_two_no_exit f g (s : st) : no_exit ((queue_one f ;; queue_one g) s).
Proof. apply bind_no_exit; [apply queue_one_no_exit|]. intros ? ? _. apply queue_one_no_exit. Qed.

Lemma handle_no_exit c s : completion lfd c -> fatal c = false -> no_exit (handle_cqe lfd c s).
Proof.
  intros Hc Hf. assert (He : cqe_res c <> - ENOBUFS).
  { intros He. unfold fatal in Hf. by rewrite He in Hf. }
  destruct Hc as [c Hu Ha|c fd Hfd Hu Hcase|c fd bid Hfd Hok Hu|c Hu].
  - rewrite (handle_accept lfd lfd) by done.
    destruct (0 <=? cqe_res c); [apply queue_two_no_exit|apply queue_one_no_exit].
  - assert (Hb : exists bid, Z.shiftr (cqe_flags c) 16 = bid /\ bid_ok bid).
    { destruct Hcase as [(bid & Hb & Hok)|[Hf0 _]]; [eauto using shiftr_reported|]. exists 0. by rewrite Hf0. }
    destruct Hb as (bid & Hb & Hok). destruct (Z.leb_spec (cqe_res c) 0) as [Hn|Hn].
    + rewrite (handle_read_end lfd fd bid) by done. apply bind_no_exit; [apply queue_one_no_exit|].
      intros ? t _. apply bind_no_exit; [apply close_never_exits|done].
    + rewrite (handle_read_data lfd fd bid) by done. apply queue_one_no_exit.
  - rewrite (handle_write lfd fd bid) by done. apply queue_two_no_exit.
  - rewrite handle_prov_buf by done. rewrite (fatal_spec _ _ _ _ Hu) in Hf.
    destruct (cqe_res c <? 0); [|done]. by rewrite orb_true_r in Hf.
Qed.

(** What the handler does with a receive that reports no buffer. *)
Lemma unreported_handled s n c s' :
  echo_inv s n -> k_cq (rs_kern s) !! n = Some c -> unreported c = true -> handle_cqe lfd c s = Ok tt s' ->
  exists e, rs_sq s' = rs_sq s ++ [e] /\ sqe_op e = OpProvideBuffers (ABufs 0) MAX_MESSAGE_LEN 1 group_id 0 /\
    owners s' (S n) (RBuf 0) = S (owners s n (RBuf 0)).
Proof.
  intros [_ _ _ Hcq _ _] Hc Hun Hrun. rewrite (drop_S _ _ _ Hc) in Hcq. apply Forall_cons in Hcq as [Hcc _].
  unfold unreported in Hun. apply andb_true_iff in Hun as [Ht Hf%Z.eqb_eq].
  destruct Hcc as [c Hu _|c fd Hfd Hu Hcase|c fd bid Hfd Hok Hu|c Hu]; rewrite Hu, user_data_of_mk in Ht; try done.
  assert (Hneg : cqe_res c <= 0).
  { destruct Hcase as [(bid & Hb & _)|[_ Hn]]; [|done]. by apply reported_flags in Hb. }
  assert (He : cqe_res c <> - ENOBUFS) by (intros He; by rewrite handle_enobufs in Hrun).
  rewrite (handle_read_end lfd fd 0) in Hrun by (done || by rewrite Hf).
  apply bind_inv_ok in Hrun as ([] & s1 & H1 & Hrun). apply queue_one_inv in H1 as [e ->].
  apply bind_inv_ok in Hrun as (r & s2 & H2 & [= <-]). apply close_inv in H2 as ->.
  exists (provide_sqe 0 group_id e). split; [done|]. split; [simpl; by rewrite prep_op|].
  destruct (close_frame fd (rs_kern s)) as (Hi & Hq & Hg & _). rewrite !owners_owned. unfold owned; simpl.
  rewrite Hi, Hq, (same_groups_pool _ _ Hg), (drop_S _ _ _ Hc), bind_cons, bind_app, !occurrences_app.
  destruct (cqe_resources_unreported fd c) as [-> _]; [done..|]. cbn [mbind list_bind]. rewrite app_nil_r, provide_sqe_resources.
  change (occurrences (RBuf 0) [RBuf 0]) with 1%nat. change (occurrences (RBuf 0) [RConn fd]) with 0%nat. lia.
Qed.

(** ** When the buffer group is empty *)

(** What the program's requests and the unhandled completions hold. *)
Definition held (s : st) (n : nat) : list resource :=
  (rs_sq s ≫= sqe_resources) ++ (k_inflight (rs_kern s) ≫= sqe_resources) ++
  (drop n (k_cq (rs_kern s)) ≫= cqe_resources).

(** Then every buffer is held. *)
Lemma empty_group s n bid :
  echo_inv s n -> k_group (rs_kern s) group_id = [] ->
  Forall (fun c => fatal c = false) (drop n (k_cq (rs_kern s))) ->
  bid_ok bid -> RBuf bid ∈ held s n.
Proof.
  intros Hi Hg Hf Hb. destruct Hi as [_ _ _ _ _ (lost & d & Hp & [->|Hl])].
  - assert (Hin : RBuf bid ∈ owned s n ++ []) by (rewrite Hp; apply elem_of_app; right; by apply total_bufs).
    unfold owned, pool in Hin. rewrite Hg in Hin. unfold held. rewrite !elem_of_app in *. set_solver.
  - apply Exists_exists in Hl as (c & Hc & Hfc). rewrite Forall_forall in Hf. by rewrite Hf in Hfc.
Qed.

End ownership.
