(* ===== verification/EchoTheorems.v ===== *)
(** * What the provided-buffers echo server guarantees

    The theorems about [io_uring_echo_server.c]'s event loop, proved against
    the laws of [Uring.v], with a run on the reference kernel for each. *)

From S2P Require Import Prelude Uring ConnInfo EventLoop RefKernel Script EchoServer EchoInv.

(** ** A concrete instance *)

Module Demo.

(** 10240 entries are requested; the kernel rounds up to a power of two. *)
Definition sq_entries : nat := Z.to_nat 16384.
Definition blank : sqe address Z := Sqe (OpPollAdd 0 0) 0 0 0 0.
#[global] Instance lib : Liburing address Z := ref_liburing sq_entries blank.
#[global] Instance lib_ok : LiburingOk address Z sq_entries := ref_liburing_ok sq_entries blank.

(** Any completion the laws allow. *)
Definition anything (_ : sqe address Z) (_ : cqe Z) : Prop := True.

#[global] Instance anything_dec e c : Decision (anything e c).
Proof. by left. Defined.

#[global] Instance kern : Kernel address Z (ref_kernel address Z) := ref_kernel_ops anything.
#[global] Instance kern_ok : KernelOk address Z (ref_kernel address Z) := ref_kernel_ok anything.

Definition lfd : Z := 3.
Definition groups (g : Z) : list Z := if g =? group_id then seqZ 0 BUFFERS_COUNT else [].

Definition s0 : rstate address Z (ref_kernel address Z) unit :=
  RState [accept_sqe lfd AClientAddr AClientLen 0 blank] (RefK [] [] groups []) tt.

Lemma s0_entry : loop_entry lfd s0.
Proof. split; [by exists blank|done..]. Qed.

Definition demo_run (acts : list action) : sys address Z (ref_kernel address Z) unit :=
  run anything turn_start (handle_cqe lfd) turn_end acts (AtTop s0).

Lemma demo_reachable acts n :
  draining_at (demo_run acts) = Some n ->
  echo_reachable lfd s0 (Draining (state_of s0 (demo_run acts)) n).
Proof. intros Hn. rewrite <- (draining_at_eq _ _ _ Hn). apply run_steps. Qed.

(** A client connects as descriptor 5. *)
Definition one_client : list action := [Start; Finish 0 5 0].
Definition s1 := state_of s0 (demo_run one_client).

(** Two clients; the first has sent 100 bytes, received into buffer 0, the
    second 50 bytes, received into buffer 1. *)
Definition two_clients : list action :=
  one_client ++ [Handle; End; Start; Finish 1 6 0; Finish 0 100 1; Handle; Handle; End;
    Start; Finish 0 50 65537; Handle].
Definition s2 := state_of s0 (demo_run two_clients).

End Demo.

Section theorems.
Context {K : Type} `{!Liburing address Z} `{!Kernel address Z K}.
Context {entries : nat} `{!LiburingOk address Z entries} `{!KernelOk address Z K}.
Context (lfd : Z).

Local Abbreviation st := (rstate address Z K unit).

(** C1: in every reachable state the accept token, each connection and each
    message buffer except number 0 has at most one owner among the queued
    requests, the requests in flight, the unhandled completions and the buffer
    group; and unless a completion that makes the server exit is pending, each
    of them, and buffer 0, has at least one, so neither connections nor buffers
    leak. *)
Theorem echo_single_owner (s0 : st) x :
  loop_entry lfd s0 -> echo_reachable lfd s0 x ->
  holds (fun s n => forall r, (r <> RBuf 0 -> (owners s n r <= 1)%nat) /\
    (Forall (fun c => fatal c = false) (drop n (k_cq (rs_kern s))) ->
     r ∈ total (rs_kern s) -> (1 <= owners s n r)%nat)) x.
Proof.
  intros H0 Hr. pose proof (echo_reachable_inv lfd s0 x H0 Hr) as Hi.
  destruct x; simpl in *; eauto using owners_le_one, owners_pos.
Qed.

(** C2: in every reachable state a buffer other than number 0 from which a
    queued or in-flight request sends is not in the group from which the kernel
    picks the target of a receive, and no other request sends from it: what a
    client gets back is not overwritten by another client's data. *)
Theorem echo_sends_exclusive (s0 s : st) n i e fd b len :
  loop_entry lfd s0 -> echo_reachable lfd s0 (Draining s n) ->
  (rs_sq s ++ k_inflight (rs_kern s)) !! i = Some e -> sqe_op e = OpSend fd (ABufs b) len 0 -> b <> 0 ->
  (b ∉ k_group (rs_kern s) group_id) /\
  (forall j e' fd' len', (rs_sq s ++ k_inflight (rs_kern s)) !! j = Some e' ->
     sqe_op e' = OpSend fd' (ABufs b) len' 0 -> j = i).
Proof.
  intros H0 Hr Hi He Hb. pose proof (echo_reachable_inv lfd s0 _ H0 Hr) as Hinv.
  pose proof (owners_le_one lfd s n (RBuf b) Hinv ltac:(congruence)) as Ho. unfold owners in Ho.
  assert (Happ : (holders sqe_resources (RBuf b) (rs_sq s) + holders sqe_resources (RBuf b) (k_inflight (rs_kern s)) =
    holders sqe_resources (RBuf b) (rs_sq s ++ k_inflight (rs_kern s)))%nat).
  { unfold holders. by rewrite filter_app, length_app. }
  assert (Hsends : forall e fd len, sqe_op e = OpSend fd (ABufs b) len 0 -> RBuf b ∈ sqe_resources e).
  { intros e1 fd1 len1 H1. unfold sqe_resources. rewrite H1. set_solver. }
  split.
  - intros Hg. apply list_elem_of_lookup_2 in Hi.
    pose proof (holders_pos sqe_resources (RBuf b) _ e Hi (Hsends _ _ _ He)).
    pose proof (holders_pos (fun b => [RBuf b]) (RBuf b) _ b Hg ltac:(set_solver)). lia.
  - intros j e' fd' len' Hj He'. destruct (decide (j = i)) as [|Hne]; [done|].
    pose proof (holders_two sqe_resources (RBuf b) _ j i e' e Hj Hi Hne (Hsends _ _ _ He') (Hsends _ _ _ He)). lia.
Qed.

(** C3: the handler has no undefined behaviour: in a reachable state in which
    4096, the open connections and the owners of buffer 0 together do not
    exceed the entries of the ring, no submission entry is NULL and no buffer
    number out of range when the next completion is handled.  Buffer 0 has one
    owner unless a receive has ended without reporting a buffer; with the 16384
    entries the ring gets, that leaves 12287 connections. *)
Theorem echo_never_null_sqe (s0 s : st) n c :
  loop_entry lfd s0 -> echo_reachable lfd s0 (Draining s n) ->
  k_cq (rs_kern s) !! n = Some c ->
  (4096 + length (k_conns (rs_kern s)) + owners s n (RBuf 0) <= entries)%nat ->
  no_ub (handle_cqe lfd c s).
Proof.
  intros H0 Hr Hc Hroom. pose proof (echo_reachable_inv lfd s0 _ H0 Hr) as Hinv.
  pose proof (room_for lfd s n c Hinv Hc).
  apply (handle_no_ub (entries := entries)); [|lia].
  destruct Hinv as [_ _ _ Hcq _ _]. rewrite (drop_S _ _ _ Hc) in Hcq.
  by apply Forall_cons in Hcq as [? _].
Qed.

(** C4: "bufs in automatic buffer selection empty, this should not happen".  In
    a reachable state in which no completion that makes the server exit is
    pending and some message buffer is held by no request and no completion,
    a receive that completes does not make the server exit: handling its
    completion, whenever that happens, does not end the process. *)
Theorem echo_no_enobufs (s0 s : st) n k' e c fd bid :
  loop_entry lfd s0 -> echo_reachable lfd s0 (Draining s n) ->
  k_post (rs_kern s) k' -> posts (rs_kern s) k' e c -> sqe_op e = OpRecv fd ANull 0 0 ->
  Forall (fun c => fatal c = false) (drop n (k_cq (rs_kern s))) -> bid_ok bid -> RBuf bid ∉ held s n ->
  forall t : st, no_exit (handle_cqe lfd c t).
Proof.
  intros H0 Hr Hk Hp Hop Hf Hb Hfree t. pose proof (echo_reachable_inv lfd s0 _ H0 Hr) as Hinv.
  pose proof (inv_group _ _ _ Hinv) as Hgroup. pose proof (empty_group lfd s n bid Hinv) as Hempty.
  destruct Hinv as [_ _ Hfl _ _ _]. pose proof Hp as (Hin & _ & Hu & _ & Hd). rewrite Hin in Hfl.
  apply Forall_cons in Hfl as [Hreq _]. unfold completes in Hd. rewrite Hop in Hd.
  destruct Hreq as [? ? ? Hop'|? fd' Hfd Hop' Hflags Hgr Hud|? ? ? ? _ _ Hop'|? ? _ Hop']; try congruence.
  rewrite Hflags, Hgr in Hd. rewrite Hop in Hop'. injection Hop' as <-. rewrite Hud in Hu.
  assert (Hne : cqe_res c <> - ENOBUFS).
  { intros He. destruct Hd as (_ & _ & [(b & _ & Hne & _)|[(_ & Hg & _)|(_ & Hne & _)]]); [done| |done].
    by apply Hfree, Hempty. }
  destruct (read_passes_on lfd e fd c _ _ Hfd Hop Hu Hd Hgroup) as [_ Hc].
  apply (handle_no_exit lfd); [done|]. rewrite (fatal_spec _ _ _ _ Hu), (proj2 (Z.eqb_neq _ _) Hne). done.
Qed.

(** C6: data is echoed: when a receive on [fd] completes with [n > 0] bytes in
    buffer [bid] and an entry is free, the handler queues exactly one request
    and changes nothing else: a send to the same [fd] of exactly [n] bytes
    from that buffer, whose completion will name the same [fd] and [bid]. *)
Theorem echo_read_is_echoed (s : st) fd bid c :
  is_fd fd -> bid_ok bid -> reports_buffer c bid ->
  cqe_user_data c = user_data_of_conn_info (mk_conn_info fd READ 0) ->
  0 < cqe_res c -> (length (rs_sq s) < entries)%nat ->
  exists e, handle_cqe lfd c s = Ok tt (push_sqe e s) /\
    sqe_op e = OpSend fd (ABufs bid) (cqe_res c) 0 /\ sqe_flags e = 0 /\
    conn_info_of_user_data (sqe_user_data e) = ConnInfo fd WRITE bid.
Proof.
  intros Hfd Hb Hrep Hu Hn Hroom. apply shiftr_reported in Hrep.
  rewrite (handle_read_data lfd fd bid) by done.
  destruct (queue_one_room (write_sqe fd bid (cqe_res c) 0) s Hroom) as [e ->].
  eexists. split; [done|]. simpl. rewrite set_flags_op, prep_op, set_flags_flags, user_data_of_mk.
  unfold mk_conn_info. by rewrite to_u32_id, (to_u16_id bid) by auto using bid_is_u16, is_fd_u32.
Qed.

(** After the echo: when a send from buffer [bid] to [fd] completes, the
    handler queues exactly two requests, in this order: the return of that
    very buffer to the group, and the next receive on the same [fd], with
    buffer selection from the same group. *)
Theorem echo_write_rearms (s : st) fd bid c :
  is_fd fd -> bid_ok bid ->
  cqe_user_data c = user_data_of_conn_info (mk_conn_info fd WRITE bid) ->
  cqe_res c <> - ENOBUFS -> (S (length (rs_sq s)) < entries)%nat ->
  exists e e', handle_cqe lfd c s = Ok tt (push_sqe e' (push_sqe e s)) /\
    sqe_op e = OpProvideBuffers (ABufs bid) MAX_MESSAGE_LEN 1 group_id bid /\
    sqe_op e' = OpRecv fd ANull 0 0 /\ sqe_flags e' = IOSQE_BUFFER_SELECT /\
    sqe_buf_group e' = group_id /\
    conn_info_of_user_data (sqe_user_data e') = ConnInfo fd READ 0.
Proof.
  intros Hfd Hb Hu Hr Hroom. rewrite (handle_write lfd fd bid) by done.
  destruct (queue_one_room (provide_sqe bid group_id) s) as [e He]; [lia|].
  rewrite (bind_ok _ _ _ _ _ He).
  destruct (queue_one_room (read_sqe fd group_id IOSQE_BUFFER_SELECT)
              (push_sqe (provide_sqe bid group_id e) s)) as [e' ->].
  { simpl. rewrite length_app; simpl. lia. }
  do 2 eexists. split; [done|]. simpl.
  rewrite prep_op, set_flags_op, prep_op, set_flags_flags, user_data_of_mk.
  unfold mk_conn_info. by rewrite to_u32_id by auto using is_fd_u32.
Qed.

End theorems.

Lemma echo_single_owner_witness :
  (owners Demo.s1 0 (RConn 5) <= 1)%nat /\ (1 <= owners Demo.s1 0 (RConn 5))%nat.
Proof.
  pose proof (echo_single_owner Demo.lfd Demo.s0 (Draining Demo.s1 0)
    Demo.s0_entry (Demo.demo_reachable Demo.one_client 0 eq_refl)) as H.
  cbn [holds] in H. destruct (H (RConn 5)) as [H1 H2]. split; [by apply H1|]. refine (H2 _ _).
  - repeat constructor.
  - apply total_conns. left.
Defined.

Lemma echo_sends_exclusive_witness :
  (1 ∉ k_group (rs_kern Demo.s2) group_id) /\
  (forall j e' fd' len', (rs_sq Demo.s2 ++ k_inflight (rs_kern Demo.s2)) !! j = Some e' ->
     sqe_op e' = OpSend fd' (ABufs 1) len' 0 -> j = 0%nat).
Proof.
  eapply (echo_sends_exclusive Demo.lfd Demo.s0 Demo.s2 1 0 _ 6 1 50).
  - apply Demo.s0_entry.
  - apply Demo.demo_reachable. vm_compute. reflexivity.
  - vm_compute. reflexivity.
  - reflexivity.
  - done.
Defined.

Lemma echo_never_null_sqe_witness :
  exists c, k_cq (rs_kern Demo.s1) !! 0%nat = Some c /\ no_ub (handle_cqe Demo.lfd c Demo.s1).
Proof.
  eexists. split; [vm_compute; reflexivity|].
  apply (echo_never_null_sqe (entries := Demo.sq_entries) Demo.lfd Demo.s0 Demo.s1 0).
  - apply Demo.s0_entry.
  - apply Demo.demo_reachable. reflexivity.
  - reflexivity.
  - change (length (k_conns (rs_kern Demo.s1))) with 1%nat.
    replace (owners Demo.s1 0 (RBuf 0)) with 1%nat by (vm_compute; reflexivity). unfold Demo.sq_entries. lia.
Defined.

(** The first client's receive is about to complete with 7 bytes in buffer 0. *)
Definition read_pending : list action := Demo.one_client ++ [Handle; End; Start].
Definition s_read := state_of Demo.s0 (Demo.demo_run read_pending).
Definition read_7 : cqe Z := Cqe (user_data_of_conn_info (mk_conn_info 5 READ 0)) 7 1.

Lemma echo_no_enobufs_witness : no_exit (handle_cqe Demo.lfd read_7 s_read).
Proof.
  destruct (ref_finish 0 7 1 (rs_kern s_read)) as [k'|] eqn:Hk; [|by vm_compute in Hk].
  destruct (ref_finish_posts _ _ _ _ _ Hk) as (e & He & Hp). vm_compute in He. injection He as <-.
  eapply (echo_no_enobufs Demo.lfd Demo.s0 s_read 0 k' _ read_7 5 4).
  - apply Demo.s0_entry.
  - apply Demo.demo_reachable. vm_compute. reflexivity.
  - do 2 eexists. split; [exact Hp|done].
  - exact Hp.
  - reflexivity.
  - change (Forall (fun c : cqe Z => fatal c = false) []). constructor.
  - unfold bid_ok, BUFFERS_COUNT, MAX_CONNECTIONS. lia.
  - change (RBuf 4 ∉ [RConn 5; RAccept]). set_solver.
Defined.

Definition read_done : cqe Z := Cqe (user_data_of_conn_info (mk_conn_info 5 READ 0)) 100 65537.

Lemma echo_read_is_echoed_witness :
  exists e, handle_cqe Demo.lfd read_done Demo.s0 = Ok tt (push_sqe e Demo.s0) /\
    sqe_op e = OpSend 5 (ABufs 1) 100 0 /\ sqe_flags e = 0 /\
    conn_info_of_user_data (sqe_user_data e) = ConnInfo 5 WRITE 1.
Proof.
  apply (echo_read_is_echoed (entries := Demo.sq_entries) Demo.lfd Demo.s0 5 1 read_done).
  - unfold is_fd. lia.
  - unfold bid_ok, BUFFERS_COUNT, MAX_CONNECTIONS. lia.
  - split; [unfold is_u16; lia|reflexivity].
  - reflexivity.
  - reflexivity.
  - simpl. unfold Demo.sq_entries. lia.
Defined.

Definition write_done : cqe Z := Cqe (user_data_of_conn_info (mk_conn_info 5 WRITE 1)) 100 0.

Lemma echo_write_rearms_witness :
  exists e e', handle_cqe Demo.lfd write_done Demo.s0 = Ok tt (push_sqe e' (push_sqe e Demo.s0)) /\
    sqe_op e = OpProvideBuffers (ABufs 1) MAX_MESSAGE_LEN 1 group_id 1 /\
    sqe_op e' = OpRecv 5 ANull 0 0 /\ sqe_flags e' = IOSQE_BUFFER_SELECT /\
    sqe_buf_group e' = group_id /\
    conn_info_of_user_data (sqe_user_data e') = ConnInfo 5 READ 0.
Proof.
  apply (echo_write_rearms (entries := Demo.sq_entries) Demo.lfd Demo.s0 5 1 write_done).
  - unfold is_fd. lia.
  - unfold bid_ok, BUFFERS_COUNT, MAX_CONNECTIONS. lia.
  - reflexivity.
  - done.
  - simpl. unfold Demo.sq_entries. lia.
Defined.

(** ** A receive that reports no buffer *)

Section unreported.
Context {K : Type} `{!Liburing address Z} `{!Kernel address Z K}.
Context {entries : nat} `{!LiburingOk address Z entries} `{!KernelOk address Z K}.
Context (lfd : Z).

Local Abbreviation st := (rstate address Z K unit).

(** C7: a receive that ends without reporting a buffer duplicates buffer 0.
    Whenever the handler of a reachable state returns from such a completion
    (its flags are 0), it has queued one request more, which gives buffer 0 to
    the group; and unless a completion that makes the server exit is pending,
    buffer 0 then has at least two owners. *)
Theorem echo_duplicates_buffer_zero (s0 s s' : st) n c :
  loop_entry lfd s0 -> echo_reachable lfd s0 (Draining s n) ->
  k_cq (rs_kern s) !! n = Some c -> unreported c = true -> handle_cqe lfd c s = Ok tt s' ->
  Forall (fun c => fatal c = false) (drop n (k_cq (rs_kern s))) ->
  (exists e, rs_sq s' = rs_sq s ++ [e] /\ sqe_op e = OpProvideBuffers (ABufs 0) MAX_MESSAGE_LEN 1 group_id 0) /\
  (2 <= owners s' (S n) (RBuf 0))%nat.
Proof.
  intros H0 Hr Hc Hun Hrun Hf. pose proof (echo_reachable_inv lfd s0 _ H0 Hr) as Hinv. simpl in Hinv.
  pose proof (owners_pos lfd s n (RBuf 0) Hinv Hf ltac:(by apply total_bufs)) as Hone.
  destruct (unreported_handled lfd s n c s' Hinv Hc Hun Hrun) as (e & Hs' & He & Hown).
  split; [by exists e|]. rewrite Hown. lia.
Qed.

End unreported.

(** Client 5 has sent 100 bytes, received into buffer 0 and being echoed;
    client 6 has reset its connection. *)
Definition reset_run : list action :=
  Demo.one_client ++ [Handle; End; Start; Finish 1 6 0; Finish 0 100 1; Handle; Handle; End;
    Start; Finish 0 (-104) 0].
Definition s_reset := state_of Demo.s0 (Demo.demo_run reset_run).
Definition c_reset : cqe Z := Cqe (user_data_of_conn_info (mk_conn_info 6 READ 0)) (-104) 0.

Lemma echo_duplicates_buffer_zero_witness :
  let s' := final (handle_cqe Demo.lfd c_reset s_reset) in
  (exists e, rs_sq s' = rs_sq s_reset ++ [e] /\ sqe_op e = OpProvideBuffers (ABufs 0) MAX_MESSAGE_LEN 1 group_id 0) /\
  (2 <= owners s' 1 (RBuf 0))%nat.
Proof.
  intros s'. apply (echo_duplicates_buffer_zero Demo.lfd Demo.s0 s_reset s' 0 c_reset).
  - apply Demo.s0_entry.
  - apply Demo.demo_reachable. vm_compute. reflexivity.
  - vm_compute. reflexivity.
  - reflexivity.
  - apply returns_final. vm_compute. reflexivity.
  - change (Forall (fun c => fatal c = false) [c_reset]). repeat constructor.
Defined.
