(* ===== verification/EchoTurn.v ===== *)
(** * One turn of the provided-buffers echo server

    The whole loop body of [io_uring_echo_server.c] against a specification by
    events: which requests each completion calls for, and which connections it
    ends. *)

From S2P Require Import Prelude Uring ConnInfo EventLoop RefKernel Script EchoServer EchoInv EchoTheorems.

Section turn.
Context {K : Type} `{!Liburing address Z} `{!Kernel address Z K}.
Context {entries : nat} `{!LiburingOk address Z entries} `{!KernelOk address Z K}.
Context (lfd : Z).

Local Abbreviation st := (rstate address Z K unit).

(** Everything an entry asks for: the operation, the flags, the buffer group
    where one is selected, the [user_data] of the completion. *)
Definition asked (e : sqe address Z) : io_op address * Z * option Z * Z :=
  (sqe_op e, sqe_flags e,
   if has_flag (sqe_flags e) IOSQE_BUFFER_SELECT then Some (sqe_buf_group e) else None, sqe_user_data e).

Definition ask_accept : io_op address * Z * option Z * Z :=
  (OpAccept lfd AClientAddr AClientLen 0, 0, None, user_data_of_conn_info (mk_conn_info lfd ACCEPT 0)).
Definition ask_receive (fd : Z) : io_op address * Z * option Z * Z :=
  (OpRecv fd ANull 0 0, IOSQE_BUFFER_SELECT, Some group_id, user_data_of_conn_info (mk_conn_info fd READ 0)).
Definition ask_send (fd bid len : Z) : io_op address * Z * option Z * Z :=
  (OpSend fd (ABufs bid) len 0, 0, None, user_data_of_conn_info (mk_conn_info fd WRITE bid)).
Definition ask_return (bid : Z) : io_op address * Z * option Z * Z :=
  (OpProvideBuffers (ABufs bid) MAX_MESSAGE_LEN 1 group_id bid, 0, None, user_data_of_conn_info (mk_conn_info 0 PROV_BUF 0)).

(** The requests an event calls for, and the connections it ends. *)
Definition answers (c : cqe Z) : list (io_op address * Z * option Z * Z) :=
  let ci := conn_info_of_user_data (cqe_user_data c) in
  let fd := to_i32 (ci_fd ci) in
  let bid := Z.shiftr (cqe_flags c) 16 in
  if ci_type ci =? ACCEPT then (if 0 <=? cqe_res c then [ask_receive (cqe_res c)] else []) ++ [ask_accept]
  else if ci_type ci =? READ then (if 0 <? cqe_res c then [ask_send fd bid (cqe_res c)] else [ask_return bid])
  else if ci_type ci =? WRITE then [ask_return (ci_bid ci); ask_receive fd]
  else [].

Definition ends (c : cqe Z) : list Z :=
  let ci := conn_info_of_user_data (cqe_user_data c) in
  if (ci_type ci =? READ) && (cqe_res c <=? 0) then [to_i32 (ci_fd ci)] else [].

Lemma asked_accept e : asked (accept_sqe lfd AClientAddr AClientLen 0 e) = ask_accept.
Proof. unfold asked; simpl. by rewrite set_flags_op, prep_op, set_flags_flags. Qed.

Lemma asked_receive fd e : asked (read_sqe fd group_id IOSQE_BUFFER_SELECT e) = ask_receive fd.
Proof. unfold asked; simpl. by rewrite set_flags_op, prep_op, set_flags_flags. Qed.

Lemma asked_send fd bid len e : asked (write_sqe fd bid len 0 e) = ask_send fd bid len.
Proof. unfold asked; simpl. by rewrite set_flags_op, prep_op, set_flags_flags. Qed.

Lemma asked_return bid e : asked (provide_sqe bid group_id e) = ask_return bid.
Proof. unfold asked; simpl. by rewrite prep_op, prep_flags. Qed.

(** One event is answered so. *)
Definition answered (c : cqe Z) (s s' : st) : Prop :=
  exists new, rs_sq s' = rs_sq s ++ new /\ asked <$> new = answers c /\
    k_cq (rs_kern s') = k_cq (rs_kern s) /\
    k_conns (rs_kern s') = filter (fun fd => fd ∉ ends c) (k_conns (rs_kern s)).

(** Queueing the entries of [new] answers an event that ends nothing. *)
Lemma answered_queued c (s s' : st) new :
  ends c = [] -> asked <$> new = answers c -> rs_sq s' = rs_sq s ++ new -> rs_kern s' = rs_kern s -> answered c s s'.
Proof.
  intros He Hnew Hq Hk. exists new. rewrite He, Hk. split_and!; [done..|]. symmetry. apply list_filter_id.
  intros fd _. apply not_elem_of_nil.
Qed.

(** The decoded answers. *)
Lemma answers_spec (c : cqe Z) fd type bid :
  cqe_user_data c = user_data_of_conn_info (mk_conn_info fd type bid) -> is_fd fd ->
  answers c =
    (if to_u16 type =? ACCEPT then (if 0 <=? cqe_res c then [ask_receive (cqe_res c)] else []) ++ [ask_accept]
     else if to_u16 type =? READ then
       (if 0 <? cqe_res c then [ask_send fd (Z.shiftr (cqe_flags c) 16) (cqe_res c)]
        else [ask_return (Z.shiftr (cqe_flags c) 16)])
     else if to_u16 type =? WRITE then [ask_return (to_u16 bid); ask_receive fd]
     else []) /\
  ends c = if (to_u16 type =? READ) && (cqe_res c <=? 0) then [fd] else [].
Proof.
  intros Hu Hfd. unfold answers, ends. rewrite Hu, user_data_of_mk. simpl. by rewrite fd_roundtrip.
Qed.

Lemma handle_accept_answered c (s s' : st) :
  is_fd lfd -> cqe_user_data c = user_data_of_conn_info (mk_conn_info lfd ACCEPT 0) -> cqe_res c <> - ENOBUFS ->
  handle_cqe lfd c s = Ok tt s' -> answered c s s'.
Proof.
  intros Hl Hu He Hrun. destruct (answers_spec c lfd ACCEPT 0 Hu Hl) as [Ha Hend]. simpl in Ha, Hend.
  rewrite (handle_accept lfd lfd) in Hrun by done. destruct (0 <=? cqe_res c).
  - apply queue_two_inv in Hrun as (e & e' & ->). eapply answered_queued; [done| |simpl; by rewrite <- app_assoc|done].
    rewrite Ha. cbn [fmap list_fmap app]. by rewrite asked_receive, asked_accept.
  - apply queue_one_inv in Hrun as (e & ->). eapply answered_queued; [done| |done|done].
    rewrite Ha. cbn [fmap list_fmap app]. by rewrite asked_accept.
Qed.

Lemma handle_read_answered c fd (s s' : st) :
  is_fd fd -> cqe_user_data c = user_data_of_conn_info (mk_conn_info fd READ 0) -> cqe_res c <> - ENOBUFS ->
  bid_ok (Z.shiftr (cqe_flags c) 16) -> handle_cqe lfd c s = Ok tt s' -> answered c s s'.
Proof.
  intros Hfd Hu He Hb Hrun. destruct (answers_spec c fd READ 0 Hu Hfd) as [Ha Hend]. simpl in Ha, Hend.
  destruct (Z.leb_spec (cqe_res c) 0) as [Hn|Hp].
  - rewrite (proj2 (Z.ltb_ge _ _) Hn) in Ha. rewrite (handle_read_end lfd fd _ _ _ Hfd Hb eq_refl) in Hrun by done.
    apply bind_inv_ok in Hrun as ([] & s1 & H1 & Hrun). apply queue_one_inv in H1 as [e ->].
    apply bind_inv_ok in Hrun as (r & s2 & H2 & [= <-]). apply close_inv in H2 as ->.
    destruct (close_frame fd (rs_kern s)) as (_ & Hq & _ & Hc). eexists. split; [done|]. rewrite Ha, Hend. simpl.
    rewrite asked_return, Hq, Hc. split_and!; [done..|]. apply list_filter_iff. intros x. set_solver.
  - rewrite (proj2 (Z.ltb_lt _ _) Hp) in Ha. rewrite (handle_read_data lfd fd _ _ _ Hfd Hb eq_refl) in Hrun by done.
    apply queue_one_inv in Hrun as [e ->]. eapply answered_queued; [done| |done|done].
    rewrite Ha. cbn [fmap list_fmap]. by rewrite asked_send.
Qed.

Lemma handle_write_answered c fd bid (s s' : st) :
  is_fd fd -> bid_ok bid -> cqe_user_data c = user_data_of_conn_info (mk_conn_info fd WRITE bid) -> cqe_res c <> - ENOBUFS ->
  handle_cqe lfd c s = Ok tt s' -> answered c s s'.
Proof.
  intros Hfd Hb Hu He Hrun. destruct (answers_spec c fd WRITE bid Hu Hfd) as [Ha Hend]. simpl in Ha, Hend.
  rewrite to_u16_id in Ha by auto using bid_is_u16.
  rewrite (handle_write lfd fd bid) in Hrun by done. apply queue_two_inv in Hrun as (e & e' & ->).
  eapply answered_queued; [done| |simpl; by rewrite <- app_assoc|done].
  rewrite Ha. cbn [fmap list_fmap app]. by rewrite asked_return, asked_receive.
Qed.

Lemma handle_answered c (s s' : st) :
  is_fd lfd -> completion lfd c -> handle_cqe lfd c s = Ok tt s' -> answered c s s'.
Proof.
  intros Hl Hc Hrun. assert (He : cqe_res c <> - ENOBUFS) by (intros He; by rewrite handle_enobufs in Hrun).
  destruct Hc as [c Hu _|c fd Hfd Hu Hcase|c fd bid Hfd Hok Hu|c Hu].
  - by apply handle_accept_answered.
  - apply (handle_read_answered c fd); [done..| |done].
    destruct Hcase as [(bid & Hb%shiftr_reported & Hok)|[-> _]]; [by rewrite Hb|done].
  - by apply (handle_write_answered c fd bid).
  - rewrite handle_prov_buf in Hrun by done. destruct (cqe_res c <? 0); [done|]. injection Hrun as <-.
    apply (answered_queued c s s []); [| |by rewrite app_nil_r|done];
      unfold answers, ends; rewrite Hu, user_data_of_mk; by decode_type.
Qed.

(** The events of a batch, in order. *)
Lemma batch_answered cqes (s s' : st) :
  is_fd lfd -> Forall (completion lfd) cqes -> for_each (handle_cqe lfd) cqes s = Ok tt s' ->
  exists new, rs_sq s' = rs_sq s ++ new /\ asked <$> new = cqes ≫= answers /\
    k_cq (rs_kern s') = k_cq (rs_kern s) /\
    k_conns (rs_kern s') = filter (fun fd => fd ∉ cqes ≫= ends) (k_conns (rs_kern s)).
Proof.
  intros Hl Hall. revert s. induction Hall as [|c cqes Hc _ IH]; intros s Hrun.
  { injection Hrun as <-. exists []. rewrite app_nil_r. split_and!; [done..|]. symmetry. apply list_filter_id.
    intros fd _. apply not_elem_of_nil. }
  apply bind_inv_ok in Hrun as ([] & s1 & H1 & Hrun). apply handle_answered in H1 as (new1 & Hq1 & Ha1 & Hc1 & Hn1); [|done..].
  destruct (IH s1 Hrun) as (new2 & Hq2 & Ha2 & Hc2 & Hn2). exists (new1 ++ new2).
  rewrite Hq2, Hq1, <- app_assoc, fmap_app, Ha1, Ha2, !bind_cons, Hc2, Hn2, Hn1. split_and!; [done..|].
  rewrite list_filter_filter. apply list_filter_iff. intros fd. rewrite elem_of_app. tauto.
Qed.

(** C5: a turn of the event loop answers every event.  A turn of [main]'s loop
    that returns, from any reachable state, submits, then handles exactly the
    completions there are: it queues, in their order, the requests each of them
    calls for, with the flags, the buffer group and the [user_data] they need,
    closes exactly the connections that ended, and consumes all of them. *)
Theorem echo_turn_answers (s0 s s' : st) :
  is_fd lfd -> loop_entry lfd s0 -> echo_reachable lfd s0 (AtTop s) -> event_loop_body lfd s = Ok tt s' ->
  exists r s1 new, io_uring_submit_and_wait 1 s = Ok r s1 /\
    rs_sq s' = rs_sq s1 ++ new /\ asked <$> new = k_cq (rs_kern s1) ≫= answers /\
    k_cq (rs_kern s') = [] /\
    k_conns (rs_kern s') = filter (fun fd => fd ∉ k_cq (rs_kern s1) ≫= ends) (k_conns (rs_kern s1)).
Proof.
  intros Hl H0 Hr Hrun. pose proof (echo_reachable_inv lfd s0 _ H0 Hr) as Hi. simpl in Hi.
  apply bind_inv_ok in Hrun as (r & s1 & H1 & Hrun). exists r, s1. pose proof (echo_inv_submit lfd _ _ _ _ _ Hi H1) as Hi1.
  apply bind_inv_ok in Hrun as (s1' & s1'' & [= <- <-] & Hrun). apply bind_inv_ok in Hrun as ([] & s2 & H2 & [= <-]).
  apply batch_answered in H2 as (new & Hq & Ha & Hc & Hn); [|done|by destruct Hi1 as [_ _ _ Hcq _ _]; rewrite drop_0 in Hcq].
  exists new. split; [done|]. simpl. destruct (advance_frame (length (k_cq (rs_kern s1))) (rs_kern s2)) as (_ & Hn3 & _).
  rewrite advance_cq, Hc, drop_all, Hn3, Hn. done.
Qed.

(** The turn is one of the behaviours of the interleaved loop that the
    invariants are about. *)
Lemma echo_body_steps (s s' : st) :
  event_loop_body lfd s = Ok tt s' -> rtc (echo_step lfd) (AtTop s) (AtTop s').
Proof.
  intros Hrun. apply turn_steps.
  - intros c t t' Ht. by apply handle_cqe_cq in Ht.
  - unfold event_loop_body, turn, turn_start in *. rewrite bind_assoc. exact Hrun.
Qed.

End turn.

(** The accept has completed with descriptor 5 before the turn. *)
Definition connecting : list action := [Start; End; Finish 0 5 0].
Definition s_top : rstate address Z (ref_kernel address Z) unit := state_of Demo.s0 (Demo.demo_run connecting).

Lemma s_top_reachable : echo_reachable Demo.lfd Demo.s0 (AtTop s_top).
Proof. change (AtTop s_top) with (Demo.demo_run connecting). apply run_steps. Qed.

Lemma echo_turn_answers_witness :
  let s' := final (event_loop_body Demo.lfd s_top) in
  exists r s1 new, io_uring_submit_and_wait 1 s_top = Ok r s1 /\
    rs_sq s' = rs_sq s1 ++ new /\ asked <$> new = k_cq (rs_kern s1) ≫= answers Demo.lfd /\
    k_cq (rs_kern s') = [] /\
    k_conns (rs_kern s') = filter (fun fd => fd ∉ k_cq (rs_kern s1) ≫= ends) (k_conns (rs_kern s1)).
Proof.
  intros s'. apply (echo_turn_answers (entries := Demo.sq_entries) Demo.lfd Demo.s0 s_top s').
  - unfold is_fd, Demo.lfd. lia.
  - apply Demo.s0_entry.
  - apply s_top_reachable.
  - apply returns_final. vm_compute. reflexivity.
Defined.
