(* ===== verification/EchoMain.v ===== *)
(** * Start-up of the provided-buffers echo server

    [main] of [io_uring_echo_server.c] up to its loop: arguments, listening
    socket, ring, feature checks, registration of the buffers, first accept.
    Messages to the user are not modelled. *)

From stdpp Require Import strings.
From S2P Require Import Prelude Uring ConnInfo EventLoop RefKernel Script Libc Setup EchoServer EchoInv.

Section main.
Context {K : Type} `{!Liburing address Z} `{!Kernel address Z K} `{!Setup K}.

Local Abbreviation st := (rstate address Z K unit).

(** The socket part of [main]. *)
Definition setup_socket (portno : Z) : M st Z :=
  sock_listen_fd ← socket AF_INET SOCK_STREAM 0;
  setsockopt sock_listen_fd SOL_SOCKET SO_REUSEADDR 1 ;;
  let serv_addr := SockAddrIn AF_INET (htons portno) INADDR_ANY in
  r ← bind sock_listen_fd serv_addr;
  if r <? 0 then exit_ 1 else
  r ← listen sock_listen_fd BACKLOG;
  if r <? 0 then exit_ 1 else
  mret sock_listen_fd.

(** The ring parameters: [argv[2]] may ask for a submission-queue thread. *)
Definition ring_params (argv : list (list Z)) : io_uring_params :=
  match argv !! 2%nat with
  | Some mode =>
      if str_eqb mode (chars "sqp") then
        Params (Z.lor (p_flags zero_params) IORING_SETUP_SQPOLL) 4 10000 (p_features zero_params)
      else zero_params
  | None => zero_params
  end.

Definition setup_ring (argv : list (list Z)) : M st unit :=
  r ← io_uring_queue_init_params 10240 (ring_params argv);
  if r.1 <? 0 then exit_ 1 else
  if negb (has_flag (p_features r.2) IORING_FEAT_FAST_POLL) then exit_ 0 else
  probe ← io_uring_get_probe_ring;
  match (probe : option (Z -> bool)) with
  | None => exit_ 0
  | Some supported => if supported IORING_OP_PROVIDE_BUFFERS then mret tt else exit_ 0
  end.

(** Registration of all buffers and the wait for its completion. *)
Definition register_buffers : M st unit :=
  provide_all (ABufs 0) MAX_MESSAGE_LEN BUFFERS_COUNT group_id.

Definition startup (argv : list (list Z)) : M st Z :=
  match argv !! 1%nat with
  | None => exit_ 0
  | Some arg =>
      let portno := to_i32 (strtol arg) in
      sock_listen_fd ← setup_socket portno;
      setup_ring argv ;;
      register_buffers ;;
      add_accept sock_listen_fd AClientAddr AClientLen 0 ;;
      mret sock_listen_fd
  end.

Context `{!SetupOk address Z K} `{!KernelOk address Z K}.
Context {entries : nat} `{!LiburingOk address Z entries}.

(** Before anything happened. *)
Record pristine (s : st) : Prop := Pristine {
  pristine_sq : rs_sq s = [];
  pristine_inflight : k_inflight (rs_kern s) = [];
  pristine_cq : k_cq (rs_kern s) = [];
  pristine_conns : k_conns (rs_kern s) = [];
  pristine_group : k_group (rs_kern s) group_id = []
}.

Lemma pristine_view (s s' : st) :
  pristine s -> rs_sq s' = rs_sq s -> same_view (rs_kern s) (rs_kern s') -> pristine s'.
Proof.
  intros [H1 H2 H3 H4 H5] Hs (Hi & Hc & Hn & Hg). split; [congruence..| |].
  - by rewrite Hn.
  - by rewrite Hg.
Qed.

Lemma syscall_pristine {R} (f : K -> R * K) (s : st) r s' :
  (forall k, same_view k (f k).2) -> syscall f s = Ok r s' -> pristine s -> pristine s'.
Proof.
  intros Hf Hs Hp. destruct (syscall_view f s r s' Hs Hf) as (Hsq & _ & Hv).
  by eapply pristine_view.
Qed.

Lemma register_buffers_ok s s' :
  pristine s -> register_buffers s = Ok tt s' ->
  rs_sq s' = [] /\ k_inflight (rs_kern s') = [] /\ k_cq (rs_kern s') = [] /\
  k_conns (rs_kern s') = [] /\ k_group (rs_kern s') group_id ≡ₚ seqZ 0 BUFFERS_COUNT.
Proof.
  intros [Hsq Hinf Hcq Hconns Hgroup] Hrun.
  destruct (provide_all_ok _ _ _ _ _ _ Hsq Hinf Hcq Hrun) as (? & ? & ? & -> & Hg & _). by rewrite Hgroup in Hg.
Qed.

Lemma setup_socket_pristine portno s fd s' :
  pristine s -> setup_socket portno s = Ok fd s' -> pristine s'.
Proof.
  intros Hp Hrun. unfold setup_socket in Hrun.
  apply bind_inv_ok in Hrun as (f & s1 & H1 & Hrun).
  apply bind_inv_ok in Hrun as (r1 & s2 & H2 & Hrun).
  apply bind_inv_ok in Hrun as (r2 & s3 & H3 & Hrun). destruct (r2 <? 0); [done|].
  apply bind_inv_ok in Hrun as (r3 & s4 & H4 & Hrun). destruct (r3 <? 0); [done|].
  injection Hrun as _ <-.
  eapply syscall_pristine in H1; [|apply socket_frame|done].
  eapply syscall_pristine in H2; [|apply setsockopt_frame|done].
  eapply syscall_pristine in H3; [|apply bind_frame|done].
  by eapply syscall_pristine in H4; [|apply listen_frame|].
Qed.

Lemma setup_ring_pristine argv s s' :
  pristine s -> setup_ring argv s = Ok tt s' -> pristine s'.
Proof.
  intros Hp Hrun. unfold setup_ring in Hrun.
  apply bind_inv_ok in Hrun as (r & s1 & H1 & Hrun).
  destruct (r.1 <? 0); [done|]. destruct (negb _); [done|].
  apply bind_inv_ok in Hrun as (probe & s2 & H2 & Hrun).
  destruct probe as [supported|]; [|done]. destruct (supported _); [|done]. injection Hrun as <-.
  eapply syscall_pristine in H1; [|apply queue_init_frame|done].
  by eapply syscall_pristine in H2; [|apply probe_frame|].
Qed.

(** C8: when start-up returns, [main] is ready to loop: the 4096 buffers are
    with the kernel, exactly one accept on the listening socket is queued, and
    nothing is in flight; any failure on the way ended the process instead. *)
Theorem startup_ready argv s fd s' :
  pristine s -> startup argv s = Ok fd s' -> loop_entry fd s'.
Proof.
  intros Hp Hrun. unfold startup in Hrun. destruct (argv !! 1%nat) as [arg|]; [|done].
  apply bind_inv_ok in Hrun as (f & s1 & H1 & Hrun). apply setup_socket_pristine in H1; [|done].
  apply bind_inv_ok in Hrun as ([] & s2 & H2 & Hrun). apply setup_ring_pristine in H2; [|done].
  apply bind_inv_ok in Hrun as ([] & s3 & H3 & Hrun).
  apply register_buffers_ok in H3 as (Hsq & Hi & Hc & Hn & Hg); [|done].
  apply bind_inv_ok in Hrun as ([] & s4 & H4 & [= <- <-]). rewrite add_accept_spec in H4.
  apply queue_one_inv in H4 as [e ->]. split; simpl; try done.
  exists e. by rewrite Hsq.
Qed.

End main.

(** A start-up on the eager kernel, with [argv = {"server", "8884"}]. *)
Module StartDemo.

Definition blank : sqe address Z := Sqe (OpPollAdd 0 0) 0 0 0 0.
Definition lib : Liburing address Z := ref_liburing 8 blank.
Definition kern : Kernel address Z (ref_kernel address Z) := eager_kernel_ops.
Definition setup : Setup (ref_kernel address Z) := ref_setup 3.
Definition argv : list (list Z) := [chars "server"; chars "8884"].
Definition s0 : rstate address Z (ref_kernel address Z) unit :=
  RState [] (RefK [] [] (fun _ => []) []) tt.

Definition started : outcome _ Z :=
  startup (Liburing0 := lib) (Kernel0 := kern) (Setup0 := setup) argv s0.

End StartDemo.

Lemma startup_ready_witness :
  loop_entry (Liburing0 := StartDemo.lib) (Kernel0 := StartDemo.kern) 3 (final StartDemo.started).
Proof.
  eapply (startup_ready (Liburing0 := StartDemo.lib) (Kernel0 := StartDemo.kern)
    (Setup0 := StartDemo.setup) (SetupOk0 := ref_setup_ok 3) (KernelOk0 := eager_kernel_ok)
    (entries := 8) (LiburingOk0 := ref_liburing_ok 8 StartDemo.blank) StartDemo.argv StartDemo.s0).
  - by split.
  - reflexivity.
Defined.
