(* ===== verification/FileRing.v ===== *)
(** * File reads and writes over a ring: [iouring/liburing.c]

    The C side of the Go package [iouring]: [push_read_request] splits a file
    into blocks, allocates a buffer per block and queues one vectored read;
    [pop_request] takes one completion, hands the data to Go and frees
    everything.  The state is the heap and the calls made to Go. *)

From S2P Require Import Prelude Uring RefKernel Setup.

Definition QUEUE_DEPTH : Z := 16.
Definition INITIAL_NUM_BLOCKS : Z := 7.
Definition IORING_OP_READV : Z := 1.
Definition IORING_OP_WRITEV : Z := 2.

Record iovec : Type := IOVec {
  iov_base : Z;
  iov_len : Z
}.

Record file_info : Type := FileInfo {
  fi_opcode : Z;
  fi_file_sz : Z;
  fi_file_fd : Z;
  fi_iovecs : list iovec
}.

(** What a heap block holds: a [file_info] with its flexible array, or the
    bytes of a buffer (only the size matters here). *)
Inductive block : Type :=
| BInfo (fi : file_info)
| BBuf (size : Z).

(** Calls into Go. *)
Inductive callback : Type :=
| ReadCallback (iovecs : list iovec) (length fd : Z)
| WriteCallback (written fd : Z).

Record fmem : Type := FMem {
  heap : gmap Z block;
  calls : list callback
}.

(** The address of [fi->iovecs]. *)
Inductive faddress : Type := AIovecs (fi : Z).

(** The C library's allocator: an address for a block of the given size, or
    failure.  What it returns is not in use. *)
Class Allocator : Type := {
  alloc : gmap Z block -> Z -> option Z;
  (** The indeterminate contents of fresh memory. *)
  junk_iovec : iovec;
  junk_field : Z
}.

Class AllocatorOk `{!Allocator} : Prop :=
  alloc_sound h n a : alloc h n = Some a -> h !! a = None /\ 0 < a.

(** ** Splitting a file into blocks *)

(** [total_blocks], [initial_block_size] and [last_block_size] as
    [push_read_request] computes them. *)
Definition block_layout (file_sz : Z) : Z * Z * Z :=
  let total_blocks := INITIAL_NUM_BLOCKS in
  let initial_block_size := Z.quot file_sz total_blocks in
  let last_block_size := initial_block_size in
  let total_blocks := if initial_block_size =? 0 then 0 else total_blocks in
  if 0 <? file_sz - initial_block_size * total_blocks
  then (total_blocks + 1, initial_block_size, file_sz - initial_block_size * total_blocks)
  else (total_blocks, initial_block_size, last_block_size).

(** The number of blocks as [pop_request] computes it again. *)
Definition pop_total_blocks (file_sz : Z) : Z :=
  let total_blocks := INITIAL_NUM_BLOCKS in
  let initial_block_size := Z.quot file_sz total_blocks in
  let total_blocks := if initial_block_size =? 0 then 0 else total_blocks in
  if 0 <? file_sz - initial_block_size * total_blocks then total_blocks + 1 else total_blocks.

(** The size of block [i]. *)
Definition current_block_size (total_blocks initial_block_size last_block_size : Z) (i : nat) : Z :=
  if Z.of_nat i =? total_blocks - 1 then last_block_size else initial_block_size.

(** All block sizes, in order. *)
Definition block_sizes (file_sz : Z) : list Z :=
  let '(total, initial, last) := block_layout file_sz in
  current_block_size total initial last <$> seq 0 (Z.to_nat total).

Fixpoint sum_Z (l : list Z) : Z := match l with [] => 0 | x :: l => x + sum_Z l end.

(** The three shapes a layout takes. *)
Lemma block_layout_cases file_sz :
  0 <= file_sz ->
  let q := file_sz / 7 in let r := file_sz `mod` 7 in
  (file_sz = 0 /\ block_layout file_sz = (0, 0, 0)) \/
  (0 < file_sz < 7 /\ block_layout file_sz = (1, 0, file_sz)) \/
  (0 < q /\ r = 0 /\ block_layout file_sz = (7, q, q)) \/
  (0 < q /\ 0 < r /\ block_layout file_sz = (8, q, r)).
Proof.
  intros Hsz. cbv zeta. unfold block_layout, INITIAL_NUM_BLOCKS.
  rewrite Z.quot_div_nonneg by lia.
  pose proof (Z.div_mod file_sz 7 ltac:(lia)) as Hdm.
  pose proof (Z.mod_pos_bound file_sz 7 ltac:(lia)) as Hr.
  pose proof (Z.div_pos file_sz 7 ltac:(lia) ltac:(lia)) as Hq.
  destruct (Z.eqb_spec (file_sz / 7) 0) as [Hq0|Hq0].
  - rewrite Hq0 in *. destruct (Z.ltb_spec 0 (file_sz - 0 * 0)).
    + right; left. split; [lia|]. repeat f_equal. lia.
    + left. split; [lia|done].
  - right; right. destruct (Z.ltb_spec 0 (file_sz - file_sz / 7 * 7)).
    + right. split_and!; [lia..|]. repeat f_equal. lia.
    + left. split_and!; [lia..|done].
Qed.

Lemma pop_total_blocks_eq file_sz : pop_total_blocks file_sz = (block_layout file_sz).1.1.
Proof. unfold pop_total_blocks, block_layout. by destruct (0 <? _). Qed.

Section file_ring.
Context {K : Type} `{!Liburing faddress Z} `{!Kernel faddress Z K} `{!Allocator}.

Local Abbreviation st := (rstate faddress Z K fmem).

Definition heap_of (s : st) : gmap Z block := heap (rs_mem s).
Definition put_heap (h : gmap Z block) (s : st) : st := put_mem (FMem h (calls (rs_mem s))) s.

(** [malloc(sizeof(struct file_info) + sizeof(struct iovec) * n)]; NULL on
    failure. *)
Definition malloc_file_info (n : nat) : M st (option Z) := fun s =>
  match alloc (heap_of s) (24 + 16 * Z.of_nat n) with
  | Some a =>
      let fi := FileInfo junk_field junk_field junk_field (replicate n junk_iovec) in
      Ok (Some a) (put_heap (<[a := BInfo fi]> (heap_of s)) s)
  | None => Ok None s
  end.

(** [posix_memalign(&buf, 1024, size)]: [None] is a non-zero return. *)
Definition posix_memalign (size : Z) : M st (option Z) := fun s =>
  match alloc (heap_of s) (to_u64 size) with
  | Some a => Ok (Some a) (put_heap (<[a := BBuf (to_u64 size)]> (heap_of s)) s)
  | None => Ok None s
  end.

(** [free(p)]: undefined for an address that is not allocated, except NULL. *)
Definition free (p : Z) : M st unit := fun s =>
  match heap_of s !! p with
  | Some _ => Ok tt (put_heap (delete p (heap_of s)) s)
  | None => if p =? 0 then Ok tt s else Ub s
  end.

(** Reading and writing through a [struct file_info *]. *)
Definition load_fi (p : Z) : M st file_info := fun s =>
  match heap_of s !! p with
  | Some (BInfo fi) => Ok fi s
  | _ => Ub s
  end.

Definition store_fi (p : option Z) (f : file_info -> file_info) : M st unit := fun s =>
  match p with
  | None => Ub s
  | Some p => match heap_of s !! p with
              | Some (BInfo fi) => Ok tt (put_heap (<[p := BInfo (f fi)]> (heap_of s)) s)
              | _ => Ub s
              end
  end.

Definition set_iov (f : iovec -> iovec) (i : nat) (fi : file_info) : file_info :=
  FileInfo (fi_opcode fi) (fi_file_sz fi) (fi_file_fd fi) (alter f i (fi_iovecs fi)).
Definition set_iov_len (len : Z) (v : iovec) : iovec := IOVec (iov_base v) (to_u64 len).
Definition set_iov_base (base : Z) (v : iovec) : iovec := IOVec base (iov_len v).
Definition set_header (opcode file_sz file_fd : Z) (fi : file_info) : file_info :=
  FileInfo opcode file_sz file_fd (fi_iovecs fi).

(** The loop that populates [fi->iovecs]: [n] turns from index [i] on;
    [false] when it returns early. *)
Fixpoint populate (fi : option Z) (total initial last : Z) (i n : nat) : M st bool :=
  match n with
  | O => mret true
  | S n =>
      let current := current_block_size total initial last i in
      store_fi fi (set_iov (set_iov_len current) i) ;;
      buf ← posix_memalign current;
      match (buf : option Z) with
      | None => mret false
      | Some b => store_fi fi (set_iov (set_iov_base b) i) ;; populate fi total initial last (S i) n
      end
  end.

(** "Set the queue": an entry for [op] whose completion carries [fi]. *)
Definition set_queue (op : io_op faddress) (fi : option Z) : M st unit :=
  sqe ← io_uring_get_sqe;
  io_uring_prep sqe op ;;
  set_user_data sqe (default 0 fi).

Definition push_read_request (file_fd file_sz : Z) : M st Z :=
  let '(total_blocks, initial_block_size, last_block_size) := block_layout file_sz in
  let n := Z.to_nat total_blocks in
  fi ← malloc_file_info n;
  done ← populate fi total_blocks initial_block_size last_block_size 0 n;
  if (done : bool) then
    store_fi fi (set_header IORING_OP_READV file_sz file_fd) ;;
    set_queue (OpReadv file_fd (AIovecs (default 0 fi)) total_blocks 0) fi ;;
    mret 0
  else mret (-1).

Definition push_write_request (file_fd data file_sz : Z) : M st Z :=
  fi ← malloc_file_info 1;
  store_fi fi (set_iov (set_iov_base data) 0) ;;
  store_fi fi (set_iov (set_iov_len file_sz) 0) ;;
  store_fi fi (set_header IORING_OP_WRITEV file_sz file_fd) ;;
  set_queue (OpWritev file_fd (AIovecs (default 0 fi)) 1 0) fi ;;
  mret 0.

Definition call_go (c : callback) : M st unit :=
  modify (fun s => put_mem (FMem (heap_of s) (calls (rs_mem s) ++ [c])) s).

(** [io_uring_peek_cqe]: the head of the completion queue, or [-EAGAIN]. *)
Definition io_uring_peek_cqe : M st (Z * option (cqe Z)) := fun s =>
  match k_cq (rs_kern s) with
  | c :: _ => Ok (0, Some c) s
  | [] => Ok (- EAGAIN, None) s
  end.

(** [free(fi->iovecs[i].iov_base)] *)
Definition free_iov (fi : Z) (i : nat) : M st unit :=
  f ← load_fi fi;
  match fi_iovecs f !! i with
  | Some v => free (iov_base v)
  | None => ub
  end.

Definition pop_request : M st Z :=
  r ← io_uring_peek_cqe;
  let '(ret, cqe) := (r : Z * option (cqe Z)) in
  if ret <? 0 then mret ret else
  match cqe with
  | None => ub
  | Some cqe =>
      if cqe_res cqe <? 0 then mret (cqe_res cqe) else
      let p := cqe_user_data cqe in
      fi ← load_fi p;
      (if fi_opcode fi =? IORING_OP_READV then
         let total_blocks := pop_total_blocks (fi_file_sz fi) in
         call_go (ReadCallback (fi_iovecs fi) total_blocks (fi_file_fd fi)) ;;
         for_each (free_iov p) (seq 0 (Z.to_nat total_blocks))
       else if fi_opcode fi =? IORING_OP_WRITEV then
         call_go (WriteCallback (cqe_res cqe) (fi_file_fd fi))
       else mret tt) ;;
      free p ;;
      io_uring_cqe_seen ;;
      mret 0
  end.

(** [num], an [int], is converted to the [unsigned] the call takes. *)
Definition queue_submit (num : Z) : M st Z := io_uring_submit_and_wait (Z.to_nat (to_u32 num)).

Definition queue_init `{!RingSetup K} : M st Z := io_uring_queue_init QUEUE_DEPTH 0.
Definition queue_exit `{!RingSetup K} : M st unit := io_uring_queue_exit.

(** ** Populating the blocks *)

Context `{!AllocatorOk}.

(** The heap after some blocks were allocated: the object at [p] holds [f],
    the addresses of [bases] are new, nothing else changed. *)
Record grown (p : Z) (h h' : gmap Z block) (bases : list Z) (f : file_info) : Prop := Grown {
  grown_info : h' !! p = Some (BInfo f);
  grown_nodup : NoDup bases;
  grown_new a : a ∈ bases -> h !! a = None /\ a <> p /\ exists sz, h' !! a = Some (BBuf sz);
  grown_same a : a <> p -> a ∉ bases -> h' !! a = h !! a
}.

(** Only the memory of the program changed. *)
Definition only_heap (s s' : st) : Prop := s' = put_heap (heap_of s') s.

Lemma store_fi_inv p g s s' :
  store_fi (Some p) g s = Ok tt s' ->
  exists f, heap_of s !! p = Some (BInfo f) /\ s' = put_heap (<[p := BInfo (g f)]> (heap_of s)) s.
Proof.
  unfold store_fi. destruct (heap_of s !! p) as [[f|]|]; [|done..].
  intros [= <-]. eauto.
Qed.

Lemma posix_memalign_inv n s r s' :
  posix_memalign n s = Ok r s' ->
  (exists a, r = Some a /\ heap_of s !! a = None /\
     s' = put_heap (<[a := BBuf (to_u64 n)]> (heap_of s)) s) \/ (r = None /\ s' = s).
Proof.
  unfold posix_memalign. destruct (alloc _ _) as [a|] eqn:Ha; intros [= <- <-]; [left|by right].
  exists a. split_and!; [done|by eapply alloc_sound|done].
Qed.

Lemma heap_put h s : heap_of (put_heap h s) = h.
Proof. done. Qed.

(** The entries [f'] got from index [i] on: one per base address. *)
Definition filled (total initial last : Z) (i : nat) (bases : list Z) (f f' : file_info) : Prop :=
  length (fi_iovecs f') = length (fi_iovecs f) /\
  (forall j, (j < i)%nat -> fi_iovecs f' !! j = fi_iovecs f !! j) /\
  (forall j a, bases !! j = Some a ->
     fi_iovecs f' !! (i + j)%nat =
       Some (IOVec a (to_u64 (current_block_size total initial last (i + j))))).

Lemma set_iov_lookup (f : file_info) a v i :
  (i < length (fi_iovecs f))%nat ->
  fi_iovecs (set_iov (set_iov_base a) i (set_iov (set_iov_len v) i f)) !! i = Some (IOVec a (to_u64 v)).
Proof.
  intros Hi. simpl. rewrite !list_lookup_alter_eq.
  by destruct (lookup_lt_is_Some_2 _ _ Hi) as [x ->].
Qed.

Lemma set_iov_other (f : file_info) g i j :
  i <> j -> fi_iovecs (set_iov g i f) !! j = fi_iovecs f !! j.
Proof. intros Hne. simpl. by rewrite list_lookup_alter_ne. Qed.

(** One more block in front of those the rest of the loop allocated. *)
Lemma grown_cons p a v h f1 h' bases f' :
  h !! a = None -> p <> a -> h !! p <> None ->
  grown p (<[p := BInfo f1]> (<[a := BBuf v]> h)) h' bases f' -> grown p h h' (a :: bases) f'.
Proof.
  intros Ha Hpa Hp [G1 G2 G3 G4].
  assert (Hna : a ∉ bases).
  { intros Hin. destruct (G3 _ Hin) as [Hn _].
    rewrite lookup_insert_ne, lookup_insert_eq in Hn by congruence. done. }
  split; [done|by constructor| |].
  - intros x [->|Hx]%elem_of_cons.
    + split_and!; [done|congruence|]. exists v.
      rewrite G4, lookup_insert_ne, lookup_insert_eq by congruence. done.
    + destruct (G3 _ Hx) as (Hn & Hxp & Hsz). split_and!; [|done..].
      rewrite !lookup_insert_ne in Hn by (congruence || set_solver). done.
  - intros x Hxp [Hxa Hxb]%not_elem_of_cons. rewrite G4 by done.
    by rewrite !lookup_insert_ne by congruence.
Qed.

(** A store to the object changes nothing else. *)
Lemma grown_store p h f h' bases f' :
  grown p (<[p := BInfo f]> h) h' bases f' -> grown p h h' bases f'.
Proof.
  intros [G1 G2 G3 G4]. split; [done..| |].
  - intros a Ha. destruct (G3 _ Ha) as (Hn & Hap & Hsz). split_and!; [|done..].
    by rewrite lookup_insert_ne in Hn by congruence.
  - intros a Hap Hb. rewrite G4 by done. by rewrite lookup_insert_ne by congruence.
Qed.

Lemma grown_nil p h f : h !! p = Some (BInfo f) -> grown p h h [] f.
Proof. intros Hp. split; [done|constructor|set_solver|done]. Qed.

Lemma populate_spec p total initial last n i s b s' f :
  heap_of s !! p = Some (BInfo f) -> (i + n <= length (fi_iovecs f))%nat ->
  populate (Some p) total initial last i n s = Ok b s' ->
  only_heap s s' /\ exists bases f',
    grown p (heap_of s) (heap_of s') bases f' /\ filled total initial last i bases f f' /\
    (b = true -> length bases = n).
Proof.
  revert i s f. induction n as [|n IH]; intros i s f Hf Hlen Hrun; cbn [populate] in Hrun.
  { injection Hrun as <- <-. split; [by destruct s as [? ? []]|]. exists [], f.
    split; [by apply grown_nil|]. done. }
  apply bind_inv_ok in Hrun as ([] & s1 & H1 & Hrun).
  apply store_fi_inv in H1 as (f0 & Hf0 & ->). rewrite Hf in Hf0. injection Hf0 as <-.
  apply bind_inv_ok in Hrun as (r & s2 & H2 & Hrun).
  set (v := current_block_size total initial last i) in *.
  apply posix_memalign_inv in H2 as [(a & -> & Ha & ->)|[-> ->]]; rewrite ?heap_put in *.
  - apply lookup_insert_None in Ha as [Ha Hpa].
    apply bind_inv_ok in Hrun as ([] & s3 & H3 & Hrun).
    apply store_fi_inv in H3 as (f0 & Hf0 & ->). rewrite heap_put in *.
    rewrite lookup_insert_ne, lookup_insert_eq in Hf0 by congruence. injection Hf0 as <-.
    set (f1 := set_iov (set_iov_base a) i (set_iov (set_iov_len v) i f)) in *.
    assert (Hl1 : length (fi_iovecs f1) = length (fi_iovecs f)) by (simpl; by rewrite !length_alter).
    apply (IH (S i) _ f1) in Hrun as (Hout & bases & f' & Hg & (Hl & Hlt & Hb) & Hn);
      rewrite ?heap_put in *; [|by rewrite lookup_insert_eq|rewrite Hl1; lia].
    split; [unfold only_heap in *; by rewrite Hout|]. exists (a :: bases), f'. split_and!.
    + rewrite (insert_insert_ne _ a p) in Hg by congruence. rewrite insert_insert_eq in Hg.
      eapply grown_cons; [done..|by rewrite Hf|exact Hg].
    + split_and!; [by rewrite Hl| |].
      * intros j Hj. rewrite Hlt by lia. unfold f1. by rewrite !set_iov_other by lia.
      * intros [|j] x Hx; simpl in Hx; simplify_eq.
        -- rewrite Nat.add_0_r, Hlt by lia. apply set_iov_lookup. lia.
        -- rewrite <- Nat.add_succ_comm. by apply Hb.
    + intros ->. simpl. by rewrite Hn.
  - injection Hrun as <- <-. split; [done|]. exists [], (set_iov (set_iov_len v) i f).
    rewrite heap_put. split_and!; [| |done].
    + eapply grown_store. apply grown_nil. apply lookup_insert_eq.
    + split_and!; [simpl; by rewrite length_alter| |done].
      intros j Hj. by rewrite set_iov_other by lia.
Qed.

(** ** What a read request leaves behind *)

Lemma grown_update p h h' bases f g :
  grown p h h' bases f -> grown p h (<[p := BInfo g]> h') bases g.
Proof.
  intros [G1 G2 G3 G4]. split; [apply lookup_insert_eq|done| |].
  - intros a Ha. destruct (G3 _ Ha) as (Hn & Hap & Hsz). split_and!; [done..|].
    by rewrite lookup_insert_ne by congruence.
  - intros a Hap Hb. rewrite lookup_insert_ne by congruence. auto.
Qed.

Lemma malloc_inv n s r s' :
  malloc_file_info n s = Ok r s' ->
  (exists a f, r = Some a /\ heap_of s !! a = None /\ length (fi_iovecs f) = n /\
     s' = put_heap (<[a := BInfo f]> (heap_of s)) s) \/ (r = None /\ s' = s).
Proof.
  unfold malloc_file_info. destruct (alloc _ _) as [a|] eqn:Ha; intros [= <- <-]; [left|by right].
  do 2 eexists. split_and!; [done|by eapply alloc_sound| |done]. apply length_replicate.
Qed.

(** The lists of addresses and of lengths in a fully populated array. *)
Lemma filled_all total initial last bases f f' :
  filled total initial last 0 bases f f' -> length bases = length (fi_iovecs f) ->
  iov_base <$> fi_iovecs f' = bases /\
  iov_len <$> fi_iovecs f' =
    (fun i => to_u64 (current_block_size total initial last i)) <$> seq 0 (length bases).
Proof.
  intros (Hl & _ & Hb) Hlen. split; apply list_eq; intros j; rewrite list_lookup_fmap.
  - destruct (bases !! j) as [a|] eqn:Hj; [by pose proof (Hb _ _ Hj) as Hx; simpl in Hx; rewrite Hx|].
    apply lookup_ge_None in Hj. rewrite lookup_ge_None_2 by lia. done.
  - rewrite list_lookup_fmap. destruct (bases !! j) as [a|] eqn:Hj.
    + pose proof (Hb _ _ Hj) as Hx. simpl in Hx. rewrite Hx.
      apply lookup_lt_Some in Hj. by rewrite lookup_seq_lt.
    + apply lookup_ge_None in Hj. rewrite lookup_ge_None_2 by lia. by rewrite lookup_seq_ge.
Qed.

(** The state after a successful [push_read_request]. *)
Record read_pushed (file_fd file_sz : Z) (s s' : st) (p : Z) (bases : list Z) (f : file_info) : Prop :=
  ReadPushed {
    rp_fresh : heap_of s !! p = None;
    rp_heap : grown p (heap_of s) (heap_of s') bases f;
    rp_header : fi_opcode f = IORING_OP_READV /\ fi_file_sz f = file_sz /\ fi_file_fd f = file_fd;
    rp_bases : iov_base <$> fi_iovecs f = bases;
    rp_lens : iov_len <$> fi_iovecs f = to_u64 <$> block_sizes file_sz;
    rp_rest : rs_kern s' = rs_kern s /\ calls (rs_mem s') = calls (rs_mem s);
    rp_sq : exists e0, rs_sq s' = rs_sq s ++
      [sqe_put_user_data p
         (lib_prep (OpReadv file_fd (AIovecs p) (pop_total_blocks file_sz) 0) e0)]
  }.

Lemma set_queue_spec op fi (s : st) :
  set_queue op fi s = queue_one (fun e => sqe_put_user_data (default 0 fi) (lib_prep op e)) s.
Proof. fill_sqe (fun e : sqe faddress Z => sqe_put_user_data (default 0 fi) (lib_prep op e)). Qed.

Lemma queue_one_ok_inv (f : sqe faddress Z -> sqe faddress Z) (s s' : st) :
  queue_one f s = Ok tt s' -> exists e, s' = push_sqe (f e) s.
Proof. unfold queue_one. destruct (lib_get_sqe _); naive_solver. Qed.

(** A NULL [fi] is dereferenced on every path. *)
Lemma populate_null total initial last i n (k : bool -> M st Z) (s : st) :
  (forall t, k true t = Ub t) ->
  exists t, (populate None total initial last i n ≫= k) s = Ub t.
Proof. intros Hk. destruct n; exists s; [apply Hk|done]. Qed.

Lemma push_read_inv file_fd file_sz s s' :
  push_read_request file_fd file_sz s = Ok 0 s' ->
  exists p bases f, read_pushed file_fd file_sz s s' p bases f.
Proof.
  unfold push_read_request. pose proof (pop_total_blocks_eq file_sz) as Hpop.
  assert (Hsizes : block_sizes file_sz = let '(t, i, l) := block_layout file_sz in
    current_block_size t i l <$> seq 0 (Z.to_nat t)) by done.
  destruct (block_layout file_sz) as [[t ini] last]. simpl in Hpop.
  intros (r & s1 & H1 & Hrun)%bind_inv_ok.
  apply malloc_inv in H1 as [(p & f0 & -> & Hp & Hlen & ->)|[-> ->]]; last first.
  { edestruct (populate_null t ini last 0 (Z.to_nat t)) as [u Hu]; [|by rewrite Hu in Hrun]. done. }
  apply bind_inv_ok in Hrun as (b & s2 & H2 & Hrun).
  apply (populate_spec _ _ _ _ _ _ _ _ _ f0) in H2 as (Hout & bases & f1 & Hg & Hfill & Hb);
    [|by rewrite heap_put, lookup_insert_eq|lia].
  destruct b; [|done]. specialize (Hb eq_refl). rewrite heap_put in Hg.
  apply grown_store in Hg.
  apply bind_inv_ok in Hrun as ([] & s3 & H3 & Hrun).
  apply store_fi_inv in H3 as (f2 & Hf2 & ->).
  pose proof (grown_info _ _ _ _ _ Hg) as Hf1. rewrite Hf1 in Hf2. injection Hf2 as <-.
  destruct (filled_all _ _ _ _ _ _ Hfill) as [Hbases Hlens]; [congruence|].
  apply bind_inv_ok in Hrun as ([] & s4 & H4 & [= <-]). rewrite set_queue_spec in H4.
  apply queue_one_ok_inv in H4 as [e0 ->].
  exists p, bases, (set_header IORING_OP_READV file_sz file_fd f1). rewrite Hout. split; simpl.
  - done.
  - by eapply grown_update.
  - done.
  - done.
  - rewrite Hlens, Hb, Hsizes, <- list_fmap_compose. done.
  - done.
  - exists e0. by rewrite Hpop.
Qed.

(** ** Releasing a request *)

Definition delete_all (l : list Z) (h : gmap Z block) : gmap Z block := foldl (fun h a => delete a h) h l.

Lemma lookup_delete_all l h a : delete_all l h !! a = if decide (a ∈ l) then None else h !! a.
Proof.
  revert h. induction l as [|b l IH]; intros h; [done|].
  change (delete_all (b :: l) h) with (delete_all l (delete b h)). rewrite IH.
  destruct (decide (a ∈ l)), (decide (a ∈ b :: l)) as [Hin|Hin]; try done.
  - by destruct Hin; right.
  - apply elem_of_cons in Hin as [->|]; [apply lookup_delete_eq|done].
  - apply lookup_delete_ne. intros ->. by destruct Hin; left.
Qed.

Lemma put_heap_twice h h' s : put_heap h (put_heap h' s) = put_heap h s.
Proof. done. Qed.

Lemma free_all p f bs i h s :
  h !! p = Some (BInfo f) -> (forall j a, bs !! j = Some a -> (iov_base <$> fi_iovecs f) !! (i + j)%nat = Some a) ->
  NoDup bs -> p ∉ bs -> (forall a, a ∈ bs -> is_Some (h !! a)) ->
  for_each (free_iov p) (seq i (length bs)) (put_heap h s) = Ok tt (put_heap (delete_all bs h) s).
Proof.
  revert i h. induction bs as [|b bs IH]; intros i h Hp Hb Hn Hpb Ha; [done|].
  apply NoDup_cons in Hn as [Hnb Hn]. apply not_elem_of_cons in Hpb as [Hpb Hpbs].
  cbn [length seq for_each].
  destruct (Ha b ltac:(by left)) as [x Hx].
  assert (Hfree : free_iov p i (put_heap h s) = Ok tt (put_heap (delete b h) s)).
  { unfold free_iov, load_fi, free. mred. rewrite heap_put, Hp.
    pose proof (Hb 0%nat b eq_refl) as Hv. rewrite Nat.add_0_r, list_lookup_fmap in Hv.
    destruct (fi_iovecs f !! i) as [v|]; [|done]. injection Hv as <-.
    by rewrite heap_put, Hx. }
  rewrite (bind_ok _ _ _ _ _ Hfree). apply IH; [|intros j a Hj|done|done|].
  - by rewrite lookup_delete_ne.
  - rewrite Nat.add_succ_comm. by apply Hb.
  - intros a Hin. rewrite lookup_delete_ne by congruence. apply Ha. by right.
Qed.

(** Popping the completion of a read request. *)
Lemma pop_read p f bases c s :
  head (k_cq (rs_kern s)) = Some c -> 0 <= cqe_res c -> cqe_user_data c = p ->
  heap_of s !! p = Some (BInfo f) -> fi_opcode f = IORING_OP_READV ->
  iov_base <$> fi_iovecs f = bases -> Z.of_nat (length bases) = pop_total_blocks (fi_file_sz f) ->
  NoDup bases -> p ∉ bases -> (forall a, a ∈ bases -> is_Some (heap_of s !! a)) ->
  pop_request s =
    Ok 0 (RState (rs_sq s) (k_cq_advance 1 (rs_kern s))
      (FMem (delete_all (bases ++ [p]) (heap_of s))
        (calls (rs_mem s) ++ [ReadCallback (fi_iovecs f) (Z.of_nat (length bases)) (fi_file_fd f)]))).
Proof.
  intros Hc Hr Hu Hp Hop Hb Hlen Hn Hpb Ha.
  assert (Hpeek : io_uring_peek_cqe s = Ok (0, Some c) s).
  { unfold io_uring_peek_cqe. destruct (k_cq (rs_kern s)); [done|]. by injection Hc as ->. }
  unfold pop_request. rewrite (bind_ok _ _ _ _ _ Hpeek). cbv beta iota.
  change (0 <? 0) with false. rewrite (proj2 (Z.ltb_ge _ _) Hr), Hu.
  assert (Hload : load_fi p s = Ok f s) by (unfold load_fi; by rewrite Hp).
  rewrite (bind_ok _ _ _ _ _ Hload), Hop, <- Hlen, Nat2Z.id, Z.eqb_refl.
  set (call := ReadCallback _ _ _).
  set (s1 := put_mem (FMem (heap_of s) (calls (rs_mem s) ++ [call])) s).
  assert (Hfree : (call_go call ;; for_each (free_iov p) (seq 0 (length bases))) s =
    Ok tt (put_heap (delete_all bases (heap_of s)) s1)).
  { change (for_each (free_iov p) (seq 0 (length bases)) (put_heap (heap_of s) s1) =
      Ok tt (put_heap (delete_all bases (heap_of s)) s1)).
    eapply free_all; [done| |done..]. intros j a Hj. by rewrite Hb. }
  rewrite (bind_ok _ _ _ _ _ Hfree).
  assert (Hlast : free p (put_heap (delete_all bases (heap_of s)) s1) =
    Ok tt (put_heap (delete_all (bases ++ [p]) (heap_of s)) s1)).
  { unfold free. rewrite heap_put, lookup_delete_all, decide_False, Hp by done.
    unfold delete_all. by rewrite foldl_snoc. }
  by rewrite (bind_ok _ _ _ _ _ Hlast).
Qed.

(** Popping the completion of a write request. *)
Lemma pop_write p f c s :
  head (k_cq (rs_kern s)) = Some c -> 0 <= cqe_res c -> cqe_user_data c = p ->
  heap_of s !! p = Some (BInfo f) -> fi_opcode f = IORING_OP_WRITEV ->
  pop_request s =
    Ok 0 (RState (rs_sq s) (k_cq_advance 1 (rs_kern s))
      (FMem (delete p (heap_of s)) (calls (rs_mem s) ++ [WriteCallback (cqe_res c) (fi_file_fd f)]))).
Proof.
  intros Hc Hr Hu Hp Hop.
  assert (Hpeek : io_uring_peek_cqe s = Ok (0, Some c) s).
  { unfold io_uring_peek_cqe. destruct (k_cq (rs_kern s)); [done|]. by injection Hc as ->. }
  unfold pop_request. rewrite (bind_ok _ _ _ _ _ Hpeek). cbv beta iota.
  change (0 <? 0) with false. rewrite (proj2 (Z.ltb_ge _ _) Hr), Hu.
  assert (Hload : load_fi p s = Ok f s) by (unfold load_fi; by rewrite Hp).
  rewrite (bind_ok _ _ _ _ _ Hload), Hop.
  change (IORING_OP_WRITEV =? IORING_OP_READV) with false. rewrite Z.eqb_refl.
  mred. unfold call_go, free; simpl. unfold heap_of in *; simpl. by rewrite Hp.
Qed.

Lemma push_write_inv file_fd data file_sz s s' :
  push_write_request file_fd data file_sz s = Ok 0 s' ->
  exists p f e0, heap_of s !! p = None /\ fi_opcode f = IORING_OP_WRITEV /\
    fi_file_fd f = file_fd /\ fi_iovecs f = [IOVec data (to_u64 file_sz)] /\
    s' = push_sqe (sqe_put_user_data p (lib_prep (OpWritev file_fd (AIovecs p) 1 0) e0))
           (put_heap (<[p := BInfo f]> (heap_of s)) s).
Proof.
  intros (r & s1 & H1 & Hrun)%bind_inv_ok.
  apply malloc_inv in H1 as [(p & f0 & -> & Hp & Hlen & ->)|[-> ->]]; [|done].
  apply bind_inv_ok in Hrun as ([] & s2 & H2 & Hrun). apply store_fi_inv in H2 as (f & Hf & ->).
  rewrite heap_put, lookup_insert_eq in Hf. injection Hf as <-.
  apply bind_inv_ok in Hrun as ([] & s3 & H3 & Hrun). apply store_fi_inv in H3 as (f & Hf & ->).
  rewrite heap_put, lookup_insert_eq in Hf. injection Hf as <-.
  apply bind_inv_ok in Hrun as ([] & s4 & H4 & Hrun). apply store_fi_inv in H4 as (f & Hf & ->).
  rewrite heap_put, lookup_insert_eq in Hf. injection Hf as <-.
  apply bind_inv_ok in Hrun as ([] & s5 & H5 & [= <-]). rewrite set_queue_spec in H5.
  apply queue_one_ok_inv in H5 as [e0 ->]. rewrite !heap_put, !insert_insert_eq.
  exists p. do 2 eexists. split_and!; [done| | | |done]; [done..|].
  destruct (fi_iovecs f0) as [|v [|]] eqn:Hv; try done. simpl. by rewrite Hv.
Qed.

Lemma block_sizes_length file_sz :
  0 <= file_sz -> Z.of_nat (length (block_sizes file_sz)) = pop_total_blocks file_sz.
Proof.
  intros Hsz. rewrite pop_total_blocks_eq. unfold block_sizes.
  destruct (block_layout_cases file_sz Hsz) as [[_ Hb]|[[_ Hb]|[(_ & _ & Hb)|(_ & _ & Hb)]]];
    rewrite Hb; by rewrite length_fmap, length_seq.
Qed.

Lemma block_sizes_sum file_sz : 0 <= file_sz -> sum_Z (block_sizes file_sz) = file_sz.
Proof.
  intros Hsz. pose proof (Z.div_mod file_sz 7 ltac:(lia)) as Hmod. unfold block_sizes.
  destruct (block_layout_cases file_sz Hsz) as [[Hz Hb]|[[Hz Hb]|[(Hq & Hr & Hb)|(Hq & Hr & Hb)]]];
    rewrite Hb; cbv [current_block_size]; simpl; lia.
Qed.

Lemma block_sizes_nonneg file_sz : 0 <= file_sz -> Forall (fun n => 0 < n) (block_sizes file_sz).
Proof.
  intros Hsz. unfold block_sizes.
  destruct (block_layout_cases file_sz Hsz) as [[Hz Hb]|[[Hz Hb]|[(Hq & Hr & Hb)|(Hq & Hr & Hb)]]];
    rewrite Hb; cbv [current_block_size]; simpl; repeat constructor; lia.
Qed.

Lemma sum_Z_lookup l i x : Forall (fun n => 0 < n) l -> l !! i = Some x -> 0 < x <= sum_Z l.
Proof.
  intros Hl. revert i. induction Hl as [|y l Hy Hl IH]; intros [|i] Hi; simplify_eq/=.
  - split; [done|]. clear IH. induction Hl; simpl; lia.
  - apply IH in Hi. lia.
Qed.

Lemma block_sizes_bound file_sz i x :
  0 <= file_sz < 2 ^ 63 -> block_sizes file_sz !! i = Some x -> 0 <= x < 2 ^ 64.
Proof.
  intros Hsz Hx. apply sum_Z_lookup in Hx; [|apply block_sizes_nonneg; lia].
  rewrite block_sizes_sum in Hx by lia. lia.
Qed.

(** No block size wraps around in the array's [size_t]. *)
Lemma block_sizes_u64 file_sz :
  0 <= file_sz < 2 ^ 63 -> to_u64 <$> block_sizes file_sz = block_sizes file_sz.
Proof.
  intros Hsz. rewrite <- list_fmap_id. apply list_fmap_ext. intros i x Hx. unfold to_u64.
  apply Z.mod_small. by apply (block_sizes_bound file_sz i x).
Qed.

(** ** When allocation succeeds *)

Lemma store_fi_ok p g s f :
  heap_of s !! p = Some (BInfo f) ->
  store_fi (Some p) g s = Ok tt (put_heap (<[p := BInfo (g f)]> (heap_of s)) s).
Proof. unfold store_fi. by intros ->. Qed.

Lemma posix_memalign_ok n s a :
  alloc (heap_of s) (to_u64 n) = Some a ->
  posix_memalign n s = Ok (Some a) (put_heap (<[a := BBuf (to_u64 n)]> (heap_of s)) s).
Proof. unfold posix_memalign. by intros ->. Qed.

Lemma populate_total p total initial last n i s f :
  (forall h sz, is_Some (alloc h sz)) -> heap_of s !! p = Some (BInfo f) ->
  exists s', populate (Some p) total initial last i n s = Ok true s' /\ rs_sq s' = rs_sq s.
Proof.
  intros Hal. revert i s f. induction n as [|n IH]; intros i s f Hp; [by exists s|].
  cbn [populate]. rewrite (bind_ok _ _ _ _ _ (store_fi_ok _ _ _ _ Hp)).
  match goal with |- context [put_heap ?h s] => set (h1 := h) end.
  destruct (Hal h1 (to_u64 (current_block_size total initial last i))) as [a Ha].
  rewrite (bind_ok _ _ _ _ _ (posix_memalign_ok _ (put_heap h1 s) a Ha)), heap_put, put_heap_twice.
  assert (Hpa : a <> p).
  { intros ->. apply alloc_sound in Ha as [Ha _]. unfold h1 in Ha.
    by rewrite lookup_insert_eq in Ha. }
  assert (Hh : heap_of (put_heap (<[a := BBuf (to_u64 (current_block_size total initial last i))]> h1) s)
    !! p = Some (BInfo (set_iov (set_iov_len (current_block_size total initial last i)) i f))).
  { rewrite heap_put, lookup_insert_ne by done. apply lookup_insert_eq. }
  rewrite (bind_ok _ _ _ _ _ (store_fi_ok _ _ _ _ Hh)).
  match goal with |- exists s', populate _ _ _ _ _ _ ?t = _ /\ _ =>
    edestruct (IH (S i) t) as (s' & -> & Hq); [rewrite heap_put; apply lookup_insert_eq|] end.
  by exists s'.
Qed.

Lemma push_read_total file_fd file_sz s :
  (forall h sz, is_Some (alloc h sz)) -> is_Some (lib_get_sqe (rs_sq s)) ->
  exists s', push_read_request file_fd file_sz s = Ok 0 s'.
Proof.
  intros Hal [e He]. unfold push_read_request. destruct (block_layout file_sz) as [[t ini] lst].
  set (n := Z.to_nat t). destruct (Hal (heap_of s) (24 + 16 * Z.of_nat n)) as [p Hp].
  set (f0 := FileInfo junk_field junk_field junk_field (replicate n junk_iovec)).
  assert (Hm : malloc_file_info n s = Ok (Some p) (put_heap (<[p := BInfo f0]> (heap_of s)) s)).
  { unfold malloc_file_info. by rewrite Hp. }
  rewrite (bind_ok _ _ _ _ _ Hm).
  destruct (populate_total p t ini lst n 0 (put_heap (<[p := BInfo f0]> (heap_of s)) s) f0 Hal)
    as (s2 & Hs2 & Hq); [apply lookup_insert_eq|].
  rewrite (bind_ok _ _ _ _ _ Hs2).
  destruct (populate_spec p t ini lst n 0 _ _ _ f0 (lookup_insert_eq _ _ _)
    ltac:(unfold f0; simpl; rewrite length_replicate; lia) Hs2) as (_ & bases & f & Hg & _).
  pose proof (grown_info _ _ _ _ _ Hg) as Hf.
  rewrite (bind_ok _ _ _ _ _ (store_fi_ok _ _ _ _ Hf)). unfold mbind, M_bind. rewrite set_queue_spec.
  unfold queue_one. simpl. rewrite Hq. simpl. rewrite He. eauto.
Qed.

(** ** The program seen from Go

    Go calls the entry points in any order while the kernel completes
    requests. *)
Inductive go_step : st -> st -> Prop :=
| GoPop s r s' : pop_request s = Ok r s' -> go_step s s'
| GoPushRead fd sz s r s' : push_read_request fd sz s = Ok r s' -> go_step s s'
| GoPushWrite fd data sz s r s' : push_write_request fd data sz s = Ok r s' -> go_step s s'
| GoSubmit n s r s' : queue_submit n s = Ok r s' -> go_step s s'
| GoKernel s k : k_post (rs_kern s) k -> go_step s (put_kern k s).

Lemma malloc_cq n : preserving cq_of (malloc_file_info n).
Proof. intros s a s'. unfold malloc_file_info. by case_match; intros [= _ <-]. Qed.

Lemma posix_memalign_cq n : preserving cq_of (posix_memalign n).
Proof. intros s a s'. unfold posix_memalign. by case_match; intros [= _ <-]. Qed.

Lemma store_fi_cq p f : preserving cq_of (store_fi p f).
Proof. intros s a s'. unfold store_fi. by repeat case_match; intros [= _ <-]. Qed.

#[local] Hint Resolve malloc_cq posix_memalign_cq store_fi_cq get_sqe_cq sqe_update_cq : frame.

Lemma set_queue_cq op fi : preserving cq_of (set_queue op fi).
Proof. unfold set_queue, io_uring_prep, set_user_data. eauto 10 with frame. Qed.

Lemma populate_cq fi total initial last n i : preserving cq_of (populate fi total initial last i n).
Proof.
  revert i. induction n as [|n IH]; intros i; cbn [populate]; [apply preserving_ret|].
  apply preserving_bind; [apply store_fi_cq|intros _].
  apply preserving_bind; [apply posix_memalign_cq|intros [b|]]; [|apply preserving_ret].
  apply preserving_bind; [apply store_fi_cq|intros _; apply IH].
Qed.

#[local] Hint Resolve set_queue_cq populate_cq : frame.

Lemma push_read_cq fd sz : preserving cq_of (push_read_request fd sz).
Proof. unfold push_read_request. destruct (block_layout sz) as [[t i] l]. eauto 20 with frame. Qed.

Lemma push_write_cq fd data sz : preserving cq_of (push_write_request fd data sz).
Proof. unfold push_write_request. eauto 20 with frame. Qed.

Lemma pop_error s c :
  head (k_cq (rs_kern s)) = Some c -> cqe_res c < 0 -> pop_request s = Ok (cqe_res c) s.
Proof.
  intros Hc Hr. unfold pop_request, io_uring_peek_cqe. mred.
  destruct (k_cq (rs_kern s)) as [|c' l]; [done|].
  injection Hc as ->. change (0 <? 0) with false. by rewrite (proj2 (Z.ltb_lt _ _) Hr).
Qed.

Context `{!KernelOk faddress Z K}.

(** Completions join the end of the queue. *)
Lemma posts_head k k' c : rtc k_post k k' -> head (k_cq k) = Some c -> head (k_cq k') = Some c.
Proof.
  induction 1 as [|k k1 k2 Hp _ IH]; [done|]. intros Hc. apply IH.
  apply post_spec in Hp as (e & c' & _ & -> & _). by destruct (k_cq k).
Qed.

Lemma go_step_head s s' c :
  head (k_cq (rs_kern s)) = Some c -> cqe_res c < 0 -> go_step s s' ->
  head (k_cq (rs_kern s')) = Some c.
Proof.
  intros Hc Hr. destruct 1 as [s r s' Hs|fd sz s r s' Hs|fd d sz s r s' Hs|n s r s' Hs|s k Hs].
  - rewrite (pop_error s c) in Hs by done. by injection Hs as _ <-.
  - apply push_read_cq in Hs. unfold cq_of in Hs. by rewrite Hs.
  - apply push_write_cq in Hs. unfold cq_of in Hs. by rewrite Hs.
  - unfold queue_submit, io_uring_submit_and_wait in Hs.
    pose proof (submit_spec (rs_sq s) (Z.to_nat (to_u32 n)) (rs_kern s)) as Hk.
    destruct (k_submit _ _ _) as [[ret m] k]. injection Hs as _ <-.
    destruct Hk as [(k1 & (_ & Hq & _) & Hp) _]. eapply posts_head; [exact Hp|]. by rewrite Hq.
  - simpl. eapply posts_head; [by apply rtc_once|done].
Qed.

End file_ring.

Section file_theorems.
Context {K : Type} `{!Liburing faddress Z} `{!Kernel faddress Z K} `{!Allocator} `{!AllocatorOk}.
Context `{!KernelOk faddress Z K} {entries : nat} `{!LiburingOk faddress Z entries}.

Local Abbreviation st := (rstate faddress Z K fmem).

(** C9: a file of any size is cut into at most 8 blocks, every one of them
    non-empty, whose sizes add up to the size of the file; [pop_request]
    computes the same number of blocks again from the size alone. *)
Theorem read_blocks_partition file_sz :
  0 <= file_sz ->
  (length (block_sizes file_sz) <= 8)%nat /\ Forall (fun n => 0 < n) (block_sizes file_sz) /\
  sum_Z (block_sizes file_sz) = file_sz /\
  pop_total_blocks file_sz = Z.of_nat (length (block_sizes file_sz)).
Proof.
  intros Hsz. rewrite block_sizes_length by done.
  split_and!; [|by apply block_sizes_nonneg|by apply block_sizes_sum|done].
  unfold block_sizes.
  destruct (block_layout_cases file_sz Hsz) as [[_ Hb]|[[_ Hb]|[(_ & _ & Hb)|(_ & _ & Hb)]]];
    rewrite Hb; simpl; lia.
Qed.

(** C10: With memory and a vacant entry, [push_read_request] returns 0 and
    appends exactly one entry: a vectored read at offset 0 of the descriptor
    into the array of a fresh [file_info], whose address is the entry's user
    data.  The array has as many entries as the request announces, and their
    lengths add up to the file size. *)
Theorem read_request_queued file_fd file_sz (s : st) :
  0 <= file_sz < 2 ^ 63 -> (forall h sz, is_Some (alloc h sz)) ->
  (length (rs_sq s) < entries)%nat ->
  exists s' e p f, push_read_request file_fd file_sz s = Ok 0 s' /\
    rs_sq s' = rs_sq s ++ [e] /\ rs_kern s' = rs_kern s /\
    sqe_user_data e = p /\ heap_of s !! p = None /\ heap_of s' !! p = Some (BInfo f) /\
    sqe_op e = OpReadv file_fd (AIovecs p) (Z.of_nat (length (fi_iovecs f))) 0 /\
    sum_Z (iov_len <$> fi_iovecs f) = file_sz.
Proof.
  intros Hsz Hal Hroom.
  destruct (push_read_total file_fd file_sz s Hal (get_sqe_room _ Hroom)) as [s' Hpush].
  destruct (push_read_inv _ _ _ _ Hpush)
    as (p & bases & f & [Hfresh Hg (Hop & Hfsz & Hffd) Hb Hl [Hk _] (e0 & Hsq)]).
  exists s'. eexists. exists p, f. split; [done|]. split; [exact Hsq|]. split_and!; try done.
  - by destruct Hg.
  - simpl. rewrite prep_op. apply (f_equal length) in Hl. rewrite !length_fmap in Hl.
    by rewrite Hl, block_sizes_length by lia.
  - rewrite Hl, block_sizes_u64 by done. apply block_sizes_sum. lia.
Qed.

(** C11: a read request gives back everything it took.  If
    [push_read_request] succeeds and its request later completes with a
    non-negative result while its blocks are still in place, [pop_request]
    succeeds without undefined behaviour, consumes exactly that completion,
    passes Go an array of blocks whose lengths add up to the file size
    together with its length and the descriptor, and leaves the heap as it was
    before the push: no leak, no double free. *)
Theorem read_request_roundtrip file_fd file_sz (s s1 s2 : st) e c :
  0 <= file_sz < 2 ^ 63 ->
  push_read_request file_fd file_sz s = Ok 0 s1 -> last (rs_sq s1) = Some e ->
  heap_of s2 = heap_of s1 -> head (k_cq (rs_kern s2)) = Some c ->
  cqe_user_data c = sqe_user_data e -> 0 <= cqe_res c ->
  exists s3 iovs, pop_request s2 = Ok 0 s3 /\ heap_of s3 = heap_of s /\
    rs_sq s3 = rs_sq s2 /\ rs_kern s3 = k_cq_advance 1 (rs_kern s2) /\
    calls (rs_mem s3) =
      calls (rs_mem s2) ++ [ReadCallback iovs (Z.of_nat (length iovs)) file_fd] /\
    sum_Z (iov_len <$> iovs) = file_sz.
Proof.
  intros Hsz Hpush He Hheap Hc Hu Hr.
  destruct (push_read_inv _ _ _ _ Hpush) as (p & bases & f & [Hfresh Hg (Hop & Hfsz & Hffd) Hb Hl _ (e0 & Hsq)]).
  rewrite Hsq, last_snoc in He. injection He as <-. simpl in Hu. destruct Hg as [G1 G2 G3 G4].
  assert (Hlen : length bases = length (block_sizes file_sz)).
  { apply (f_equal length) in Hl. rewrite !length_fmap in Hl. by rewrite <- Hb, length_fmap. }
  assert (Hpb : p ∉ bases) by (intros Hin; by destruct (G3 _ Hin) as (_ & ? & _)).
  rewrite (pop_read p f bases c s2); rewrite ?Hheap; try done.
  - do 2 eexists. split; [reflexivity|]. split; [|split; [done|split; [done|split]]].
    + unfold heap_of at 1; simpl. apply map_eq. intros a. rewrite lookup_delete_all.
      destruct (decide (a ∈ bases ++ [p])) as [Hin|Hin].
      * apply elem_of_app in Hin as [Hin| ->%list_elem_of_singleton]; [|done].
        by destruct (G3 _ Hin) as [-> _].
      * rewrite not_elem_of_app, not_elem_of_cons in Hin. destruct Hin as (? & ? & _). by apply G4.
    + simpl. by rewrite <- Hb, length_fmap, Hffd.
    + rewrite Hl, block_sizes_u64 by done. apply block_sizes_sum. lia.
  - rewrite Hlen, Hfsz. apply block_sizes_length. lia.
  - intros a Ha. destruct (G3 _ Ha) as (_ & _ & sz & ->). eauto.
Qed.

(** C12: The same for writes: the descriptor block is freed, the caller's data
    is not, and Go learns the number of bytes written. *)
Theorem write_request_roundtrip file_fd data file_sz (s s1 s2 : st) e c :
  push_write_request file_fd data file_sz s = Ok 0 s1 -> last (rs_sq s1) = Some e ->
  heap_of s2 = heap_of s1 -> head (k_cq (rs_kern s2)) = Some c ->
  cqe_user_data c = sqe_user_data e -> 0 <= cqe_res c ->
  exists s3, pop_request s2 = Ok 0 s3 /\ heap_of s3 = heap_of s /\
    rs_kern s3 = k_cq_advance 1 (rs_kern s2) /\
    calls (rs_mem s3) = calls (rs_mem s2) ++ [WriteCallback (cqe_res c) file_fd].
Proof.
  intros Hpush He Hheap Hc Hu Hr.
  destruct (push_write_inv _ _ _ _ _ Hpush) as (p & f & e0 & Hfresh & Hop & Hfd & _ & ->).
  simpl in He. rewrite last_snoc in He. injection He as <-. simpl in Hu.
  rewrite (pop_write p f c s2); rewrite ?Hheap; simpl; try done.
  - eexists. split; [reflexivity|]. split_and!; [|done|by rewrite <- Hfd].
    unfold heap_of at 1; simpl. change (heap_of (push_sqe ?e ?t)) with (heap_of t).
    rewrite heap_put. by apply delete_insert_id.
  - apply lookup_insert_eq.
Qed.

(** C13: a request that failed is never consumed: [pop_request] returns the
    error before [io_uring_cqe_seen], so whatever the program and the kernel
    do from then on, every later call meets the same completion, reports the
    same error and changes nothing. *)
Theorem pop_error_stuck (s s' : st) c :
  head (k_cq (rs_kern s)) = Some c -> cqe_res c < 0 -> rtc go_step s s' ->
  pop_request s' = Ok (cqe_res c) s'.
Proof.
  intros Hc Hr Hs. apply pop_error; [|done].
  induction Hs as [|s1 s2 s3 Hstep _ IH]; [done|]. apply IH. by eapply go_step_head.
Qed.

(** When an aligned allocation fails, [push_read_request] returns -1 and
    queues nothing, but the [file_info] it allocated stays allocated, with no
    pointer left to free it: each failed push leaks at least one block. *)
Theorem push_failure_leaks file_fd file_sz (s s' : st) :
  push_read_request file_fd file_sz s = Ok (-1) s' ->
  rs_sq s' = rs_sq s /\ rs_kern s' = rs_kern s /\ calls (rs_mem s') = calls (rs_mem s) /\
  exists p f, heap_of s !! p = None /\ heap_of s' !! p = Some (BInfo f).
Proof.
  unfold push_read_request. destruct (block_layout file_sz) as [[t ini] lst].
  intros (r & s1 & H1 & Hrun)%bind_inv_ok.
  apply malloc_inv in H1 as [(p & f0 & -> & Hp & Hlen & ->)|[-> ->]]; last first.
  { edestruct (populate_null (K:=K) t ini lst 0 (Z.to_nat t)) as [u Hu]; [|by rewrite Hu in Hrun]. done. }
  apply bind_inv_ok in Hrun as (b & s2 & H2 & Hrun).
  apply (populate_spec _ _ _ _ _ _ _ _ _ f0) in H2 as (Hout & bases & f1 & Hg & _);
    [|by rewrite heap_put, lookup_insert_eq|lia].
  destruct b.
  - apply bind_inv_ok in Hrun as ([] & s3 & H3 & Hrun).
    by apply bind_inv_ok in Hrun as ([] & s4 & H4 & [=]).
  - injection Hrun as <-. pose proof (grown_info _ _ _ _ _ Hg). rewrite Hout. eauto 10.
Qed.

End file_theorems.

(** ** Concrete runs *)
Module FileDemo.

(** An allocator that returns the address after the highest one in use, as
    long as fewer than [limit] blocks are in use. *)
Definition top (h : gmap Z block) : Z := map_fold (fun a _ m => Z.max a m) 0 h.

Lemma top_bound h : 0 <= top h /\ forall a b, h !! a = Some b -> a <= top h.
Proof.
  unfold top. apply (map_fold_weak_ind (fun m h => 0 <= m /\ forall a b, h !! a = Some b -> a <= m)).
  - by split.
  - intros a b m r _ [Hr Hm]. split; [lia|]. intros a' b' [[-> _]|[_ Ha]]%lookup_insert_Some; [lia|].
    apply Hm in Ha. lia.
Qed.

Definition bump (limit : option nat) : Allocator := {|
  alloc h _ := match limit with
               | Some l => if (size h <? l)%nat then Some (top h + 1) else None
               | None => Some (top h + 1)
               end;
  junk_iovec := IOVec 0 0;
  junk_field := -1
|}.

Lemma bump_ok limit : @AllocatorOk (bump limit).
Proof.
  intros h n a. assert (Hf : h !! (top h + 1) = None /\ 0 < top h + 1).
  { destruct (top_bound h) as [Hr Ht]. split; [|lia].
    destruct (h !! (top h + 1)) as [b|] eqn:Hb; [|done]. apply Ht in Hb. lia. }
  simpl. repeat case_match; intros; simplify_eq; done.
Qed.

Definition lib : Liburing faddress Z := ref_liburing 16 (Sqe (OpPollAdd 0 0) 0 0 0 0).
Definition lib_ok : @LiburingOk faddress Z lib 16 := ref_liburing_ok 16 _.
Definition kern : Kernel faddress Z (ref_kernel faddress Z) := ref_kernel_ops (fun _ _ => True).
Definition kern_ok : @KernelOk faddress Z (ref_kernel faddress Z) kern := ref_kernel_ok _.
#[global] Existing Instances lib lib_ok kern kern_ok.
#[global] Instance plenty : Allocator := bump None.
#[global] Instance plenty_ok : AllocatorOk := bump_ok None.

Definition st : Type := rstate faddress Z (ref_kernel faddress Z) fmem.
Definition s0 : st := RState [] (RefK [] [] (fun _ => []) []) (FMem ∅ []).

(** The ring of [s] after everything queued was submitted and the only request
    completed with [c]. *)
Definition completed (c : cqe Z) (s : st) : st :=
  RState [] (RefK [] [c] (fun _ => []) []) (rs_mem s).

(** A read of a file of 25 bytes (blocks of 3, 3, 3, 3, 3, 3, 3 and 4) and a
    write of 9 bytes. *)
Definition s_read : st := final (push_read_request 5 25 s0).
Definition s_write : st := final (push_write_request 6 4096 9 s0).

End FileDemo.

Lemma read_blocks_partition_witness :
  0 <= 25 /\ (length (block_sizes 25) <= 8)%nat /\ Forall (fun n => 0 < n) (block_sizes 25) /\
  sum_Z (block_sizes 25) = 25 /\ pop_total_blocks 25 = Z.of_nat (length (block_sizes 25)).
Proof. split; [lia|]. apply (read_blocks_partition 25). lia. Defined.

Lemma read_request_queued_witness :
  (forall h sz, is_Some (alloc (Allocator := FileDemo.plenty) h sz)) /\
  exists s' e p f, push_read_request 5 25 FileDemo.s0 = Ok 0 s' /\
    rs_sq s' = rs_sq FileDemo.s0 ++ [e] /\ rs_kern s' = rs_kern FileDemo.s0 /\
    sqe_user_data e = p /\ heap_of FileDemo.s0 !! p = None /\ heap_of s' !! p = Some (BInfo f) /\
    sqe_op e = OpReadv 5 (AIovecs p) (Z.of_nat (length (fi_iovecs f))) 0 /\
    sum_Z (iov_len <$> fi_iovecs f) = 25.
Proof.
  assert (Hal : forall h sz, is_Some (alloc (Allocator := FileDemo.plenty) h sz)) by (simpl; eauto).
  split; [exact Hal|]. refine (read_request_queued (entries := 16) 5 25 FileDemo.s0 _ Hal _).
  - lia.
  - simpl. lia.
Defined.

Lemma read_request_roundtrip_witness :
  exists s3 iovs,
    pop_request (FileDemo.completed (Cqe 1 25 0) FileDemo.s_read) = Ok 0 s3 /\
    heap_of s3 = heap_of FileDemo.s0 /\ rs_sq s3 = [] /\
    rs_kern s3 = k_cq_advance 1 (RefK [] [Cqe 1 25 0] (fun _ => []) []) /\
    calls (rs_mem s3) = [] ++ [ReadCallback iovs (Z.of_nat (length iovs)) 5] /\
    sum_Z (iov_len <$> iovs) = 25.
Proof.
  refine (read_request_roundtrip 5 25 FileDemo.s0 FileDemo.s_read
    (FileDemo.completed (Cqe 1 25 0) FileDemo.s_read) (default (Sqe (OpPollAdd 0 0) 0 0 0 0)
      (last (rs_sq FileDemo.s_read))) (Cqe 1 25 0) _ _ _ _ _ _ _);
    [lia|vm_compute; reflexivity..|discriminate].
Defined.

Lemma write_request_roundtrip_witness :
  exists s3, pop_request (FileDemo.completed (Cqe 1 9 0) FileDemo.s_write) = Ok 0 s3 /\
    heap_of s3 = heap_of FileDemo.s0 /\
    rs_kern s3 = k_cq_advance 1 (RefK [] [Cqe 1 9 0] (fun _ => []) []) /\
    calls (rs_mem s3) = [] ++ [WriteCallback 9 6].
Proof.
  refine (write_request_roundtrip 6 4096 9 FileDemo.s0 FileDemo.s_write
    (FileDemo.completed (Cqe 1 9 0) FileDemo.s_write) (default (Sqe (OpPollAdd 0 0) 0 0 0 0)
      (last (rs_sq FileDemo.s_write))) (Cqe 1 9 0) _ _ _ _ _ _);
    [vm_compute; reflexivity..|discriminate].
Defined.

(** A read that failed with [-EIO], then two polls and another submission. *)
Lemma pop_error_stuck_witness :
  let s := FileDemo.completed (Cqe 1 (-5) 0) FileDemo.s_read in
  let s1 := final (pop_request s) in
  let s2 := final (push_write_request 6 4096 9 s1) in
  let s3 := final (queue_submit 1 s2) in
  pop_request s3 = Ok (-5) s3.
Proof.
  intros s s1 s2 s3.
  refine (pop_error_stuck s s3 (Cqe 1 (-5) 0) _ _ _); [vm_compute; reflexivity..|].
  apply (rtc_l _ s s1); [apply (GoPop s (-5) s1); vm_compute; reflexivity|].
  apply (rtc_l _ s1 s2); [apply (GoPushWrite 6 4096 9 s1 0 s2); vm_compute; reflexivity|].
  apply rtc_once. apply (GoSubmit 1 s2 1 s3); vm_compute; reflexivity.
Defined.

(** Memory for the [file_info] and three of the eight blocks. *)
Lemma push_failure_leaks_witness :
  let _ := FileDemo.bump (Some 4%nat) in
  let s' := final (push_read_request 5 25 FileDemo.s0) in
  rs_sq s' = rs_sq FileDemo.s0 /\ rs_kern s' = rs_kern FileDemo.s0 /\
  calls (rs_mem s') = calls (rs_mem FileDemo.s0) /\
  exists p f, heap_of FileDemo.s0 !! p = None /\ heap_of s' !! p = Some (BInfo f).
Proof.
  intros A s'. pose proof (FileDemo.bump_ok (Some 4%nat)) as Aok.
  refine (push_failure_leaks (H := A) (H0 := Aok) 5 25 FileDemo.s0 s' _). vm_compute. reflexivity.
Defined.
