(* ===== verification/Options.v ===== *)
(** * Command-line options of the table-based servers

    [getopt] as the GNU C library implements it (options may follow operands;
    when the scan ends [argv] has been permuted so that the operands come
    last) and the option loop at the head of [main] in
    [io_uring_echo_server_v1.c], [_v2.c] and [_v3.c].  Strings are lists of
    character codes, see [Libc]. *)

From stdpp Require Import strings.
From S2P Require Import Prelude Libc.

(** ** [getopt] *)

Definition colon : Z := 58.
Definition dash : Z := 45.
Definition question : Z := 63.

(** Whether [c] is an option letter, and whether it takes an argument. *)
Fixpoint opt_kind (opts : list Z) (c : Z) : option bool :=
  match opts with
  | [] => None
  | x :: rest =>
      if x =? colon then opt_kind rest c
      else if x =? c then Some (match rest with y :: _ => y =? colon | [] => false end)
      else opt_kind rest c
  end.

(** What one call of [getopt] returns, with [optarg]. *)
Definition opt_event : Type := Z * option (list Z).

(** The letters of one argument; a letter that still wants the next argument. *)
Fixpoint scan_letters (opts : list Z) (l : list Z) : list opt_event * option Z :=
  match l with
  | [] => ([], None)
  | c :: rest =>
      match opt_kind opts c with
      | None => let '(ev, p) := scan_letters opts rest in ((question, None) :: ev, p)
      | Some false => let '(ev, p) := scan_letters opts rest in ((c, None) :: ev, p)
      | Some true => match rest with
                     | [] => ([], Some c)
                     | _ => ([(c, Some rest)], None)
                     end
      end
  end.

(** The letters of an argument that is not an operand. *)
Definition is_option (a : list Z) : option (list Z) :=
  match a with
  | c :: d :: letters => if c =? dash then Some (d :: letters) else None
  | _ => None
  end.

(** The events of a whole scan, the arguments it consumed and the operands. *)
Fixpoint scan_args (opts : list Z) (args : list (list Z)) :
    list opt_event * list (list Z) * list (list Z) :=
  match args with
  | [] => ([], [], [])
  | a :: rest =>
      match is_option a with
      | None => let '(ev, o, n) := scan_args opts rest in (ev, o, a :: n)
      | Some letters =>
          if str_eqb letters [dash] then ([], [a], rest) else
          let '(ev, pending) := scan_letters opts letters in
          match pending, rest with
          | None, _ => let '(ev', o, n) := scan_args opts rest in (ev ++ ev', a :: o, n)
          | Some c, [] => (ev ++ [(question, None)], [a], [])
          | Some c, v :: rest =>
              let '(ev', o, n) := scan_args opts rest in (ev ++ (c, Some v) :: ev', a :: v :: o, n)
          end
      end
  end.

(** All values [getopt] returns before -1, and the permuted [argv]. *)
Definition getopt (argv : list (list Z)) (opts : list Z) : list opt_event * list (list Z) :=
  match argv with
  | [] => ([], [])
  | prog :: args => let '(ev, o, n) := scan_args opts args in (ev, prog :: o ++ n)
  end.

(** ** The servers' options *)

Record options : Type := Options {
  portno : Z;
  registerfiles : bool;
  max_connections : Z;
  msg_len : Z
}.

(** The initial values of the global variables. *)
Definition default_options : options := Options 0 false 4092 2046.

Definition opts : list Z := chars "p:fn:l:h".

Section options.
Context {st : Type}.

(** [atoi(p)]: undefined for NULL. *)
Definition atoi_ptr (p : option (list Z)) : M st Z :=
  match p with
  | Some s => mret (atoi s)
  | None => ub
  end.

(** The [switch] in the option loop. *)
Definition apply_option (o : options) (ev : opt_event) : M st options :=
  let '(c, optarg) := ev in
  if c =? 112 (* 'p' *) then
    v ← atoi_ptr optarg; mret (Options v (registerfiles o) (max_connections o) (msg_len o))
  else if c =? 102 (* 'f' *) then
    mret (Options (portno o) true (max_connections o) (msg_len o))
  else if c =? 110 (* 'n' *) then
    v ← atoi_ptr optarg; mret (Options (portno o) (registerfiles o) v (msg_len o))
  else if c =? 108 (* 'l' *) then
    v ← atoi_ptr optarg; mret (Options (portno o) (registerfiles o) (max_connections o) v)
  else if c =? 104 (* 'h' *) then exit_ 0
  else exit_ 1.

Fixpoint apply_options (o : options) (evs : list opt_event) : M st options :=
  match evs with
  | [] => mret o
  | ev :: evs => o ← apply_option o ev; apply_options o evs
  end.

(** The check after the loop: a port may also be the first argument. *)
Definition check_port (missing : bool) (argv : list (list Z)) (o : options) : M st options :=
  if missing then
    port ← atoi_ptr (argv !! 1%nat);
    if (portno o =? 0) && (3000 <? port)
    then mret (Options port (registerfiles o) (max_connections o) (msg_len o))
    else exit_ 1
  else mret o.

(** [main] of version 1 up to the allocations; version 3 has the same text. *)
Definition parse_options (argv : list (list Z)) : M st options :=
  let '(evs, argv) := getopt argv opts in
  o ← apply_options default_options evs;
  o ← check_port ((portno o =? 0) || (max_connections o =? 0)) argv o;
  mret (if msg_len o =? 0 then Options (portno o) (registerfiles o) (max_connections o) 128 else o).

End options.

(** ** Properties *)

(** A number in decimal is not taken for an option. *)
Lemma is_option_number fuel n :
  0 < n < 10 ^ Z.of_nat fuel -> is_option (dec_digits fuel n) = None.
Proof.
  intros Hn. destruct (dec_digits_digits fuel n) as [Hall _]; [lia|].
  destruct (dec_digits fuel n) as [|c [|d l]]; [done..|].
  apply Forall_cons in Hall as [Hc _]. unfold is_option, dash.
  unfold isdigit in Hc. apply andb_true_iff in Hc as [Hc%Z.leb_le _].
  by rewrite (proj2 (Z.eqb_neq c 45)) by lia.
Qed.

Lemma atoi_dec_digits fuel n :
  0 < n < 10 ^ Z.of_nat fuel -> n < 2 ^ 31 -> atoi (dec_digits fuel n) = n.
Proof.
  intros Hn Hmax. unfold atoi. rewrite strtol_dec_digits by (unfold LONG_MAX; lia).
  apply to_i32_id. unfold is_i32. lia.
Qed.

Section option_theorems.
Context {st : Type}.

(** The letters of the four options. *)
Lemma scan_flag (c : Z) rest :
  opt_kind opts c = Some false -> c <> dash ->
  scan_args opts ([dash; c] :: rest) =
    let '(ev, o, n) := scan_args opts rest in ((c, None) :: ev, [dash; c] :: o, n).
Proof.
  intros Hk Hc. cbn [scan_args is_option]. rewrite Z.eqb_refl.
  unfold str_eqb. rewrite bool_decide_eq_false_2 by congruence.
  cbn [scan_letters]. by rewrite Hk.
Qed.

Lemma scan_value (c : Z) v rest :
  opt_kind opts c = Some true -> c <> dash ->
  scan_args opts ([dash; c] :: v :: rest) =
    let '(ev, o, n) := scan_args opts rest in ((c, Some v) :: ev, [dash; c] :: v :: o, n).
Proof.
  intros Hk Hc. cbn [scan_args is_option]. rewrite Z.eqb_refl.
  unfold str_eqb. rewrite bool_decide_eq_false_2 by congruence.
  cbn [scan_letters]. by rewrite Hk.
Qed.

Lemma scan_operand a rest :
  is_option a = None ->
  scan_args opts (a :: rest) = let '(ev, o, n) := scan_args opts rest in (ev, o, a :: n).
Proof. intros Ha. cbn [scan_args]. by rewrite Ha. Qed.

(** One word of a command line: an option as the usage message spells it, or
    an operand. *)
Inductive arg_word : Type :=
  | WPort (p : Z)
  | WFiles
  | WHelp
  | WConns (n : Z)
  | WLen (l : Z)
  | WOperand (v : Z).

Definition word_args (fuel : nat) (w : arg_word) : list (list Z) :=
  match w with
  | WPort p => [chars "-p"; dec_digits fuel p]
  | WFiles => [chars "-f"]
  | WHelp => [chars "-h"]
  | WConns n => [chars "-n"; dec_digits fuel n]
  | WLen l => [chars "-l"; dec_digits fuel l]
  | WOperand v => [dec_digits fuel v]
  end.

(** The parameter a word asks to set. *)
Definition settle (o : options) (w : arg_word) : options :=
  match w with
  | WPort p => Options p (registerfiles o) (max_connections o) (msg_len o)
  | WFiles => Options (portno o) true (max_connections o) (msg_len o)
  | WConns n => Options (portno o) (registerfiles o) n (msg_len o)
  | WLen l => Options (portno o) (registerfiles o) (max_connections o) l
  | WHelp | WOperand _ => o
  end.

(** The numbers are positive [int]s. *)
Definition word_ok (w : arg_word) : Prop :=
  match w with
  | WPort v | WConns v | WLen v | WOperand v => 0 < v < 2 ^ 31
  | WFiles | WHelp => True
  end.

Definition word_operand (w : arg_word) : option Z :=
  match w with WOperand v => Some v | _ => None end.

(** What the scan returns for a word: the value of [getopt] and its argument. *)
Definition word_event (fuel : nat) (w : arg_word) : option opt_event :=
  match w with
  | WPort p => Some (112, Some (dec_digits fuel p))
  | WFiles => Some (102, None)
  | WHelp => Some (104, None)
  | WConns n => Some (110, Some (dec_digits fuel n))
  | WLen l => Some (108, Some (dec_digits fuel l))
  | WOperand _ => None
  end.

Definition is_opt (w : arg_word) : bool := if word_operand w is Some _ then false else true.
Definition is_help (w : arg_word) : bool := if w is WHelp then true else false.
Definition is_port (w : arg_word) : bool := if w is WPort _ then true else false.

Definition command_line (fuel : nat) (ws : list arg_word) : list (list Z) :=
  flat_map (word_args fuel) ws.

(** The arguments the scan moves to the front. *)
Definition moved_args (fuel : nat) (ws : list arg_word) : list (list Z) :=
  flat_map (fun w => if is_opt w then word_args fuel w else []) ws.

Lemma scan_words fuel ws :
  (10 <= fuel)%nat -> Forall word_ok ws ->
  scan_args opts (command_line fuel ws) =
    (omap (word_event fuel) ws, moved_args fuel ws, dec_digits fuel <$> omap word_operand ws).
Proof.
  intros Hfuel Hws.
  assert (Hpow : 10 ^ 10 <= 10 ^ Z.of_nat fuel) by (apply Z.pow_le_mono_r; lia).
  change (10 ^ 10) with 10000000000 in Hpow. unfold command_line, moved_args.
  induction Hws as [|w ws Hw Hws IH]; [done|].
  destruct w as [v| | |v|v|v]; cbn [flat_map word_args app];
    change (chars "-p") with [dash; 112]; change (chars "-f") with [dash; 102];
    change (chars "-h") with [dash; 104]; change (chars "-n") with [dash; 110]; change (chars "-l") with [dash; 108];
    [rewrite scan_value by done|rewrite scan_flag by done|rewrite scan_flag by done|rewrite scan_value by done
    |rewrite scan_value by done|rewrite scan_operand by (apply is_option_number; simpl in Hw; lia)];
    by rewrite IH.
Qed.

(** The first argument after the scan is an option, which [atoi] reads as 0,
    unless there are only operands. *)
Lemma moved_head fuel ws :
  if existsb is_opt ws then exists a l, moved_args fuel ws = a :: l /\ atoi a = 0 else moved_args fuel ws = [].
Proof.
  induction ws as [|w ws IH]; [done|].
  destruct w as [v| | |v|v|v]; cbn; [eexists _, _; split; [done|by vm_compute]..|exact IH].
Qed.

Lemma apply_words fuel ws o (s : st) :
  (10 <= fuel)%nat -> Forall word_ok ws ->
  apply_options o (omap (word_event fuel) ws) s =
    if existsb is_help ws then Exit 0 s else Ok (foldl settle o ws) s.
Proof.
  intros Hfuel Hws.
  assert (Hpow : 10 ^ 10 <= 10 ^ Z.of_nat fuel) by (apply Z.pow_le_mono_r; lia).
  change (10 ^ 10) with 10000000000 in Hpow. revert o.
  induction Hws as [|w ws Hw Hws IH]; intros o; [done|].
  destruct w as [v| | |v|v|v]; simpl in Hw;
    cbn [omap list_omap word_event foldl settle apply_options apply_option]; mred; cbn [atoi_ptr];
    rewrite ?atoi_dec_digits by lia; mred; first [apply IH|done].
Qed.

(** The parameters after the loop: positive, but for the port when no [-p] is
    given. *)
Lemma settled_positive ws o :
  Forall word_ok ws -> 0 < max_connections o -> 0 < msg_len o -> 0 <= portno o ->
  let o' := foldl settle o ws in
  0 < max_connections o' /\ 0 < msg_len o' /\
  (if existsb is_port ws then 0 < portno o' else portno o' = portno o).
Proof.
  intros Hws. revert o. induction Hws as [|w ws Hw Hws IH]; intros o Hn Hl Hp; [done|].
  destruct w as [v| | |v|v|v]; simpl in Hw; cbn [foldl existsb orb].
  - edestruct (IH (settle o (WPort v))) as (H1 & H2 & H3); simpl; [lia..|]. split_and!; [done..|].
    destruct (existsb _ ws); [done|]. simpl in *. lia.
  - by apply (IH (settle o WFiles)).
  - by apply (IH o).
  - apply (IH (settle o (WConns v))); simpl; lia.
  - apply (IH (settle o (WLen v))); simpl; lia.
  - by apply (IH o).
Qed.

Lemma operands_ok ws : Forall word_ok ws -> Forall (fun v => 0 < v < 2 ^ 31) (omap word_operand ws).
Proof. induction 1 as [|w ws Hw Hws IH]; [done|]. destruct w; cbn; [done..|by constructor]. Qed.

(** Operands set nothing. *)
Lemma only_operands ws o : existsb is_opt ws = false -> foldl settle o ws = o.
Proof. induction ws as [|[] ws IH]; cbn; [done..|]. exact IH. Qed.


End option_theorems.

