(* ===== verification/Tables.v ===== *)
(** * Global tables indexed by descriptor

    The table-based servers keep one row per descriptor in arrays held by
    global variables.  [load] and [store] are the C array accesses [a[i]] and
    [a[i] = x] on a global: undefined outside the array. *)

From S2P Require Import Prelude Uring.

Definition index {X} (l : list X) (i : Z) : option X :=
  if 0 <=? i then l !! Z.to_nat i else None.

Lemma index_insert_ne {X} (t : list X) i j x :
  i <> j -> 0 <= i -> index (<[Z.to_nat i := x]> t) j = index t j.
Proof.
  intros Hne Hi. unfold index. destruct (Z.leb_spec 0 j); [|done].
  by rewrite list_lookup_insert_ne by lia.
Qed.

Lemma index_insert_eq {X} (t : list X) i x y :
  index t i = Some y -> index (<[Z.to_nat i := x]> t) i = Some x.
Proof.
  unfold index. destruct (Z.leb_spec 0 i); [|done]. intros Hy.
  apply list_lookup_insert_eq. by eapply lookup_lt_Some.
Qed.

Lemma index_Some {X} (t : list X) i x : index t i = Some x -> 0 <= i < Z.of_nat (length t).
Proof.
  unfold index. destruct (Z.leb_spec 0 i); [|done]. intros Hx%lookup_lt_Some. lia.
Qed.

Lemma index_None {X} (t : list X) i : index t i = None -> ~ 0 <= i < Z.of_nat (length t).
Proof.
  unfold index. destruct (Z.leb_spec 0 i); [|lia]. intros Hx%lookup_ge_None. lia.
Qed.

Lemma index_is_Some {X} (t : list X) i : 0 <= i < Z.of_nat (length t) -> is_Some (index t i).
Proof. intros Hi. destruct (index t i) eqn:Hx; [eauto|]. by apply index_None in Hx. Qed.

Section tables.
Context {A U K Mem : Type}.

Local Abbreviation st := (rstate A U K Mem).

Definition read_globals {X} (f : Mem -> X) : M st X := fun s => Ok (f (rs_mem s)) s.
Definition write_globals (f : Mem -> Mem) : M st unit :=
  modify (fun s => put_mem (f (rs_mem s)) s).

Definition load {X} (a : Mem -> list X) (i : Z) : M st X :=
  l ← read_globals a;
  match index l i with
  | Some x => mret x
  | None => ub
  end.

Definition store {X} (a : Mem -> list X) (set : list X -> Mem -> Mem) (i : Z) (x : X) : M st unit :=
  load a i ;; write_globals (fun g => set (<[Z.to_nat i := x]> (a g)) g).

Lemma load_never_exits {X} (a : Mem -> list X) i : never_exits (load a i).
Proof. intros s. unfold load. mred. simpl. by destruct (index _ _). Qed.

Lemma store_never_exits {X} (a : Mem -> list X) set i x : never_exits (store a set i x).
Proof. apply never_exits_bind; [apply load_never_exits|done]. Qed.

Lemma load_spec {X} (a : Mem -> list X) i (s : st) :
  load a i s = match index (a (rs_mem s)) i with Some x => Ok x s | None => Ub s end.
Proof. unfold load. mred. simpl. by destruct (index _ _). Qed.

Lemma load_ok {X} (a : Mem -> list X) i x (s : st) :
  index (a (rs_mem s)) i = Some x -> load a i s = Ok x s.
Proof. rewrite load_spec. by intros ->. Qed.

Lemma store_spec {X} (a : Mem -> list X) set i x (s : st) :
  store a set i x s =
    match index (a (rs_mem s)) i with
    | Some _ => Ok tt (put_mem (set (<[Z.to_nat i := x]> (a (rs_mem s))) (rs_mem s)) s)
    | None => Ub s
    end.
Proof. unfold store, load. mred. simpl. by destruct (index _ _). Qed.

(** A table access looks at nothing else and changes nothing else. *)
Lemma read_globals_any {X Y} (g : st -> X) (f : Mem -> Y) : preserving g (read_globals f).
Proof. by intros s a s' [= _ <-]. Qed.

Lemma load_any {X Y} (g : st -> X) (a : Mem -> list Y) i : preserving g (load a i).
Proof. intros s x s'. rewrite load_spec. by destruct (index _ _); intros [= _ <-]. Qed.

End tables.

#[export] Hint Resolve read_globals_any load_any : frame.
#[export] Hint Resolve load_never_exits store_never_exits : exits.
