(* ===== verification/Registration.v ===== *)
(** * Registered files and message buffers of the table-based servers

    The three table-based servers enter descriptors in the ring's table of
    registered files and allocate their buffers with the same code, each on
    its own global variables; the variables are parameters here. *)

From S2P Require Import Prelude Uring Tables Setup Options.

Section registration.
Context {A U K Mem : Type} `{!Kernel A U K} `{!Register K}.
Context (opt : Mem -> options) (registered_files : Mem -> list Z) (set_registered : list Z -> Mem -> Mem).

Local Abbreviation st := (rstate A U K Mem).

(** [io_uring_register_files_update(&ring, fd, &fd, 1)], then
    [registered_files[fd] = fd] *)
Definition register_fd (fd : Z) : M st unit :=
  ret ← syscall (k_register_files_update fd [fd]);
  if ret <? 0 then exit_ 1 else store registered_files set_registered fd fd.

(** A new connection enters the table if its row is free. *)
Definition register_conn (sock_conn_fd : Z) : M st unit :=
  o ← read_globals opt;
  if registerfiles o then
    r ← load registered_files sock_conn_fd;
    if r =? -1 then register_fd sock_conn_fd else mret tt
  else mret tt.

(** [files] and [registered_files] with [n] free rows each. *)
Definition init_files (n : Z) : M st Z :=
  ok ← syscall (k_calloc (to_u64 n) 4);
  if negb ok then mret 1 else
  let files := replicate (Z.to_nat n) (-1) in
  ok ← syscall (k_calloc (to_u64 n) 4);
  if negb ok then mret 1 else
  write_globals (set_registered (replicate (Z.to_nat n) (-1))) ;;
  ret ← syscall (k_register_files files);
  if ret <? 0 then mret ret else mret 0.

(** The limit on open files bounds the table. *)
Definition init_files_rlimit : M st Z :=
  r ← syscall k_getrlimit;
  if r.1 <? 0 then mret r.1 else
  let rlim_max := if 32768 <? r.2 then 32768 else r.2 in
  init_files rlim_max.

(** [return ret] in [main] ends the process with that status. *)
Definition register_listener (init : options -> M st Z) (sock_listen_fd : Z) : M st unit :=
  o ← read_globals opt;
  if registerfiles o then
    ret ← init o;
    if negb (ret =? 0) then exit_ ret else register_fd sock_listen_fd
  else mret tt.

(** The loop that fills [bufs]: row [i] gets the block [mk i]. *)
Fixpoint alloc_bufs (mk : Z -> A) (n : nat) (i : Z) : M st (list A) :=
  match n with
  | O => mret []
  | S n =>
      o ← read_globals opt;
      ok ← syscall (k_malloc (to_u64 (msg_len o)));
      if negb ok then exit_ 1 else
      rest ← alloc_bufs mk n (i + 1); mret (mk i :: rest)
  end.

(** ** Properties *)

Lemma alloc_bufs_rows mk n i (s s' : st) rows :
  alloc_bufs mk n i s = Ok rows s' -> rows = mk <$> seqZ i (Z.of_nat n).
Proof.
  revert i s s' rows. induction n as [|n IH]; intros i s s' rows; [by intros [= <- _]|].
  cbn [alloc_bufs]. intros (o & s1 & _ & Hrun)%bind_inv_ok.
  apply bind_inv_ok in Hrun as (ok & s2 & _ & Hrun). destruct ok; simpl in Hrun; [|done].
  apply bind_inv_ok in Hrun as (rest & s3 & H3 & [= <- _]). apply IH in H3 as ->.
  rewrite (seqZ_cons i) by lia. rewrite fmap_cons. do 3 f_equal; lia.
Qed.

(** Anything an allocation leaves alone, filling [bufs] does. *)
Lemma alloc_bufs_preserving {X} (f : st -> X) mk n i :
  (forall m, preserving f (syscall (k_malloc m))) -> preserving f (alloc_bufs mk n i).
Proof.
  intros Hf. revert i. induction n as [|n IH]; intros i; cbn [alloc_bufs]; [apply preserving_ret|].
  specialize (IH (i + 1)). auto 20 with frame.
Qed.

Context `{!RegisterOk A U K}.

(** Registering a connection changes at most its own row, which was free. *)
Lemma register_conn_cases fd (s s' : st) :
  register_conn fd s = Ok tt s' ->
  s' = s \/
  (index (registered_files (rs_mem s)) fd = Some (-1) /\
   exists k, same_view (rs_kern s) k /\
     s' = RState (rs_sq s) k
       (set_registered (<[Z.to_nat fd := fd]> (registered_files (rs_mem s))) (rs_mem s))).
Proof.
  unfold register_conn. intros (o & s1 & [= <- <-] & Hrun)%bind_inv_ok.
  destruct (registerfiles _); [|injection Hrun as <-; by left].
  apply bind_inv_ok in Hrun as (r & s2 & H2 & Hrun). rewrite load_spec in H2.
  destruct (index (registered_files (rs_mem s)) fd) as [v|] eqn:Hv; [|done]. injection H2 as <- <-.
  destruct (Z.eqb_spec v (-1)) as [->|]; [right|injection Hrun as <-; by left].
  apply bind_inv_ok in Hrun as (ret & s3 & H3 & Hrun).
  apply syscall_view in H3 as (E1 & E2 & E3); [|apply register_files_update_frame].
  destruct (ret <? 0); [done|]. rewrite store_spec, E2, Hv in Hrun. injection Hrun as <-.
  split; [done|]. exists (rs_kern s3). split; [done|]. by destruct s3; simpl in *; subst.
Qed.

(** Without [-f] there is nothing to register. *)
Lemma register_conn_off fd (s : st) :
  registerfiles (opt (rs_mem s)) = false -> register_conn fd s = Ok tt s.
Proof. intros Hr. unfold register_conn. mred. simpl. by rewrite Hr. Qed.

Lemma register_conn_no_ub fd (s : st) :
  (registerfiles (opt (rs_mem s)) = true -> 0 <= fd < Z.of_nat (length (registered_files (rs_mem s)))) ->
  no_ub (register_conn fd s).
Proof.
  intros Hr. unfold register_conn. apply bind_no_ub; [done|]. intros o s1 [= <- <-].
  destruct (registerfiles (opt (rs_mem s))); [|done].
  destruct (index_is_Some _ _ (Hr eq_refl)) as [v Hv].
  apply bind_no_ub; rewrite load_spec, Hv; [done|]. intros ? ? [= <- <-].
  destruct (v =? -1); [|done]. unfold register_fd, syscall.
  apply bind_no_ub; [by destruct (k_register_files_update _ _ _)|].
  intros ret s2. destruct (k_register_files_update _ _ _) as [r k]. intros [= -> <-].
  destruct (ret <? 0); [done|]. rewrite store_spec; simpl. by rewrite Hv.
Qed.

End registration.
