(* ===== verification/Startup.v ===== *)
(** * What start-up leaves alone

    The [main] functions of the table-based servers parse options, allocate
    tables and make set-up calls before their first request.  None of these
    touches the submission queue or what the kernel shows; the lemmas below
    say so for every kind of step, as hints of the [frame] database. *)

From S2P Require Import Prelude Uring Tables Libc Setup Options.

Section startup.
Context {A U K Mem : Type} `{!Kernel A U K} `{!Setup K} `{!Register K}.
Context `{!SetupOk A U K} `{!RegisterOk A U K}.

Local Abbreviation st := (rstate A U K Mem).

(** What the kernel shows and what is queued. *)
Definition view_of (s : st) : list (sqe A U) * list (sqe A U) * list (cqe U) * list Z :=
  (rs_sq s, k_inflight (rs_kern s), k_cq (rs_kern s), k_conns (rs_kern s)).

(** The buffers available in a group. *)
Definition group_of (g : Z) (s : st) : list Z := k_group (rs_kern s) g.

(** A part of the global variables. *)
Definition mem_of {X} (f : Mem -> X) (s : st) : X := f (rs_mem s).

Lemma syscall_view_of {R} (f : K -> R * K) :
  (forall k, same_view k (f k).2) -> preserving view_of (syscall f).
Proof.
  intros Hf s r s' Hs. destruct (syscall_view f s r s' Hs Hf) as (E1 & _ & (E2 & E3 & E4 & _)).
  unfold view_of. unfold same_conns in E4. congruence.
Qed.

Lemma syscall_group_of {R} g (f : K -> R * K) :
  (forall k, same_view k (f k).2) -> preserving (group_of g) (syscall f).
Proof.
  intros Hf s r s' Hs. destruct (syscall_view f s r s' Hs Hf) as (_ & _ & (_ & _ & _ & Hg)). apply Hg.
Qed.

Lemma syscall_mem_of {R X} (g : Mem -> X) (f : K -> R * K) : preserving (mem_of g) (syscall f).
Proof. intros s r s'. unfold syscall. by destruct (f (rs_kern s)); intros [= _ <-]. Qed.

Lemma write_globals_view f : preserving view_of (write_globals f).
Proof. by intros s a s' [= _ <-]. Qed.

Lemma write_globals_group g f : preserving (group_of g) (write_globals f).
Proof. by intros s a s' [= _ <-]. Qed.

Lemma store_group {X} g (a : Mem -> list X) set i x : preserving (group_of g) (store a set i x).
Proof. intros s r s'. rewrite store_spec. by destruct (index _ _); intros [= _ <-]. Qed.

Lemma write_globals_mem {X} (g : Mem -> X) f :
  (forall m, g (f m) = g m) -> preserving (mem_of g) (write_globals f).
Proof. intros Hg s a s' [= _ <-]. apply Hg. Qed.

Lemma store_view {X} (a : Mem -> list X) set i x : preserving view_of (store a set i x).
Proof. intros s r s'. rewrite store_spec. by destruct (index _ _); intros [= _ <-]. Qed.

Lemma store_mem {X Y} (g : Mem -> Y) (a : Mem -> list X) set i x :
  (forall l m, g (set l m) = g m) -> preserving (mem_of g) (store a set i x).
Proof. intros Hg s r s'. rewrite store_spec. destruct (index _ _); intros [= _ <-]. apply Hg. Qed.

(** Option parsing does not touch the state. *)
Lemma apply_options_id o evs : preserving (fun s : st => s) (apply_options o evs).
Proof.
  revert o. induction evs as [|[c arg] evs IH]; intros o; simpl; [apply preserving_ret|].
  apply preserving_bind; [|apply IH]. unfold atoi_ptr. destruct arg; auto 20 with frame.
Qed.

Lemma check_port_id missing argv o : preserving (fun s : st => s) (check_port missing argv o).
Proof. unfold check_port, atoi_ptr. destruct (argv !! 1%nat); auto 20 with frame. Qed.

Lemma parse_options_id argv : preserving (fun s : st => s) (parse_options argv).
Proof.
  unfold parse_options. destruct (getopt argv opts) as [evs argv'].
  apply preserving_bind; [apply apply_options_id|intros o].
  apply preserving_bind; [apply check_port_id|intros o']. apply preserving_ret.
Qed.

(** Nothing has been asked of the kernel. *)
Record pristine (s : st) : Prop := Pristine {
  pristine_sq : rs_sq s = [];
  pristine_inflight : k_inflight (rs_kern s) = [];
  pristine_cq : k_cq (rs_kern s) = [];
  pristine_conns : k_conns (rs_kern s) = []
}.

End startup.

#[export] Hint Resolve syscall_mem_of write_globals_view write_globals_group store_view store_group : frame.
#[export] Hint Extern 1 (preserving (group_of _) (syscall _)) => apply syscall_group_of; intros ? : frame.
#[export] Hint Extern 1 (preserving view_of (syscall _)) => apply syscall_view_of; intros ? : frame.
#[export] Hint Extern 1 (preserving (mem_of _) (write_globals _)) =>
  apply write_globals_mem; reflexivity : frame.
#[export] Hint Extern 1 (preserving (mem_of _) (store _ _ _ _)) =>
  apply store_mem; reflexivity : frame.
#[export] Hint Resolve socket_frame setsockopt_frame bind_frame listen_frame queue_init_frame
  getrlimit_frame register_files_frame register_files_update_frame calloc_frame malloc_frame : frame.
