(* ===== verification/TableInv.v ===== *)
(** * One request per descriptor

    The invariant the servers with a single table of connections share.  The
    row of a descriptor says what its outstanding request is, and is reused for
    every request on the descriptor, so there must never be two of them: the
    descriptors of the requests queued, in flight and completed are exactly the
    listening socket and the open connections, each once, and the table
    describes each request truthfully.  What a row says of a request and of a
    completion is a parameter. *)

From S2P Require Import Prelude Uring Tables Setup.

(** The descriptors a completion stands for: the one it was asked on and the
    connection it delivers. *)
Definition cqe_fds (lfd : Z) (c : cqe Z) : list Z :=
  cqe_user_data c ::
  (if (cqe_user_data c =? lfd) && (0 <=? cqe_res c) then [cqe_res c] else []).

Lemma cqe_fds_conn lfd c : cqe_user_data c <> lfd -> cqe_fds lfd c = [cqe_user_data c].
Proof. intros Hne. unfold cqe_fds. by rewrite (proj2 (Z.eqb_neq _ _) Hne). Qed.

Lemma cqe_fds_accept lfd c :
  cqe_user_data c = lfd -> 0 <= cqe_res c -> cqe_fds lfd c = [lfd; cqe_res c].
Proof. intros Hu Hr. unfold cqe_fds. by rewrite Hu, Z.eqb_refl, (proj2 (Z.leb_le _ _) Hr). Qed.

Lemma cqe_fds_failed lfd c : cqe_res c < 0 -> cqe_fds lfd c = [cqe_user_data c].
Proof. intros Hr. unfold cqe_fds. by rewrite (proj2 (Z.leb_gt _ _) Hr), andb_false_r. Qed.

(** The open connections grow by what the completion [c] of [e] delivers. *)
Definition delivers {A K} `{!KernelView A Z K} (lfd : Z) (k k' : K) (e : sqe A Z) (c : cqe Z) : Prop :=
  exists new, cqe_fds lfd c = sqe_user_data e :: new /\ k_conns k' = new ++ k_conns k /\
    (NoDup (lfd :: k_conns k) -> NoDup (lfd :: k_conns k')).

Lemma accept_delivers {A K} `{!Kernel A Z K} lfd `{!SocketsOk (K := K) lfd} (k k' : K) e c fd a l fl :
  k_post k k' -> posts k k' e c -> sqe_op e = OpAccept fd a l fl -> sqe_user_data e = lfd ->
  (cqe_res c < 0 \/ (is_fd (cqe_res c) /\ cqe_res c <> lfd)) /\ delivers lfd k k' e c.
Proof.
  intros Hpost Hp Hop Hud. pose proof Hp as (_ & _ & Hu & _ & Hc). unfold completes in Hc. rewrite Hop in Hc.
  unfold delivers. destruct Hc as [_ [(Hfd & Hnew & Hc)|[Hneg Hc]]].
  - pose proof (accept_fresh _ _ _ _ _ _ _ _ Hpost Hp Hop) as Hne. split; [by right|].
    exists [cqe_res c]. rewrite cqe_fds_accept by (congruence || apply Hfd). rewrite Hud.
    split_and!; [done..|]. rewrite Hc. intros [Hl Hn]%NoDup_cons.
    constructor; [|by constructor]. apply not_elem_of_cons. done.
  - split; [by left|]. exists []. unfold same_conns in Hc. by rewrite cqe_fds_failed, Hu, Hc.
Qed.

Lemma conn_delivers {A K} `{!KernelView A Z K} lfd (k k' : K) e c :
  posts k k' e c -> sqe_user_data e <> lfd -> same_conns k k' -> delivers lfd k k' e c.
Proof.
  intros (_ & _ & Hu & _) Hne Hc. exists []. unfold same_conns in Hc.
  rewrite cqe_fds_conn by congruence. by rewrite Hu, Hc.
Qed.

Section table_inv.
Context {A K Mem X : Type} `{!Kernel A Z K} `{!KernelOk A Z K}.

Local Abbreviation st := (rstate A Z K Mem).

(** The table, what else must hold of the memory, and what a row says. *)
Context (lfd : Z) (conns : Mem -> list X) (mem_ok : Mem -> Prop).
Context (described : option X -> sqe A Z -> Prop) (answered : option X -> cqe Z -> Prop).

Definition requests_ok (t : list X) : list (sqe A Z) -> Prop :=
  Forall (fun e => described (index t (sqe_user_data e)) e).
Definition completions_ok (t : list X) : list (cqe Z) -> Prop :=
  Forall (fun c => answered (index t (cqe_user_data c)) c).

(** The descriptors with an outstanding request, when the first [n]
    completions of the queue have been handled. *)
Definition pending (s : st) (n : nat) : list Z :=
  (sqe_user_data <$> rs_sq s) ++ (sqe_user_data <$> k_inflight (rs_kern s)) ++
  (drop n (k_cq (rs_kern s)) ≫= cqe_fds lfd).

(** The invariant while the handler has the descriptors [held] in its hands,
    [n] completions are handled and not consumed, and the completions [rest] of
    the batch are still to come. *)
Record holding (s : st) (n : nat) (rest : list (cqe Z)) (held : list Z) : Prop := Holding {
  vi_rest : rest `prefix_of` drop n (k_cq (rs_kern s));
  vi_tables : mem_ok (rs_mem s);
  vi_sq : requests_ok (conns (rs_mem s)) (rs_sq s);
  vi_inflight : requests_ok (conns (rs_mem s)) (k_inflight (rs_kern s));
  vi_cq : completions_ok (conns (rs_mem s)) (drop n (k_cq (rs_kern s)));
  vi_nodup : NoDup (lfd :: k_conns (rs_kern s));
  vi_pending : pending s n ++ held ≡ₚ lfd :: k_conns (rs_kern s)
}.

(** ** The table *)

Lemma requests_ok_insert t i x l :
  0 <= i -> i ∉ (sqe_user_data <$> l) -> requests_ok t l -> requests_ok (<[Z.to_nat i := x]> t) l.
Proof.
  intros Hi Hni Hl. apply Forall_forall. intros e He. rewrite index_insert_ne; [|set_solver|done].
  by eapply Forall_forall in Hl.
Qed.

Lemma completions_ok_insert t i x l :
  0 <= i -> i ∉ (l ≫= cqe_fds lfd) -> completions_ok t l -> completions_ok (<[Z.to_nat i := x]> t) l.
Proof.
  intros Hi Hni Hl. apply Forall_forall. intros c Hc. rewrite index_insert_ne; [by eapply Forall_forall in Hl| |done].
  intros ->. apply Hni. apply list_elem_of_bind. exists c. split; [left|done].
Qed.

(** ** The program's steps *)

(** A descriptor the handler holds has no outstanding request. *)
Lemma held_fresh s n rest fd held :
  holding s n rest (fd :: held) ->
  (fd ∉ (sqe_user_data <$> rs_sq s)) /\ (fd ∉ (sqe_user_data <$> k_inflight (rs_kern s))) /\
  (fd ∉ (drop n (k_cq (rs_kern s)) ≫= cqe_fds lfd)).
Proof.
  intros [_ _ _ _ _ Hn Hp]. rewrite <- Hp in Hn. apply NoDup_app in Hn as (_ & Hn & _).
  unfold pending in Hn.
  split_and!; intros Hin; apply (Hn fd); [|by left| |by left| |by left]; rewrite !elem_of_app; auto.
Qed.

Lemma held_in s n rest fd held :
  holding s n rest (fd :: held) -> fd ∈ lfd :: k_conns (rs_kern s).
Proof. intros [_ _ _ _ _ _ Hp]. rewrite <- Hp. apply elem_of_app. right. by left. Qed.

(** A request on a held descriptor is queued and its row written. *)
Lemma hold_queue s s' n rest fd held e x y :
  holding s n rest (fd :: held) -> 0 <= fd -> index (conns (rs_mem s)) fd = Some y ->
  rs_sq s' = rs_sq s ++ [e] -> rs_kern s' = rs_kern s ->
  conns (rs_mem s') = <[Z.to_nat fd := x]> (conns (rs_mem s)) -> mem_ok (rs_mem s') ->
  sqe_user_data e = fd -> described (Some x) e -> holding s' n rest held.
Proof.
  intros Hh Hfd Hy Eq Ek Ec Hm Hu Hd. destruct (held_fresh _ _ _ _ _ Hh) as (F1 & F2 & F3).
  destruct Hh as [H1 H2 H3 H4 H5 H6 H7]. split; rewrite ?Ek, ?Ec, ?Eq; try done.
  - apply Forall_app. split; [by apply requests_ok_insert|]. apply Forall_singleton.
    rewrite Hu. by rewrite (index_insert_eq _ _ _ y).
  - by apply requests_ok_insert.
  - by apply completions_ok_insert.
  - rewrite <- H7. unfold pending. rewrite Eq, Ek, fmap_app; simpl. rewrite Hu. solve_Permutation.
Qed.

Lemma hold_perm s n rest held held' :
  held ≡ₚ held' -> holding s n rest held -> holding s n rest held'.
Proof. intros Hp [H1 H2 H3 H4 H5 H6 H7]. split; try done. by rewrite <- Hp. Qed.

(** A call that leaves requests, completions and connections alone. *)
Lemma hold_same s n rest held k' :
  holding s n rest held -> k_inflight k' = k_inflight (rs_kern s) -> k_cq k' = k_cq (rs_kern s) ->
  same_conns (rs_kern s) k' -> holding (put_kern k' s) n rest held.
Proof.
  intros [H1 H2 H3 H4 H5 H6 H7] Vi Vc Vn. unfold same_conns in Vn.
  split; simpl; rewrite ?Vi, ?Vc, ?Vn; try done.
  by unfold pending in *; simpl; rewrite Vi, Vc.
Qed.

Lemma hold_view s n rest held k' :
  holding s n rest held -> same_view (rs_kern s) k' -> holding (put_kern k' s) n rest held.
Proof. intros Hh (Vi & Vc & Vn & _). by apply hold_same. Qed.

Lemma hold_syscall {R} (f : K -> R * K) s n rest held r s' :
  (forall k, same_view k (f k).2) -> holding s n rest held -> syscall f s = Ok r s' ->
  holding s' n rest held.
Proof.
  intros Hf Hh. unfold syscall. specialize (Hf (rs_kern s)). destruct (f (rs_kern s)) as [r' k].
  intros [= _ <-]. by apply hold_view.
Qed.

Lemma hold_shutdown s n rest held fd how r s' :
  holding s n rest held -> shutdown fd how s = Ok r s' -> holding s' n rest held.
Proof.
  intros Hh. unfold shutdown. pose proof (shutdown_spec fd how (rs_kern s)) as Hs.
  destruct (k_shutdown _ _ _) as [ret k]. intros [= _ <-]. by apply hold_view.
Qed.

(** Changes to other global variables. *)
Lemma hold_mem s n rest held g :
  holding s n rest held -> conns g = conns (rs_mem s) -> mem_ok g -> holding (put_mem g s) n rest held.
Proof. intros [H1 H2 H3 H4 H5 H6 H7] E1 E2. by split; simpl; rewrite ?E1. Qed.

(** [io_uring_cqe_seen]: the completion is consumed, its descriptors are held. *)
Lemma hold_seen s c rest held :
  holding s 0 (c :: rest) held ->
  holding (put_kern (k_cq_advance 1 (rs_kern s)) s) 0 rest (cqe_fds lfd c ++ held).
Proof.
  intros [[l Hl] H2 H3 H4 H5 H6 H7]. destruct (advance_frame 1 (rs_kern s)) as (Ai & Ac & _).
  unfold same_conns in Ac. pose proof (advance_cq 1 (rs_kern s)) as Aq.
  rewrite drop_0 in *. rewrite Hl in Aq. simpl in Aq. rewrite drop_0 in Aq.
  rewrite Hl in H5. apply Forall_cons in H5 as [_ H5].
  split; simpl; rewrite ?drop_0, ?Ai, ?Ac, ?Aq in *; try done; [by exists l|].
  rewrite <- H7. unfold pending; simpl. rewrite !drop_0, Aq, Ai, Hl.
  cbn [app]. rewrite (bind_cons _ c). solve_Permutation.
Qed.

(** The completion is handled and consumed later. *)
Lemma hold_take s n c rest held :
  holding s n (c :: rest) held -> holding s (S n) rest (cqe_fds lfd c ++ held).
Proof.
  intros [[l Hl] H2 H3 H4 H5 H6 H7].
  assert (Hd : drop (S n) (k_cq (rs_kern s)) = rest ++ l).
  { replace (S n) with (n + 1)%nat by lia. rewrite <- drop_drop, Hl. simpl. apply drop_0. }
  rewrite Hl in H5. apply Forall_cons in H5 as [_ H5].
  split; try done; [rewrite Hd; by exists l|by rewrite Hd|].
  rewrite <- H7. unfold pending. rewrite Hd, Hl. cbn [app]. rewrite (bind_cons _ c). solve_Permutation.
Qed.

(** [io_uring_cq_advance] of what was handled. *)
Lemma hold_advance s n rest held :
  holding s n rest held -> holding (put_kern (k_cq_advance n (rs_kern s)) s) 0 rest held.
Proof.
  intros [H1 H2 H3 H4 H5 H6 H7]. destruct (advance_frame n (rs_kern s)) as (Ai & Ac & _).
  unfold same_conns in Ac. pose proof (advance_cq n (rs_kern s)) as Aq.
  split; simpl; rewrite ?drop_0, ?Ai, ?Ac, ?Aq; try done.
  rewrite <- H7. unfold pending; simpl. by rewrite drop_0, Aq, Ai.
Qed.

Lemma hold_close s n rest fd held r s' :
  holding s n rest (fd :: held) -> fd <> lfd -> close fd s = Ok r s' -> holding s' n rest held.
Proof.
  intros Hh Hne. pose proof (held_in _ _ _ _ _ Hh) as Hin. destruct Hh as [H1 H2 H3 H4 H5 H6 H7].
  unfold close. pose proof (close_spec fd (rs_kern s)) as Hc.
  destruct (k_close fd (rs_kern s)) as [ret k]. intros [= _ <-].
  destruct Hc as (Ci & Cq & _ & Cn). apply NoDup_cons in H6 as [Hl Hn].
  split; simpl; rewrite ?Ci, ?Cq, ?Cn; try done.
  - constructor; [|by apply NoDup_filter]. rewrite list_elem_of_filter. tauto.
  - apply (Permutation_cons_inv (a := fd)).
    transitivity (lfd :: k_conns (rs_kern s)).
    + rewrite <- H7. unfold pending; simpl. rewrite Ci, Cq. solve_Permutation.
    + rewrite Permutation_swap. constructor. apply NoDup_Permutation; [done| |].
      * constructor; [rewrite list_elem_of_filter; naive_solver|by apply NoDup_filter].
      * apply elem_of_cons in Hin as [?|Hin]; [done|].
        intros x. rewrite elem_of_cons, list_elem_of_filter. destruct (decide (x = fd)); naive_solver.
Qed.

Lemma head_answered s n c rest held :
  holding s n (c :: rest) held -> answered (index (conns (rs_mem s)) (cqe_user_data c)) c.
Proof. intros [[l Hl] _ _ _ H5 _ _]. rewrite Hl in H5. by apply Forall_cons in H5 as [? _]. Qed.

Lemma hold_weaken s n rest held : holding s n rest held -> holding s n [] held.
Proof. intros [H1 H2 H3 H4 H5 H6 H7]. split; try done. apply prefix_nil. Qed.

(** The state in which [main] enters its loop: one accept is queued, its row
    says so, and nothing is in flight. *)
Record loop_entry (s : st) : Prop := LoopEntry {
  entry_tables : mem_ok (rs_mem s);
  entry_sq : exists e, rs_sq s = [e] /\ described (index (conns (rs_mem s)) lfd) e /\ sqe_user_data e = lfd;
  entry_inflight : k_inflight (rs_kern s) = [];
  entry_cq : k_cq (rs_kern s) = [];
  entry_conns : k_conns (rs_kern s) = []
}.

Lemma hold_entry s : loop_entry s -> holding s 0 [] [].
Proof.
  intros [Ht (e & Hsq & Hd & Hu) Hi Hc Hn].
  split; unfold pending; rewrite ?Hsq, ?Hi, ?Hc, ?Hn; try done; simpl.
  - apply Forall_singleton. by rewrite Hu.
  - constructor.
  - constructor.
  - constructor; [set_solver|constructor].
  - by rewrite Hu.
Qed.

(** ** The kernel's steps *)

(** A request completes: the row now describes its completion. *)
Definition answers_match : Prop := forall x (k k' : K) e c,
  k_post k k' -> posts k k' e c -> described x e ->
  answered x c /\ delivers lfd k k' e c.

Context (Hmatch : answers_match).

Lemma hold_post s n rest k' :
  holding s n rest [] -> (n <= length (k_cq (rs_kern s)))%nat -> k_post (rs_kern s) k' ->
  holding (put_kern k' s) n rest [] /\ (n <= length (k_cq k'))%nat.
Proof.
  intros [[l Hl] H2 H3 H4 H5 H6 H7] Hlen Hpost. destruct (post_spec _ _ Hpost) as (e & c & Hp).
  pose proof Hp as (Hin & Hq & Hu & _). unfold requests_ok in H4. rewrite Hin in H4.
  apply Forall_cons in H4 as [He H4].
  destruct (Hmatch _ _ _ _ _ Hpost Hp He) as (Ha & new & Hfds & Hconns & Hnd).
  assert (Hd : drop n (k_cq k') = drop n (k_cq (rs_kern s)) ++ [c]) by (rewrite Hq; by apply drop_app_le).
  split; [|rewrite Hq, length_app; simpl; lia]. split; simpl; try done.
  - rewrite Hd, Hl. exists (l ++ [c]). by rewrite app_assoc.
  - rewrite Hd. apply Forall_app_2; [done|]. apply Forall_singleton. by rewrite Hu.
  - by apply Hnd.
  - rewrite Hconns, app_nil_r in *.
    transitivity (new ++ lfd :: k_conns (rs_kern s)); [|solve_Permutation].
    rewrite <- H7. unfold pending; simpl. rewrite Hd, list_bind_snoc, Hfds, Hin, fmap_cons.
    solve_Permutation.
Qed.

Lemma hold_posts s rest k' :
  holding s 0 rest [] -> rtc k_post (rs_kern s) k' -> holding (put_kern k' s) 0 rest [].
Proof.
  intros Hi Hr. remember (rs_kern s) as k eqn:Hk. revert s Hi Hk.
  induction Hr as [k|k k1 k' H1 _ IH]; intros s Hi ->; [by destruct s|].
  apply (IH (put_kern k1 s)); [|done]. apply hold_post; [done|lia|done].
Qed.

Lemma hold_submit s rest w r s' :
  holding s 0 rest [] -> io_uring_submit_and_wait w s = Ok r s' -> holding s' 0 rest [].
Proof.
  intros [H1 H2 H3 H4 H5 H6 H7] Hrun. unfold io_uring_submit_and_wait in Hrun.
  pose proof (submit_spec (rs_sq s) w (rs_kern s)) as Hs.
  destruct (k_submit _ _ _) as [[ret m] k']. injection Hrun as _ <-.
  destruct Hs as [(k1 & (Hinf & Hq & Hc & _) & Hposts) _]. unfold same_conns in Hc.
  apply (hold_posts (put_sq (drop m (rs_sq s)) (put_kern k1 s)) rest k'); [|done].
  rewrite <- (take_drop m (rs_sq s)) in H3. apply Forall_app in H3 as [Hsq1 Hsq2].
  split; simpl; rewrite ?Hq, ?Hinf, ?Hc; try done.
  - by apply Forall_app_2.
  - rewrite <- H7. unfold pending; simpl. rewrite Hq, Hinf, fmap_app.
    rewrite <- (take_drop m (rs_sq s)) at 3. rewrite fmap_app. solve_Permutation.
Qed.

End table_inv.
