(* ===== verification/EchoV1.v ===== *)
(** * The table-based echo server: [io_uring_echo_server_v1.c]

    One [conn_info] and one buffer per descriptor, in the global tables
    [conns] and [bufs]; the [user_data] of a request is the address of its
    entry of [conns].  With [-f] descriptors are also entered in the ring's
    table of registered files, mirrored in [registered_files]. *)

From S2P Require Import Prelude Uring Tables BatchLoop Libc Setup Options Registration.

Definition BACKLOG : Z := 8192.

Definition ACCEPT : Z := 0.
Definition POLL_LISTEN : Z := 1.
Definition POLL_NEW_CONNECTION : Z := 2.
Definition READ : Z := 3.
Definition WRITE : Z := 4.

Definition IOSQE_FIXED_FILE : Z := 2 ^ 0.

Record conn_info : Type := ConnInfo {
  fd : Z;   (* unsigned *)
  type : Z  (* unsigned *)
}.

(** The addresses passed to the kernel: the locals of [main] and the buffer
    [malloc] returned for row [i] of [bufs]. *)
Inductive address : Type :=
| AClientAddr
| AClientLen
| ABuf (i : Z).

(** The global variables.  [registered_files] is empty until
    [init_registerfiles] has run. *)
Record globals : Type := Globals {
  opt : options;
  conns : list conn_info;
  bufs : list address;
  registered_files : list Z;
  workcount : Z
}.

Definition set_conns (l : list conn_info) (g : globals) : globals :=
  Globals (opt g) l (bufs g) (registered_files g) (workcount g).
Definition set_registered (l : list Z) (g : globals) : globals :=
  Globals (opt g) (conns g) (bufs g) l (workcount g).
Definition set_workcount (n : Z) (g : globals) : globals :=
  Globals (opt g) (conns g) (bufs g) (registered_files g) n.

Section server.
Context {K : Type} `{!Liburing address Z} `{!Kernel address Z K} `{!Setup K} `{!Register K}.

(** A [struct conn_info *] into [conns] is its index. *)
Local Abbreviation st := (rstate address Z K globals).

(** [conn_i->fd = fd; conn_i->type = type] *)
Definition set_conn (fd type : Z) : M st unit := store conns set_conns fd (ConnInfo (to_u32 fd) type).

(** [if (registerfiles) sqe->flags |= IOSQE_FIXED_FILE] *)
Definition fixed_file (sqe : option nat) : M st unit :=
  o ← read_globals opt;
  if registerfiles o then sqe_update sqe (sqe_or_flags IOSQE_FIXED_FILE) else mret tt.

Definition add_accept (fd : Z) (client_addr client_len : address) (flags : Z) : M st unit :=
  sqe ← io_uring_get_sqe;
  io_uring_prep sqe (OpAccept fd client_addr client_len 0) ;;
  io_uring_sqe_set_flags sqe flags ;;
  fixed_file sqe ;;
  set_conn fd ACCEPT ;;
  set_user_data sqe fd.

Definition add_socket_read (fd size flags : Z) : M st unit :=
  sqe ← io_uring_get_sqe;
  buf ← load bufs fd;
  io_uring_prep sqe (OpRecv fd buf (to_u32 size) 0) ;;
  io_uring_sqe_set_flags sqe flags ;;
  fixed_file sqe ;;
  set_conn fd READ ;;
  set_user_data sqe fd.

Definition add_socket_write (fd size flags : Z) : M st unit :=
  sqe ← io_uring_get_sqe;
  buf ← load bufs fd;
  io_uring_prep sqe (OpSend fd buf (to_u32 size) 0) ;;
  io_uring_sqe_set_flags sqe flags ;;
  fixed_file sqe ;;
  set_conn fd WRITE ;;
  set_user_data sqe fd.

(** One thousand increments of an [int]; signed overflow is undefined. *)
Definition workload : M st unit :=
  n ← read_globals workcount;
  if n + 1000 <? 2 ^ 31 then write_globals (set_workcount (n + 1000)) else ub.

Definition register_conn (sock_conn_fd : Z) : M st unit :=
  Registration.register_conn opt registered_files set_registered sock_conn_fd.

(** The body of the loop over the batch. *)
Definition handle_cqe (sock_listen_fd : Z) (c : cqe Z) : M st unit :=
  user_data ← load conns (cqe_user_data c);
  o ← read_globals opt;
  let ufd := to_i32 (fd user_data) in
  if type user_data =? ACCEPT then
    let sock_conn_fd := cqe_res c in
    io_uring_cqe_seen ;;
    register_conn sock_conn_fd ;;
    add_accept sock_listen_fd AClientAddr AClientLen 0 ;;
    add_socket_read sock_conn_fd (msg_len o) 0
  else if type user_data =? READ then
    let bytes_read := cqe_res c in
    workload ;;
    io_uring_cqe_seen ;;
    if bytes_read <=? 0 then
      shutdown ufd SHUT_RDWR ;; close ufd ;; mret tt
    else add_socket_write ufd bytes_read 0
  else if type user_data =? WRITE then
    io_uring_cqe_seen ;;
    add_socket_read ufd (msg_len o) 0
  else mret tt.

Definition turn_start : M st (list (cqe Z)) :=
  ret ← io_uring_submit_and_wait 1;
  if ret <? 0 then exit_ 1 else io_uring_peek_batch_cqe (Z.to_nat BACKLOG).

(** Nothing is left to do after the batch. *)
Definition turn_end (_ : nat) : M st unit := mret tt.

Definition event_loop_body (sock_listen_fd : Z) : M st unit :=
  cqes ← turn_start; for_each (handle_cqe sock_listen_fd) cqes.

Definition v1_reachable (sock_listen_fd : Z) :=
  breachable turn_start (handle_cqe sock_listen_fd) turn_end.

(** ** Start-up *)

Definition init_registerfiles : M st Z := init_files_rlimit set_registered.

(** The loop that fills [bufs]. *)
Definition alloc_bufs (n : nat) : M st (list address) := Registration.alloc_bufs opt ABuf n 0.

(** The tables.  A NULL [bufs] is stored to when there is a row to fill. *)
Definition alloc_tables (o : options) : M st unit :=
  let n := max_connections o + 32 in
  if negb (n <? 2 ^ 31) then ub else
  let o := Options (portno o) (registerfiles o) n (msg_len o) in
  ok ← syscall (k_calloc 8 (to_u64 n));
  if negb ok then exit_ 1 else
  write_globals (fun g => Globals o (replicate (Z.to_nat n) (ConnInfo 0 0)) (bufs g)
                            (registered_files g) (workcount g)) ;;
  ok ← syscall (k_calloc 8 (to_u64 n));
  if negb ok && (0 <? n) then ub else
  rows ← alloc_bufs (Z.to_nat n);
  write_globals (fun g => Globals (opt g) (conns g) rows (registered_files g) (workcount g)).

Definition setup_socket (port : Z) : M st Z :=
  sock_listen_fd ← socket AF_INET (Z.lor SOCK_STREAM SOCK_NONBLOCK) 0;
  setsockopt sock_listen_fd SOL_SOCKET SO_REUSEADDR 1 ;;
  let serv_addr := SockAddrIn AF_INET (htons port) INADDR_ANY in
  ret ← bind sock_listen_fd serv_addr;
  if ret <? 0 then exit_ 1 else
  ret ← listen sock_listen_fd BACKLOG;
  if ret <? 0 then exit_ 1 else
  mret sock_listen_fd.

Definition setup_ring : M st unit :=
  r ← io_uring_queue_init_params 32768 zero_params;
  if r.1 <? 0 then exit_ 1 else
  if negb (has_flag (p_features r.2) IORING_FEAT_FAST_POLL) then exit_ 0 else mret tt.

Definition register_listener (sock_listen_fd : Z) : M st unit :=
  Registration.register_listener opt registered_files set_registered (fun _ => init_registerfiles) sock_listen_fd.

Definition startup (argv : list (list Z)) : M st Z :=
  o ← parse_options argv;
  alloc_tables o ;;
  sock_listen_fd ← setup_socket (portno o);
  setup_ring ;;
  register_listener sock_listen_fd ;;
  add_accept sock_listen_fd AClientAddr AClientLen 0 ;;
  mret sock_listen_fd.

End server.
