(* ===== verification/EchoV1Inv.v ===== *)
(** * One request per connection in the table-based echo server

    The entry [conns[fd]] says what the outstanding request on [fd] is, and
    the buffer [bufs[fd]] is lent to that request.  The invariant is that of
    [TableInv], with the requests of this server. *)

From S2P Require Import Prelude Uring Tables BatchLoop Libc Setup Options Registration TableInv EchoV1.

Section invariant.
Context {K : Type} `{!Liburing address Z} `{!Kernel address Z K} `{!Setup K} `{!Register K}.
Context {entries : nat} `{!LiburingOk address Z entries} `{!KernelOk address Z K}.
Context `{!SetupOk address Z K} `{!RegisterOk address Z K}.
Context (lfd : Z) (o : options).

Local Abbreviation st := (rstate address Z K globals).

(** ** Requests, completions and the table *)

(** The table entry [x] describes the request [e]. *)
Inductive described (x : option conn_info) (e : sqe address Z) : Prop :=
| described_accept :
    sqe_user_data e = lfd -> x = Some (ConnInfo lfd ACCEPT) ->
    sqe_op e = OpAccept lfd AClientAddr AClientLen 0 -> described x e
| described_read fd :
    sqe_user_data e = fd -> fd <> lfd -> is_fd fd -> x = Some (ConnInfo fd READ) ->
    sqe_op e = OpRecv fd (ABuf fd) (to_u32 (msg_len o)) 0 -> described x e
| described_write fd n :
    sqe_user_data e = fd -> fd <> lfd -> is_fd fd -> x = Some (ConnInfo fd WRITE) ->
    sqe_op e = OpSend fd (ABuf fd) n 0 -> 0 < n <= to_u32 (msg_len o) -> described x e.

(** The table entry [x] describes the request that completed with [c]. *)
Inductive answered (x : option conn_info) (c : cqe Z) : Prop :=
| answered_accept :
    cqe_user_data c = lfd -> x = Some (ConnInfo lfd ACCEPT) ->
    cqe_res c < 0 \/ (is_fd (cqe_res c) /\ cqe_res c <> lfd) -> answered x c
| answered_read fd :
    cqe_user_data c = fd -> fd <> lfd -> is_fd fd -> x = Some (ConnInfo fd READ) ->
    is_i32 (cqe_res c) -> cqe_res c <= to_u32 (msg_len o) -> answered x c
| answered_write fd :
    cqe_user_data c = fd -> fd <> lfd -> is_fd fd -> x = Some (ConnInfo fd WRITE) ->
    answered x c.

(** The tables have one row per descriptor, and row [i] of [bufs] is the
    buffer allocated for it. *)
Definition tables_ok (g : globals) : Prop :=
  opt g = o /\ bufs g = ABuf <$> seqZ 0 (Z.of_nat (length (conns g))).

(** The invariant while the handler has the descriptors [held] in its hands
    and the completions [rest] of the batch are still to come: every
    completion is consumed before the next one is handled. *)
Definition holding (s : st) (rest : list (cqe Z)) (held : list Z) : Prop :=
  TableInv.holding lfd conns tables_ok described answered s 0 rest held.

Definition v1_inv (s : st) (rest : list (cqe Z)) : Prop := holding s rest [].

(** The descriptors with an outstanding request. *)
Definition pending (s : st) : list Z := TableInv.pending lfd s 0.

(** The state in which [main] enters its loop. *)
Definition loop_entry : st -> Prop := TableInv.loop_entry lfd conns tables_ok described.

(** ** The builders *)

(** The entry a builder leaves, and the state with it. *)
Definition built (op : io_op address) (flags fd : Z) (e : sqe address Z) : sqe address Z :=
  sqe_put_user_data fd
    (let e := lib_set_flags flags (lib_prep op e) in
     if registerfiles o then sqe_or_flags IOSQE_FIXED_FILE e else e).

Definition queued (e : sqe address Z) (fd type : Z) (s : st) : st :=
  RState (rs_sq s ++ [e]) (rs_kern s)
    (set_conns (<[Z.to_nat fd := ConnInfo (to_u32 fd) type]> (conns (rs_mem s))) (rs_mem s)).

(** The part after [io_uring_get_sqe] that all builders share. *)
Definition fill (sqe : option nat) (op : io_op address) (flags fd type : Z) : M st unit :=
  io_uring_prep sqe op ;;
  io_uring_sqe_set_flags sqe flags ;;
  fixed_file sqe ;;
  set_conn fd type ;;
  set_user_data sqe fd.

Lemma v1_set_conn_spec fd type (s : st) :
  set_conn fd type s =
    match index (conns (rs_mem s)) fd with
    | Some _ => Ok tt (put_mem (set_conns
        (<[Z.to_nat fd := ConnInfo (to_u32 fd) type]> (conns (rs_mem s))) (rs_mem s)) s)
    | None => Ub s
    end.
Proof. apply store_spec. Qed.

Lemma v1_fixed_file_spec i e e0 (s : st) :
  opt (rs_mem s) = o -> rs_sq s !! i = Some e0 ->
  fixed_file (Some i) (put_entry i e s) =
    Ok tt (put_entry i (if registerfiles o then sqe_or_flags IOSQE_FIXED_FILE e else e) s).
Proof.
  intros Ho He. unfold fixed_file. mred. simpl. rewrite Ho.
  destruct (registerfiles o); [by eapply sqe_update_entry|done].
Qed.

Lemma fill_spec i op flags fd type (s : st) e :
  opt (rs_mem s) = o -> rs_sq s !! i = Some e ->
  exists t, fill (Some i) op flags fd type s =
    match index (conns (rs_mem s)) fd with
    | Some _ => Ok tt (put_entry i (built op flags fd e)
        (put_mem (set_conns (<[Z.to_nat fd := ConnInfo (to_u32 fd) type]> (conns (rs_mem s))) (rs_mem s)) s))
    | None => Ub t
    end.
Proof.
  intros Ho He. set (e1 := lib_set_flags flags (lib_prep op e)).
  exists (put_entry i (if registerfiles o then sqe_or_flags IOSQE_FIXED_FILE e1 else e1) s).
  transitivity (fill (Some i) op flags fd type (put_entry i e s)); [by rewrite put_entry_id|].
  unfold fill, io_uring_prep, io_uring_sqe_set_flags.
  rewrite !(bind_ok _ _ _ _ _ (sqe_update_entry _ _ _ _ _ He)).
  rewrite (bind_ok _ _ _ _ _ (v1_fixed_file_spec _ _ _ _ Ho He)).
  unfold mbind, M_bind. rewrite v1_set_conn_spec. simpl.
  destruct (index _ _); [|done]. unfold set_user_data, built.
  exact (sqe_update_entry i _ _ e (put_mem _ s) He).
Qed.

Lemma get_fill op flags fd type (s : st) :
  opt (rs_mem s) = o ->
  exists t, (sqe ← io_uring_get_sqe; fill sqe op flags fd type) s =
    match lib_get_sqe (rs_sq s), index (conns (rs_mem s)) fd with
    | Some e, Some _ => Ok tt (queued (built op flags fd e) fd type s)
    | _, _ => Ub t
    end.
Proof.
  intros Ho. unfold mbind at 1, M_bind at 1. unfold io_uring_get_sqe.
  destruct (lib_get_sqe (rs_sq s)) as [e|]; [|by exists s].
  destruct (fill_spec (length (rs_sq s)) op flags fd type (push_sqe e s) e) as [t Ht]; [done| |].
  { simpl. rewrite lookup_app_r by lia. by rewrite Nat.sub_diag. }
  exists t. rewrite Ht. simpl. destruct (index _ _); [|done]. unfold put_entry, queued; simpl.
  rewrite insert_app_r_alt by lia. by rewrite Nat.sub_diag.
Qed.

Lemma v1_add_accept_spec fd (s : st) :
  opt (rs_mem s) = o ->
  exists t, add_accept fd AClientAddr AClientLen 0 s =
    match lib_get_sqe (rs_sq s), index (conns (rs_mem s)) fd with
    | Some e, Some _ => Ok tt (queued (built (OpAccept fd AClientAddr AClientLen 0) 0 fd e) fd ACCEPT s)
    | _, _ => Ub t
    end.
Proof. apply get_fill. Qed.

(** Row [i] of [bufs]. *)
Lemma index_bufs n i :
  index (ABuf <$> seqZ 0 (Z.of_nat n)) i =
    if (0 <=? i) && (i <? Z.of_nat n) then Some (ABuf i) else None.
Proof.
  unfold index. destruct (Z.leb_spec 0 i); [|done]. simpl. rewrite list_lookup_fmap.
  destruct (Z.ltb_spec i (Z.of_nat n)).
  - rewrite lookup_seqZ_lt by lia. simpl. do 2 f_equal. lia.
  - by rewrite lookup_seqZ_ge by lia.
Qed.

(** The two builders that use a buffer. *)
Lemma get_load_fill (mk : address -> io_op address) fd type (s : st) :
  tables_ok (rs_mem s) ->
  exists t, (sqe ← io_uring_get_sqe; buf ← load bufs fd; fill sqe (mk buf) 0 fd type) s =
    match lib_get_sqe (rs_sq s), index (conns (rs_mem s)) fd with
    | Some e, Some _ => Ok tt (queued (built (mk (ABuf fd)) 0 fd e) fd type s)
    | _, _ => Ub t
    end.
Proof.
  intros [Ho Hb]. destruct (get_fill (mk (ABuf fd)) 0 fd type s Ho) as [t Ht].
  pose proof (index_bufs (length (conns (rs_mem s))) fd) as Hrow. rewrite <- Hb in Hrow.
  unfold mbind at 1, M_bind at 1 in Ht. unfold mbind at 1, M_bind at 1.
  unfold io_uring_get_sqe in *. destruct (lib_get_sqe (rs_sq s)) as [e|].
  - destruct (index (conns (rs_mem s)) fd) as [x|] eqn:Hx.
    + exists t. apply index_Some in Hx. rewrite (proj2 (Z.leb_le 0 fd)), (proj2 (Z.ltb_lt fd _)) in Hrow by lia.
      rewrite (bind_ok _ _ _ (ABuf fd) (push_sqe e s)); [done|]. rewrite load_spec. simpl. by rewrite Hrow.
    + exists (push_sqe e s). apply bind_ub. rewrite load_spec. simpl. rewrite Hrow.
      apply index_None in Hx. destruct (Z.leb_spec 0 fd), (Z.ltb_spec fd (Z.of_nat (length (conns (rs_mem s))))); [lia|done..].
  - destruct (index (bufs (rs_mem s)) fd) as [b|] eqn:Hx; exists s.
    + rewrite (bind_ok _ _ _ b s); [done|]. by rewrite load_spec, Hx.
    + apply bind_ub. by rewrite load_spec, Hx.
Qed.

Lemma v1_add_socket_read_spec fd size (s : st) :
  tables_ok (rs_mem s) ->
  exists t, add_socket_read fd size 0 s =
    match lib_get_sqe (rs_sq s), index (conns (rs_mem s)) fd with
    | Some e, Some _ => Ok tt (queued (built (OpRecv fd (ABuf fd) (to_u32 size) 0) 0 fd e) fd READ s)
    | _, _ => Ub t
    end.
Proof. apply (get_load_fill (fun b => OpRecv fd b (to_u32 size) 0)). Qed.

Lemma v1_add_socket_write_spec fd size (s : st) :
  tables_ok (rs_mem s) ->
  exists t, add_socket_write fd size 0 s =
    match lib_get_sqe (rs_sq s), index (conns (rs_mem s)) fd with
    | Some e, Some _ => Ok tt (queued (built (OpSend fd (ABuf fd) (to_u32 size) 0) 0 fd e) fd WRITE s)
    | _, _ => Ub t
    end.
Proof. apply (get_load_fill (fun b => OpSend fd b (to_u32 size) 0)). Qed.

Lemma tables_ok_queued e fd type (s : st) :
  tables_ok (rs_mem s) -> tables_ok (rs_mem (queued e fd type s)).
Proof. intros [Ho Hb]. split; [done|]. simpl. by rewrite length_insert. Qed.

Lemma built_ud op flags fd e : sqe_user_data (built op flags fd e) = fd.
Proof. done. Qed.

Lemma v1_built_op op flags fd e : sqe_op (built op flags fd e) = op.
Proof.
  unfold built; simpl. destruct (registerfiles o); simpl; by rewrite set_flags_op, prep_op.
Qed.

(** ** What the handler's steps do to the invariant *)

(** A builder has queued a request its row describes. *)
Lemma v1_hold_queue s rest fd held type op e x :
  holding s rest (fd :: held) -> 0 <= fd ->
  described (Some (ConnInfo (to_u32 fd) type)) (built op 0 fd e) ->
  index (conns (rs_mem s)) fd = Some x ->
  holding (queued (built op 0 fd e) fd type s) rest held.
Proof.
  intros Hh Hfd Hd Hx. eapply hold_queue; [exact Hh|exact Hfd|exact Hx|done..| |done|exact Hd].
  apply tables_ok_queued, Hh.
Qed.

Context (Hlfd : is_fd lfd).

Lemma fd_u32 fd : is_fd fd -> to_u32 fd = fd.
Proof. intros Hfd. apply to_u32_id. unfold is_fd, is_u32 in *. lia. Qed.

Lemma fd_i32 fd : is_fd fd -> to_i32 fd = fd.
Proof. intros Hfd. apply to_i32_id. by apply is_fd_i32. Qed.

Lemma v1_hold_accept s rest held s' :
  holding s rest (lfd :: held) -> add_accept lfd AClientAddr AClientLen 0 s = Ok tt s' ->
  holding s' rest held.
Proof.
  intros Hh. destruct (v1_add_accept_spec lfd s) as [t ->]; [apply Hh|].
  destruct (lib_get_sqe _) as [e|]; [|done]. destruct (index _ _) eqn:Hx; [|done]. intros [= <-].
  eapply v1_hold_queue; [done|apply Hlfd| |exact Hx].
  rewrite fd_u32 by done. apply described_accept; [done..|apply v1_built_op].
Qed.

Lemma v1_hold_read s rest fd held s' :
  holding s rest (fd :: held) -> is_fd fd -> fd <> lfd ->
  add_socket_read fd (msg_len o) 0 s = Ok tt s' -> holding s' rest held.
Proof.
  intros Hh Hfd Hne. destruct (v1_add_socket_read_spec fd (msg_len o) s) as [t ->]; [apply Hh|].
  destruct (lib_get_sqe _) as [e|]; [|done]. destruct (index _ _) eqn:Hx; [|done]. intros [= <-].
  eapply v1_hold_queue; [done|apply Hfd| |exact Hx].
  rewrite fd_u32 by done. eapply described_read; [done..|apply v1_built_op].
Qed.

Lemma v1_hold_write s rest fd held n s' :
  holding s rest (fd :: held) -> is_fd fd -> fd <> lfd ->
  0 < n < 2 ^ 32 -> n <= to_u32 (msg_len o) ->
  add_socket_write fd n 0 s = Ok tt s' -> holding s' rest held.
Proof.
  intros Hh Hfd Hne Hn Hlen. destruct (v1_add_socket_write_spec fd n s) as [t ->]; [apply Hh|].
  destruct (lib_get_sqe _) as [e|]; [|done]. destruct (index _ _) eqn:Hx; [|done]. intros [= <-].
  eapply v1_hold_queue; [done|apply Hfd| |exact Hx].
  assert (Hu : to_u32 n = n) by (apply Z.mod_small; lia).
  rewrite fd_u32, Hu by done. eapply described_write; [done..|apply v1_built_op|lia].
Qed.

Lemma v1_hold_register s rest held fd s' :
  holding s rest held -> register_conn fd s = Ok tt s' -> holding s' rest held.
Proof.
  intros Hh Hrun. destruct (register_conn_cases _ _ _ _ _ _ Hrun) as [->|(_ & k & Hk & ->)]; [done|].
  apply (hold_mem _ _ _ _ _ (put_kern k s)); [by apply hold_view|done|exact (vi_tables _ _ _ _ _ _ _ _ _ Hh)].
Qed.

Lemma v1_inv_opt s rest held : holding s rest held -> opt (rs_mem s) = o.
Proof. intros Hh. apply (vi_tables _ _ _ _ _ _ _ _ _ Hh). Qed.

Lemma v1_hold_seen s c rest :
  v1_inv s (c :: rest) -> holding (put_kern (k_cq_advance 1 (rs_kern s)) s) rest (cqe_fds lfd c).
Proof. intros Hi%hold_seen. by rewrite app_nil_r in Hi. Qed.

Lemma v1_inv_handle s c rest s' :
  v1_inv s (c :: rest) -> handle_cqe lfd c s = Ok tt s' -> v1_inv s' rest.
Proof.
  intros Hi. pose proof (v1_hold_seen _ _ _ Hi) as Hseen.
  pose proof (head_answered _ _ _ _ _ _ _ _ _ _ Hi) as Ha. pose proof (v1_inv_opt _ _ _ Hi) as Ho.
  unfold handle_cqe. intros (u & s1 & Hu & Hrun)%bind_inv_ok. rewrite load_spec in Hu.
  destruct (index _ _) as [x|]; [|done]. injection Hu as <- <-.
  apply bind_inv_ok in Hrun as (o' & s1 & [= <- <-] & Hrun). rewrite Ho in Hrun.
  destruct Ha as [Hud [= ->] Hr|fd Hud Hne Hfd [= ->] Hi32 Hr|fd Hud Hne Hfd [= ->]]; simpl in Hrun.
  - apply bind_inv_ok in Hrun as ([] & s2 & [= <-] & Hrun).
    apply bind_inv_ok in Hrun as ([] & s3 & Hreg & Hrun).
    eapply v1_hold_register in Hreg; [|exact Hseen].
    apply bind_inv_ok in Hrun as ([] & s4 & Hacc & Hrun).
    destruct Hr as [Hneg|[Hfd Hne]].
    + rewrite cqe_fds_failed, Hud in Hreg by done.
      eapply v1_hold_accept in Hacc; [|exact Hreg].
      destruct (v1_add_socket_read_spec (cqe_res c) (msg_len o) s4) as [t Ht]; [apply Hacc|].
      rewrite Ht in Hrun. unfold index in Hrun. rewrite (proj2 (Z.leb_gt _ _) Hneg) in Hrun.
      by destruct (lib_get_sqe _).
    + rewrite cqe_fds_accept in Hreg by (done || apply Hfd).
      eapply v1_hold_accept in Hacc; [|exact Hreg]. by eapply v1_hold_read in Hrun.
  - rewrite cqe_fds_conn, Hud in Hseen by congruence. rewrite fd_i32 in Hrun by done.
    apply bind_inv_ok in Hrun as ([] & s2 & Hwork & Hrun).
    unfold workload in Hwork. apply bind_inv_ok in Hwork as (n & s0 & [= <- <-] & Hwork).
    destruct (_ <? 2 ^ 31); [|done]. injection Hwork as <-.
    apply bind_inv_ok in Hrun as ([] & s3 & [= <-] & Hrun).
    match type of Hrun with _ ?t = _ => assert (Hh : holding t rest [fd]) end.
    { by apply (hold_mem _ _ _ _ _ (put_kern (k_cq_advance 1 (rs_kern s)) s)); [|done|apply Hi]. }
    destruct (Z.leb_spec (cqe_res c) 0) as [Hle|Hgt].
    + apply bind_inv_ok in Hrun as (r1 & s4 & Hsh & Hrun). eapply hold_shutdown in Hsh; [|exact Hh].
      apply bind_inv_ok in Hrun as (r2 & s5 & Hcl & [= <-]). by eapply hold_close in Hcl.
    + unfold is_i32 in Hi32. eapply v1_hold_write in Hrun; [done|exact Hh|done|done|lia|done].
  - rewrite cqe_fds_conn, Hud in Hseen by congruence. rewrite fd_i32 in Hrun by done.
    apply bind_inv_ok in Hrun as ([] & s3 & [= <-] & Hrun). by eapply v1_hold_read in Hrun.
Qed.

(** ** The kernel's steps *)

Context `{!SocketsOk lfd}.

Lemma v1_answers_match : answers_match lfd described answered.
Proof.
  intros x k k' e c Hpost Hp Hd. pose proof Hp as (_ & _ & Hu & Hi32 & Hc). unfold completes in Hc.
  destruct Hd as [Hud Hx Hop|fd Hud Hne Hfd Hx Hop|fd n Hud Hne Hfd Hx Hop Hn].
  - destruct (accept_delivers lfd _ _ _ _ _ _ _ _ Hpost Hp Hop Hud) as [Hr Hd].
    split; [apply answered_accept; [congruence|done..]|done].
  - pose proof (recv_within _ _ _ _ _ _ _ _ Hpost Hp Hop) as Hlen.
    rewrite Hop in Hc. assert (Hsame : same_conns k k') by (destruct (has_flag _ _); apply Hc).
    split; [|apply conn_delivers; congruence]. apply (answered_read _ _ fd); [congruence|done..|].
    apply Hlen. apply Z.mod_pos_bound. lia.
  - rewrite Hop in Hc. destruct Hc as [Hc _].
    split; [apply (answered_write _ _ fd); [congruence|done..]|apply conn_delivers; congruence].
Qed.

Lemma v1_inv_post s rest k' :
  v1_inv s rest -> k_post (rs_kern s) k' -> v1_inv (put_kern k' s) rest.
Proof. intros Hi Hk. apply (hold_post _ _ _ _ _ v1_answers_match s 0); [done|lia|done]. Qed.

Lemma v1_inv_weaken s rest : v1_inv s rest -> v1_inv s [].
Proof. apply hold_weaken. Qed.

Lemma v1_inv_start s cqes s' : v1_inv s [] -> turn_start s = Ok cqes s' -> v1_inv s' cqes.
Proof.
  intros Hi (ret & s1 & H1 & Hrun)%bind_inv_ok.
  eapply hold_submit in H1; [|exact v1_answers_match|exact Hi].
  destruct (ret <? 0); [done|]. apply peek_batch_inv in Hrun as [Hpre ->].
  by destruct H1 as [H1 H2 H3 H4 H5 H6 H7].
Qed.

(** ** Reachable states *)

Lemma v1_loop_entry_inv s : loop_entry s -> v1_inv s [].
Proof. apply hold_entry. Qed.

Lemma v1_reachable_inv s0 x :
  loop_entry s0 -> v1_reachable lfd s0 x ->
  bholds (fun s => v1_inv s []) (fun s _ rest => v1_inv s rest) x.
Proof.
  intros He. apply batch_invariant; eauto using v1_inv_post, v1_inv_start, v1_inv_handle, v1_loop_entry_inv.
  intros s n s' Hi [= <-]. done.
Qed.

End invariant.
