(* ===== verification/EchoV1Main.v ===== *)
(** * Start-up of the table-based echo server

    [main] of [io_uring_echo_server_v1.c] up to its loop establishes the state
    from which the invariant of [EchoV1Inv] holds. *)

From stdpp Require Import strings.
From S2P Require Import Prelude Uring Tables BatchLoop RefKernel Libc Setup Options Registration Startup TableInv.
From S2P Require Import EchoV1 EchoV1Inv.

Section v1_main.
Context {K : Type} `{!Liburing address Z} `{!Kernel address Z K} `{!Setup K} `{!Register K}.
Context {entries : nat} `{!LiburingOk address Z entries} `{!KernelOk address Z K}.
Context `{!SetupOk address Z K} `{!RegisterOk address Z K}.

Local Abbreviation st := (rstate address Z K globals).

Definition tabs (g : globals) : options * list conn_info * list address := (opt g, conns g, bufs g).
Local Abbreviation tables_of := (mem_of (A := address) (U := Z) (K := K) tabs).

Lemma setup_socket_frame port :
  preserving view_of (setup_socket port) /\ preserving tables_of (setup_socket port).
Proof. unfold setup_socket, socket, setsockopt, bind, listen. split; auto 20 with frame. Qed.

Lemma setup_ring_frame : preserving view_of setup_ring /\ preserving tables_of setup_ring.
Proof. unfold setup_ring, io_uring_queue_init_params. split; auto 20 with frame. Qed.

Lemma register_listener_frame fd :
  preserving view_of (register_listener fd) /\ preserving tables_of (register_listener fd).
Proof. unfold register_listener, init_registerfiles, Registration.register_listener, register_fd, init_files_rlimit, init_files. split; auto 30 with frame. Qed.

(** ** The tables *)

Lemma alloc_bufs_frame n :
  preserving view_of (alloc_bufs n) /\ preserving tables_of (alloc_bufs n).
Proof. split; apply alloc_bufs_preserving; auto with frame. Qed.

Lemma alloc_tables_spec o (s s' : st) :
  alloc_tables o s = Ok tt s' ->
  view_of s' = view_of s /\
  exists o', tables_ok o' (rs_mem s') /\ portno o' = portno o /\ registerfiles o' = registerfiles o /\
    msg_len o' = msg_len o /\ max_connections o' = max_connections o + 32 /\
    length (conns (rs_mem s')) = Z.to_nat (max_connections o').
Proof.
  unfold alloc_tables. destruct (_ <? 2 ^ 31); [|done]. cbn [negb].
  intros (ok & s1 & H1 & Hrun)%bind_inv_ok. apply syscall_view_of in H1; [|intros; apply calloc_frame].
  destruct ok; [|done]. cbn [negb] in Hrun.
  apply bind_inv_ok in Hrun as ([] & s2 & [= <-] & Hrun).
  apply bind_inv_ok in Hrun as (ok & s3 & H3 & Hrun).
  pose proof (syscall_mem_of tabs _ _ _ _ H3) as T3.
  apply syscall_view_of in H3; [|intros; apply calloc_frame].
  destruct (_ && _); [done|]. apply bind_inv_ok in Hrun as (rows & s4 & H4 & [= <-]).
  destruct (alloc_bufs_frame (Z.to_nat (max_connections o + 32))) as [F1 F2].
  pose proof (F1 _ _ _ H4) as V4. pose proof (F2 _ _ _ H4) as T4. apply alloc_bufs_rows in H4 as ->.
  rewrite T3 in T4. unfold tables_of in T4; simpl in T4. injection T4 as E1 E2 E3.
  split; [unfold view_of in *; simpl in *; congruence|].
  eexists. split; [split; [exact E1|]|]; simpl.
  - rewrite E2, length_replicate. done.
  - rewrite E2, length_replicate. done.
Qed.

(** ** All of it *)

Lemma startup_entry argv (s s' : st) lfd :
  pristine s -> startup argv s = Ok lfd s' -> is_fd lfd ->
  exists o, loop_entry lfd o s' /\ length (conns (rs_mem s')) = Z.to_nat (max_connections o).
Proof.
  intros [P1 P2 P3 P4] Hrun Hfd. unfold startup in Hrun.
  apply bind_inv_ok in Hrun as (o & s1 & H1 & Hrun). apply parse_options_id in H1 as ->.
  apply bind_inv_ok in Hrun as ([] & s2 & H2 & Hrun).
  apply alloc_tables_spec in H2 as (V2 & o' & T2 & _ & _ & _ & _ & L2).
  apply bind_inv_ok in Hrun as (fd & s3 & H3 & Hrun). destruct (setup_socket_frame (portno o)) as [F1 G1].
  pose proof (F1 _ _ _ H3) as V3. pose proof (G1 _ _ _ H3) as T3.
  apply bind_inv_ok in Hrun as ([] & s4 & H4 & Hrun). destruct setup_ring_frame as [F2 G2].
  pose proof (F2 _ _ _ H4) as V4. pose proof (G2 _ _ _ H4) as T4.
  apply bind_inv_ok in Hrun as ([] & s5 & H5 & Hrun). destruct (register_listener_frame fd) as [F3 G3].
  pose proof (F3 _ _ _ H5) as V5. pose proof (G3 _ _ _ H5) as T5.
  apply bind_inv_ok in Hrun as ([] & s6 & H6 & [= -> <-]).
  rewrite T4, T3 in T5. unfold tables_of in T5. injection T5 as E1 E2 E3.
  assert (T6 : tables_ok o' (rs_mem s5)) by (destruct T2; split; congruence).
  destruct (v1_add_accept_spec o' lfd s5) as [t Ht]; [apply T6|]. rewrite Ht in H6.
  destruct (lib_get_sqe _) as [e|]; [|done]. destruct (index (conns (rs_mem s5)) lfd) eqn:Hx; [|done].
  injection H6 as <-. rewrite V4, V3, V2 in V5. unfold view_of in V5. injection V5 as W1 W2 W3 W4.
  exists o'. split; [split; simpl|].
  - exact (tables_ok_queued o' e lfd ACCEPT s5 T6).
  - eexists. rewrite W1, P1. split; [done|]. split; [|done].
    rewrite (index_insert_eq _ _ _ _ Hx), fd_u32 by done. apply described_accept; [done..|apply v1_built_op].
  - by rewrite W2.
  - by rewrite W3.
  - by rewrite W4.
  - simpl. by rewrite length_insert, E2.
Qed.

End v1_main.
