(* ===== verification/EchoV1Theorems.v ===== *)
(** * Theorems on the table-based echo server

    Safety of [io_uring_echo_server_v1.c] over all interleavings with the
    kernel, the functional behaviour of its handler, its start-up, and the
    inputs on which it goes wrong. *)

From stdpp Require Import strings.
From S2P Require Import Prelude Uring Tables BatchLoop RefKernel Script BatchScript Libc Setup Options Registration.
From S2P Require Import Startup TableInv EchoV1 EchoV1Inv EchoV1Main.

Section v1_lemmas.
Context {K : Type} `{!Liburing address Z} `{!Kernel address Z K} `{!Setup K} `{!Register K}.
Context {entries : nat} `{!LiburingOk address Z entries} `{!KernelOk address Z K}.
Context `{!SetupOk address Z K} `{!RegisterOk address Z K}.
Context (lfd : Z) (o : options) (Hlfd : is_fd lfd).

Local Abbreviation st := (rstate address Z K globals).

(** Every descriptor in use has a row in the tables. *)
Definition bounded (s : st) : Prop :=
  Forall (fun fd => 0 <= fd < Z.of_nat (length (conns (rs_mem s)))) (lfd :: k_conns (rs_kern s)).

Lemma bounded_index s fd :
  bounded s -> fd ∈ lfd :: k_conns (rs_kern s) -> is_Some (index (conns (rs_mem s)) fd).
Proof.
  intros Hb Hin. eapply Forall_forall in Hb; [|exact Hin]. simpl in Hb.
  destruct (index (conns (rs_mem s)) fd) eqn:Hx; [eauto|]. by apply index_None in Hx.
Qed.

(** As long as the handler holds a descriptor there is room for a request. *)
Lemma hold_room s rest fd held :
  holding lfd o s rest (fd :: held) -> bounded s ->
  (length (conns (rs_mem s)) <= entries)%nat -> is_Some (lib_get_sqe (rs_sq s)).
Proof.
  intros [_ _ _ _ _ Hn Hp] Hb Hlen. apply get_sqe_room.
  apply Permutation_length in Hp. rewrite length_app in Hp.
  unfold EchoV1Inv.pending, TableInv.pending in Hp. rewrite length_app, length_fmap in Hp.
  assert (Hle : (length (lfd :: k_conns (rs_kern s)) <= length (conns (rs_mem s)))%nat).
  { transitivity (length (seqZ 0 (Z.of_nat (length (conns (rs_mem s)))))).
    - apply submseteq_length, NoDup_submseteq; [done|]. intros x Hx.
      eapply Forall_forall in Hb; [|exact Hx]. apply elem_of_seqZ. simpl in Hb. lia.
    - rewrite length_seqZ. lia. }
  cbn [length] in Hp. simpl in Hle. lia.
Qed.

Lemma hold_accept_total s rest held :
  holding lfd o s rest (lfd :: held) -> bounded s -> (length (conns (rs_mem s)) <= entries)%nat ->
  exists e, add_accept lfd AClientAddr AClientLen 0 s =
    Ok tt (queued (built o (OpAccept lfd AClientAddr AClientLen 0) 0 lfd e) lfd ACCEPT s).
Proof.
  intros Hh Hb Hlen. destruct (hold_room _ _ _ _ Hh Hb Hlen) as [e He].
  destruct (bounded_index _ _ Hb (held_in _ _ _ _ _ _ _ _ _ _ Hh)) as [x Hx].
  destruct (v1_add_accept_spec o lfd s) as [t ->]; [apply Hh|].
  rewrite He, Hx. by exists e.
Qed.

Lemma hold_read_total s rest fd held size :
  holding lfd o s rest (fd :: held) -> bounded s -> (length (conns (rs_mem s)) <= entries)%nat ->
  exists e, add_socket_read fd size 0 s =
    Ok tt (queued (built o (OpRecv fd (ABuf fd) (to_u32 size) 0) 0 fd e) fd READ s).
Proof.
  intros Hh Hb Hlen. destruct (hold_room _ _ _ _ Hh Hb Hlen) as [e He].
  destruct (bounded_index _ _ Hb (held_in _ _ _ _ _ _ _ _ _ _ Hh)) as [x Hx].
  destruct (v1_add_socket_read_spec o fd size s) as [t ->]; [apply Hh|].
  rewrite He, Hx. by exists e.
Qed.

Lemma hold_write_total s rest fd held size :
  holding lfd o s rest (fd :: held) -> bounded s -> (length (conns (rs_mem s)) <= entries)%nat ->
  exists e, add_socket_write fd size 0 s =
    Ok tt (queued (built o (OpSend fd (ABuf fd) (to_u32 size) 0) 0 fd e) fd WRITE s).
Proof.
  intros Hh Hb Hlen. destruct (hold_room _ _ _ _ Hh Hb Hlen) as [e He].
  destruct (bounded_index _ _ Hb (held_in _ _ _ _ _ _ _ _ _ _ Hh)) as [x Hx].
  destruct (v1_add_socket_write_spec o fd size s) as [t ->]; [apply Hh|].
  rewrite He, Hx. by exists e.
Qed.

Lemma bounded_queued e fd type s : bounded s -> bounded (queued e fd type s).
Proof. unfold bounded; simpl. by rewrite length_insert. Qed.

Lemma bounded_advance s n : bounded s -> bounded (put_kern (k_cq_advance n (rs_kern s)) s).
Proof.
  unfold bounded; simpl. destruct (advance_frame n (rs_kern s)) as (_ & Hc & _).
  unfold same_conns in Hc. by rewrite Hc.
Qed.

(** The handler, by the table entry of the completion. *)
Lemma handle_entry c (s : st) x :
  index (conns (rs_mem s)) (cqe_user_data c) = Some x ->
  handle_cqe lfd c s =
    (if type x =? ACCEPT then
       io_uring_cqe_seen ;; register_conn (cqe_res c) ;;
       add_accept lfd AClientAddr AClientLen 0 ;; add_socket_read (cqe_res c) (msg_len (opt (rs_mem s))) 0
     else if type x =? READ then
       workload ;; io_uring_cqe_seen ;;
       if cqe_res c <=? 0
       then shutdown (to_i32 (fd x)) SHUT_RDWR ;; close (to_i32 (fd x)) ;; mret tt
       else add_socket_write (to_i32 (fd x)) (cqe_res c) 0
     else if type x =? WRITE then
       io_uring_cqe_seen ;; add_socket_read (to_i32 (fd x)) (msg_len (opt (rs_mem s))) 0
     else mret tt) s.
Proof.
  intros Hx. unfold handle_cqe. rewrite (bind_ok _ _ s x s); [done|]. by rewrite load_spec, Hx.
Qed.

(** [register_conn] changes neither the tables nor the connections. *)
Lemma v1_register_frame fd (s s' : st) :
  register_conn fd s = Ok tt s' ->
  rs_sq s' = rs_sq s /\ conns (rs_mem s') = conns (rs_mem s) /\ bufs (rs_mem s') = bufs (rs_mem s) /\
  same_conns (rs_kern s) (rs_kern s').
Proof. intros Hrun. by destruct (register_conn_cases _ _ _ _ _ _ Hrun) as [->|(_ & k & (_ & _ & Hc & _) & ->)]. Qed.

Lemma v1_handle_no_ub c s rest :
  v1_inv lfd o s (c :: rest) -> bounded s -> (length (conns (rs_mem s)) <= entries)%nat ->
  (registerfiles o = true ->
     Forall (fun fd => fd < Z.of_nat (length (registered_files (rs_mem s)))) (k_conns (rs_kern s))) ->
  (cqe_user_data c = lfd -> 0 <= cqe_res c) ->
  workcount (rs_mem s) + 1000 < 2 ^ 31 ->
  no_ub (handle_cqe lfd c s).
Proof.
  intros Hi Hb Hlen Hreg Hacc Hwork. pose proof (v1_hold_seen _ _ _ _ _ Hi) as Hseen.
  pose proof (v1_inv_opt _ _ _ _ _ Hi) as Ho. pose proof (bounded_advance _ 1 Hb) as Hb1.
  destruct (head_answered _ _ _ _ _ _ _ _ _ _ Hi) as [Hud Hx Hr|fd Hud Hne Hfd Hx Hi32 Hr|fd Hud Hne Hfd Hx];
    rewrite (handle_entry _ _ _ Hx); simpl.
  - specialize (Hacc Hud). rewrite cqe_fds_accept in Hseen by done.
    assert (Hin : cqe_res c ∈ k_conns (rs_kern s)).
    { destruct (advance_frame 1 (rs_kern s)) as (_ & Hc & _). rewrite <- Hc.
      destruct Hseen as [_ _ _ _ _ _ Hp]. simpl in Hp.
      assert (Hin : cqe_res c ∈ lfd :: k_conns (k_cq_advance 1 (rs_kern s))).
      { rewrite <- Hp. apply elem_of_app. right. set_solver. }
      apply elem_of_cons in Hin as [?|?]; [|done]. by destruct Hr as [?|[_ ?]]; [lia|]. }
    apply bind_no_ub; [done|]. intros [] s1 [= <-]. apply bind_no_ub.
    { apply register_conn_no_ub. simpl. rewrite Ho. intros Hon. specialize (Hreg Hon).
      eapply Forall_forall in Hreg; [|exact Hin]. simpl in Hreg. lia. }
    intros [] s2 H2. pose proof (v1_hold_register _ _ _ _ _ _ _ Hseen H2) as Hh.
    apply v1_register_frame in H2 as (_ & E2 & _ & E3). unfold same_conns in E3.
    assert (Hb2 : bounded s2) by (unfold bounded in *; by rewrite E2, E3).
    destruct (hold_accept_total _ _ _ Hh Hb2) as [e He]; [by rewrite E2|].
    rewrite (bind_ok _ _ _ _ _ He).
    pose proof (v1_hold_accept lfd o Hlfd _ _ _ _ Hh He) as Hh2.
    destruct (hold_read_total _ _ _ _ (msg_len (opt (rs_mem s))) Hh2) as [e' ->]; [by apply bounded_queued| |done].
    simpl. by rewrite length_insert, E2.
  - rewrite cqe_fds_conn, Hud in Hseen by congruence. rewrite fd_i32 by done.
    assert (Hw : workload s = Ok tt (put_mem (set_workcount (workcount (rs_mem s) + 1000) (rs_mem s)) s)).
    { unfold workload. mred. simpl. by rewrite (proj2 (Z.ltb_lt _ _) Hwork). }
    rewrite (bind_ok _ _ _ _ _ Hw). apply bind_no_ub; [done|]. intros [] s1 [= <-].
    destruct (cqe_res c <=? 0).
    + apply bind_no_ub; unfold shutdown; [by destruct (k_shutdown _ _ _)|]. intros r s2 _.
      apply bind_no_ub; unfold close; [by destruct (k_close _ _)|done].
    + match goal with |- no_ub (_ ?t) => assert (Hh : holding lfd o t rest [fd]) end.
      { by apply (hold_mem _ _ _ _ _ (put_kern (k_cq_advance 1 (rs_kern s)) s)); [|done|apply Hi]. }
      by destruct (hold_write_total _ _ _ _ (cqe_res c) Hh Hb1 Hlen) as [e ->].
  - rewrite cqe_fds_conn, Hud in Hseen by congruence. rewrite fd_i32 by done.
    apply bind_no_ub; [done|]. intros [] s1 [= <-].
    by destruct (hold_read_total _ _ _ _ (msg_len (opt (rs_mem s))) Hseen Hb1 Hlen) as [e ->].
Qed.

(** ** Registration *)

(** Row [i] of [registered_files] is taken. *)
Definition reg_of (s : st) : list Z := registered_files (rs_mem s).

Definition registered (i : Z) (s : st) : Prop :=
  exists v, index (reg_of s) i = Some v /\ v <> -1.

Lemma get_sqe_reg : preserving reg_of (io_uring_get_sqe (K := K)).
Proof. intros s a s'. unfold io_uring_get_sqe. by destruct (lib_get_sqe _); intros [= _ <-]. Qed.
Lemma sqe_update_reg p f : preserving reg_of (sqe_update (K := K) p f).
Proof. intros s a s'. unfold sqe_update. by repeat case_match; intros [= _ <-]. Qed.
Lemma set_conn_reg fd type : preserving reg_of (set_conn fd type).
Proof. intros s x s'. rewrite v1_set_conn_spec. by destruct (index _ _); intros [= _ <-]. Qed.
Lemma cqe_seen_reg : preserving reg_of io_uring_cqe_seen.
Proof. by intros s x s' [= _ <-]. Qed.
Lemma close_reg fd : preserving reg_of (close fd).
Proof. intros s x s'. unfold close. by destruct (k_close _ _); intros [= _ <-]. Qed.
Lemma shutdown_reg fd how : preserving reg_of (shutdown fd how).
Proof. intros s x s'. unfold shutdown. by destruct (k_shutdown _ _ _); intros [= _ <-]. Qed.
Lemma workload_reg : preserving reg_of workload.
Proof. intros s x s'. unfold workload. mred. simpl. by destruct (_ <? _); intros [= _ <-]. Qed.

#[local] Hint Resolve get_sqe_reg sqe_update_reg set_conn_reg cqe_seen_reg
  close_reg shutdown_reg workload_reg : frame.

Lemma builders_reg fd size :
  preserving reg_of (add_accept fd AClientAddr AClientLen 0) /\
  preserving reg_of (add_socket_read fd size 0) /\ preserving reg_of (add_socket_write fd size 0).
Proof.
  unfold add_accept, add_socket_read, add_socket_write, fixed_file, io_uring_prep,
    io_uring_sqe_set_flags, set_user_data. split_and!; auto 20 with frame.
Qed.

Lemma register_conn_reg i fd (s s' : st) :
  register_conn fd s = Ok tt s' -> registered i s -> registered i s'.
Proof.
  intros Hrun. destruct (register_conn_cases _ _ _ _ _ _ Hrun) as [->|(Hw & k & _ & ->)]; [done|]. intros (v & Hv & Hne). unfold reg_of in Hv.
  exists v. split; [|done]. unfold reg_of; simpl. pose proof (index_Some _ _ _ Hw) as Hpos.
  rewrite index_insert_ne; [done|congruence|lia].
Qed.

Lemma handle_registered i c (s s' : st) :
  handle_cqe lfd c s = Ok tt s' -> registered i s -> registered i s'.
Proof.
  assert (Hkeep : forall m : M st unit, preserving reg_of m -> forall t t',
    m t = Ok tt t' -> registered i t -> registered i t').
  { intros m Hm t t' Hrun. unfold registered. by rewrite (Hm _ _ _ Hrun). }
  destruct (index (conns (rs_mem s)) (cqe_user_data c)) as [x|] eqn:Hx; last first.
  { unfold handle_cqe. by intros (u & s1 & Hu & _)%bind_inv_ok; rewrite load_spec, Hx in Hu. }
  rewrite (handle_entry _ _ _ Hx). destruct (type x =? ACCEPT).
  - intros (? & s1 & H1 & Hrun)%bind_inv_ok Hr. injection H1 as <- <-.
    apply bind_inv_ok in Hrun as ([] & s2 & H2 & Hrun).
    apply (register_conn_reg i) in H2; [|done]. revert Hrun H2. apply Hkeep.
    destruct (builders_reg lfd 0) as [? _], (builders_reg (cqe_res c) (msg_len (opt (rs_mem s)))) as (_ & ? & _).
    auto with frame.
  - apply Hkeep. destruct (builders_reg (to_i32 (fd x)) (msg_len (opt (rs_mem s)))) as (_ & ? & _),
      (builders_reg (to_i32 (fd x)) (cqe_res c)) as (_ & _ & ?). auto 10 with frame.
Qed.

Lemma start_reg (s s' : st) cqes : turn_start s = Ok cqes s' -> reg_of s' = reg_of s.
Proof.
  intros (ret & s1 & H1 & Hrun)%bind_inv_ok. unfold io_uring_submit_and_wait in H1.
  destruct (k_submit _ _ _) as [[r n] k]. injection H1 as _ <-.
  destruct (ret <? 0); [done|]. by apply peek_batch_inv in Hrun as [_ ->].
Qed.

(** Once taken, a row stays taken. *)
Lemma registered_forever i x y (s s' : st) :
  rtc (bstep turn_start (handle_cqe lfd) turn_end) x y -> in_state x s -> in_state y s' ->
  registered i s -> registered i s'.
Proof.
  intros Hr. revert s. induction Hr as [x|x x1 y Hxy Hr IH]; intros s Hs Hs' Hreg.
  { assert (s = s') as <-; [|done]. destruct Hs as [->|(? & ? & ->)], Hs' as [[=]|(? & ? & [=])]; done. }
  assert (Hstep : (exists s1, in_state x1 s1 /\ registered i s1) \/ (forall t, ~ in_state x1 t)).
  { destruct Hxy as [t k' _|t n rest k' _|t|t n c rest|t n];
      destruct Hs as [[=]|(n' & rest' & [=])]; subst.
    - left. eexists. split; [by left|done].
    - left. eexists. split; [right; eauto|done].
    - destruct (turn_start s) as [cqes s1| |] eqn:E; simpl; [left|right; by intros ? [[=]|(? & ? & [=])]..].
      exists s1. split; [right; eauto|]. unfold registered. by rewrite (start_reg _ _ _ E).
    - destruct (handle_cqe lfd c s) as [[] s1| |] eqn:E; simpl;
        [left|right; by intros ? [[=]|(? & ? & [=])]..].
      exists s1. split; [right; eauto|by eapply handle_registered].
    - left. eexists. split; [by left|done]. }
  destruct Hstep as [(s1 & Hs1 & Hreg1)|Hdead]; [by eapply IH|].
  destruct Hr as [|x1 x2 y Hx12 _]; [by destruct (Hdead s')|].
  destruct Hx12; exfalso; eapply Hdead; (by left) || (right; eauto).
Qed.

End v1_lemmas.

Section v1_theorems.
Context {K : Type} `{!Liburing address Z} `{!Kernel address Z K} `{!Setup K} `{!Register K}.
Context {entries : nat} `{!LiburingOk address Z entries} `{!KernelOk address Z K}.
Context `{!SetupOk address Z K} `{!RegisterOk address Z K}.
Context (lfd : Z) (o : options) `{!SocketsOk (K := K) lfd}.

Local Abbreviation st := (rstate address Z K globals).

(** The invariant in any state of a run. *)
Lemma reachable_inv s0 x s :
  is_fd lfd -> loop_entry lfd o s0 -> v1_reachable lfd s0 x -> in_state x s -> v1_inv lfd o s [].
Proof.
  intros Hfd He Hr Hs. pose proof (v1_reachable_inv lfd o Hfd _ _ He Hr) as Hi.
  destruct Hs as [->|(n & rest & ->)]; simpl in Hi; [done|]. by eapply v1_inv_weaken.
Qed.

(** The table entry that tells what an operation is. *)
Definition op_entry (op : io_op address) : option conn_info :=
  match op with
  | OpAccept fd _ _ _ => Some (ConnInfo fd ACCEPT)
  | OpRecv fd _ _ _ => Some (ConnInfo fd READ)
  | OpSend fd _ _ _ => Some (ConnInfo fd WRITE)
  | _ => None
  end.

(** The buffer an operation works on, and how many bytes of it. *)
Definition op_buffer (op : io_op address) : option (address * Z) :=
  match op with
  | OpRecv _ b n _ | OpSend _ b n _ => Some (b, n)
  | _ => None
  end.

(** C16: at every moment of every run, whatever the kernel does, the
    descriptors with an outstanding request (queued, in flight, or completed
    and not yet handled) are exactly the listening socket and the open
    connections, each exactly once: no connection is forgotten, none has two
    requests at a time, and one accept is always pending. *)
Theorem v1_one_request_each s0 x s :
  is_fd lfd -> loop_entry lfd o s0 -> v1_reachable lfd s0 x -> in_state x s ->
  pending lfd s ≡ₚ lfd :: k_conns (rs_kern s) /\ NoDup (pending lfd s).
Proof.
  intros Hfd He Hr Hs. destruct (reachable_inv _ _ _ Hfd He Hr Hs) as [_ _ _ _ _ Hn Hp].
  rewrite app_nil_r in Hp. split; [done|by rewrite Hp].
Qed.

(** C17: the shared table is never stale.  For every outstanding request, the
    entry of [conns] its user data points to holds the request's own
    descriptor and operation, although entries are overwritten by every
    builder call; so the handler always decodes a completion as what it is. *)
Theorem v1_table_truthful s0 x s e :
  is_fd lfd -> loop_entry lfd o s0 -> v1_reachable lfd s0 x -> in_state x s ->
  e ∈ rs_sq s ++ k_inflight (rs_kern s) ->
  is_Some (op_entry (sqe_op e)) /\ index (conns (rs_mem s)) (sqe_user_data e) = op_entry (sqe_op e).
Proof.
  intros Hfd He Hr Hs Hin. destruct (reachable_inv _ _ _ Hfd He Hr Hs) as [_ _ H3 H4 _ _ _].
  assert (Hd : described lfd o (index (conns (rs_mem s)) (sqe_user_data e)) e).
  { apply elem_of_app in Hin as [Hin|Hin]; [eapply Forall_forall in H3|eapply Forall_forall in H4]; eauto. }
  destruct Hd as [_ -> ->|fd _ _ _ -> ->|fd n _ _ _ -> -> _]; eauto.
Qed.

(** C18: no two requests the kernel may be working on share a buffer, and
    none reaches beyond the [msg_len] bytes allocated for it: the data a
    client is being sent cannot be overwritten by another receive. *)
Theorem v1_buffer_exclusive s0 x s i j e e' b n n' :
  is_fd lfd -> loop_entry lfd o s0 -> v1_reachable lfd s0 x -> in_state x s ->
  (rs_sq s ++ k_inflight (rs_kern s)) !! i = Some e ->
  (rs_sq s ++ k_inflight (rs_kern s)) !! j = Some e' ->
  op_buffer (sqe_op e) = Some (b, n) -> op_buffer (sqe_op e') = Some (b, n') ->
  i = j /\ n <= to_u32 (msg_len o).
Proof.
  intros Hfd He Hr Hs Hi Hj Hb Hb'. destruct (reachable_inv _ _ _ Hfd He Hr Hs) as [_ _ H3 H4 _ Hn Hp].
  assert (Hall : Forall (fun e => described lfd o (index (conns (rs_mem s)) (sqe_user_data e)) e)
    (rs_sq s ++ k_inflight (rs_kern s))) by (apply Forall_app; split; [exact H3|exact H4]).
  assert (Huse : forall e b n, e ∈ rs_sq s ++ k_inflight (rs_kern s) ->
    op_buffer (sqe_op e) = Some (b, n) -> b = ABuf (sqe_user_data e) /\ n <= to_u32 (msg_len o)).
  { intros e1 b1 n1 Hin Hb1. eapply Forall_forall in Hall; [|exact Hin].
    destruct Hall as [_ _ Hop|fd Hu _ _ _ Hop|fd m Hu _ _ _ Hop Hm]; rewrite Hop in Hb1; [done| |];
      injection Hb1 as <- <-; rewrite Hu; split; done || lia. }
  destruct (Huse e b n) as [-> Hlen]; [by eapply list_elem_of_lookup_2|done|].
  destruct (Huse e' (ABuf (sqe_user_data e)) n') as [[= Hsame] _]; [by eapply list_elem_of_lookup_2|done|].
  split; [|done]. rewrite <- Hp in Hn. unfold EchoV1Inv.pending, TableInv.pending in Hn.
  rewrite app_nil_r, app_assoc, <- fmap_app in Hn. apply NoDup_app in Hn as [Hn _].
  eapply NoDup_lookup; [exact Hn|..]; rewrite list_lookup_fmap; [by rewrite Hi|]. rewrite Hj; simpl. by rewrite Hsame.
Qed.

(** C19: the handler does not fault.  As long as every open descriptor has a
    row in the tables (and, with [-f], in [registered_files]), the tables are
    no longer than the ring, a new connection was accepted successfully and
    the work counter has not run out, handling a completion of the batch in
    any reachable state has no undefined behaviour: the submission queue has
    an entry left and every index is in range. *)
Theorem v1_handler_safe s0 s n c rest :
  is_fd lfd -> loop_entry lfd o s0 -> v1_reachable lfd s0 (Batch s n (c :: rest)) ->
  bounded lfd s -> (length (conns (rs_mem s)) <= entries)%nat ->
  (registerfiles o = true ->
     Forall (fun fd => fd < Z.of_nat (length (registered_files (rs_mem s)))) (k_conns (rs_kern s))) ->
  (cqe_user_data c = lfd -> 0 <= cqe_res c) -> workcount (rs_mem s) + 1000 < 2 ^ 31 ->
  no_ub (handle_cqe lfd c s).
Proof.
  intros Hfd He Hr. apply (v1_handle_no_ub lfd o Hfd c s rest).
  exact (v1_reachable_inv lfd o Hfd _ _ He Hr).
Qed.

(** C20: What was received is sent back.  When a receive of [n > 0] bytes on a
    connection is handled, exactly one request is queued: a send of the first
    [n] bytes of that connection's buffer on that connection; the completion
    is consumed and the table entry switches to WRITE. *)
Theorem v1_read_is_echoed s0 s m c rest :
  is_fd lfd -> loop_entry lfd o s0 -> v1_reachable lfd s0 (Batch s m (c :: rest)) ->
  bounded lfd s -> (length (conns (rs_mem s)) <= entries)%nat ->
  workcount (rs_mem s) + 1000 < 2 ^ 31 ->
  index (conns (rs_mem s)) (cqe_user_data c) = Some (ConnInfo (cqe_user_data c) READ) ->
  0 < cqe_res c ->
  exists e s', handle_cqe lfd c s = Ok tt s' /\
    rs_sq s' = rs_sq s ++ [e] /\ rs_kern s' = k_cq_advance 1 (rs_kern s) /\
    sqe_op e = OpSend (cqe_user_data c) (ABuf (cqe_user_data c)) (cqe_res c) 0 /\
    sqe_user_data e = cqe_user_data c /\
    index (conns (rs_mem s')) (cqe_user_data c) = Some (ConnInfo (cqe_user_data c) WRITE).
Proof.
  intros Hfd He Hr Hb Hlen Hwork Hx Hres.
  pose proof (v1_reachable_inv lfd o Hfd _ _ He Hr) as Hi. simpl in Hi.
  pose proof (v1_hold_seen _ _ _ _ _ Hi) as Hseen.
  destruct (head_answered _ _ _ _ _ _ _ _ _ _ Hi) as [Hud Hx' _|fd Hud Hne Hc Hx' Hi32 _|fd Hud Hne Hc Hx'];
    rewrite Hx in Hx'; try discriminate Hx'.
  rewrite cqe_fds_conn, Hud in Hseen by congruence. rewrite (handle_entry _ _ _ _ Hx), Hud; simpl.
  assert (Hw : workload s = Ok tt (put_mem (set_workcount (workcount (rs_mem s) + 1000) (rs_mem s)) s)).
  { unfold workload. mred. simpl. by rewrite (proj2 (Z.ltb_lt _ _) Hwork). }
  rewrite (bind_ok _ _ _ _ _ Hw), fd_i32, (proj2 (Z.leb_gt _ _) Hres) by done.
  set (s1 := put_kern (k_cq_advance 1 (rs_kern s)) (put_mem (set_workcount (workcount (rs_mem s) + 1000) (rs_mem s)) s)).
  assert (Hh : holding lfd o s1 rest [fd]) by by apply (hold_mem _ _ _ _ _ (put_kern (k_cq_advance 1 (rs_kern s)) s)); [|done|apply Hi].
  destruct (hold_write_total lfd o s1 rest fd [] (cqe_res c) Hh (bounded_advance _ _ 1 Hb) Hlen) as [e He'].
  do 2 eexists. split; [exact He'|]. split; [reflexivity|]. split; [done|]. unfold is_i32 in Hi32.
  assert (Hu : to_u32 (cqe_res c) = cqe_res c) by (apply Z.mod_small; lia).
  rewrite v1_built_op, Hu. split_and!; [done..|]. simpl.
  rewrite Hud in Hx. rewrite (index_insert_eq _ _ _ _ Hx), fd_u32 by done. done.
Qed.

(** An accept that fails (out of descriptors, connection aborted, ...)
    brings the server down: the negative result is used as an index into
    [registered_files] or [conns] and [bufs], in every reachable state. *)
Theorem v1_accept_error_crashes s0 s n c rest :
  is_fd lfd -> loop_entry lfd o s0 -> v1_reachable lfd s0 (Batch s n (c :: rest)) ->
  cqe_user_data c = lfd -> cqe_res c < 0 ->
  exists t, handle_cqe lfd c s = Ub t.
Proof.
  intros Hfd He Hr Hud Hneg. pose proof (v1_reachable_inv lfd o Hfd _ _ He Hr) as Hi. simpl in Hi.
  pose proof (v1_hold_seen _ _ _ _ _ Hi) as Hh.
  unfold cqe_fds in Hh. rewrite (proj2 (Z.leb_gt _ _) Hneg), andb_false_r, Hud in Hh.
  pose proof (head_answered _ _ _ _ _ _ _ _ _ _ Hi) as Ha. rewrite Hud in Ha.
  assert (Hx : index (conns (rs_mem s)) (cqe_user_data c) = Some (ConnInfo lfd ACCEPT)).
  { rewrite Hud. by destruct Ha as [_ ? _|fd ? ?|fd ? ?]; [|congruence..]. }
  rewrite (handle_entry _ _ _ _ Hx); simpl.
  set (s1 := put_kern (k_cq_advance 1 (rs_kern s)) s).
  rewrite (bind_ok _ _ s tt s1) by done.
  assert (Hneg' : forall X (l : list X), index l (cqe_res c) = None).
  { intros X l. unfold index. by rewrite (proj2 (Z.leb_gt _ _) Hneg). }
  destruct (registerfiles (opt (rs_mem s1))) eqn:Hreg.
  - exists s1. apply bind_ub. unfold register_conn, Registration.register_conn. mred. simpl in *. rewrite Hreg.
    unfold load. mred. simpl. by rewrite Hneg'.
  - assert (Hnone : register_conn (cqe_res c) s1 = Ok tt s1) by (unfold register_conn, Registration.register_conn; mred; simpl in *; by rewrite Hreg).
    rewrite (bind_ok _ _ _ _ _ Hnone).
    destruct (v1_add_accept_spec o lfd s1) as [t Ht]; [apply Hh|].
    unfold mbind, M_bind. rewrite Ht. destruct (lib_get_sqe _) as [e|]; [|eauto].
    destruct (index (conns (rs_mem s1)) lfd); [|eauto].
    match goal with |- exists _, add_socket_read ?f ?sz 0 ?u = _ =>
      destruct (v1_add_socket_read_spec o f sz u) as [t' Ht'] end.
    { apply tables_ok_queued, Hh. }
    rewrite Ht', Hneg'. destruct (lib_get_sqe _); eauto.
Qed.

(** With [-f] every entry carries the fixed-file flag. *)
Lemma v1_built_fixed op fd e :
  registerfiles o = true -> sqe_flags (built o op 0 fd e) = IOSQE_FIXED_FILE.
Proof. intros Hf. unfold built; simpl. rewrite Hf; simpl. by rewrite set_flags_flags. Qed.

(** C21: with [-f], a descriptor is entered in the ring's table of registered
    files only the first time it is accepted.  Rows of [registered_files] are
    never cleared, not even when the connection is closed.  So when a
    descriptor that is in the table comes back for a new connection, the
    handler makes no call that could update the ring's table, the kernel only
    seeing the completion consumed; and still it queues a receive whose
    descriptor is flagged [IOSQE_FIXED_FILE], that is, an index into that
    table. *)
Theorem v1_stale_registration s0 x s s' n c rest t :
  is_fd lfd -> loop_entry lfd o s0 -> registerfiles o = true ->
  v1_reachable lfd s0 x -> in_state x s -> registered (cqe_res c) s ->
  rtc (bstep turn_start (handle_cqe lfd) turn_end) x (Batch s' n (c :: rest)) ->
  index (conns (rs_mem s')) (cqe_user_data c) = Some (ConnInfo lfd ACCEPT) ->
  handle_cqe lfd c s' = Ok tt t ->
  registered (cqe_res c) s' /\ rs_kern t = k_cq_advance 1 (rs_kern s') /\
  exists a r, rs_sq t = rs_sq s' ++ [a; r] /\
    sqe_op r = OpRecv (cqe_res c) (ABuf (cqe_res c)) (to_u32 (msg_len o)) 0 /\
    sqe_flags r = IOSQE_FIXED_FILE.
Proof.
  intros Hlfd He Hf Hx0 Hs Hreg Hr Hx Hrun.
  assert (Hreg' : registered (cqe_res c) s').
  { eapply (registered_forever lfd); [exact Hr|exact Hs|right; eauto|done]. }
  assert (Hi : v1_inv lfd o s' []).
  { eapply reachable_inv; [done|exact He|unfold v1_reachable, breachable in *; etrans; [exact Hx0|exact Hr]|right; eauto]. }
  split; [done|]. destruct Hreg' as (v & Hv & Hne). unfold reg_of in Hv.
  rewrite (handle_entry _ _ _ _ Hx) in Hrun; simpl in Hrun.
  apply bind_inv_ok in Hrun as (? & s1 & H1 & Hrun). injection H1 as <- <-.
  assert (Ho : opt (rs_mem s') = o) by apply Hi.
  set (s1 := put_kern (k_cq_advance 1 (rs_kern s')) s') in *.
  rewrite (bind_ok _ _ s1 tt s1) in Hrun.
  2: { unfold register_conn, Registration.register_conn. mred. simpl. rewrite Ho, Hf.
       rewrite load_spec. simpl. rewrite Hv. by rewrite (proj2 (Z.eqb_neq _ _) Hne). }
  assert (Ht1 : tables_ok o (rs_mem s1)) by apply Hi.
  apply bind_inv_ok in Hrun as ([] & s2 & H2 & Hrun).
  destruct (v1_add_accept_spec o lfd s1 Ho) as [t2 Ht2]. rewrite Ht2 in H2.
  destruct (lib_get_sqe (rs_sq s1)) as [e1|]; [|done]. destruct (index _ lfd); [|done]. injection H2 as <-.
  match type of Hrun with add_socket_read ?f ?sz 0 ?u = _ =>
    destruct (v1_add_socket_read_spec o f sz u) as [t3 Ht3]; [by apply tables_ok_queued|] end.
  rewrite Ht3 in Hrun. clear Ht2 Ht3.
  destruct (lib_get_sqe _) as [e2|]; [|done]. destruct (index (conns _) (cqe_res c)); [|done].
  injection Hrun as <-. split; [done|]. eexists _, _. split_and!; [cbn; by rewrite <- app_assoc| |].
  - by rewrite v1_built_op, Ho.
  - by apply v1_built_fixed.
Qed.

(** The simulated work ends the server: every receive adds 1000 to the
    [int] counter [workcount], and once it is within 1000 of its maximum the
    next receive overflows it, which is undefined. *)
Theorem v1_workload_overflows s c x :
  index (conns (rs_mem s)) (cqe_user_data c) = Some x -> type x = READ ->
  2 ^ 31 - 1000 <= workcount (rs_mem s) ->
  handle_cqe lfd c s = Ub s.
Proof.
  intros Hx Ht Hw. rewrite (handle_entry _ _ _ _ Hx), Ht; simpl. apply bind_ub.
  unfold workload. mred. simpl. by rewrite (proj2 (Z.ltb_ge _ _)) by lia.
Qed.

End v1_theorems.

(** ** Concrete runs *)
Module V1Demo.

Definition blank : sqe address Z := Sqe (OpPollAdd 0 0) 0 0 0 0.
Definition lfd : Z := 3.

Lemma lfd_ok : is_fd lfd.
Proof. unfold is_fd, lfd. lia. Qed.

(** Accepted descriptors are not the listening one; receives fit. *)
Definition sane (e : sqe address Z) (c : cqe Z) : Prop :=
  match sqe_op e with
  | OpAccept _ _ _ _ => cqe_res c <> lfd
  | OpRecv _ _ n _ => cqe_res c <= n
  | _ => True
  end.

#[global] Instance sane_dec e c : Decision (sane e c).
Proof. unfold sane. destruct (sqe_op e); apply _. Defined.

(** When the server waits: the first client connects as descriptor 5, later
    the request after the accept completes with 100 bytes. *)
Definition answer (k : ref_kernel address Z) : nat * Z * Z :=
  match rk_conns k with [] => (0%nat, 5, 0) | _ => (1%nat, 100, 0) end.

#[global] Instance lib : Liburing address Z := ref_liburing 64 blank.
#[global] Instance lib_ok : LiburingOk address Z 64 := ref_liburing_ok 64 blank.
#[global] Instance kern : Kernel address Z (ref_kernel address Z) := waiting_kernel_ops sane answer.
#[global] Instance kern_ok : KernelOk address Z (ref_kernel address Z) := waiting_kernel_ok sane answer.
#[global] Instance setup : Setup (ref_kernel address Z) := ref_setup lfd.
#[global] Instance setup_ok : SetupOk address Z (ref_kernel address Z) := ref_setup_ok lfd.
#[global] Instance reg : Register (ref_kernel address Z) := ref_register 32.
#[global] Instance reg_ok : RegisterOk address Z (ref_kernel address Z) := ref_register_ok 32 ltac:(lia).

#[global] Instance sockets_ok : SocketsOk (K := ref_kernel address Z) lfd.
Proof.
  split; intros k k' e c.
  - intros fd a l fl (e' & c' & Hp & Hs) Hp' Hop.
    destruct (posts_functional _ _ _ _ _ _ Hp' Hp) as [-> ->]. unfold sane in Hs. by rewrite Hop in Hs.
  - intros fd b n fl (e' & c' & Hp & Hs) Hp' Hop _.
    destruct (posts_functional _ _ _ _ _ _ Hp' Hp) as [-> ->]. unfold sane in Hs. by rewrite Hop in Hs.
Defined.

Lemma v1_demo_post i res flags k k' : ref_post sane i res flags k = Some k' -> k_post k k'.
Proof. apply ref_post_posts. Qed.

(** Tables of eight rows, with or without registered files. *)
Definition options_of (f : bool) : options := Options 8884 f 8 2046.
Definition globals_of (f : bool) : globals :=
  Globals (options_of f) (<[3%nat := ConnInfo lfd ACCEPT]> (replicate 8 (ConnInfo 0 0)))
    (ABuf <$> seqZ 0 8) (if f then <[3%nat := 3]> (replicate 32 (-1)) else []) 0.

Definition s0 (f : bool) : rstate address Z (ref_kernel address Z) globals :=
  RState [built (options_of f) (OpAccept lfd AClientAddr AClientLen 0) 0 lfd blank]
    (RefK [] [] (fun _ => []) []) (globals_of f).

Lemma v1_s0_entry f : loop_entry lfd (options_of f) (s0 f).
Proof.
  split; [by destruct f| |done..]. eexists. split; [done|]. split; [|done].
  destruct f; by apply described_accept.
Qed.

Definition demo_run (f : bool) (acts : list action) : bsys address Z (ref_kernel address Z) globals :=
  brun (ref_post sane) turn_start (handle_cqe lfd) turn_end acts (BTop (s0 f)).
Definition at_end (f : bool) (acts : list action) := bstate_of (s0 f) (demo_run f acts).

Lemma v1_demo_reachable f acts n rest :
  batch_of (demo_run f acts) = Some (n, rest) ->
  v1_reachable lfd (s0 f) (Batch (at_end f acts) n rest).
Proof. intros Hn. unfold at_end. rewrite <- (batch_of_eq _ _ _ _ Hn). apply (brun_steps (ref_post sane) _ _ _ v1_demo_post). Qed.

(** Descriptor 5 is accepted; it sends 100 bytes; another client is accepted
    as descriptor 6, or the accept fails with [-EMFILE]. *)
Definition accepted : list action := [Start].
Definition received : list action := [Start; Handle; End; Start].
Definition failed : list action := received ++ [Finish 0 (-24) 0; Handle; End; Start].
Definition two_clients : list action :=
  received ++ [Finish 0 6 0; Handle; End; Start; Finish 0 100 0; Handle; End; Start].

(** The second client leaves and a third one gets its descriptor. *)
Definition reused : list action :=
  two_clients ++ [Finish 1 0 0; Handle; End; Start; Handle; Finish 0 6 0; End; Start].

End V1Demo.

Lemma v1_one_request_each_witness :
  let s := V1Demo.at_end false V1Demo.two_clients in
  pending V1Demo.lfd s ≡ₚ V1Demo.lfd :: k_conns (rs_kern s) /\ NoDup (pending V1Demo.lfd s).
Proof.
  intros s. apply (v1_one_request_each V1Demo.lfd (V1Demo.options_of false) (V1Demo.s0 false)
    (V1Demo.demo_run false V1Demo.two_clients) s).
  - apply V1Demo.lfd_ok.
  - apply V1Demo.v1_s0_entry.
  - apply (brun_steps (ref_post V1Demo.sane) _ _ _ V1Demo.v1_demo_post).
  - right. exists 0%nat, [Cqe 5 100 0]. vm_compute. reflexivity.
Defined.

Lemma v1_table_truthful_witness :
  let s := V1Demo.at_end false V1Demo.two_clients in
  index (conns (rs_mem s)) 6 = Some (ConnInfo 6 READ).
Proof.
  intros s.
  destruct (k_inflight (rs_kern s)) as [|e1 [|e2 l]] eqn:Hq; [by vm_compute in Hq..|].
  destruct (v1_table_truthful V1Demo.lfd (V1Demo.options_of false) (V1Demo.s0 false)
    (V1Demo.demo_run false V1Demo.two_clients) s e2) as [_ Ht].
  - apply V1Demo.lfd_ok.
  - apply V1Demo.v1_s0_entry.
  - apply (brun_steps (ref_post V1Demo.sane) _ _ _ V1Demo.v1_demo_post).
  - right. exists 0%nat, [Cqe 5 100 0]. vm_compute. reflexivity.
  - apply elem_of_app. right. rewrite Hq. right. left.
  - vm_compute in Hq. injection Hq as <- <- <-. exact Ht.
Defined.

Lemma v1_buffer_exclusive_witness :
  let s := V1Demo.at_end false V1Demo.two_clients in
  exists e, (rs_sq s ++ k_inflight (rs_kern s)) !! 1%nat = Some e /\
    op_buffer (sqe_op e) = Some (ABuf 6, 2046) /\
    1%nat = 1%nat /\ 2046 <= to_u32 2046.
Proof.
  intros s. eexists. split; [vm_compute; reflexivity|]. split; [reflexivity|].
  eapply (v1_buffer_exclusive V1Demo.lfd (V1Demo.options_of false) (V1Demo.s0 false)
    (V1Demo.demo_run false V1Demo.two_clients) s 1 1 _ _ (ABuf 6) 2046 2046).
  - apply V1Demo.lfd_ok.
  - apply V1Demo.v1_s0_entry.
  - apply (brun_steps (ref_post V1Demo.sane) _ _ _ V1Demo.v1_demo_post).
  - right. exists 0%nat, [Cqe 5 100 0]. vm_compute. reflexivity.
  - vm_compute. reflexivity.
  - vm_compute. reflexivity.
  - reflexivity.
  - reflexivity.
Defined.

Lemma v1_handler_safe_witness :
  let s := V1Demo.at_end true V1Demo.two_clients in
  no_ub (handle_cqe V1Demo.lfd (Cqe 5 100 0) s).
Proof.
  intros s. eapply (v1_handler_safe (entries := 64) V1Demo.lfd (V1Demo.options_of true)
    (V1Demo.s0 true) s 0 (Cqe 5 100 0) []).
  - apply V1Demo.lfd_ok.
  - apply V1Demo.v1_s0_entry.
  - apply V1Demo.v1_demo_reachable. vm_compute. reflexivity.
  - change (Forall (fun fd => 0 <= fd < 8) [3; 6; 5]). repeat first [apply Forall_nil_2 | apply Forall_cons_2; [lia|]].
  - change (8 <= 64)%nat. lia.
  - intros _. change (Forall (fun fd => fd < 32) [6; 5]). repeat first [apply Forall_nil_2 | apply Forall_cons_2; [lia|]].
  - done.
  - vm_compute; reflexivity.
Defined.

Lemma v1_read_is_echoed_witness :
  let s := V1Demo.at_end false V1Demo.received in
  exists e s', handle_cqe V1Demo.lfd (Cqe 5 100 0) s = Ok tt s' /\
    rs_sq s' = rs_sq s ++ [e] /\ rs_kern s' = k_cq_advance 1 (rs_kern s) /\
    sqe_op e = OpSend 5 (ABuf 5) 100 0 /\ sqe_user_data e = 5 /\
    index (conns (rs_mem s')) 5 = Some (ConnInfo 5 WRITE).
Proof.
  intros s. eapply (v1_read_is_echoed (entries := 64) V1Demo.lfd (V1Demo.options_of false)
    (V1Demo.s0 false) s 0 (Cqe 5 100 0) []).
  - apply V1Demo.lfd_ok.
  - apply V1Demo.v1_s0_entry.
  - apply V1Demo.v1_demo_reachable. vm_compute. reflexivity.
  - change (Forall (fun fd => 0 <= fd < 8) [3; 5]). repeat first [apply Forall_nil_2 | apply Forall_cons_2; [lia|]].
  - change (8 <= 64)%nat. lia.
  - vm_compute; reflexivity.
  - vm_compute; reflexivity.
  - vm_compute; reflexivity.
Defined.

Lemma v1_accept_error_crashes_witness :
  let s := V1Demo.at_end false V1Demo.failed in
  exists t, handle_cqe V1Demo.lfd (Cqe 3 (-24) 0) s = Ub t.
Proof.
  intros s. eapply (v1_accept_error_crashes V1Demo.lfd (V1Demo.options_of false)
    (V1Demo.s0 false) s 0 (Cqe 3 (-24) 0) []).
  - apply V1Demo.lfd_ok.
  - apply V1Demo.v1_s0_entry.
  - apply V1Demo.v1_demo_reachable. vm_compute. reflexivity.
  - reflexivity.
  - vm_compute; reflexivity.
Defined.

Lemma v1_stale_registration_witness :
  let s' := V1Demo.at_end true V1Demo.reused in
  let t := final (handle_cqe V1Demo.lfd (Cqe 3 6 0) s') in
  registered 6 s' /\ rs_kern t = k_cq_advance 1 (rs_kern s') /\
  exists a r, rs_sq t = rs_sq s' ++ [a; r] /\
    sqe_op r = OpRecv 6 (ABuf 6) (to_u32 2046) 0 /\ sqe_flags r = IOSQE_FIXED_FILE.
Proof.
  intros s' t. set (s := V1Demo.at_end true V1Demo.two_clients).
  refine (v1_stale_registration (entries := 64) V1Demo.lfd (V1Demo.options_of true) (V1Demo.s0 true)
    (V1Demo.demo_run true V1Demo.two_clients) s s' 0 (Cqe 3 6 0) [] t _ _ _ _ _ _ _ _ _).
  - apply V1Demo.lfd_ok.
  - apply V1Demo.v1_s0_entry.
  - reflexivity.
  - apply (brun_steps (ref_post V1Demo.sane) _ _ _ V1Demo.v1_demo_post).
  - right. exists 0%nat, [Cqe 5 100 0]. vm_compute. reflexivity.
  - exists 6. split; [by vm_compute|done].
  - assert (Heq : Batch s' 0 [Cqe 3 6 0] =
      brun (ref_post V1Demo.sane) turn_start (handle_cqe V1Demo.lfd) turn_end
        [Finish 1 0 0; Handle; End; Start; Handle; Finish 0 6 0; End; Start]
        (V1Demo.demo_run true V1Demo.two_clients)) by (vm_compute; reflexivity).
    rewrite Heq. apply (brun_steps (ref_post V1Demo.sane) _ _ _ V1Demo.v1_demo_post).
  - vm_compute; reflexivity.
  - vm_compute. reflexivity.
Defined.

Lemma v1_workload_overflows_witness :
  let s := put_mem (set_workcount (2 ^ 31 - 648) (rs_mem (V1Demo.at_end false V1Demo.received)))
    (V1Demo.at_end false V1Demo.received) in
  handle_cqe V1Demo.lfd (Cqe 5 100 0) s = Ub s.
Proof.
  intros s. apply (v1_workload_overflows V1Demo.lfd s (Cqe 5 100 0) (ConnInfo 5 READ)).
  - vm_compute; reflexivity.
  - reflexivity.
  - vm_compute. discriminate.
Defined.

Section v1_startup.
Context {K : Type} `{!Liburing address Z} `{!Kernel address Z K} `{!Setup K} `{!Register K}.
Context {entries : nat} `{!LiburingOk address Z entries} `{!KernelOk address Z K}.
Context `{!SetupOk address Z K} `{!RegisterOk address Z K}.

(** When start-up returns, the loop may run: the tables have the same
    number of rows, [max_connections] (the option plus 32), row [i] of [bufs]
    is the buffer allocated for it, one accept on the listening socket is
    queued with its table entry in place, and nothing is in flight.  This is
    the state from which the invariants above hold. *)
Theorem v1_startup_ready argv (s s' : rstate address Z K globals) lfd :
  pristine s -> startup argv s = Ok lfd s' -> is_fd lfd ->
  exists o, loop_entry lfd o s' /\ length (conns (rs_mem s')) = Z.to_nat (max_connections o).
Proof. apply startup_entry. Qed.

End v1_startup.

(** [./server -p 8884 -n 4 -f] *)
Lemma v1_startup_ready_witness :
  let argv := [chars "server"; chars "-p"; chars "8884"; chars "-n"; chars "4"; chars "-f"] in
  let s := RState [] (RefK [] [] (fun _ => []) []) (Globals default_options [] [] [] 0) in
  exists o, loop_entry V1Demo.lfd o (final (startup argv s)) /\
    length (conns (rs_mem (final (startup argv s)))) = Z.to_nat (max_connections o).
Proof.
  intros argv s. apply (v1_startup_ready argv s _ V1Demo.lfd).
  - by split.
  - vm_compute. reflexivity.
  - apply V1Demo.lfd_ok.
Defined.
