(* ===== verification/BufRing.v ===== *)
(** * Buffer rings

    io_uring_register_buf_ring(3), io_uring_buf_ring_add(3),
    io_uring_buf_ring_advance(3): a ring of slots in memory shared with the
    kernel, registered as a buffer group.  The program writes buffers into the
    slots behind the tail and then moves the tail, which makes them available;
    a slot that is passed without having been written offers whatever it held.
    Like the rest of the kernel the ring is a parameter; at the end there is an
    instance. *)

From S2P Require Import Prelude Uring RefKernel Setup.

(** One slot. *)
Record ring_buf (A : Type) : Type := RingBuf {
  rb_addr : A;
  rb_len : Z;
  rb_bid : Z
}.

Arguments RingBuf {A}.
Arguments rb_addr {A}.
Arguments rb_len {A}.
Arguments rb_bid {A}.

Class BufRing (A K : Type) : Type := {
  (** [posix_memalign(&ptr, align, size)]: whether it succeeded. *)
  k_posix_memalign : Z -> Z -> K -> bool * K;
  (** [io_uring_register_buf_ring]: entries and group. *)
  k_register_buf_ring : Z -> Z -> K -> Z * K;
  (** [io_uring_buf_ring_add(br, addr, len, bid, mask, offset)] *)
  k_buf_ring_add : A -> Z -> Z -> Z -> Z -> K -> K;
  k_buf_ring_advance : Z -> K -> K;
  (** The slot at a distance from the tail. *)
  k_slot : K -> Z -> ring_buf A
}.

(** The documented behaviour of a ring of [n] slots, a power of two, that
    serves group [g].  The identifier of a buffer has 16 bits; distances are
    taken modulo [n]; the tail may not overtake the buffers still available. *)
Class BufRingOk (A U K : Type) `{!KernelView A U K} `{!BufRing A K} (g n : Z) : Prop := {
  memalign_frame a m k : same_view k (k_posix_memalign a m k).2;
  register_ring_frame m g' k : let k' := (k_register_buf_ring m g' k).2 in
    k_inflight k' = k_inflight k /\ k_cq k' = k_cq k /\ same_conns k k';
  register_ring_empty k : (k_register_buf_ring n g k).1 = 0 -> k_group (k_register_buf_ring n g k).2 g = [];
  ring_add_frame a l b m off k : same_view k (k_buf_ring_add a l b m off k);
  ring_add_slot a l b off off' k :
    k_slot (k_buf_ring_add a l b (n - 1) off k) off' =
      if (off' - off) `mod` n =? 0 then RingBuf a l (to_u16 b) else k_slot k off';
  ring_advance_frame c k : let k' := k_buf_ring_advance c k in
    k_inflight k' = k_inflight k /\ k_cq k' = k_cq k /\ same_conns k k' /\
    forall g', g' <> g -> k_group k' g' = k_group k g';
  ring_advance_group c k :
    0 <= c -> Z.of_nat (length (k_group k g)) + c <= n ->
    k_group (k_buf_ring_advance c k) g = k_group k g ++ ((fun i => rb_bid (k_slot k i)) <$> seqZ 0 c)
}.

Section ring_programs.
Context {A U K Mem : Type} `{!Kernel A U K} `{!BufRing A K}.

Local Abbreviation st := (rstate A U K Mem).

Definition io_uring_buf_ring_add (addr : A) (len bid mask offset : Z) : M st unit :=
  modify (fun s => put_kern (k_buf_ring_add addr len bid mask offset (rs_kern s)) s).
Definition io_uring_buf_ring_advance (count : Z) : M st unit :=
  modify (fun s => put_kern (k_buf_ring_advance count (rs_kern s)) s).
Definition io_uring_buf_ring_mask (ring_entries : Z) : Z := ring_entries - 1.

End ring_programs.

(** ** A kernel with a buffer ring

    Any kernel extended by the slots, as a function of the distance from the
    tail. *)

Section ref_ring.
Context {A U K : Type} `{!Kernel A U K} (set_group : Z -> list Z -> K -> K).

Definition ring_kernel : Type := K * (Z -> ring_buf A).

Definition lift {R} (r : R * K) (slots : Z -> ring_buf A) : R * ring_kernel := (r.1, (r.2, slots)).

#[local] Instance ring_view : KernelView A U ring_kernel := {
  k_inflight := fun k => k_inflight k.1;
  k_cq := fun k => k_cq k.1;
  k_group := fun k => k_group k.1;
  k_conns := fun k => k_conns k.1
}.

Definition ring_kernel_ops : Kernel A U ring_kernel := {|
  kernel_view := ring_view;
  k_submit := fun q w k => lift (k_submit q w k.1) k.2;
  k_cq_advance := fun n k => (k_cq_advance n k.1, k.2);
  k_wait := fun k => lift (k_wait k.1) k.2;
  k_close := fun fd k => lift (k_close fd k.1) k.2;
  k_shutdown := fun fd how k => lift (k_shutdown fd how k.1) k.2;
  k_post := fun k k' => k_post k.1 k'.1 /\ k'.2 = k.2
|}.

Lemma ring_posts k k' e c (slots : Z -> ring_buf A) :
  posts k k' e c <-> posts (K := ring_kernel) (k, slots) (k', slots) e c.
Proof. done. Qed.

Lemma ring_rtc (slots : Z -> ring_buf A) k k' :
  rtc k_post k k' -> rtc (@k_post A U ring_kernel ring_kernel_ops) (k, slots) (k', slots).
Proof. induction 1 as [|k k1 k' Hk _ IH]; [done|]. by eapply rtc_l; [|exact IH]. Qed.

Lemma ring_kernel_ok : KernelOk A U K -> @KernelOk A U ring_kernel ring_kernel_ops.
Proof.
  intros [[H1 H2 H3 H4 H5 H6] H7]. split; [split|].
  - intros q w [k slots]. specialize (H1 q w k). simpl. destruct (k_submit q w k) as [[ret n] k'].
    simpl. destruct H1 as [(k1 & Hq & Hr) Hw]. split; [|done]. exists (k1, slots).
    split; [done|by apply ring_rtc].
  - intros n [k slots]. apply H2.
  - intros n [k slots]. apply H3.
  - intros [k slots]. specialize (H4 k). simpl. destruct (k_wait k) as [ret k']. simpl.
    destruct H4 as [Hr Hw]. split; [by apply ring_rtc|done].
  - intros fd [k slots]. specialize (H5 fd k). simpl. destruct (k_close fd k) as [ret k']. exact H5.
  - intros fd how [k slots]. specialize (H6 fd how k). simpl. destruct (k_shutdown fd how k) as [ret k']. exact H6.
  - intros [k slots] [k' slots'] [Hk Hs]. destruct (H7 _ _ Hk) as (e & c & Hp). by exists e, c.
Qed.

(** The tail moves: the slots it passes become available, the rest comes
    closer. *)
Definition ring_advance (g c : Z) (k : ring_kernel) : ring_kernel :=
  (set_group g (k_group k.1 g ++ ((fun i => rb_bid (k.2 i)) <$> seqZ 0 c)) k.1, fun i => k.2 (i + c)).

Definition ref_buf_ring (g n : Z) : BufRing A ring_kernel := {|
  k_posix_memalign := fun _ m k => (m <? 2 ^ 63, k);
  k_register_buf_ring := fun _ g' k => (0, (set_group g' [] k.1, k.2));
  k_buf_ring_add := fun a l b m off k =>
    (k.1, fun i => if (i - off) `mod` (m + 1) =? 0 then RingBuf a l (to_u16 b) else k.2 i);
  k_buf_ring_advance := ring_advance g;
  k_slot := fun k i => k.2 i
|}.

(** [set_group] replaces one group. *)
Definition sets_group : Prop := forall g l k,
  k_inflight (set_group g l k) = k_inflight k /\ k_cq (set_group g l k) = k_cq k /\
  same_conns k (set_group g l k) /\ k_group (set_group g l k) g = l /\
  forall g', g' <> g -> k_group (set_group g l k) g' = k_group k g'.

Lemma ref_buf_ring_ok g n : sets_group -> BufRingOk A U ring_kernel g n (BufRing0 := ref_buf_ring g n).
Proof.
  intros Hset. split; simpl; try done.
  - intros m g' [k slots]. destruct (Hset g' [] k) as (? & ? & ? & _). done.
  - intros [k slots] _. apply Hset.
  - intros a l b off off' [k slots]. simpl. by replace (n - 1 + 1) with n by lia.
  - intros c [k slots]. simpl. by destruct (Hset g (k_group k g ++ ((fun i => rb_bid (slots i)) <$> seqZ 0 c)) k)
      as (? & ? & ? & _ & ?).
  - intros c [k slots] _ _. apply Hset.
Qed.

End ref_ring.

Definition ref_set_group {A U} (g : Z) (l : list Z) (k : ref_kernel A U) : ref_kernel A U :=
  RefK (rk_inflight k) (rk_cq k) (put_group g l (rk_group k)) (rk_conns k).
