(* ===== verification/EchoV2.v ===== *)
(** * The buffer-ring echo server: [io_uring_echo_server_v2.c]

    One table of connections as in version 1, but the receives select their
    buffer from a ring of [nr_bufs] buffers that the server refills.  [workload]
    is never called in this version and is left out. *)

From S2P Require Import Prelude Uring Tables BatchLoop Libc Setup Options Registration BufRing.

Definition BACKLOG : Z := 8192.

Definition ACCEPT : Z := 0.
Definition POLL_LISTEN : Z := 1.
Definition POLL_NEW_CONNECTION : Z := 2.
Definition READ : Z := 3.
Definition WRITE : Z := 4.

Definition nr_bufs : Z := 1024.
Definition bgid : Z := 16.

(** NULL, the locals of [main], the blocks of the rows of [bufs], the row
    [bufs[i]] itself, and a byte of the pool [buf_ptr] points to. *)
Inductive address : Type :=
| ANull
| AClientAddr
| AClientLen
| ABlock (i : Z)
| ABufs (i : Z)
| APool (offset : Z).

Record conn_info : Type := ConnInfo {
  fd : Z;    (* unsigned *)
  type : Z;  (* unsigned *)
  multishot_recv : bool;
  buf : address
}.

(** The global variables, and the local [buf_added] of [main]'s loop. *)
Record globals : Type := Globals {
  opt : options;
  conns : list conn_info;
  bufs : list address;
  registered_files : list Z;
  buf_added : Z
}.

Definition set_opt (o : options) (g : globals) : globals :=
  Globals o (conns g) (bufs g) (registered_files g) (buf_added g).
Definition set_conns (l : list conn_info) (g : globals) : globals :=
  Globals (opt g) l (bufs g) (registered_files g) (buf_added g).
Definition set_bufs (l : list address) (g : globals) : globals :=
  Globals (opt g) (conns g) l (registered_files g) (buf_added g).
Definition set_registered (l : list Z) (g : globals) : globals :=
  Globals (opt g) (conns g) (bufs g) l (buf_added g).
Definition set_buf_added (n : Z) (g : globals) : globals :=
  Globals (opt g) (conns g) (bufs g) (registered_files g) n.

Section server.
Context {K : Type} `{!Liburing address Z} `{!Kernel address Z K} `{!Setup K} `{!Register K} `{!BufRing address K}.

(** A [struct conn_info *] into [conns] is its index. *)
Local Abbreviation st := (rstate address Z K globals).

(** [conn_i->fd = fd; conn_i->type = type]; the other fields stay. *)
Definition set_conn (fd type : Z) : M st unit :=
  x ← load conns fd;
  store conns set_conns fd (ConnInfo (to_u32 fd) type (multishot_recv x) (buf x)).

(** [conn_i->multishot_recv = true] *)
Definition set_multishot (fd : Z) : M st unit :=
  x ← load conns fd;
  store conns set_conns fd (ConnInfo (EchoV2.fd x) (type x) true (buf x)).

(** [if (registerfiles) sqe->flags |= IOSQE_FIXED_FILE] *)
Definition fixed_file (sqe : option nat) : M st unit :=
  o ← read_globals opt;
  if registerfiles o then sqe_update sqe (sqe_or_flags IOSQE_FIXED_FILE) else mret tt.

Definition add_accept (fd : Z) (client_addr client_len : address) (flags : Z) : M st unit :=
  sqe ← io_uring_get_sqe;
  io_uring_prep sqe (OpAccept fd client_addr client_len 0) ;;
  io_uring_sqe_set_flags sqe flags ;;
  fixed_file sqe ;;
  set_conn fd ACCEPT ;;
  set_user_data sqe fd.

(** [flags] is not used. *)
Definition add_socket_read (fd size flags : Z) : M st unit :=
  sqe ← io_uring_get_sqe;
  io_uring_prep sqe (OpRecv fd ANull (to_u32 size) 0) ;;
  sqe_update sqe (sqe_or_flags IOSQE_BUFFER_SELECT) ;;
  sqe_update sqe (sqe_put_buf_group bgid) ;;
  fixed_file sqe ;;
  set_conn fd READ ;;
  set_multishot fd ;;
  set_user_data sqe fd.

(** [&bufs[bid]] is undefined beyond the end of [bufs]. *)
Definition addr_of_bufs (bid : Z) : M st address :=
  l ← read_globals bufs;
  if (0 <=? bid) && (bid <=? Z.of_nat (length l)) then mret (ABufs bid) else ub.

Definition add_socket_write (fd bid size flags : Z) : M st unit :=
  sqe ← io_uring_get_sqe;
  a ← addr_of_bufs bid;
  io_uring_prep sqe (OpSend fd a (to_u32 size) 0) ;;
  io_uring_sqe_set_flags sqe flags ;;
  fixed_file sqe ;;
  set_conn fd WRITE ;;
  set_user_data sqe fd.

Definition register_conn (sock_conn_fd : Z) : M st unit :=
  Registration.register_conn opt registered_files set_registered sock_conn_fd.

(** [buf_ptr + msg_len * i]: the product of [int]s may not overflow, the sum
    not leave the pool. *)
Definition pool_addr (i : Z) : M st address :=
  o ← read_globals opt;
  let off := msg_len o * i in
  if (- 2 ^ 31 <=? off) && (off <? 2 ^ 31) && (0 <=? off) && (off <=? msg_len o * nr_bufs)
  then mret (APool off) else ub.

(** [io_uring_buf_ring_add(br, buf_ptr + msg_len * buf_id, msg_len, 0, mask, 0);
    buf_added++] *)
Definition return_buffer (buf_id : Z) : M st unit :=
  o ← read_globals opt;
  a ← pool_addr buf_id;
  io_uring_buf_ring_add a (to_u32 (msg_len o)) 0 (io_uring_buf_ring_mask nr_bufs) 0 ;;
  n ← read_globals buf_added;
  if n + 1 <? 2 ^ 31 then write_globals (set_buf_added (n + 1)) else ub.

(** The body of the loop over the batch. *)
Definition handle_cqe (sock_listen_fd : Z) (c : cqe Z) : M st unit :=
  user_data ← load conns (cqe_user_data c);
  o ← read_globals opt;
  let ufd := to_i32 (fd user_data) in
  if type user_data =? ACCEPT then
    let sock_conn_fd := cqe_res c in
    register_conn sock_conn_fd ;;
    add_socket_read sock_conn_fd (msg_len o) 0 ;;
    add_accept sock_listen_fd AClientAddr AClientLen 0
  else if type user_data =? READ then
    let bytes_read := cqe_res c in
    let buf_id := to_i32 (Z.shiftr (cqe_flags c) IORING_CQE_BUFFER_SHIFT) in
    return_buffer buf_id ;;
    if bytes_read <=? 0 then
      shutdown ufd SHUT_RDWR ;; close ufd ;; mret tt
    else add_socket_write ufd buf_id bytes_read 0
  else if type user_data =? WRITE then
    add_socket_read ufd (msg_len o) 0
  else mret tt.

Definition turn_start : M st (list (cqe Z)) :=
  ret ← io_uring_submit_and_wait 1;
  if ret <? 0 then exit_ 1 else
  cqes ← io_uring_peek_batch_cqe (Z.to_nat BACKLOG);
  write_globals (set_buf_added 0) ;;
  mret cqes.

Definition turn_end (cqe_count : nat) : M st unit :=
  n ← read_globals buf_added;
  io_uring_buf_ring_advance n ;;
  io_uring_cq_advance cqe_count.

Definition event_loop_body (sock_listen_fd : Z) : M st unit :=
  cqes ← turn_start;
  for_each (handle_cqe sock_listen_fd) cqes ;;
  turn_end (length cqes).

Definition v2_reachable (sock_listen_fd : Z) :=
  breachable turn_start (handle_cqe sock_listen_fd) turn_end.

(** ** Start-up *)

(** The options of this version: a message length of 0 is not accepted. *)
Definition parse_options_v2 (argv : list (list Z)) : M st options :=
  let '(evs, argv) := getopt argv opts in
  o ← apply_options default_options evs;
  check_port ((portno o =? 0) || (max_connections o =? 0) || (msg_len o =? 0)) argv o.

Definition init_registerfiles : M st Z := init_files_rlimit set_registered.

Definition alloc_bufs (n : nat) : M st (list address) := Registration.alloc_bufs opt ABlock n 0.

(** The tables.  A NULL [bufs] is stored to when there is a row to fill. *)
Definition alloc_tables (o : options) : M st unit :=
  let n := max_connections o + 32 in
  if negb (n <? 2 ^ 31) then ub else
  write_globals (set_opt (Options (portno o) (registerfiles o) n (msg_len o))) ;;
  ok ← syscall (k_calloc 24 (to_u64 n));
  if negb ok then exit_ 1 else
  write_globals (set_conns (replicate (Z.to_nat n) (ConnInfo 0 0 false ANull))) ;;
  ok ← syscall (k_calloc 8 (to_u64 n));
  if negb ok && (0 <? n) then ub else
  rows ← alloc_bufs (Z.to_nat n);
  write_globals (set_bufs rows).

Definition setup_socket (port : Z) : M st Z :=
  sock_listen_fd ← socket AF_INET (Z.lor SOCK_STREAM SOCK_NONBLOCK) 0;
  setsockopt sock_listen_fd SOL_SOCKET SO_REUSEADDR 1 ;;
  let serv_addr := SockAddrIn AF_INET (htons port) INADDR_ANY in
  ret ← bind sock_listen_fd serv_addr;
  if ret <? 0 then exit_ 1 else
  ret ← listen sock_listen_fd BACKLOG;
  if ret <? 0 then exit_ 1 else
  mret sock_listen_fd.

(** [params.flags = 1 << 8 | 1 << 12 | 1 << 13] *)
Definition setup_flags : Z := Z.lor (Z.lor (Z.shiftl 1 8) (Z.shiftl 1 12)) (Z.shiftl 1 13).

Definition setup_ring : M st unit :=
  r ← io_uring_queue_init_params 32768 (Params setup_flags 0 0 0);
  if r.1 <? 0 then exit_ 1 else
  if negb (has_flag (p_features r.2) IORING_FEAT_FAST_POLL) then exit_ 0 else mret tt.

(** The loop that fills the ring: buffer [i] at distance [i] from the tail. *)
Definition fill_ring : M st unit :=
  for_each (fun i =>
    o ← read_globals opt;
    a ← pool_addr i;
    io_uring_buf_ring_add a (to_u32 (msg_len o)) i (io_uring_buf_ring_mask nr_bufs) i) (seqZ 0 nr_bufs).

(** [sizeof(struct io_uring_buf)] is 16. *)
Definition setup_buf_ring : M st unit :=
  ok ← syscall (k_posix_memalign 4096 (16 * nr_bufs));
  if negb ok then exit_ 1 else
  ret ← syscall (k_register_buf_ring nr_bufs bgid);
  if negb (ret =? 0) then exit_ 1 else
  o ← read_globals opt;
  let size := msg_len o * nr_bufs in
  if negb ((- 2 ^ 31 <=? size) && (size <? 2 ^ 31)) then ub else
  ok ← syscall (k_posix_memalign 4096 (to_u64 size));
  if negb ok then exit_ 1 else
  fill_ring ;;
  io_uring_buf_ring_advance nr_bufs.

Definition register_listener (sock_listen_fd : Z) : M st unit :=
  Registration.register_listener opt registered_files set_registered (fun _ => init_registerfiles) sock_listen_fd.

Definition startup (argv : list (list Z)) : M st Z :=
  o ← parse_options_v2 argv;
  alloc_tables o ;;
  sock_listen_fd ← setup_socket (portno o);
  setup_ring ;;
  setup_buf_ring ;;
  register_listener sock_listen_fd ;;
  add_accept sock_listen_fd AClientAddr AClientLen 0 ;;
  mret sock_listen_fd.

End server.
