(* ===== verification/EchoV2Inv.v ===== *)
(** * One request per connection in the buffer-ring echo server

    The invariant of [TableInv] for [io_uring_echo_server_v2.c].  Completions
    are consumed at the end of the batch, so the invariant counts how many are
    handled and still in the queue. *)

From S2P Require Import Prelude Uring Tables BatchLoop Libc Setup Options Registration BufRing TableInv EchoV2.

Section invariant.
Context {K : Type} `{!Liburing address Z} `{!Kernel address Z K} `{!Setup K} `{!Register K} `{!BufRing address K}.
Context {entries : nat} `{!LiburingOk address Z entries} `{!KernelOk address Z K}.
Context `{!SetupOk address Z K} `{!RegisterOk address Z K} `{!BufRingOk address Z K bgid nr_bufs}.
Context (lfd : Z) (o : options).

Local Abbreviation st := (rstate address Z K globals).

(** ** What a row says *)

(** The row [x] is that of a request of kind [t] on [fd]. *)
Definition row_of (fd t : Z) (x : option conn_info) : Prop :=
  exists ms b, x = Some (ConnInfo fd t ms b).

Inductive described (x : option conn_info) (e : sqe address Z) : Prop :=
| described_accept :
    sqe_user_data e = lfd -> row_of lfd ACCEPT x ->
    sqe_op e = OpAccept lfd AClientAddr AClientLen 0 -> described x e
| described_read fd :
    sqe_user_data e = fd -> fd <> lfd -> is_fd fd -> row_of fd READ x ->
    sqe_op e = OpRecv fd ANull (to_u32 (msg_len o)) 0 ->
    has_flag (sqe_flags e) IOSQE_BUFFER_SELECT = true -> sqe_buf_group e = bgid -> described x e
| described_write fd b n :
    sqe_user_data e = fd -> fd <> lfd -> is_fd fd -> row_of fd WRITE x ->
    sqe_op e = OpSend fd (ABufs b) n 0 -> described x e.

Inductive answered (x : option conn_info) (c : cqe Z) : Prop :=
| answered_accept :
    cqe_user_data c = lfd -> row_of lfd ACCEPT x ->
    cqe_res c < 0 \/ (is_fd (cqe_res c) /\ cqe_res c <> lfd) -> answered x c
| answered_read fd :
    cqe_user_data c = fd -> fd <> lfd -> is_fd fd -> row_of fd READ x ->
    is_i32 (cqe_res c) -> answered x c
| answered_write fd :
    cqe_user_data c = fd -> fd <> lfd -> is_fd fd -> row_of fd WRITE x -> answered x c.

(** The options do not change. *)
Definition mem_ok (g : globals) : Prop := opt g = o.

(** [n] completions are handled, [rest] of the batch are to come, [held] are
    the descriptors in the handler's hands. *)
Definition holding (s : st) (n : nat) (rest : list (cqe Z)) (held : list Z) : Prop :=
  TableInv.holding lfd conns mem_ok described answered s n rest held /\
  (n <= length (k_cq (rs_kern s)))%nat.

Definition v2_inv (s : st) (n : nat) (rest : list (cqe Z)) : Prop := holding s n rest [].

Definition pending (s : st) (n : nat) : list Z := TableInv.pending lfd s n.
Definition loop_entry : st -> Prop := TableInv.loop_entry lfd conns mem_ok described.

(** ** The builders *)

(** The memory after the row of [fd] is changed by [g]. *)
Definition row_update (fd : Z) (g : conn_info -> conn_info) (m : globals) : option globals :=
  x ← index (conns m) fd; Some (set_conns (<[Z.to_nat fd := g x]> (conns m)) m).

Definition as_kind (fd t : Z) (x : conn_info) : conn_info := ConnInfo (to_u32 fd) t (multishot_recv x) (buf x).
Definition as_read (fd : Z) (x : conn_info) : conn_info := ConnInfo (to_u32 fd) READ true (buf x).

Lemma v2_set_conn_spec fd t (s : st) :
  set_conn fd t s =
    match row_update fd (as_kind fd t) (rs_mem s) with Some m => Ok tt (put_mem m s) | None => Ub s end.
Proof.
  unfold set_conn, row_update. unfold mbind at 1, M_bind. rewrite load_spec.
  destruct (index (conns (rs_mem s)) fd) as [x|] eqn:Hx; [|done]. by rewrite store_spec, Hx.
Qed.

Lemma set_multishot_spec fd (s : st) :
  set_multishot fd s =
    match row_update fd (fun x => ConnInfo (EchoV2.fd x) (type x) true (buf x)) (rs_mem s) with
    | Some m => Ok tt (put_mem m s) | None => Ub s end.
Proof.
  unfold set_multishot, row_update. unfold mbind at 1, M_bind. rewrite load_spec.
  destruct (index (conns (rs_mem s)) fd) as [x|] eqn:Hx; [|done]. by rewrite store_spec, Hx.
Qed.

Lemma set_read_row fd (s : st) :
  (set_conn fd READ ;; set_multishot fd) s =
    match row_update fd (as_read fd) (rs_mem s) with Some m => Ok tt (put_mem m s) | None => Ub s end.
Proof.
  unfold mbind, M_bind. rewrite v2_set_conn_spec. unfold row_update.
  destruct (index (conns (rs_mem s)) fd) as [x|] eqn:Hx; simpl; [|done].
  rewrite set_multishot_spec. unfold row_update. simpl. rewrite (index_insert_eq _ _ _ _ Hx). simpl.
  by rewrite list_insert_insert_eq.
Qed.

Definition fixed (e : sqe address Z) : sqe address Z :=
  if registerfiles o then sqe_or_flags IOSQE_FIXED_FILE e else e.

(** The entries of the builders. *)
Definition built (op : io_op address) (fd : Z) (e : sqe address Z) : sqe address Z :=
  sqe_put_user_data fd (fixed (lib_set_flags 0 (lib_prep op e))).
Definition built_read (fd size : Z) (e : sqe address Z) : sqe address Z :=
  sqe_put_user_data fd (fixed (sqe_put_buf_group bgid (sqe_or_flags IOSQE_BUFFER_SELECT
    (lib_prep (OpRecv fd ANull (to_u32 size) 0) e)))).

Lemma v2_built_op op fd e : sqe_op (built op fd e) = op.
Proof. unfold built, fixed. destruct (registerfiles o); simpl; by rewrite set_flags_op, prep_op. Qed.

Lemma built_read_entry fd size e :
  let e' := built_read fd size e in
  sqe_op e' = OpRecv fd ANull (to_u32 size) 0 /\
  has_flag (sqe_flags e') IOSQE_BUFFER_SELECT = true /\ sqe_buf_group e' = bgid.
Proof.
  unfold built_read, fixed. destruct (registerfiles o); simpl; rewrite prep_op, prep_flags; done.
Qed.

Lemma v2_fixed_file_spec i e e0 (s : st) :
  mem_ok (rs_mem s) -> rs_sq s !! i = Some e0 ->
  fixed_file (Some i) (put_entry i e s) = Ok tt (put_entry i (fixed e) s).
Proof.
  intros Ho He. unfold fixed_file, fixed. mred. simpl. rewrite Ho.
  destruct (registerfiles o); [by eapply sqe_update_entry|done].
Qed.

(** A row update between stores through one pointer. *)
Lemma row_entry (m : M st unit) upd i e e0 (s : st) fd :
  (forall t, m t = match upd (rs_mem t) with Some g => Ok tt (put_mem g t) | None => Ub t end) ->
  rs_sq s !! i = Some e0 ->
  exists t, (m ;; set_user_data (Some i) fd) (put_entry i e s) =
    match upd (rs_mem s) with
    | Some g => Ok tt (put_entry i (sqe_put_user_data fd e) (put_mem g s))
    | None => Ub t
    end.
Proof.
  intros Hm He. exists (put_entry i e s). unfold mbind, M_bind. rewrite Hm. simpl.
  destruct (upd (rs_mem s)); [|done]. exact (sqe_update_entry i _ _ e0 (put_mem _ s) He).
Qed.

Lemma v2_fill_entry op fd t i e (s : st) :
  mem_ok (rs_mem s) -> rs_sq s !! i = Some e ->
  exists t', (io_uring_prep (Some i) op ;; io_uring_sqe_set_flags (Some i) 0 ;; fixed_file (Some i) ;;
    set_conn fd t ;; set_user_data (Some i) fd) s =
    match row_update fd (as_kind fd t) (rs_mem s) with
    | Some m => Ok tt (put_entry i (built op fd e) (put_mem m s))
    | None => Ub t'
    end.
Proof.
  intros Ho He.
  destruct (row_entry (set_conn fd t) _ i (fixed (lib_set_flags 0 (lib_prep op e))) e s fd
    (v2_set_conn_spec fd t) He) as [t' Ht].
  exists t'. rewrite <- (put_entry_id i e s He) at 1. unfold io_uring_prep, io_uring_sqe_set_flags.
  rewrite !(bind_ok _ _ _ _ _ (sqe_update_entry _ _ _ _ _ He)).
  by rewrite (bind_ok _ _ _ _ _ (v2_fixed_file_spec _ _ _ _ Ho He)).
Qed.

Lemma v2_add_accept_spec (s : st) :
  mem_ok (rs_mem s) ->
  builds (built (OpAccept lfd AClientAddr AClientLen 0) lfd) (row_update lfd (as_kind lfd ACCEPT)) s
    (add_accept lfd AClientAddr AClientLen 0 s).
Proof.
  intros Ho. apply get_sqe_builds; [|by exists s]. intros i t e He Hm. apply v2_fill_entry; [by rewrite Hm|done].
Qed.

Lemma v2_add_write_spec fd bid size (s : st) :
  mem_ok (rs_mem s) -> 0 <= bid <= Z.of_nat (length (bufs (rs_mem s))) ->
  builds (built (OpSend fd (ABufs bid) (to_u32 size) 0) fd) (row_update fd (as_kind fd WRITE)) s
    (add_socket_write fd bid size 0 s).
Proof.
  intros Ho Hb.
  assert (Ha : forall t : st, rs_mem t = rs_mem s -> addr_of_bufs bid t = Ok (ABufs bid) t).
  { intros t Hm. unfold addr_of_bufs. mred. simpl. rewrite Hm.
    by rewrite (proj2 (Z.leb_le 0 bid)), (proj2 (Z.leb_le bid _)) by lia. }
  apply get_sqe_builds.
  - intros i t e He Hm. rewrite (bind_ok _ _ _ _ _ (Ha t Hm)). apply v2_fill_entry; [by rewrite Hm|done].
  - exists s. by rewrite (bind_ok _ _ _ _ _ (Ha s eq_refl)).
Qed.

(** Beyond the rows of [bufs] the address is undefined. *)
Lemma add_write_range fd bid size (s s' : st) :
  add_socket_write fd bid size 0 s = Ok tt s' -> 0 <= bid <= Z.of_nat (length (bufs (rs_mem s))).
Proof.
  intros (sqe & s1 & H1 & Hrun)%bind_inv_ok. apply bind_inv_ok in Hrun as (a & s2 & H2 & _).
  assert (Hm : rs_mem s1 = rs_mem s).
  { unfold io_uring_get_sqe in H1. destruct (lib_get_sqe _); by injection H1 as _ <-. }
  unfold addr_of_bufs in H2. apply bind_inv_ok in H2 as (l & s3 & [= <- <-] & H2). rewrite Hm in H2.
  destruct (_ && _) eqn:Hb; [|done]. apply andb_true_iff in Hb as [?%Z.leb_le ?%Z.leb_le]. lia.
Qed.

Lemma v2_add_read_spec fd size (s : st) :
  mem_ok (rs_mem s) ->
  builds (built_read fd size) (row_update fd (as_read fd)) s (add_socket_read fd size 0 s).
Proof.
  intros Ho. apply get_sqe_builds; [|by exists s]. intros i t e He Hm.
  destruct (row_entry (set_conn fd READ ;; set_multishot fd) _ i (fixed (sqe_put_buf_group bgid
    (sqe_or_flags IOSQE_BUFFER_SELECT (lib_prep (OpRecv fd ANull (to_u32 size) 0) e)))) e t fd
    (set_read_row fd) He) as [t' Ht].
  exists t'. rewrite bind_assoc in Ht. rewrite <- (put_entry_id i e t He) at 1. unfold io_uring_prep.
  rewrite !(bind_ok _ _ _ _ _ (sqe_update_entry _ _ _ _ _ He)).
  by rewrite (bind_ok _ _ _ _ _ (v2_fixed_file_spec _ _ _ _ (eq_trans (f_equal opt Hm) Ho) He)).
Qed.

(** ** What the handler's steps do to the invariant *)

Lemma row_update_Some fd g m m' :
  row_update fd g m = Some m' ->
  exists x, index (conns m) fd = Some x /\ m' = set_conns (<[Z.to_nat fd := g x]> (conns m)) m.
Proof.
  unfold row_update. destruct (index (conns m) fd) as [x|]; [|done]. intros [= <-]. eauto.
Qed.

(** A builder has queued a request its row describes. *)
Lemma v2_hold_builds f g fd s n rest held s' :
  holding s n rest (fd :: held) -> builds f (row_update fd g) s (Ok tt s') ->
  (forall e, sqe_user_data (f e) = fd) -> (forall e x, described (Some (g x)) (f e)) ->
  holding s' n rest held.
Proof.
  intros [Hh Hn] (e & m & Hm & ->)%builds_inv Hu Hd.
  apply row_update_Some in Hm as (x & Hx & ->). pose proof (index_Some _ _ _ Hx) as Hpos.
  split; [|done]. eapply hold_queue; [exact Hh|lia|exact Hx|done..| |apply Hu|apply Hd].
  exact (vi_tables _ _ _ _ _ _ _ _ _ Hh).
Qed.

Lemma hold_opt s n rest held : holding s n rest held -> mem_ok (rs_mem s).
Proof. intros [Hh _]. exact (vi_tables _ _ _ _ _ _ _ _ _ Hh). Qed.

Context (Hlfd : is_fd lfd).

Lemma u32_fd fd : is_fd fd -> to_u32 fd = fd.
Proof. intros Hfd. apply to_u32_id. auto with machine. Qed.

Lemma v2_hold_accept s n rest held s' :
  holding s n rest (lfd :: held) -> add_accept lfd AClientAddr AClientLen 0 s = Ok tt s' ->
  holding s' n rest held.
Proof.
  intros Hh Hrun. pose proof (v2_add_accept_spec s (hold_opt _ _ _ _ Hh)) as Hb. rewrite Hrun in Hb.
  eapply v2_hold_builds; [exact Hh|exact Hb|done|]. intros e x.
  apply described_accept; [done| |apply v2_built_op]. unfold as_kind. rewrite u32_fd by done. unfold row_of. eauto.
Qed.

Lemma v2_hold_read s n rest fd held s' :
  holding s n rest (fd :: held) -> is_fd fd -> fd <> lfd ->
  add_socket_read fd (msg_len o) 0 s = Ok tt s' -> holding s' n rest held.
Proof.
  intros Hh Hfd Hne Hrun. pose proof (v2_add_read_spec fd (msg_len o) s (hold_opt _ _ _ _ Hh)) as Hb.
  rewrite Hrun in Hb. eapply v2_hold_builds; [exact Hh|exact Hb|done|]. intros e x.
  destruct (built_read_entry fd (msg_len o) e) as (H1 & H2 & H3).
  eapply described_read; [done..| |done|done|done]. unfold as_read. rewrite (u32_fd fd) by done. unfold row_of. eauto.
Qed.

Lemma v2_hold_write s n rest fd held bid size s' :
  holding s n rest (fd :: held) -> is_fd fd -> fd <> lfd ->
  add_socket_write fd bid size 0 s = Ok tt s' -> holding s' n rest held.
Proof.
  intros Hh Hfd Hne Hrun. pose proof (add_write_range _ _ _ _ _ Hrun) as Hr.
  pose proof (v2_add_write_spec fd bid size s (hold_opt _ _ _ _ Hh) Hr) as Hb. rewrite Hrun in Hb.
  eapply v2_hold_builds; [exact Hh|exact Hb|done|]. intros e x.
  eapply described_write; [done..| |apply v2_built_op]. unfold as_kind. rewrite (u32_fd fd) by done. unfold row_of. eauto.
Qed.

Lemma v2_hold_register s n rest held fd s' :
  holding s n rest held -> register_conn fd s = Ok tt s' -> holding s' n rest held.
Proof.
  intros [Hh Hn] Hrun. destruct (register_conn_cases _ _ _ _ _ _ Hrun) as [->|(_ & k & Hk & ->)]; [done|].
  pose proof Hk as (_ & Hq & _). split; [|simpl; by rewrite Hq].
  apply (hold_mem _ _ _ _ _ (put_kern k s)); [by apply hold_view|done|exact (vi_tables _ _ _ _ _ _ _ _ _ Hh)].
Qed.

(** Writing a slot of the ring and counting it. *)
Lemma return_buffer_inv i (s s' : st) :
  return_buffer i s = Ok tt s' ->
  0 <= msg_len (opt (rs_mem s)) * i <= msg_len (opt (rs_mem s)) * nr_bufs /\
  s' = RState (rs_sq s)
    (k_buf_ring_add (APool (msg_len (opt (rs_mem s)) * i)) (to_u32 (msg_len (opt (rs_mem s)))) 0
       (nr_bufs - 1) 0 (rs_kern s))
    (set_buf_added (buf_added (rs_mem s) + 1) (rs_mem s)).
Proof.
  unfold return_buffer, pool_addr. intros (o1 & s1 & [= <- <-] & Hrun)%bind_inv_ok.
  apply bind_inv_ok in Hrun as (a & s2 & H2 & Hrun). apply bind_inv_ok in H2 as (o2 & s3 & [= <- <-] & H2).
  destruct (_ && _) eqn:Hb in H2; [|done]. injection H2 as <- <-.
  rewrite !andb_true_iff in Hb. destruct Hb as [[[_ _] Hlo%Z.leb_le] Hhi%Z.leb_le].
  apply bind_inv_ok in Hrun as ([] & s4 & [= <-] & Hrun).
  apply bind_inv_ok in Hrun as (m & s5 & [= <- <-] & Hrun). simpl in Hrun.
  destruct (_ <? 2 ^ 31); [|done]. injection Hrun as <-. done.
Qed.

Lemma hold_return s n rest held i s' :
  holding s n rest held -> return_buffer i s = Ok tt s' -> holding s' n rest held.
Proof.
  intros [Hh Hn] [_ ->]%return_buffer_inv.
  match goal with |- holding (RState _ ?k ?g) _ _ _ => set (k1 := k); set (g1 := g) end.
  assert (Hk : same_view (rs_kern s) k1) by apply ring_add_frame.
  pose proof Hk as (_ & Hq & _). split; [|simpl; by rewrite Hq].
  apply (hold_mem _ _ _ _ _ (put_kern k1 s)); [by apply hold_view|done|exact (vi_tables _ _ _ _ _ _ _ _ _ Hh)].
Qed.

Lemma hold_hangup s n rest fd held r1 r2 s1 s' :
  holding s n rest (fd :: held) -> fd <> lfd -> shutdown fd SHUT_RDWR s = Ok r1 s1 ->
  close fd s1 = Ok r2 s' -> holding s' n rest held.
Proof.
  intros [Hh Hn] Hne H1 H2. pose proof (shutdown_cq _ _ _ _ _ H1) as C1. pose proof (close_cq _ _ _ _ H2) as C2.
  unfold cq_of in *. split; [|by rewrite C2, C1].
  eapply hold_close; [|exact Hne|exact H2]. by eapply hold_shutdown.
Qed.

(** ** The handler *)

(** The handler, by the row of the completion. *)
Lemma v2_handle_entry c (s : st) x :
  index (conns (rs_mem s)) (cqe_user_data c) = Some x ->
  handle_cqe lfd c s =
    (let ufd := to_i32 (fd x) in
     let buf_id := to_i32 (Z.shiftr (cqe_flags c) IORING_CQE_BUFFER_SHIFT) in
     if type x =? ACCEPT then
       register_conn (cqe_res c) ;; add_socket_read (cqe_res c) (msg_len (opt (rs_mem s))) 0 ;;
       add_accept lfd AClientAddr AClientLen 0
     else if type x =? READ then
       return_buffer buf_id ;;
       if cqe_res c <=? 0 then shutdown ufd SHUT_RDWR ;; close ufd ;; mret tt
       else add_socket_write ufd buf_id (cqe_res c) 0
     else if type x =? WRITE then add_socket_read ufd (msg_len (opt (rs_mem s))) 0
     else mret tt) s.
Proof. intros Hx. unfold handle_cqe. by rewrite (bind_ok _ _ _ _ _ (load_ok _ _ _ _ Hx)). Qed.

Lemma v2_take s n c rest :
  v2_inv s n (c :: rest) -> holding s (S n) rest (cqe_fds lfd c).
Proof.
  intros [Hh Hn]. pose proof (vi_rest _ _ _ _ _ _ _ _ _ Hh) as [l Hl].
  apply hold_take in Hh. rewrite app_nil_r in Hh. split; [done|].
  apply (f_equal length) in Hl. rewrite length_drop in Hl. simpl in Hl. lia.
Qed.

Lemma v2_inv_handle s n c rest s' :
  v2_inv s n (c :: rest) -> handle_cqe lfd c s = Ok tt s' -> v2_inv s' (S n) rest.
Proof.
  intros Hi. pose proof (v2_take _ _ _ _ Hi) as Ht. pose proof (hold_opt _ _ _ _ Hi) as Ho.
  pose proof (head_answered _ _ _ _ _ _ _ _ _ _ (proj1 Hi)) as Ha.
  destruct (index (conns (rs_mem s)) (cqe_user_data c)) as [x|] eqn:Hx; last first.
  { unfold handle_cqe. by intros (u & s1 & Hu & _)%bind_inv_ok; rewrite load_spec, Hx in Hu. }
  rewrite (v2_handle_entry _ _ _ Hx), Ho. cbv zeta.
  destruct Ha as [Hud (ms & b & [= ->]) Hr|fd Hud Hne Hfd (ms & b & [= ->]) Hi32|fd Hud Hne Hfd (ms & b & [= ->])]; simpl.
  - intros ([] & s1 & H1 & Hrun)%bind_inv_ok. eapply v2_hold_register in H1; [|exact Ht].
    apply bind_inv_ok in Hrun as ([] & s2 & H2 & Hrun). destruct Hr as [Hneg|[Hfd Hne]].
    + pose proof (v2_add_read_spec (cqe_res c) (msg_len o) s1 (hold_opt _ _ _ _ H1)) as Hb. rewrite H2 in Hb.
      apply builds_inv in Hb as (e & m & (y & Hy & _)%row_update_Some & _). apply index_Some in Hy. lia.
    + rewrite cqe_fds_accept in H1 by (done || apply Hfd).
      assert (H1' : holding s1 (S n) rest [cqe_res c; lfd]).
      { destruct H1 as [H1 Hn]. split; [|done]. eapply hold_perm; [|exact H1]. apply Permutation_swap. }
      eapply v2_hold_read in H2; [|exact H1'|done|done]. by eapply v2_hold_accept.
  - rewrite cqe_fds_conn, Hud in Ht by congruence. rewrite to_i32_id by auto with machine.
    intros ([] & s1 & H1 & Hrun)%bind_inv_ok. eapply hold_return in H1; [|exact Ht].
    destruct (cqe_res c <=? 0); [|by eapply v2_hold_write].
    apply bind_inv_ok in Hrun as (r1 & s2 & H2 & Hrun). apply bind_inv_ok in Hrun as (r2 & s3 & H3 & [= <-]).
    by eapply hold_hangup.
  - rewrite cqe_fds_conn, Hud in Ht by congruence. rewrite to_i32_id by auto with machine. by apply v2_hold_read.
Qed.

(** ** Turns and the kernel's steps *)

Context `{!SocketsOk (K := K) lfd}.

Lemma v2_answers_match : answers_match lfd described answered.
Proof.
  intros x k k' e c Hpost Hp Hd. pose proof Hp as (_ & _ & Hu & Hi32 & Hc). unfold completes in Hc.
  destruct Hd as [Hud Hx Hop|fd Hud Hne Hfd Hx Hop _ _|fd b n Hud Hne Hfd Hx Hop].
  - destruct (accept_delivers lfd _ _ _ _ _ _ _ _ Hpost Hp Hop Hud) as [Hr Hd].
    split; [apply answered_accept; [congruence|done..]|done].
  - rewrite Hop in Hc. assert (Hsame : same_conns k k') by (destruct (has_flag _ _); apply Hc).
    split; [apply (answered_read _ _ fd); [congruence|done..]|apply conn_delivers; congruence].
  - rewrite Hop in Hc. destruct Hc as [Hc _].
    split; [apply (answered_write _ _ fd); [congruence|done..]|apply conn_delivers; congruence].
Qed.

Lemma v2_inv_post s n rest k' :
  v2_inv s n rest -> k_post (rs_kern s) k' -> v2_inv (put_kern k' s) n rest.
Proof. intros [Hi Hn] Hk. by apply (hold_post _ _ _ _ _ v2_answers_match). Qed.

Lemma v2_inv_start s cqes s' : v2_inv s 0 [] -> turn_start s = Ok cqes s' -> v2_inv s' 0 cqes.
Proof.
  intros [Hi _] (ret & s1 & H1 & Hrun)%bind_inv_ok.
  eapply hold_submit in H1; [|exact v2_answers_match|exact Hi].
  destruct (ret <? 0); [done|]. apply bind_inv_ok in Hrun as (cs & s2 & Hp & Hrun).
  apply peek_batch_inv in Hp as [Hpre ->]. apply bind_inv_ok in Hrun as ([] & s3 & [= <-] & [= <- <-]).
  split; [|simpl; lia]. apply hold_mem; [|done|exact (vi_tables _ _ _ _ _ _ _ _ _ H1)].
  destruct H1 as [H1 H2 H3 H4 H5 H6 H7]. by split.
Qed.

Lemma v2_inv_end s n s' : v2_inv s n [] -> turn_end n s = Ok tt s' -> v2_inv s' 0 [].
Proof.
  intros [Hi _] (m & s1 & [= <- <-] & Hrun)%bind_inv_ok.
  apply bind_inv_ok in Hrun as ([] & s2 & [= <-] & [= <-]). split; [|simpl; lia].
  destruct (ring_advance_frame (buf_added (rs_mem s)) (rs_kern s)) as (E1 & E2 & E3 & _).
  apply (hold_advance _ _ _ _ _ (put_kern (k_buf_ring_advance (buf_added (rs_mem s)) (rs_kern s)) s)).
  by apply hold_same.
Qed.

Lemma v2_reachable_inv s0 x :
  loop_entry s0 -> v2_reachable lfd s0 x ->
  bholds (fun s => v2_inv s 0 []) (fun s n rest => v2_inv s n rest) x.
Proof.
  intros He. apply batch_invariant; eauto using v2_inv_post, v2_inv_start, v2_inv_handle, v2_inv_end.
  split; [by apply hold_entry|lia].
Qed.

End invariant.
