(* ===== verification/EchoV2Main.v ===== *)
(** * Start-up of the buffer-ring echo server

    [main] of [io_uring_echo_server_v2.c] up to its loop: the tables, the
    listening socket, the ring of buffers with its 1024 slots filled, the first
    accept. *)

From S2P Require Import Prelude Uring Tables Libc Setup Options Registration Startup BufRing TableInv EchoV2.
From S2P Require Import EchoV2Inv.

Section v2_main.
Context {K : Type} `{!Liburing address Z} `{!Kernel address Z K} `{!Setup K} `{!Register K} `{!BufRing address K}.
Context {entries : nat} `{!LiburingOk address Z entries} `{!KernelOk address Z K}.
Context `{!SetupOk address Z K} `{!RegisterOk address Z K} `{!BufRingOk address Z K bgid nr_bufs}.

Local Abbreviation st := (rstate address Z K globals).

(** The variables that matter after start-up. *)
Definition tabs (g : globals) : options * list conn_info * list address := (opt g, conns g, bufs g).
Local Abbreviation tables_of := (mem_of (A := address) (U := Z) (K := K) tabs).

(** A step that changes neither what the kernel shows, nor the buffer group,
    nor the tables. *)
Definition quiet {R} (m : M st R) : Prop :=
  preserving view_of m /\ preserving (group_of bgid) m /\ preserving tables_of m.

Lemma v2_socket_quiet port : quiet (setup_socket port).
Proof. unfold setup_socket, socket, setsockopt, bind, listen. split_and!; auto 20 with frame. Qed.

Lemma v2_ring_quiet : quiet setup_ring.
Proof. unfold setup_ring, io_uring_queue_init_params. split_and!; auto 20 with frame. Qed.

Lemma v2_listener_quiet fd : quiet (register_listener fd).
Proof.
  unfold register_listener, init_registerfiles, Registration.register_listener, register_fd,
    init_files_rlimit, init_files. split_and!; auto 30 with frame.
Qed.

Lemma v2_bufs_quiet n : quiet (alloc_bufs n).
Proof. split_and!; apply alloc_bufs_preserving; auto with frame. Qed.

Lemma v2_parse_id argv : preserving (fun s : st => s) (parse_options_v2 argv).
Proof.
  unfold parse_options_v2. destruct (getopt argv opts) as [evs argv'].
  apply preserving_bind; [apply apply_options_id|intros o; apply check_port_id].
Qed.

(** ** The tables *)

Lemma v2_tables_spec o (s s' : st) :
  alloc_tables o s = Ok tt s' ->
  view_of s' = view_of s /\
  exists o', opt (rs_mem s') = o' /\ portno o' = portno o /\ registerfiles o' = registerfiles o /\
    msg_len o' = msg_len o /\ max_connections o' = max_connections o + 32 /\
    length (conns (rs_mem s')) = Z.to_nat (max_connections o').
Proof.
  unfold alloc_tables. destruct (_ <? 2 ^ 31); [|done]. cbn [negb].
  intros ([] & s1 & [= <-] & Hrun)%bind_inv_ok.
  apply bind_inv_ok in Hrun as (ok & s2 & H2 & Hrun).
  pose proof (syscall_mem_of opt _ _ _ _ H2) as M2. unfold mem_of in M2.
  apply syscall_view_of in H2; [|intros; apply calloc_frame].
  destruct ok; simpl in Hrun; [|done]. apply bind_inv_ok in Hrun as ([] & s3 & [= <-] & Hrun).
  apply bind_inv_ok in Hrun as (ok & s4 & H4 & Hrun). pose proof (syscall_mem_of tabs _ _ _ _ H4) as M4.
  apply syscall_view_of in H4; [|intros; apply calloc_frame].
  destruct (_ && _); [done|]. apply bind_inv_ok in Hrun as (rows & s5 & H5 & [= <-]).
  destruct (v2_bufs_quiet (Z.to_nat (max_connections o + 32))) as (F1 & _ & F2).
  pose proof (F1 _ _ _ H5) as V5. pose proof (F2 _ _ _ H5) as T5. rewrite M4 in T5.
  unfold mem_of, tabs in T5; simpl in T5, M2. injection T5 as E1 E2 _. rewrite M2 in E1.
  split; [unfold view_of in *; simpl in *; congruence|].
  eexists. split; [exact E1|]. split_and!; [done..|]. simpl. by rewrite E2, length_replicate.
Qed.

(** ** The buffer ring *)

(** Filling slots [a], [a+1], ... with the buffers of the same number. *)
Lemma fill_slots (m : nat) a (s s' : st) :
  0 <= a -> a + Z.of_nat m <= nr_bufs ->
  for_each (fun i =>
    o ← read_globals opt;
    a ← pool_addr i;
    io_uring_buf_ring_add a (to_u32 (msg_len o)) i (io_uring_buf_ring_mask nr_bufs) i)
    (seqZ a (Z.of_nat m)) s = Ok tt s' ->
  rs_sq s' = rs_sq s /\ rs_mem s' = rs_mem s /\ same_view (rs_kern s) (rs_kern s') /\
  (forall i, a <= i < a + Z.of_nat m -> rb_bid (k_slot (rs_kern s') i) = i) /\
  (forall i, 0 <= i < nr_bufs -> i < a -> k_slot (rs_kern s') i = k_slot (rs_kern s) i).
Proof.
  revert a s. induction m as [|m IH]; intros a s Ha Hm Hrun.
  { injection Hrun as <-. split_and!; try done. intros i Hi. lia. }
  rewrite seqZ_cons in Hrun by lia. replace (Z.pred (Z.of_nat (S m))) with (Z.of_nat m) in Hrun by lia.
  apply bind_inv_ok in Hrun as ([] & s1 & H1 & Hrun).
  apply bind_inv_ok in H1 as (o & t & [= <- <-] & H1). unfold pool_addr in H1.
  apply bind_inv_ok in H1 as (b & t & Hb & H1). apply bind_inv_ok in Hb as (o & t' & [= <- <-] & Hb).
  destruct (_ && _); [|done]. injection Hb as <- <-. injection H1 as <-.
  apply IH in Hrun as (E1 & E2 & E3 & E4 & E5); [|lia..]. simpl in *.
  unfold io_uring_buf_ring_mask in *.
  match type of E3 with same_view ?k _ => assert (Hk : same_view (rs_kern s) k) by apply ring_add_frame end.
  split_and!; [done..|by eapply same_view_trans| |].
  - intros i Hi. destruct (decide (i = a)) as [->|Hne]; [|apply E4; lia].
    rewrite E5 by (unfold nr_bufs in *; lia). rewrite ring_add_slot, Z.sub_diag. simpl.
    apply to_u16_id. unfold is_u16, nr_bufs in *. lia.
  - intros i Hi Hlt. rewrite E5 by (done || lia). rewrite ring_add_slot.
    destruct (Z.eqb_spec ((i - a) `mod` nr_bufs) 0) as [Hz|]; [|done].
    apply Z.mod_divide in Hz as [q Hq]; [|by unfold nr_bufs]. unfold nr_bufs in *. lia.
Qed.

Lemma setup_buf_ring_spec (s s' : st) :
  setup_buf_ring s = Ok tt s' ->
  view_of s' = view_of s /\ rs_mem s' = rs_mem s /\ group_of bgid s' = seqZ 0 nr_bufs.
Proof.
  unfold setup_buf_ring. intros (ok & s1 & H1 & Hrun)%bind_inv_ok.
  apply syscall_view in H1 as (A1 & A2 & A3 & A4 & A5 & _); [|intros; apply (memalign_frame (g := bgid) (n := nr_bufs))].
  destruct ok; simpl in Hrun; [|done]. apply bind_inv_ok in Hrun as (ret & s2 & H2 & Hrun).
  unfold syscall in H2. pose proof (register_ring_frame (g := bgid) (n := nr_bufs) nr_bufs bgid (rs_kern s1)) as (B1 & B2 & B3).
  pose proof (register_ring_empty (g := bgid) (n := nr_bufs) (rs_kern s1)) as B4.
  destruct (k_register_buf_ring nr_bufs bgid (rs_kern s1)) as [r k] eqn:Hk. injection H2 as -> <-. simpl in *.
  destruct (Z.eqb_spec ret 0) as [->|]; simpl in Hrun; [|done]. specialize (B4 eq_refl).
  apply bind_inv_ok in Hrun as (o & s3 & [= <- <-] & Hrun). destruct (negb _); [done|].
  apply bind_inv_ok in Hrun as (ok & s4 & H4 & Hrun).
  apply syscall_view in H4 as (C1 & C2 & C3 & C4 & C5 & C6); [|intros; apply (memalign_frame (g := bgid) (n := nr_bufs))].
  destruct ok; simpl in Hrun; [|done]. apply bind_inv_ok in Hrun as ([] & s5 & H5 & [= <-]).
  apply (fill_slots (Z.to_nat nr_bufs) 0) in H5 as (D1 & D2 & (D3 & D4 & D5 & D6) & D7 & _); [|done..].
  destruct (ring_advance_frame (g := bgid) (n := nr_bufs) nr_bufs (rs_kern s5)) as (F1 & F2 & F3 & _).
  unfold same_conns, same_groups in *. simpl in *.
  split_and!; [|congruence|].
  - unfold view_of; simpl. rewrite F1, F2, F3. congruence.
  - assert (Hg : k_group (rs_kern s5) bgid = []) by (rewrite D6, C6; exact B4).
    unfold group_of; simpl. rewrite ring_advance_group; rewrite ?Hg; [|done..]. cbn [app].
    apply list_eq. intros i. rewrite list_lookup_fmap.
    destruct (seqZ 0 nr_bufs !! i) as [j|] eqn:Hj; simpl; [|done].
    apply lookup_seqZ in Hj as [-> Hi]. f_equal. apply D7. unfold nr_bufs in *. lia.
Qed.

(** ** All of it *)

Lemma v2_startup_entry argv (s s' : st) lfd :
  pristine s -> startup argv s = Ok lfd s' -> is_fd lfd ->
  exists o, loop_entry lfd o s' /\ length (conns (rs_mem s')) = Z.to_nat (max_connections o) /\
    k_group (rs_kern s') bgid = seqZ 0 nr_bufs.
Proof.
  intros [P1 P2 P3 P4] Hrun Hfd. unfold startup in Hrun.
  apply bind_inv_ok in Hrun as (o & s1 & H1 & Hrun). apply v2_parse_id in H1 as ->.
  apply bind_inv_ok in Hrun as ([] & s2 & H2 & Hrun).
  apply v2_tables_spec in H2 as (V2 & o' & T2 & _ & _ & _ & _ & L2).
  apply bind_inv_ok in Hrun as (fd & s3 & H3 & Hrun). destruct (v2_socket_quiet (portno o)) as (F1 & _ & G1).
  pose proof (F1 _ _ _ H3) as V3. pose proof (G1 _ _ _ H3) as T3.
  apply bind_inv_ok in Hrun as ([] & s4 & H4 & Hrun). destruct v2_ring_quiet as (F2 & _ & G2).
  pose proof (F2 _ _ _ H4) as V4. pose proof (G2 _ _ _ H4) as T4.
  apply bind_inv_ok in Hrun as ([] & s5 & H5 & Hrun). apply setup_buf_ring_spec in H5 as (V5 & M5 & R5).
  apply bind_inv_ok in Hrun as ([] & s6 & H6 & Hrun). destruct (v2_listener_quiet fd) as (F3 & R3 & G3).
  pose proof (F3 _ _ _ H6) as V6. pose proof (R3 _ _ _ H6) as R6. pose proof (G3 _ _ _ H6) as T6.
  apply bind_inv_ok in Hrun as ([] & s7 & H7 & [= -> <-]).
  assert (T5 : tables_of s6 = tables_of s2) by (rewrite T6; unfold mem_of in *; congruence).
  unfold mem_of, tabs in T5. injection T5 as E1 E2 E3.
  pose proof (v2_add_accept_spec lfd o' s6 (eq_trans E1 T2)) as Hb. rewrite H7 in Hb.
  apply builds_inv in Hb as (e & m & (x & Hx & ->)%row_update_Some & ->).
  assert (V : view_of s6 = view_of s) by congruence. unfold view_of in V. injection V as W1 W2 W3 W4.
  exists o'. split_and!; [split|..]; simpl.
  - unfold mem_ok; simpl. congruence.
  - eexists. rewrite W1, P1. split; [done|]. split; [|done].
    rewrite (index_insert_eq _ _ _ _ Hx). apply described_accept; [done| |apply v2_built_op].
    unfold as_kind. rewrite u32_fd by done. unfold row_of. eauto.
  - by rewrite W2.
  - by rewrite W3.
  - by rewrite W4.
  - by rewrite length_insert, E2.
  - unfold group_of in *. by rewrite R6.
Qed.

End v2_main.
