(* ===== verification/EchoV2Theorems.v ===== *)
(** * What the buffer-ring echo server does

    Theorems on [io_uring_echo_server_v2.c]: the discipline of its table of
    connections, its start-up, and what becomes of a message: it is not echoed,
    and the buffer it came in is not returned under its own number. *)

From stdpp Require Import strings.
From S2P Require Import Prelude Uring Tables BatchLoop RefKernel Script BatchScript Libc Setup Options Registration.
From S2P Require Import Startup BufRing TableInv EchoV2 EchoV2Inv EchoV2Main.

Section v2_theorems.
Context {K : Type} `{!Liburing address Z} `{!Kernel address Z K} `{!Setup K} `{!Register K} `{!BufRing address K}.
Context {entries : nat} `{!LiburingOk address Z entries} `{!KernelOk address Z K}.
Context `{!SetupOk address Z K} `{!RegisterOk address Z K} `{!BufRingOk address Z K bgid nr_bufs}.
Context (lfd : Z) (o : options) `{!SocketsOk (K := K) lfd}.

Local Abbreviation st := (rstate address Z K globals).

(** The state of a running system and how many completions at the head of the
    queue are handled. *)
Definition at_point (x : bsys address Z K globals) (s : st) (n : nat) : Prop :=
  (x = BTop s /\ n = 0%nat) \/ exists rest, x = Batch s n rest.

Lemma at_point_inv s0 x s n :
  is_fd lfd -> loop_entry lfd o s0 -> v2_reachable lfd s0 x -> at_point x s n -> v2_inv lfd o s n [].
Proof.
  intros Hfd He Hr Hs. pose proof (v2_reachable_inv lfd o Hfd _ _ He Hr) as Hi.
  destruct Hs as [[-> ->]|[rest ->]]; simpl in Hi; [done|]. destruct Hi as [Hi Hn].
  split; [by eapply hold_weaken|done].
Qed.

(** ** Receives *)

(** The completion of a receive that got data, by the table. *)
Definition read_done (s : st) (c : cqe Z) : Prop :=
  0 < cqe_res c /\ exists x, index (conns (rs_mem s)) (cqe_user_data c) = Some x /\ type x = READ.

(** The buffer a completion reports, as the handler computes it. *)
Definition buf_id (c : cqe Z) : Z := to_i32 (Z.shiftr (cqe_flags c) IORING_CQE_BUFFER_SHIFT).

Lemma handle_read s n c rest s' :
  v2_inv lfd o s n (c :: rest) -> read_done s c -> handle_cqe lfd c s = Ok tt s' ->
  exists e x, cqe_user_data c <> lfd /\
    sqe_op e = OpSend (cqe_user_data c) (ABufs (buf_id c)) (cqe_res c) 0 /\
    s' = RState (rs_sq s ++ [e])
      (k_buf_ring_add (APool (msg_len o * buf_id c)) (to_u32 (msg_len o)) 0 (nr_bufs - 1) 0 (rs_kern s))
      (set_conns (<[Z.to_nat (cqe_user_data c) := x]> (conns (rs_mem s)))
         (set_buf_added (buf_added (rs_mem s) + 1) (rs_mem s))).
Proof.
  intros Hi (Hpos & x & Hx & Ht) Hrun. pose proof (hold_opt _ _ _ _ _ _ Hi) as Ho.
  pose proof (head_answered _ _ _ _ _ _ _ _ _ _ (proj1 Hi)) as Ha. rewrite Hx in Ha.
  rewrite (v2_handle_entry _ _ _ _ Hx), Ht in Hrun. simpl in Hrun.
  destruct Ha as [_ (ms & b & [= ->]) _|fd Hud Hne Hfd (ms & b & [= ->]) Hi32|fd _ _ _ (ms & b & [= ->])]; try done.
  simpl in Hrun. rewrite to_i32_id, (proj2 (Z.leb_gt _ _) Hpos) in Hrun by auto with machine.
  fold (buf_id c) in Hrun. apply bind_inv_ok in Hrun as ([] & s1 & H1 & Hrun).
  apply return_buffer_inv in H1 as [_ ->]. pose proof (add_write_range _ _ _ _ _ Hrun) as Hr.
  match type of Hrun with _ ?t = _ => assert (Ho1 : mem_ok o (rs_mem t)) by exact Ho end.
  pose proof (v2_add_write_spec o fd (buf_id c) (cqe_res c) _ Ho1 Hr) as Hb. rewrite Hrun in Hb.
  apply builds_inv in Hb as (e & m & (y & _ & ->)%row_update_Some & ->).
  unfold is_i32 in Hi32. unfold mem_ok in Ho. rewrite Hud, Ho.
  eexists _, _. split_and!; [congruence|rewrite v2_built_op|done].
  unfold to_u32. by rewrite Z.mod_small by lia.
Qed.

(** Descriptors of a batch are pairwise different. *)
Lemma batch_distinct s n c rest :
  v2_inv lfd o s n (c :: rest) -> cqe_user_data c ∉ (cqe_user_data <$> rest).
Proof.
  intros [[[l Hl] _ _ _ _ Hn Hp] _]. rewrite <- Hp in Hn. unfold TableInv.pending in Hn.
  rewrite Hl in Hn. cbn [app] in Hn. rewrite (bind_cons _ c), bind_app, app_nil_r in Hn.
  apply NoDup_app in Hn as (_ & _ & Hn). apply NoDup_app in Hn as (_ & _ & Hn).
  apply NoDup_app in Hn as (_ & Hn & _). intros (c' & Hu & Hin)%list_elem_of_fmap.
  apply (Hn (cqe_user_data c)); [by left|]. apply elem_of_app. left. apply list_elem_of_bind.
  exists c'. split; [rewrite Hu; by left|done].
Qed.

(** After a batch of receives only the slot at the tail has been written, once
    per receive, always with the number 0. *)
Lemma batch_of_reads rest s n s' :
  is_fd lfd -> v2_inv lfd o s n rest -> Forall (read_done s) rest ->
  for_each (handle_cqe lfd) rest s = Ok tt s' ->
  buf_added (rs_mem s') = buf_added (rs_mem s) + Z.of_nat (length rest) /\
  same_groups (rs_kern s) (rs_kern s') /\
  (forall i, 0 < i < nr_bufs -> k_slot (rs_kern s') i = k_slot (rs_kern s) i) /\
  (rest = [] \/ rb_bid (k_slot (rs_kern s') 0) = 0).
Proof.
  intros Hfd. revert s n. induction rest as [|c rest IH]; intros s n Hi Hall Hrun.
  { injection Hrun as <-. simpl. split_and!; [lia|done..|by left]. }
  apply Forall_cons in Hall as [Hc Hall]. apply bind_inv_ok in Hrun as ([] & s1 & H1 & Hrun).
  pose proof (v2_inv_handle lfd o Hfd _ _ _ _ _ Hi H1) as Hi1. pose proof (batch_distinct _ _ _ _ Hi) as Hd.
  destruct (handle_read _ _ _ _ _ Hi Hc H1) as (e & x & _ & _ & ->).
  set (k1 := k_buf_ring_add _ _ _ _ _ _) in *.
  assert (Hall1 : Forall (read_done (RState (rs_sq s ++ [e]) k1
      (set_conns (<[Z.to_nat (cqe_user_data c) := x]> (conns (rs_mem s)))
         (set_buf_added (buf_added (rs_mem s) + 1) (rs_mem s))))) rest).
  { destruct Hc as (_ & y & Hy%index_Some & _). apply Forall_forall. intros c' Hin.
    eapply Forall_forall in Hall; [|exact Hin]. destruct Hall as (Hpos & z & Hz & Ht).
    split; [done|]. exists z. split; [|done]. simpl. rewrite index_insert_ne; [done| |lia].
    intros Heq. apply Hd. rewrite Heq. by apply list_elem_of_fmap_2. }
  destruct (IH _ _ Hi1 Hall1 Hrun) as (E1 & E2 & E3 & E4). simpl in E1, E2, E3.
  assert (Hslot : forall i, 0 <= i < nr_bufs ->
    k_slot k1 i = if i =? 0 then RingBuf (APool (msg_len o * buf_id c)) (to_u32 (msg_len o)) 0 else k_slot (rs_kern s) i).
  { intros i Hir. unfold k1. rewrite ring_add_slot, Z.sub_0_r, Z.mod_small by done. done. }
  split_and!.
  - rewrite E1. cbn [length]. lia.
  - intros g. rewrite E2. unfold k1. apply ring_add_frame.
  - intros i Hir. rewrite E3, Hslot by lia. by rewrite (proj2 (Z.eqb_neq i 0)) by lia.
  - right. destruct rest as [|c' rest]; [|by destruct E4]. injection Hrun as <-. simpl. by rewrite Hslot by (unfold nr_bufs; lia).
Qed.

(** C29: the table discipline of version 1 survives.  At every moment of every
    run the descriptors with an outstanding request (queued, in flight, or
    completed and not yet handled) are exactly the listening socket and the
    open connections, each once. *)
Theorem v2_one_request_each s0 x s n :
  is_fd lfd -> loop_entry lfd o s0 -> v2_reachable lfd s0 x -> at_point x s n ->
  pending lfd s n ≡ₚ lfd :: k_conns (rs_kern s) /\ NoDup (pending lfd s n).
Proof.
  intros Hfd He Hr Hs. destruct (at_point_inv _ _ _ _ Hfd He Hr Hs) as [[_ _ _ _ _ Hn Hp] _].
  rewrite app_nil_r in Hp. split; [done|]. unfold pending. by rewrite Hp.
Qed.

(** C30: the server does not echo.  A receive of [n] bytes into buffer [b] of
    the ring leads to one send of [n] bytes on the same connection, but from
    the address of row [b] of the pointer table [bufs], not from the pool the
    message was received into; and the pool's block is put back into the ring,
    while it may still be wanted, under the number 0 instead of [b]. *)
Theorem v2_sends_pointer_table s0 s n c rest s' :
  is_fd lfd -> loop_entry lfd o s0 -> v2_reachable lfd s0 (Batch s n (c :: rest)) ->
  read_done s c -> handle_cqe lfd c s = Ok tt s' ->
  exists e, rs_sq s' = rs_sq s ++ [e] /\
    sqe_op e = OpSend (cqe_user_data c) (ABufs (buf_id c)) (cqe_res c) 0 /\
    k_slot (rs_kern s') 0 = RingBuf (APool (msg_len o * buf_id c)) (to_u32 (msg_len o)) 0.
Proof.
  intros Hfd He Hr Hd Hrun. pose proof (v2_reachable_inv lfd o Hfd _ _ He Hr) as Hi. simpl in Hi.
  destruct (handle_read _ _ _ _ _ Hi Hd Hrun) as (e & x & _ & Hop & ->). exists e. simpl.
  split_and!; [done..|]. by rewrite ring_add_slot.
Qed.

(** Buffers lose their numbers.  After a turn whose batch consists of [m]
    receives, the ring offers [m] more buffers: number 0, whatever was
    received, and the numbers that happened to be in the [m - 1] slots behind
    it.  So with one receive per turn every number but 0 disappears from the
    ring after its first use, and buffer 0 is offered again and again. *)
Theorem v2_returns_buffer_zero s0 s cqes s1 s' :
  is_fd lfd -> loop_entry lfd o s0 -> v2_reachable lfd s0 (BTop s) ->
  turn_start s = Ok cqes s1 -> cqes <> [] -> Forall (read_done s1) cqes ->
  Z.of_nat (length (k_group (rs_kern s1) bgid)) + Z.of_nat (length cqes) <= nr_bufs ->
  event_loop_body lfd s = Ok tt s' ->
  k_group (rs_kern s') bgid = k_group (rs_kern s1) bgid ++
    0 :: ((fun i => rb_bid (k_slot (rs_kern s1) i)) <$> seqZ 1 (Z.of_nat (length cqes) - 1)).
Proof.
  intros Hfd He Hr Hs Hne Hall Hroom Hrun. pose proof (v2_reachable_inv lfd o Hfd _ _ He Hr) as Hi. simpl in Hi.
  pose proof (v2_inv_start lfd o _ _ _ Hi Hs) as Hi1.
  assert (Hz : buf_added (rs_mem s1) = 0).
  { apply bind_inv_ok in Hs as (ret & t & _ & Hs). destruct (ret <? 0); [done|].
    apply bind_inv_ok in Hs as (cs & t1 & _ & Hs). by apply bind_inv_ok in Hs as ([] & t2 & [= <-] & [= _ <-]). }
  unfold event_loop_body in Hrun. rewrite (bind_ok _ _ _ _ _ Hs) in Hrun.
  apply bind_inv_ok in Hrun as ([] & s2 & H2 & Hrun).
  destruct (batch_of_reads _ _ _ _ Hfd Hi1 Hall H2) as (E1 & E2 & E3 & [?|E4]); [done|].
  apply bind_inv_ok in Hrun as (m & s3 & [= <- <-] & Hrun).
  apply bind_inv_ok in Hrun as ([] & s4 & [= <-] & [= <-]). simpl.
  destruct (advance_frame (length cqes) (k_buf_ring_advance (buf_added (rs_mem s2)) (rs_kern s2))) as (_ & _ & ->).
  rewrite E1, Hz, Z.add_0_l in *. destruct cqes as [|c cqes]; [done|]. cbn [length] in *.
  rewrite ring_advance_group; rewrite ?E2; [|lia..]. f_equal. rewrite (seqZ_cons 0), fmap_cons, E4 by lia. f_equal.
  replace (Z.pred (Z.of_nat (S (length cqes)))) with (Z.of_nat (S (length cqes)) - 1) by lia.
  apply list_fmap_ext. intros i y Hy. apply lookup_seqZ in Hy as [-> Hi']. f_equal. apply E3. lia.
Qed.

End v2_theorems.

Section v2_startup.
Context {K : Type} `{!Liburing address Z} `{!Kernel address Z K} `{!Setup K} `{!Register K} `{!BufRing address K}.
Context {entries : nat} `{!LiburingOk address Z entries} `{!KernelOk address Z K}.
Context `{!SetupOk address Z K} `{!RegisterOk address Z K} `{!BufRingOk address Z K bgid nr_bufs}.

(** When start-up returns, the table has [max_connections] rows, one
    accept is queued whose row says so, nothing is in flight, and the buffer
    group offers each of the 1024 buffers of the ring exactly once. *)
Theorem v2_startup_ready argv (s s' : rstate address Z K globals) lfd :
  pristine s -> startup argv s = Ok lfd s' -> is_fd lfd ->
  exists o, loop_entry lfd o s' /\ length (conns (rs_mem s')) = Z.to_nat (max_connections o) /\
    k_group (rs_kern s') bgid = seqZ 0 nr_bufs.
Proof. apply v2_startup_entry. Qed.

End v2_startup.

(** ** A concrete instance *)

Module V2Demo.

Definition blank : sqe address Z := Sqe (OpPollAdd 0 0) 0 0 0 0.
Definition lfd : Z := 3.

Lemma v2_lfd_ok : is_fd lfd.
Proof. unfold is_fd, lfd. lia. Qed.

Definition sane (e : sqe address Z) (c : cqe Z) : Prop :=
  match sqe_op e with
  | OpAccept _ _ _ _ => cqe_res c <> lfd
  | OpRecv _ _ n _ => cqe_res c <= n
  | _ => True
  end.

#[global] Instance sane_dec e c : Decision (sane e c).
Proof. unfold sane. destruct (sqe_op e); apply _. Defined.

(** A client connects as descriptor 5; its message of 100 bytes arrives in
    buffer 7. *)
Definition answer (k : ref_kernel address Z) : nat * Z * Z :=
  match rk_conns k with [] => (0%nat, 5, 0) | _ => (0%nat, 100, Z.lor 1 (Z.shiftl 7 16)) end.

#[local] Instance base : Kernel address Z (ref_kernel address Z) := waiting_kernel_ops sane answer.

Definition kernel : Type := @ring_kernel address (ref_kernel address Z).

#[global] Instance lib : Liburing address Z := ref_liburing 64 blank.
#[global] Instance lib_ok : LiburingOk address Z 64 := ref_liburing_ok 64 blank.
#[global] Instance kern : Kernel address Z kernel := ring_kernel_ops.
#[global] Instance kern_ok : KernelOk address Z kernel := ring_kernel_ok (waiting_kernel_ok sane answer).
#[global] Instance setup : Setup kernel := ref_setup lfd.
#[global] Instance setup_ok : SetupOk address Z kernel := ref_setup_ok lfd.
#[global] Instance reg : Register kernel := ref_register 32.
#[global] Instance reg_ok : RegisterOk address Z kernel := ref_register_ok 32 ltac:(lia).
#[global] Instance ring : BufRing address kernel := ref_buf_ring ref_set_group bgid nr_bufs.

Lemma ref_sets_group : sets_group (ref_set_group (A := address) (U := Z)).
Proof.
  intros g l k. split_and!; try done.
  - apply put_group_eq.
  - intros g' Hne. by apply put_group_ne.
Qed.

#[global] Instance ring_ok : BufRingOk address Z kernel bgid nr_bufs := ref_buf_ring_ok _ _ _ ref_sets_group.

#[global] Instance sockets_ok : SocketsOk (K := kernel) lfd.
Proof.
  assert (Hsane : forall (k k' : kernel) e c, k_post k k' -> posts k k' e c -> sane e c).
  { intros k k' e c [(e' & c' & Hp & Hs) _] Hp'. by destruct (posts_functional _ _ _ _ _ _ Hp' Hp) as [-> ->]. }
  split; intros k k' e c; [intros fd a l fl Hk Hp Hop|intros fd b n fl Hk Hp Hop _];
    specialize (Hsane _ _ _ _ Hk Hp); unfold sane in Hsane; by rewrite Hop in Hsane.
Qed.

Definition post (i : nat) (res flags : Z) (k : kernel) : option kernel :=
  (fun k' => (k', k.2)) <$> ref_post sane i res flags k.1.

Lemma v2_demo_post i res flags k k' : post i res flags k = Some k' -> k_post k k'.
Proof. intros (k1 & Hk & ->)%fmap_Some. split; [|done]. by apply ref_post_posts in Hk. Qed.

Definition options_of : options := Options 8884 false 8 2046.

(** Buffers 7, 8 and 9 are available; slot [i] behind the tail says [i]. *)
Definition s0 : rstate address Z kernel globals :=
  RState [built options_of (OpAccept lfd AClientAddr AClientLen 0) lfd blank]
    (RefK [] [] (fun _ => [7; 8; 9]) [], fun i => RingBuf ANull 0 i)
    (Globals options_of (<[3%nat := ConnInfo lfd ACCEPT false ANull]> (replicate 8 (ConnInfo 0 0 false ANull)))
       (ABlock <$> seqZ 0 8) [] 0).

Lemma v2_s0_entry : loop_entry lfd options_of s0.
Proof.
  split; [done| |done..]. eexists. split; [done|]. split; [|done].
  apply described_accept; [done| |done]. unfold row_of. eauto.
Qed.

Definition demo_run (acts : list action) :=
  brun post turn_start (handle_cqe lfd) turn_end acts (BTop s0).
Definition at_end (acts : list action) := bstate_of s0 (demo_run acts).

Lemma v2_demo_reachable acts : v2_reachable lfd s0 (demo_run acts).
Proof. apply (brun_steps post _ _ _ v2_demo_post). Qed.

Lemma v2_demo_batch acts n rest :
  batch_of (demo_run acts) = Some (n, rest) -> v2_reachable lfd s0 (Batch (at_end acts) n rest).
Proof. intros Hn. unfold at_end. rewrite <- (batch_of_eq _ _ _ _ Hn). apply v2_demo_reachable. Qed.

Definition accepted : list action := [Start; Handle; End].
Definition received : list action := accepted ++ [Start].
Definition read7 : cqe Z := Cqe 5 100 (Z.lor 1 (Z.shiftl 7 16)).

End V2Demo.

Lemma v2_one_request_each_witness :
  let s := V2Demo.at_end V2Demo.received in
  pending V2Demo.lfd s 0 ≡ₚ V2Demo.lfd :: k_conns (rs_kern s) /\ NoDup (pending V2Demo.lfd s 0).
Proof.
  intros s. apply (v2_one_request_each V2Demo.lfd V2Demo.options_of V2Demo.s0
    (V2Demo.demo_run V2Demo.received) s 0).
  - apply V2Demo.v2_lfd_ok.
  - apply V2Demo.v2_s0_entry.
  - apply V2Demo.v2_demo_reachable.
  - right. exists [V2Demo.read7]. vm_compute. reflexivity.
Defined.

Lemma v2_sends_pointer_table_witness :
  let s := V2Demo.at_end V2Demo.received in
  exists e, rs_sq (final (handle_cqe V2Demo.lfd V2Demo.read7 s)) = rs_sq s ++ [e] /\
    sqe_op e = OpSend 5 (ABufs 7) 100 0 /\
    k_slot (rs_kern (final (handle_cqe V2Demo.lfd V2Demo.read7 s))) 0 = RingBuf (APool (2046 * 7)) 2046 0.
Proof.
  intros s. apply (v2_sends_pointer_table V2Demo.lfd V2Demo.options_of V2Demo.s0 s 0 V2Demo.read7 []).
  - apply V2Demo.v2_lfd_ok.
  - apply V2Demo.v2_s0_entry.
  - apply V2Demo.v2_demo_batch. vm_compute. reflexivity.
  - split; [done|]. eexists. split; [vm_compute; reflexivity|reflexivity].
  - vm_compute. reflexivity.
Defined.

Lemma v2_returns_buffer_zero_witness :
  let s := V2Demo.at_end V2Demo.accepted in
  k_group (rs_kern (final (event_loop_body V2Demo.lfd s))) bgid = [8; 9] ++ [0].
Proof.
  intros s. transitivity (k_group (rs_kern (final (turn_start s))) bgid ++
    0 :: ((fun i => rb_bid (k_slot (rs_kern (final (turn_start s))) i)) <$> seqZ 1 (Z.of_nat 1 - 1)));
    [|vm_compute; reflexivity].
  apply (v2_returns_buffer_zero V2Demo.lfd V2Demo.options_of V2Demo.s0 s [V2Demo.read7]).
  - apply V2Demo.v2_lfd_ok.
  - apply V2Demo.v2_s0_entry.
  - apply (V2Demo.v2_demo_reachable V2Demo.accepted).
  - vm_compute. reflexivity.
  - done.
  - apply Forall_singleton. split; [done|]. eexists. split; [vm_compute; reflexivity|reflexivity].
  - vm_compute. discriminate.
  - vm_compute. reflexivity.
Defined.

(** [./server -p 8884 -n 4 -f] *)
Lemma v2_startup_ready_witness :
  let argv := [chars "server"; chars "-p"; chars "8884"; chars "-n"; chars "4"; chars "-f"] in
  let s := RState [] (RefK [] [] (fun _ => []) [], fun _ => RingBuf ANull 0 0) (Globals default_options [] [] [] 0) in
  exists o, loop_entry V2Demo.lfd o (final (startup argv s)) /\
    length (conns (rs_mem (final (startup argv s)))) = Z.to_nat (max_connections o) /\
    k_group (rs_kern (final (startup argv s))) bgid = seqZ 0 nr_bufs.
Proof.
  intros argv s. apply (v2_startup_ready argv s _ V2Demo.lfd).
  - by split.
  - apply returns_final. vm_compute. reflexivity.
  - apply V2Demo.v2_lfd_ok.
Defined.
