(* ===== verification/EchoV3.v ===== *)
(** * The multishot-poll echo server: [io_uring_echo_server_v3.c]

    One multishot poll per connection announces data; each announcement queues
    a receive, each receive a send.  There are three tables of [conn_info],
    for reads (and the accept), writes and polls, and one buffer per
    descriptor; the [user_data] of a request is the address of its row.  The
    thread [main] starts only sleeps and is left out. *)

From S2P Require Import Prelude Uring Tables BatchLoop Libc Setup Options Registration.

Definition BACKLOG : Z := 8192.

Definition ACCEPT : Z := 0.
Definition POLL_LISTEN : Z := 1.
Definition POLL_NEW_CONNECTION : Z := 2.
Definition READ : Z := 3.
Definition WRITE : Z := 4.
Definition POLL_IN_READY : Z := 5.

Definition POLLIN : Z := 1.

Record conn_info : Type := ConnInfo {
  fd : Z;   (* unsigned *)
  type : Z  (* unsigned *)
}.

(** A [struct conn_info *]: a row of one of the three tables. *)
Inductive conn_ptr : Type :=
| PRead (i : Z)
| PWrite (i : Z)
| PPoll (i : Z).

#[export] Instance conn_ptr_eq_dec : EqDecision conn_ptr.
Proof. solve_decision. Defined.

Inductive address : Type :=
| AClientAddr
| AClientLen
| ABuf (i : Z).

(** The global variables, and the local [clients] of [main]. *)
Record globals : Type := Globals {
  opt : options;
  conns_read : list conn_info;
  conns_write : list conn_info;
  conns_poll : list conn_info;
  bufs : list address;
  registered_files : list Z;
  clients : Z
}.

Definition set_opt (o : options) (g : globals) : globals :=
  Globals o (conns_read g) (conns_write g) (conns_poll g) (bufs g) (registered_files g) (clients g).
Definition set_bufs (l : list address) (g : globals) : globals :=
  Globals (opt g) (conns_read g) (conns_write g) (conns_poll g) l (registered_files g) (clients g).
Definition set_registered (l : list Z) (g : globals) : globals :=
  Globals (opt g) (conns_read g) (conns_write g) (conns_poll g) (bufs g) l (clients g).
Definition set_clients (n : Z) (g : globals) : globals :=
  Globals (opt g) (conns_read g) (conns_write g) (conns_poll g) (bufs g) (registered_files g) n.

(** The table and the row a pointer refers to. *)
Definition table (p : conn_ptr) (g : globals) : list conn_info :=
  match p with PRead _ => conns_read g | PWrite _ => conns_write g | PPoll _ => conns_poll g end.
Definition set_table (p : conn_ptr) (l : list conn_info) (g : globals) : globals :=
  match p with
  | PRead _ => Globals (opt g) l (conns_write g) (conns_poll g) (bufs g) (registered_files g) (clients g)
  | PWrite _ => Globals (opt g) (conns_read g) l (conns_poll g) (bufs g) (registered_files g) (clients g)
  | PPoll _ => Globals (opt g) (conns_read g) (conns_write g) l (bufs g) (registered_files g) (clients g)
  end.
Definition row (p : conn_ptr) : Z :=
  match p with PRead i => i | PWrite i => i | PPoll i => i end.

Section server.
Context {K : Type} `{!Liburing address conn_ptr} `{!Kernel address conn_ptr K} `{!Setup K} `{!Register K}.

Local Abbreviation st := (rstate address conn_ptr K globals).

(** [conn_i->fd = fd; conn_i->type = type] *)
Definition set_conn (conn_i : conn_ptr) (fd type : Z) : M st unit :=
  store (table conn_i) (set_table conn_i) (row conn_i) (ConnInfo (to_u32 fd) type).

(** [if (registerfiles) sqe->flags |= IOSQE_FIXED_FILE] *)
Definition fixed_file (sqe : option nat) : M st unit :=
  o ← read_globals opt;
  if registerfiles o then sqe_update sqe (sqe_or_flags IOSQE_FIXED_FILE) else mret tt.

Definition add_accept (fd : Z) (client_addr client_len : address) (flags : Z) : M st unit :=
  sqe ← io_uring_get_sqe;
  io_uring_prep sqe (OpAccept fd client_addr client_len 0) ;;
  io_uring_sqe_set_flags sqe flags ;;
  fixed_file sqe ;;
  set_conn (PRead fd) fd ACCEPT ;;
  set_user_data sqe (PRead fd).

Definition add_poll_read (fd size : Z) (is_poll : bool) : M st unit :=
  sqe ← io_uring_get_sqe;
  if is_poll then
    io_uring_prep sqe (OpPollAdd fd POLLIN) ;;
    sqe_update sqe (sqe_put_len 1) ;;
    set_conn (PPoll fd) fd POLL_IN_READY ;;
    set_user_data sqe (PPoll fd)
  else
    buf ← load bufs fd;
    io_uring_prep sqe (OpRecv fd buf (to_u32 size) 0) ;;
    io_uring_sqe_set_flags sqe 0 ;;
    fixed_file sqe ;;
    set_conn (PRead fd) fd READ ;;
    set_user_data sqe (PRead fd).

Definition add_socket_write (fd size flags : Z) : M st unit :=
  sqe ← io_uring_get_sqe;
  buf ← load bufs fd;
  io_uring_prep sqe (OpSend fd buf (to_u32 size) 0) ;;
  io_uring_sqe_set_flags sqe flags ;;
  fixed_file sqe ;;
  set_conn (PWrite fd) fd WRITE ;;
  set_user_data sqe (PWrite fd).

Definition register_conn (sock_conn_fd : Z) : M st unit :=
  Registration.register_conn opt registered_files set_registered sock_conn_fd.

(** [clients++] on an [int]. *)
Definition count_client : M st unit :=
  n ← read_globals clients;
  if n + 1 <? 2 ^ 31 then write_globals (set_clients (n + 1)) else ub.

(** The body of the loop over the batch. *)
Definition handle_cqe (sock_listen_fd : Z) (c : cqe conn_ptr) : M st unit :=
  user_data ← load (table (cqe_user_data c)) (row (cqe_user_data c));
  o ← read_globals opt;
  let ufd := to_i32 (fd user_data) in
  if type user_data =? ACCEPT then
    let sock_conn_fd := cqe_res c in
    io_uring_cqe_seen ;;
    register_conn sock_conn_fd ;;
    add_poll_read sock_conn_fd (msg_len o) true ;;
    add_accept sock_listen_fd AClientAddr AClientLen 0 ;;
    count_client
  else if type user_data =? READ then
    let bytes_read := cqe_res c in
    if bytes_read <=? 0 then
      io_uring_cqe_seen ;;
      shutdown ufd SHUT_RDWR ;; close ufd ;; mret tt
    else
      io_uring_cqe_seen ;;
      add_socket_write ufd bytes_read 0
  else if type user_data =? WRITE then
    io_uring_cqe_seen
  else if type user_data =? POLL_IN_READY then
    add_poll_read ufd (msg_len o) false ;;
    io_uring_cqe_seen
  else mret tt.

Definition turn_start : M st (list (cqe conn_ptr)) :=
  ret ← io_uring_submit_and_wait 1;
  if ret <? 0 then exit_ 1 else io_uring_peek_batch_cqe (Z.to_nat BACKLOG).

(** Nothing is left to do after the batch. *)
Definition turn_end (_ : nat) : M st unit := mret tt.

Definition event_loop_body (sock_listen_fd : Z) : M st unit :=
  cqes ← turn_start; for_each (handle_cqe sock_listen_fd) cqes.

Definition v3_reachable (sock_listen_fd : Z) :=
  breachable turn_start (handle_cqe sock_listen_fd) turn_end.

(** ** Start-up *)

Definition init_registerfiles (conns : Z) : M st Z := init_files set_registered conns.

(** [conns_x = calloc(sizeof(struct conn_info), max_connections)] *)
Definition alloc_conns (p : conn_ptr) : M st unit :=
  o ← read_globals opt;
  ok ← syscall (k_calloc 8 (to_u64 (max_connections o)));
  if negb ok then exit_ 1 else
  write_globals (set_table p (replicate (Z.to_nat (max_connections o)) (ConnInfo 0 0))).

(** The loop that fills [bufs]. *)
Definition alloc_bufs (n : nat) : M st (list address) := Registration.alloc_bufs opt ABuf n 0.

(** The tables.  A NULL [bufs] is stored to when there is a row to fill. *)
Definition alloc_tables (o : options) : M st unit :=
  let n := max_connections o + 32 in
  if negb (n <? 2 ^ 31) then ub else
  write_globals (set_opt (Options (portno o) (registerfiles o) n (msg_len o))) ;;
  alloc_conns (PRead 0) ;;
  alloc_conns (PWrite 0) ;;
  alloc_conns (PPoll 0) ;;
  ok ← syscall (k_calloc 8 (to_u64 n));
  if negb ok && (0 <? n) then ub else
  rows ← alloc_bufs (Z.to_nat n);
  write_globals (set_bufs rows).

Definition setup_socket (port : Z) : M st Z :=
  sock_listen_fd ← socket AF_INET SOCK_STREAM 0;
  setsockopt sock_listen_fd SOL_SOCKET SO_REUSEADDR 1 ;;
  let serv_addr := SockAddrIn AF_INET (htons port) INADDR_ANY in
  ret ← bind sock_listen_fd serv_addr;
  if ret <? 0 then exit_ 1 else
  ret ← listen sock_listen_fd BACKLOG;
  if ret <? 0 then exit_ 1 else
  mret sock_listen_fd.

(** [params.flags = 1 << 8 | 1 << 12 | 1 << 13] *)
Definition setup_flags : Z := Z.lor (Z.lor (Z.shiftl 1 8) (Z.shiftl 1 12)) (Z.shiftl 1 13).

Definition setup_ring : M st unit :=
  o ← read_globals opt;
  r ← io_uring_queue_init_params (to_u32 (max_connections o)) (Params setup_flags 0 0 0);
  if r.1 <? 0 then exit_ 1 else
  if negb (has_flag (p_features r.2) IORING_FEAT_FAST_POLL) then exit_ 0 else mret tt.

Definition register_listener (sock_listen_fd : Z) : M st unit :=
  Registration.register_listener opt registered_files set_registered
    (fun o => init_registerfiles (max_connections o)) sock_listen_fd.

Definition startup (argv : list (list Z)) : M st Z :=
  o ← parse_options argv;
  alloc_tables o ;;
  sock_listen_fd ← setup_socket (portno o);
  setup_ring ;;
  register_listener sock_listen_fd ;;
  add_accept sock_listen_fd AClientAddr AClientLen 0 ;;
  mret sock_listen_fd.

End server.
