(* ===== verification/EchoV3Inv.v ===== *)
(** * Truthful tables in the multishot-poll echo server

    Unlike version 1, a connection may have any number of requests at a time:
    every announcement of its poll queues a receive.  What keeps the decoding
    of completions right is that a row of a table is only ever given one
    meaning: row [fd] of [conns_poll] is "poll on [fd]", of [conns_write] "send
    on [fd]", of [conns_read] "receive on [fd]", except for the listening
    socket's row, which is "accept".  The invariant says so, and that one
    accept is outstanding. *)

From S2P Require Import Prelude Uring Tables BatchLoop Libc Setup Options Registration EchoV3.

Section invariant.
Context {K : Type} `{!Liburing address conn_ptr} `{!Kernel address conn_ptr K} `{!Setup K} `{!Register K}.
Context {entries : nat} `{!LiburingOk address conn_ptr entries} `{!MultishotOk address conn_ptr K}.
Context `{!SetupOk address conn_ptr K} `{!RegisterOk address conn_ptr K}.
Context (lfd : Z) (o : options).

Local Abbreviation st := (rstate address conn_ptr K globals).

(** ** What a row means *)

Definition meaning (p : conn_ptr) : conn_info :=
  match p with
  | PRead i => ConnInfo i (if i =? lfd then ACCEPT else READ)
  | PWrite i => ConnInfo i WRITE
  | PPoll i => ConnInfo i POLL_IN_READY
  end.

Definition conn_at (g : globals) (p : conn_ptr) : option conn_info := index (table p g) (row p).
Definition put_conn (p : conn_ptr) (x : conn_info) (g : globals) : globals :=
  set_table p (<[Z.to_nat (row p) := x]> (table p g)) g.

(** The row [p] points to has been given its meaning. *)
Definition truthful (g : globals) (p : conn_ptr) : Prop := conn_at g p = Some (meaning p).

Lemma put_conn_truthful g p q : 0 <= row p -> truthful g q -> truthful (put_conn p (meaning p) g) q.
Proof.
  unfold truthful, conn_at. intros Hp Hq. destruct (decide (p = q)) as [<-|Hne].
  - by destruct p; simpl in *; apply (index_insert_eq _ _ _ _ Hq).
  - destruct p as [i|i|i], q as [j|j|j]; simpl in *; try done;
      rewrite index_insert_ne; done || congruence.
Qed.

Lemma put_conn_new g p x : conn_at g p = Some x -> truthful (put_conn p (meaning p) g) p.
Proof. intros Hx. unfold truthful, conn_at. by destruct p; simpl in *; apply (index_insert_eq _ _ _ _ Hx). Qed.

(** ** Requests and completions *)

(** The requests the server makes, by the row their user data points to. *)
Inductive request (e : sqe address conn_ptr) : conn_ptr -> Prop :=
| request_accept :
    sqe_op e = OpAccept lfd AClientAddr AClientLen 0 -> request e (PRead lfd)
| request_read fd :
    fd <> lfd -> is_fd fd -> sqe_op e = OpRecv fd (ABuf fd) (to_u32 (msg_len o)) 0 ->
    request e (PRead fd)
| request_write fd n :
    fd <> lfd -> is_fd fd -> sqe_op e = OpSend fd (ABuf fd) n 0 -> 0 < n <= to_u32 (msg_len o) ->
    request e (PWrite fd)
| request_poll fd :
    fd <> lfd -> is_fd fd -> sqe_op e = OpPollAdd fd POLLIN -> sqe_len e = 1 ->
    request e (PPoll fd).

Inductive answer (c : cqe conn_ptr) : conn_ptr -> Prop :=
| answer_accept :
    is_i32 (cqe_res c) -> cqe_res c <> lfd -> answer c (PRead lfd)
| answer_read fd :
    fd <> lfd -> is_fd fd -> is_i32 (cqe_res c) -> cqe_res c <= to_u32 (msg_len o) ->
    answer c (PRead fd)
| answer_write fd : fd <> lfd -> is_fd fd -> answer c (PWrite fd)
| answer_poll fd : fd <> lfd -> is_fd fd -> answer c (PPoll fd).

Definition request_ok (g : globals) (e : sqe address conn_ptr) : Prop :=
  truthful g (sqe_user_data e) /\ request e (sqe_user_data e).
Definition answer_ok (g : globals) (c : cqe conn_ptr) : Prop :=
  truthful g (cqe_user_data c) /\ answer c (cqe_user_data c).

(** The rows of the outstanding requests. *)
Definition outstanding (s : st) : list conn_ptr :=
  (sqe_user_data <$> rs_sq s) ++ (sqe_user_data <$> k_inflight (rs_kern s)) ++
  (cqe_user_data <$> k_cq (rs_kern s)).

(** How many accepts are outstanding. *)
Definition accepts (l : list conn_ptr) : nat := length (filter (fun p => p = PRead lfd) l).

Lemma accepts_app l k : accepts (l ++ k) = (accepts l + accepts k)%nat.
Proof. unfold accepts. by rewrite filter_app, length_app. Qed.

Lemma accepts_cons p l : accepts (p :: l) = ((if decide (p = PRead lfd) then 1 else 0) + accepts l)%nat.
Proof. unfold accepts. rewrite filter_cons. by destruct (decide _). Qed.

#[global] Instance accepts_proper : Proper ((≡ₚ) ==> eq) accepts.
Proof. intros l k Hlk. unfold accepts. by rewrite Hlk. Qed.

(** All tables have a row for the same descriptors. *)
Record tables_ok (g : globals) : Prop := TablesOk {
  to_opt : opt g = o;
  to_bufs : bufs g = ABuf <$> seqZ 0 (Z.of_nat (length (bufs g)));
  to_read : length (conns_read g) = length (bufs g);
  to_write : length (conns_write g) = length (bufs g);
  to_poll : length (conns_poll g) = length (bufs g)
}.

(** The invariant while the handler still owes [owed] accepts and the
    completions [rest] of the batch are to come. *)
Record holding (s : st) (rest : list (cqe conn_ptr)) (owed : nat) : Prop := Holding {
  vi_rest : rest `prefix_of` k_cq (rs_kern s);
  vi_tables : tables_ok (rs_mem s);
  vi_sq : Forall (request_ok (rs_mem s)) (rs_sq s);
  vi_inflight : Forall (request_ok (rs_mem s)) (k_inflight (rs_kern s));
  vi_cq : Forall (answer_ok (rs_mem s)) (k_cq (rs_kern s));
  vi_accepts : (accepts (outstanding s) + owed = 1)%nat
}.

Definition v3_inv (s : st) (rest : list (cqe conn_ptr)) : Prop := holding s rest 0.

(** ** The builders *)

Definition queued (e : sqe address conn_ptr) (p : conn_ptr) (s : st) : st :=
  RState (rs_sq s ++ [e]) (rs_kern s) (put_conn p (meaning p) (rs_mem s)).

Definition fixed (e : sqe address conn_ptr) : sqe address conn_ptr :=
  if registerfiles o then sqe_or_flags IOSQE_FIXED_FILE e else e.

(** The entries of the builders. *)
Definition built (op : io_op address) (p : conn_ptr) (e : sqe address conn_ptr) : sqe address conn_ptr :=
  sqe_put_user_data p (fixed (lib_set_flags 0 (lib_prep op e))).
Definition built_poll (fd : Z) (e : sqe address conn_ptr) : sqe address conn_ptr :=
  sqe_put_user_data (PPoll fd) (sqe_put_len 1 (lib_prep (OpPollAdd fd POLLIN) e)).

Lemma v3_built_op op p e : sqe_op (built op p e) = op.
Proof. unfold built, fixed. destruct (registerfiles o); simpl; by rewrite set_flags_op, prep_op. Qed.

Lemma built_poll_op fd e : sqe_op (built_poll fd e) = OpPollAdd fd POLLIN.
Proof. unfold built_poll; simpl. apply prep_op. Qed.

(** Setting a row whose meaning is to be that of [p]. *)
Lemma v3_set_conn_spec p (s : st) :
  row p < 2 ^ 31 ->
  set_conn p (row p) (type (meaning p)) s =
    match conn_at (rs_mem s) p with
    | Some _ => Ok tt (put_mem (put_conn p (meaning p) (rs_mem s)) s)
    | None => Ub s
    end.
Proof.
  intros Hp. unfold set_conn. rewrite store_spec. fold (conn_at (rs_mem s) p).
  destruct (conn_at (rs_mem s) p) as [x|] eqn:Hx; [|done]. apply index_Some in Hx. unfold put_conn.
  replace (ConnInfo (to_u32 (row p)) (type (meaning p))) with (meaning p); [done|].
  rewrite to_u32_id by (unfold is_u32; lia). by destruct p.
Qed.

(** Stores through one pointer, then the row, then the user data. *)
Lemma finish_entry i e e0 p (s : st) :
  row p < 2 ^ 31 -> rs_sq s !! i = Some e0 ->
  exists t, (set_conn p (row p) (type (meaning p)) ;; set_user_data (Some i) p) (put_entry i e s) =
    match conn_at (rs_mem s) p with
    | Some _ => Ok tt (put_entry i (sqe_put_user_data p e) (put_mem (put_conn p (meaning p) (rs_mem s)) s))
    | None => Ub t
    end.
Proof.
  intros Hp He. exists (put_entry i e s). unfold mbind, M_bind. rewrite v3_set_conn_spec by done. simpl.
  destruct (conn_at _ _); [|done]. exact (sqe_update_entry i _ _ e0 (put_mem _ s) He).
Qed.

Lemma v3_fixed_file_spec i e e0 (s : st) :
  opt (rs_mem s) = o -> rs_sq s !! i = Some e0 ->
  fixed_file (Some i) (put_entry i e s) = Ok tt (put_entry i (fixed e) s).
Proof.
  intros Ho He. unfold fixed_file, fixed. mred. simpl. rewrite Ho.
  destruct (registerfiles o); [by eapply sqe_update_entry|done].
Qed.

(** What a builder does when its entry ends up as [f] of the vacant one. *)
Definition builds_row (f : sqe address conn_ptr -> sqe address conn_ptr) (p : conn_ptr) : st ->
    outcome st unit -> Prop :=
  builds f (fun g => match conn_at g p with Some _ => Some (put_conn p (meaning p) g) | None => None end).

(** From the part of a builder that follows [io_uring_get_sqe]. *)
Lemma get_sqe_builds_row f p (k : option nat -> M st unit) (s : st) :
  (forall i t e, rs_sq t !! i = Some e -> rs_mem t = rs_mem s -> exists t', k (Some i) t =
     match conn_at (rs_mem t) p with
     | Some _ => Ok tt (put_entry i (f e) (put_mem (put_conn p (meaning p) (rs_mem t)) t))
     | None => Ub t'
     end) ->
  (exists t, k None s = Ub t) ->
  builds_row f p s ((io_uring_get_sqe ≫= k) s).
Proof.
  intros Hsome Hnone. apply get_sqe_builds; [|done]. intros i t e He Hm.
  destruct (Hsome i t e He Hm) as [t' ->]. exists t'. by destruct (conn_at _ _).
Qed.

Lemma builds_row_inv f p (s s' : st) :
  builds_row f p s (Ok tt s') ->
  exists e x, conn_at (rs_mem s) p = Some x /\ s' = queued (f e) p s.
Proof.
  intros (e & m & Hm & ->)%builds_inv. destruct (conn_at (rs_mem s) p) as [x|]; [|done].
  injection Hm as <-. by exists e, x.
Qed.

Lemma v3_fill_entry op p i e (s : st) :
  row p < 2 ^ 31 -> opt (rs_mem s) = o -> rs_sq s !! i = Some e ->
  exists t, (io_uring_prep (Some i) op ;; io_uring_sqe_set_flags (Some i) 0 ;; fixed_file (Some i) ;;
    set_conn p (row p) (type (meaning p)) ;; set_user_data (Some i) p) s =
    match conn_at (rs_mem s) p with
    | Some _ => Ok tt (put_entry i (built op p e) (put_mem (put_conn p (meaning p) (rs_mem s)) s))
    | None => Ub t
    end.
Proof.
  intros Hp Ho He.
  destruct (finish_entry i (fixed (lib_set_flags 0 (lib_prep op e))) e p s Hp He) as [t Ht].
  exists t. rewrite <- (put_entry_id i e s He) at 1.
  unfold io_uring_prep, io_uring_sqe_set_flags.
  rewrite !(bind_ok _ _ _ _ _ (sqe_update_entry _ _ _ _ _ He)).
  by rewrite (bind_ok _ _ _ _ _ (v3_fixed_file_spec _ _ _ _ Ho He)).
Qed.

Context (Hlfd : is_fd lfd).

Lemma v3_add_accept_spec (s : st) :
  tables_ok (rs_mem s) ->
  builds_row (built (OpAccept lfd AClientAddr AClientLen 0) (PRead lfd)) (PRead lfd) s
    (add_accept lfd AClientAddr AClientLen 0 s).
Proof.
  intros Ht. apply get_sqe_builds_row; [|by exists s]. intros i t e He Hm.
  assert (Hk : ACCEPT = type (meaning (PRead lfd))) by (simpl; by rewrite Z.eqb_refl).
  rewrite Hk. apply (v3_fill_entry _ (PRead lfd)); [apply Hlfd| |done]. rewrite Hm. apply Ht.
Qed.

Lemma v3_add_poll_spec fd size (s : st) :
  fd < 2 ^ 31 -> builds_row (built_poll fd) (PPoll fd) s (add_poll_read fd size true s).
Proof.
  intros Hfd. apply get_sqe_builds_row; [|by exists s]. intros i t e He _. cbn beta iota.
  destruct (finish_entry i (sqe_put_len 1 (lib_prep (OpPollAdd fd POLLIN) e)) e (PPoll fd) t Hfd He) as [t' Ht'].
  exists t'. rewrite <- (put_entry_id i e t He) at 1. unfold io_uring_prep.
  by rewrite !(bind_ok _ _ _ _ _ (sqe_update_entry _ _ _ _ _ He)).
Qed.

(** Row [fd] of [bufs], when any table has a row [fd]. *)
Lemma load_buf g p x : tables_ok g -> conn_at g p = Some x -> index (bufs g) (row p) = Some (ABuf (row p)).
Proof.
  intros [_ Hb H1 H2 H3] Hx%index_Some. rewrite Hb. unfold index.
  assert (Hr : 0 <= row p < Z.of_nat (length (bufs g))) by (destruct p; simpl in *; lia).
  rewrite (proj2 (Z.leb_le _ _)), list_lookup_fmap, lookup_seqZ_lt by lia. simpl. do 2 f_equal. lia.
Qed.

Lemma no_buf g p : tables_ok g -> conn_at g p = None -> index (bufs g) (row p) = None.
Proof.
  intros [_ Hb H1 H2 H3] Hx%index_None. destruct (index (bufs g) (row p)) eqn:He; [|done].
  apply index_Some in He. destruct p; simpl in *; lia.
Qed.

(** The two builders that use a buffer. *)
Lemma buf_builds (mk : address -> io_op address) p (s : st) :
  row p < 2 ^ 31 -> tables_ok (rs_mem s) ->
  builds_row (built (mk (ABuf (row p))) p) p s
    ((sqe ← io_uring_get_sqe; buf ← load bufs (row p); io_uring_prep sqe (mk buf) ;;
      io_uring_sqe_set_flags sqe 0 ;; fixed_file sqe ;;
      set_conn p (row p) (type (meaning p)) ;; set_user_data sqe p) s).
Proof.
  intros Hp Ht. apply get_sqe_builds_row.
  - intros i t e He Hm. rewrite <- Hm in Ht. destruct (conn_at (rs_mem t) p) as [x|] eqn:Hx.
    + destruct (v3_fill_entry (mk (ABuf (row p))) p i e t Hp (to_opt _ Ht) He) as [t' Ht'].
      rewrite Hx in Ht'. exists t'.
      by rewrite (bind_ok _ _ _ _ _ (load_ok _ _ _ _ (load_buf _ _ _ Ht Hx))).
    + exists t. apply bind_ub. by rewrite load_spec, (no_buf _ _ Ht Hx).
  - exists s. destruct (index (bufs (rs_mem s)) (row p)) as [b|] eqn:Hb.
    + by rewrite (bind_ok _ _ _ _ _ (load_ok _ _ _ _ Hb)).
    + apply bind_ub. by rewrite load_spec, Hb.
Qed.

Lemma read_meaning fd : fd <> lfd -> READ = type (meaning (PRead fd)).
Proof. intros Hne. simpl. by rewrite (proj2 (Z.eqb_neq _ _) Hne). Qed.

Lemma v3_add_read_spec fd size (s : st) :
  fd < 2 ^ 31 -> fd <> lfd -> tables_ok (rs_mem s) ->
  builds_row (built (OpRecv fd (ABuf fd) (to_u32 size) 0) (PRead fd)) (PRead fd) s
    (add_poll_read fd size false s).
Proof.
  intros Hfd Hne Ht. unfold add_poll_read. rewrite (read_meaning fd Hne).
  by apply (buf_builds (fun b => OpRecv fd b (to_u32 size) 0) (PRead fd)).
Qed.

Lemma v3_add_write_spec fd size (s : st) :
  fd < 2 ^ 31 -> tables_ok (rs_mem s) ->
  builds_row (built (OpSend fd (ABuf fd) (to_u32 size) 0) (PWrite fd)) (PWrite fd) s
    (add_socket_write fd size 0 s).
Proof.
  intros Hfd Ht. by apply (buf_builds (fun b => OpSend fd b (to_u32 size) 0) (PWrite fd)).
Qed.

(** ** What the handler's steps do to the invariant *)

Lemma tables_ok_put p x g : tables_ok g -> tables_ok (put_conn p x g).
Proof. intros [H1 H2 H3 H4 H5]. destruct p; split; simpl; rewrite ?length_insert; done. Qed.

Lemma requests_put p g l :
  0 <= row p -> Forall (request_ok g) l -> Forall (request_ok (put_conn p (meaning p) g)) l.
Proof.
  intros Hp Hl. eapply Forall_impl; [exact Hl|]. intros e [Ht Hr]. split; [by apply put_conn_truthful|done].
Qed.

Lemma answers_put p g l :
  0 <= row p -> Forall (answer_ok g) l -> Forall (answer_ok (put_conn p (meaning p) g)) l.
Proof.
  intros Hp Hl. eapply Forall_impl; [exact Hl|]. intros c [Ht Hr]. split; [by apply put_conn_truthful|done].
Qed.

(** The accepts a request or a completion on row [p] stands for. *)
Definition accept_at (p : conn_ptr) : nat := if decide (p = PRead lfd) then 1 else 0.

(** A builder that returns has queued a request that its row describes. *)
Lemma hold_builds f p s rest owed owed' s' :
  holding s rest owed -> builds_row f p s (Ok tt s') ->
  (forall e, sqe_user_data (f e) = p /\ (is_fd (row p) -> request (f e) p)) ->
  row p < 2 ^ 31 -> owed = (accept_at p + owed')%nat ->
  holding s' rest owed' /\ is_fd (row p).
Proof.
  intros [H1 H2 H3 H4 H5 H6] (e & x & Hx & ->)%builds_row_inv Hf Hp ->.
  pose proof (index_Some _ _ _ Hx) as Hrow. destruct (Hf e) as [Hu Hr].
  assert (Hfd : is_fd (row p)) by (unfold is_fd; lia). split; [|done].
  split; simpl; [done|by apply tables_ok_put| | | |].
  - apply Forall_app. split; [apply requests_put; [lia|done]|]. apply Forall_singleton.
    split; rewrite Hu; [by eapply put_conn_new|by apply Hr].
  - apply requests_put; [lia|done].
  - apply answers_put; [lia|done].
  - rewrite <- H6. unfold outstanding; simpl.
    rewrite !fmap_app, !accepts_app, fmap_cons, accepts_cons, Hu. unfold accept_at. destruct (decide (p = PRead lfd)); unfold accepts; simpl; lia.
Qed.

Lemma v3_hold_view s rest owed k' :
  holding s rest owed -> same_view (rs_kern s) k' -> holding (put_kern k' s) rest owed.
Proof.
  intros [H1 H2 H3 H4 H5 H6] (Vi & Vc & _).
  split; simpl; rewrite ?Vi, ?Vc; try done. unfold outstanding in *; simpl. by rewrite Vi, Vc.
Qed.

(** Changes to the other global variables. *)
Lemma v3_hold_mem s rest owed g :
  holding s rest owed -> opt g = opt (rs_mem s) -> bufs g = bufs (rs_mem s) ->
  (forall p, table p g = table p (rs_mem s)) -> holding (put_mem g s) rest owed.
Proof.
  intros [H1 [T1 T2 T3 T4 T5] H3 H4 H5 H6] E1 E2 E3.
  pose proof (E3 (PRead 0)) as R. pose proof (E3 (PWrite 0)) as W. pose proof (E3 (PPoll 0)) as P.
  assert (Ht : forall p, truthful (rs_mem s) p -> truthful g p).
  { intros p. unfold truthful, conn_at. by rewrite E3. }
  split; simpl; [done| | | | |done].
  - simpl in *. split; congruence.
  - eapply Forall_impl; [exact H3|]. intros e [? ?]. split; auto.
  - eapply Forall_impl; [exact H4|]. intros e [? ?]. split; auto.
  - eapply Forall_impl; [exact H5|]. intros e [? ?]. split; auto.
Qed.

Lemma v3_hold_seen s c rest owed :
  holding s (c :: rest) owed ->
  holding (put_kern (k_cq_advance 1 (rs_kern s)) s) rest (accept_at (cqe_user_data c) + owed).
Proof.
  intros [[l Hl] H2 H3 H4 H5 H6]. destruct (advance_frame 1 (rs_kern s)) as (Ai & _).
  pose proof (advance_cq 1 (rs_kern s)) as Aq. rewrite Hl in Aq. simpl in Aq. rewrite drop_0 in Aq.
  rewrite Hl in H5. apply Forall_cons in H5 as [_ H5].
  split; simpl; rewrite ?Ai, ?Aq; try done; [by exists l|].
  unfold outstanding in H6 |- *; cbn [rs_sq rs_kern put_kern]. rewrite Hl in H6. rewrite Ai, Aq.
  cbn [app] in H6. rewrite fmap_cons, !accepts_app, accepts_cons in H6.
  rewrite !accepts_app. unfold accept_at. lia.
Qed.

Lemma v3_hold_syscall {R} (f : K -> R * K) s rest owed r s' :
  (forall k, same_view k (f k).2) -> holding s rest owed -> syscall f s = Ok r s' ->
  holding s' rest owed.
Proof.
  intros Hf Hh. unfold syscall. specialize (Hf (rs_kern s)). destruct (f (rs_kern s)) as [r' k].
  intros [= _ <-]. by apply v3_hold_view.
Qed.

Lemma v3_hold_close s rest owed fd r s' :
  holding s rest owed -> close fd s = Ok r s' -> holding s' rest owed.
Proof.
  intros [H1 H2 H3 H4 H5 H6]. unfold close. pose proof (close_spec fd (rs_kern s)) as Hc.
  destruct (k_close fd (rs_kern s)) as [ret k]. intros [= _ <-]. destruct Hc as (Ci & Cq & _).
  split; simpl; rewrite ?Ci, ?Cq; try done. unfold outstanding in *; simpl. by rewrite Ci, Cq.
Qed.

Lemma v3_hold_shutdown s rest owed fd how r s' :
  holding s rest owed -> shutdown fd how s = Ok r s' -> holding s' rest owed.
Proof.
  intros Hh. unfold shutdown. pose proof (shutdown_spec fd how (rs_kern s)) as Hs.
  destruct (k_shutdown _ _ _) as [ret k]. intros [= _ <-]. by apply v3_hold_view.
Qed.

Lemma v3_hold_register s rest owed fd s' :
  holding s rest owed -> register_conn fd s = Ok tt s' -> holding s' rest owed.
Proof.
  intros Hh Hrun. destruct (register_conn_cases _ _ _ _ _ _ Hrun) as [->|(_ & k & Hk & ->)]; [done|].
  apply (v3_hold_mem (put_kern k s)); [by apply v3_hold_view|done..].
Qed.

Lemma hold_count s rest owed s' : holding s rest owed -> count_client s = Ok tt s' -> holding s' rest owed.
Proof.
  intros Hh. unfold count_client. intros (n & s1 & [= <- <-] & Hrun)%bind_inv_ok.
  destruct (_ <? 2 ^ 31); [|done]. injection Hrun as <-. by apply v3_hold_mem.
Qed.

(** ** The handler *)

Lemma request_of_accept e :
  sqe_user_data (built (OpAccept lfd AClientAddr AClientLen 0) (PRead lfd) e) = PRead lfd /\
  (is_fd lfd -> request (built (OpAccept lfd AClientAddr AClientLen 0) (PRead lfd) e) (PRead lfd)).
Proof. split; [done|]. intros _. apply request_accept, v3_built_op. Qed.

Lemma v3_hold_accept s rest owed s' :
  holding s rest (S owed) -> add_accept lfd AClientAddr AClientLen 0 s = Ok tt s' -> holding s' rest owed.
Proof.
  intros Hh Hrun. pose proof (v3_add_accept_spec s (vi_tables _ _ _ Hh)) as Hb. rewrite Hrun in Hb.
  eapply hold_builds; [exact Hh|exact Hb|apply request_of_accept|apply Hlfd|].
  unfold accept_at. by rewrite decide_True.
Qed.

Lemma hold_poll s rest owed fd size s' :
  holding s rest owed -> fd < 2 ^ 31 -> fd <> lfd -> add_poll_read fd size true s = Ok tt s' ->
  holding s' rest owed /\ is_fd fd.
Proof.
  intros Hh Hfd Hne Hrun. pose proof (v3_add_poll_spec fd size s Hfd) as Hb. rewrite Hrun in Hb.
  eapply (hold_builds _ (PPoll fd)); [exact Hh|exact Hb| |done|done].
  intros e. split; [done|]. intros Hf. apply request_poll; [done..|apply built_poll_op|done].
Qed.

Lemma v3_hold_read s rest owed fd s' :
  holding s rest owed -> is_fd fd -> fd <> lfd -> add_poll_read fd (msg_len o) false s = Ok tt s' ->
  holding s' rest owed.
Proof.
  intros Hh Hfd Hne Hrun.
  pose proof (v3_add_read_spec fd (msg_len o) s (proj2 Hfd) Hne (vi_tables _ _ _ Hh)) as Hb. rewrite Hrun in Hb.
  eapply (hold_builds _ (PRead fd)); [exact Hh|exact Hb| |apply Hfd|].
  - intros e. split; [done|]. intros Hf. apply request_read; [done..|apply v3_built_op].
  - unfold accept_at. by rewrite decide_False by congruence.
Qed.

Lemma v3_hold_write s rest owed fd n s' :
  holding s rest owed -> is_fd fd -> fd <> lfd -> 0 < n < 2 ^ 32 -> n <= to_u32 (msg_len o) ->
  add_socket_write fd n 0 s = Ok tt s' -> holding s' rest owed.
Proof.
  intros Hh Hfd Hne Hn Hlen Hrun.
  pose proof (v3_add_write_spec fd n s (proj2 Hfd) (vi_tables _ _ _ Hh)) as Hb. rewrite Hrun in Hb.
  assert (Hu : to_u32 n = n) by (apply Z.mod_small; lia).
  eapply (hold_builds _ (PWrite fd)); [exact Hh|exact Hb| |apply Hfd|done].
  intros e. split; [done|]. intros Hf. eapply request_write; [done..|apply v3_built_op|lia].
Qed.

Lemma head_answer s c rest owed :
  holding s (c :: rest) owed -> answer_ok (rs_mem s) c.
Proof. intros [[l Hl] _ _ _ H5 _]. rewrite Hl in H5. by apply Forall_cons in H5 as [? _]. Qed.

(** The handler, by the meaning of the completion's row. *)
Lemma v3_handle_entry c (s : st) x :
  conn_at (rs_mem s) (cqe_user_data c) = Some x ->
  handle_cqe lfd c s =
    (let ufd := to_i32 (fd x) in
     if type x =? ACCEPT then
       io_uring_cqe_seen ;; register_conn (cqe_res c) ;;
       add_poll_read (cqe_res c) (msg_len (opt (rs_mem s))) true ;;
       add_accept lfd AClientAddr AClientLen 0 ;; count_client
     else if type x =? READ then
       if cqe_res c <=? 0
       then io_uring_cqe_seen ;; shutdown ufd SHUT_RDWR ;; close ufd ;; mret tt
       else io_uring_cqe_seen ;; add_socket_write ufd (cqe_res c) 0
     else if type x =? WRITE then io_uring_cqe_seen
     else if type x =? POLL_IN_READY then
       add_poll_read ufd (msg_len (opt (rs_mem s))) false ;; io_uring_cqe_seen
     else mret tt) s.
Proof. intros Hx. unfold handle_cqe. by rewrite (bind_ok _ _ _ _ _ (load_ok _ _ _ _ Hx)). Qed.

Lemma v3_inv_handle s c rest s' :
  v3_inv s (c :: rest) -> handle_cqe lfd c s = Ok tt s' -> v3_inv s' rest.
Proof.
  intros Hi. pose proof (v3_hold_seen _ _ _ _ Hi) as Hseen.
  pose proof (fun t => v3_hold_seen t c rest 0) as Hlater.
  destruct (head_answer _ _ _ _ Hi) as [Ht Ha]. pose proof (to_opt _ (vi_tables _ _ _ Hi)) as Ho.
  rewrite (v3_handle_entry _ _ _ Ht), Ho. cbv zeta.
  destruct Ha as [Hi32 Hne|fd Hne Hfd Hi32 Hr|fd Hne Hfd|fd Hne Hfd]; simpl.
  - rewrite Z.eqb_refl. simpl. intros ([] & s1 & [= <-] & Hrun)%bind_inv_ok.
    assert (Hone : accept_at (PRead lfd) = 1%nat) by (unfold accept_at; by rewrite decide_True).
    rewrite Hone in Hseen.
    apply bind_inv_ok in Hrun as ([] & s2 & H2 & Hrun). eapply v3_hold_register in H2; [|exact Hseen].
    apply bind_inv_ok in Hrun as ([] & s3 & H3 & Hrun).
    eapply hold_poll in H3 as [H3 _]; [|exact H2|apply Hi32|done].
    apply bind_inv_ok in Hrun as ([] & s4 & H4 & Hrun). eapply v3_hold_accept in H4; [|exact H3].
    by eapply hold_count.
  - rewrite (proj2 (Z.eqb_neq _ _) Hne). simpl. rewrite to_i32_id by auto with machine.
    assert (Hz : accept_at (PRead fd) = 0%nat) by (unfold accept_at; rewrite decide_False; congruence).
    rewrite Hz in Hseen. destruct (Z.leb_spec (cqe_res c) 0) as [Hle|Hgt].
    + intros ([] & s1 & [= <-] & Hrun)%bind_inv_ok.
      apply bind_inv_ok in Hrun as (r1 & s2 & Hsh & Hrun). eapply v3_hold_shutdown in Hsh; [|exact Hseen].
      apply bind_inv_ok in Hrun as (r2 & s3 & Hcl & [= <-]). by eapply v3_hold_close.
    + intros ([] & s1 & [= <-] & Hrun)%bind_inv_ok. unfold is_i32 in Hi32.
      eapply v3_hold_write in Hrun; [done|exact Hseen|done|done|lia|done].
  - intros [= <-]. exact Hseen.
  - rewrite to_i32_id by auto with machine. intros ([] & s1 & H1 & [= <-])%bind_inv_ok.
    eapply v3_hold_read in H1; [|exact Hi|done|done]. exact (Hlater _ H1).
Qed.

(** ** The kernel's steps *)

Context `{!SocketsOk (K := K) lfd}.

Lemma posts_answer (k k' : K) e c p :
  k_post k k' -> posts k k' e c -> request e p -> answer c p.
Proof.
  intros Hpost Hp Hr. pose proof Hp as (_ & _ & _ & Hi32 & _).
  destruct Hr as [Hop|fd Hne Hfd Hop|fd n Hne Hfd Hop Hn|fd Hne Hfd Hop Hlen].
  - apply answer_accept; [done|]. by eapply accept_fresh.
  - apply answer_read; [done..|]. eapply recv_within; [exact Hpost|exact Hp|exact Hop|].
    apply Z.mod_pos_bound. lia.
  - by apply answer_write.
  - by apply answer_poll.
Qed.

(** A multishot request is a poll, whatever it posts. *)
Lemma posts_more_answer (k k' : K) e c p : posts_more k k' e c -> request e p -> answer c p /\ p <> PRead lfd.
Proof.
  intros (((fd' & mask & Hm) & _) & _) Hr.
  destruct Hr as [Hop|fd Hne Hfd Hop|fd n Hne Hfd Hop Hn|fd Hne Hfd Hop Hlen]; try congruence.
  split; [by apply answer_poll|done].
Qed.

Lemma v3_inv_post s rest k' :
  v3_inv s rest -> k_post (rs_kern s) k' -> v3_inv (put_kern k' s) rest.
Proof.
  intros [[l Hl] H2 H3 H4 H5 H6] Hpost. destruct (multi_post_spec _ _ Hpost) as (e & c & [Hp|Hp]).
  - pose proof Hp as (Hin & Hq & Hu & _). rewrite Hin in H4. apply Forall_cons in H4 as [[Ht Hr] H4].
    split; simpl; try done.
    + rewrite Hq, Hl. exists (l ++ [c]). by rewrite app_assoc.
    + rewrite Hq. apply Forall_app_2; [done|]. apply Forall_singleton.
      split; rewrite Hu; [done|by eapply posts_answer].
    + rewrite <- H6. f_equal. apply accepts_proper. unfold outstanding; simpl.
      rewrite Hq, fmap_app, Hin, fmap_cons; simpl. rewrite Hu. solve_Permutation.
  - pose proof Hp as (_ & Hin & Hinf & Hq & Hu & _).
    pose proof (proj1 (Forall_forall _ _) H4 e Hin) as [Ht Hr].
    destruct (posts_more_answer _ _ _ _ _ Hp Hr) as [Ha Hne].
    split; simpl; rewrite ?Hinf; try done.
    + rewrite Hq, Hl. exists (l ++ [c]). by rewrite app_assoc.
    + rewrite Hq. apply Forall_app_2; [done|]. apply Forall_singleton. by rewrite <- Hu in Ht, Ha.
    + unfold outstanding in *; simpl. rewrite Hinf, Hq, fmap_app, !accepts_app in *.
      rewrite fmap_cons, accepts_cons, Hu, decide_False by done. unfold accepts in *; simpl. lia.
Qed.

Lemma v3_inv_posts s rest k' :
  v3_inv s rest -> rtc k_post (rs_kern s) k' -> v3_inv (put_kern k' s) rest.
Proof.
  intros Hi Hr. remember (rs_kern s) as k eqn:Hk. revert s Hi Hk.
  induction Hr as [k|k k1 k' H1 _ IH]; intros s Hi ->; [by destruct s|].
  apply (IH (put_kern k1 s)); [|done]. by apply v3_inv_post.
Qed.

Lemma v3_inv_submit s rest w r s' :
  v3_inv s rest -> io_uring_submit_and_wait w s = Ok r s' -> v3_inv s' rest.
Proof.
  intros [H1 H2 H3 H4 H5 H6] Hrun. unfold io_uring_submit_and_wait in Hrun.
  pose proof (submit_spec (rs_sq s) w (rs_kern s)) as Hs.
  destruct (k_submit _ _ _) as [[ret m] k']. injection Hrun as _ <-.
  destruct Hs as [(k1 & (Hinf & Hq & _) & Hposts) _].
  apply (v3_inv_posts (put_sq (drop m (rs_sq s)) (put_kern k1 s)) rest k'); [|done].
  rewrite <- (take_drop m (rs_sq s)) in H3. apply Forall_app in H3 as [Hsq1 Hsq2].
  split; simpl; rewrite ?Hq, ?Hinf; try done.
  - by apply Forall_app_2.
  - rewrite <- H6. f_equal. apply accepts_proper. unfold outstanding; simpl. rewrite Hq, Hinf, fmap_app.
    rewrite <- (take_drop m (rs_sq s)) at 3. rewrite fmap_app. solve_Permutation.
Qed.

Lemma v3_inv_weaken s rest : v3_inv s rest -> v3_inv s [].
Proof. intros [H1 H2 H3 H4 H5 H6]. split; try done. apply prefix_nil. Qed.

Lemma v3_inv_start s cqes s' : v3_inv s [] -> turn_start s = Ok cqes s' -> v3_inv s' cqes.
Proof.
  intros Hi (ret & s1 & H1 & Hrun)%bind_inv_ok. eapply v3_inv_submit in H1; [|exact Hi].
  destruct (ret <? 0); [done|]. apply peek_batch_inv in Hrun as [Hpre ->].
  by destruct H1 as [H1 H2 H3 H4 H5 H6].
Qed.

(** ** Reachable states *)

(** The state in which [main] enters its loop. *)
Record loop_entry (s : st) : Prop := LoopEntry {
  entry_tables : tables_ok (rs_mem s);
  entry_sq : exists e, rs_sq s = [e] /\ sqe_user_data e = PRead lfd /\ request_ok (rs_mem s) e;
  entry_inflight : k_inflight (rs_kern s) = [];
  entry_cq : k_cq (rs_kern s) = []
}.

Lemma v3_loop_entry_inv s : loop_entry s -> v3_inv s [].
Proof.
  intros [Ht (e & Hsq & Hu & He) Hi Hc].
  split; unfold outstanding; rewrite ?Hsq, ?Hi, ?Hc; try done; [by constructor..|]. simpl.
  unfold accepts. rewrite Hu, filter_cons, decide_True; done.
Qed.

Lemma v3_reachable_inv s0 x :
  loop_entry s0 -> v3_reachable lfd s0 x ->
  bholds (fun s => v3_inv s []) (fun s _ rest => v3_inv s rest) x.
Proof.
  intros He. apply batch_invariant; eauto using v3_inv_post, v3_inv_start, v3_inv_handle, v3_loop_entry_inv.
  intros s n s' Hi [= <-]. done.
Qed.

End invariant.
