(* ===== verification/EchoV3Main.v ===== *)
(** * Start-up of the multishot-poll echo server

    [main] of [io_uring_echo_server_v3.c] up to its loop establishes the state
    from which the invariant of [EchoV3Inv] holds. *)

From S2P Require Import Prelude Uring Tables Libc Setup Options Registration Startup EchoV3 EchoV3Inv.

Section v3_main.
Context {K : Type} `{!Liburing address conn_ptr} `{!Kernel address conn_ptr K} `{!Setup K} `{!Register K}.
Context {entries : nat} `{!LiburingOk address conn_ptr entries}.
Context `{!SetupOk address conn_ptr K} `{!RegisterOk address conn_ptr K}.

Local Abbreviation st := (rstate address conn_ptr K globals).

(** The variables the invariant speaks of. *)
Definition tabs (g : globals) : options * list conn_info * list conn_info * list conn_info * list address :=
  (opt g, conns_read g, conns_write g, conns_poll g, bufs g).
Local Abbreviation tables_of := (mem_of (A := address) (U := conn_ptr) (K := K) tabs).

Lemma v3_socket_frame port :
  preserving view_of (setup_socket port) /\ preserving tables_of (setup_socket port).
Proof. unfold setup_socket, socket, setsockopt, bind, listen. split; auto 20 with frame. Qed.

Lemma v3_ring_frame : preserving view_of setup_ring /\ preserving tables_of setup_ring.
Proof. unfold setup_ring, io_uring_queue_init_params. split; auto 20 with frame. Qed.

Lemma v3_listener_frame fd :
  preserving view_of (register_listener fd) /\ preserving tables_of (register_listener fd).
Proof. unfold register_listener, init_registerfiles, Registration.register_listener, register_fd, init_files. split; auto 30 with frame. Qed.

(** ** The tables *)

Lemma v3_bufs_frame n :
  preserving view_of (alloc_bufs n) /\ preserving tables_of (alloc_bufs n).
Proof. split; apply alloc_bufs_preserving; auto with frame. Qed.

(** One of the three tables gets its rows, nothing else changes. *)
Lemma alloc_conns_spec p (s s' : st) :
  alloc_conns p s = Ok tt s' ->
  view_of s' = view_of s /\
  rs_mem s' = set_table p (replicate (Z.to_nat (max_connections (opt (rs_mem s)))) (ConnInfo 0 0)) (rs_mem s).
Proof.
  unfold alloc_conns. intros (o & s1 & [= <- <-] & Hrun)%bind_inv_ok.
  apply bind_inv_ok in Hrun as (ok & s2 & H2 & Hrun).
  pose proof (syscall_mem_of (fun g => g) _ _ _ _ H2) as M2. unfold mem_of in M2.
  apply syscall_view_of in H2; [|intros; apply calloc_frame].
  destruct ok; simpl in Hrun; [|done]. injection Hrun as <-. split; [exact H2|]. simpl. by rewrite M2.
Qed.

Lemma v3_tables_spec o (s s' : st) :
  alloc_tables o s = Ok tt s' ->
  view_of s' = view_of s /\
  exists o', tables_ok o' (rs_mem s') /\ portno o' = portno o /\ registerfiles o' = registerfiles o /\
    msg_len o' = msg_len o /\ max_connections o' = max_connections o + 32 /\
    length (bufs (rs_mem s')) = Z.to_nat (max_connections o').
Proof.
  unfold alloc_tables. destruct (_ <? 2 ^ 31); [|done]. cbn [negb].
  intros ([] & s1 & [= <-] & Hrun)%bind_inv_ok.
  apply bind_inv_ok in Hrun as ([] & s2 & H2 & Hrun). apply alloc_conns_spec in H2 as [V2 M2].
  apply bind_inv_ok in Hrun as ([] & s3 & H3 & Hrun). apply alloc_conns_spec in H3 as [V3 M3].
  apply bind_inv_ok in Hrun as ([] & s4 & H4 & Hrun). apply alloc_conns_spec in H4 as [V4 M4].
  apply bind_inv_ok in Hrun as (ok & s5 & H5 & Hrun).
  pose proof (syscall_mem_of (fun g => g) _ _ _ _ H5) as M5. unfold mem_of in M5.
  apply syscall_view_of in H5; [|intros; apply calloc_frame].
  destruct (_ && _); [done|]. apply bind_inv_ok in Hrun as (rows & s6 & H6 & [= <-]).
  destruct (v3_bufs_frame (Z.to_nat (max_connections o + 32))) as [F1 F2].
  pose proof (F1 _ _ _ H6) as V6. pose proof (F2 _ _ _ H6) as T6. apply alloc_bufs_rows in H6 as ->.
  unfold mem_of in T6. rewrite M5, M4, M3, M2 in T6. unfold tabs in T6; simpl in T6. injection T6 as E1 E2 E3 E4 _.
  split; [unfold view_of in *; simpl in *; congruence|].
  eexists. split; [split; [exact E1|..]|]; simpl;
    rewrite ?E2, ?E3, ?E4, ?length_replicate, ?length_fmap, ?length_seqZ, ?Nat2Z.id; done.
Qed.

(** ** All of it *)

Lemma v3_startup_entry argv (s s' : st) lfd :
  pristine s -> startup argv s = Ok lfd s' -> is_fd lfd ->
  exists o, loop_entry lfd o s' /\ length (bufs (rs_mem s')) = Z.to_nat (max_connections o).
Proof.
  intros [P1 P2 P3 _] Hrun Hfd. unfold startup in Hrun.
  apply bind_inv_ok in Hrun as (o & s1 & H1 & Hrun). apply parse_options_id in H1 as ->.
  apply bind_inv_ok in Hrun as ([] & s2 & H2 & Hrun).
  apply v3_tables_spec in H2 as (V2 & o' & T2 & _ & _ & _ & _ & L2).
  apply bind_inv_ok in Hrun as (fd & s3 & H3 & Hrun). destruct (v3_socket_frame (portno o)) as [F1 G1].
  pose proof (F1 _ _ _ H3) as V3. pose proof (G1 _ _ _ H3) as T3.
  apply bind_inv_ok in Hrun as ([] & s4 & H4 & Hrun). destruct v3_ring_frame as [F2 G2].
  pose proof (F2 _ _ _ H4) as V4. pose proof (G2 _ _ _ H4) as T4.
  apply bind_inv_ok in Hrun as ([] & s5 & H5 & Hrun). destruct (v3_listener_frame fd) as [F3 G3].
  pose proof (F3 _ _ _ H5) as V5. pose proof (G3 _ _ _ H5) as T5.
  apply bind_inv_ok in Hrun as ([] & s6 & H6 & [= -> <-]).
  rewrite T4, T3 in T5. unfold mem_of, tabs in T5. injection T5 as E1 E2 E3 E4 E5.
  assert (T6 : tables_ok o' (rs_mem s5)) by (destruct T2; split; congruence).
  pose proof (v3_add_accept_spec lfd o' Hfd s5 T6) as Hb. rewrite H6 in Hb.
  apply builds_row_inv in Hb as (e & x & Hx & ->). rewrite V4, V3, V2 in V5. unfold view_of in V5. injection V5 as W1 W2 W3 W4.
  exists o'. split; [split|].
  - by apply tables_ok_put.
  - eexists. cbn [rs_sq queued]. rewrite W1, P1. split; [done|]. split; [done|]. split.
    + by eapply (put_conn_new lfd (rs_mem s5) (PRead lfd)).
    + apply request_accept, v3_built_op.
  - simpl. by rewrite W2.
  - simpl. by rewrite W3.
  - simpl. by rewrite E5.
Qed.

End v3_main.
