(* ===== verification/EchoV3Theorems.v ===== *)
(** * What the multishot-poll echo server guarantees

    Theorems on [io_uring_echo_server_v3.c]: decoding of completions, absence
    of undefined behaviour, progress, start-up, and the race between receives
    and sends that its design allows. *)

From stdpp Require Import strings.
From S2P Require Import Prelude Uring Tables BatchLoop RefKernel Script BatchScript Libc Setup Options Registration.
From S2P Require Import Startup EchoV3 EchoV3Inv EchoV3Main.

Section v3_lemmas.
Context {K : Type} `{!Liburing address conn_ptr} `{!Kernel address conn_ptr K} `{!Setup K} `{!Register K}.
Context {entries : nat} `{!LiburingOk address conn_ptr entries} `{!MultishotOk address conn_ptr K}.
Context `{!SetupOk address conn_ptr K} `{!RegisterOk address conn_ptr K}.
Context (lfd : Z) (o : options) (Hlfd : is_fd lfd).

Local Abbreviation st := (rstate address conn_ptr K globals).

(** ** Totality of the builders *)

(** A builder succeeds when there is a vacant entry and the row exists. *)
Lemma builds_row_total f p (s : st) out :
  builds_row lfd f p s out -> (length (rs_sq s) < entries)%nat ->
  0 <= row p < Z.of_nat (length (table p (rs_mem s))) ->
  exists e, out = Ok tt (queued lfd (f e) p s).
Proof.
  intros Hb Hroom Hrow. destruct (index_is_Some _ _ Hrow) as [x Hx].
  eapply builds_total in Hb as [e ->]; [|done|unfold conn_at; by rewrite Hx]. by exists e.
Qed.

Lemma table_rows g p : tables_ok o g -> length (table p g) = length (bufs g).
Proof. intros [_ _ H1 H2 H3]. by destruct p. Qed.

(** Rows for [fd] in all tables. *)
Definition has_row (s : st) (fd : Z) : Prop := 0 <= fd < Z.of_nat (length (bufs (rs_mem s))).

Lemma truthful_row s p : tables_ok o (rs_mem s) -> truthful lfd (rs_mem s) p -> has_row s (row p).
Proof. intros Ht Hx%index_Some. unfold has_row. by rewrite <- (table_rows _ p Ht). Qed.

(** Room for the requests of a completion: an accept leads to two. *)
Definition needs (c : cqe conn_ptr) : nat := 1 + accept_at lfd (cqe_user_data c).

(** What an accepted connection needs: a row in the tables and, with [-f], in
    [registered_files]; and the counter of clients must not overflow. *)
Definition acceptable (s : st) (c : cqe conn_ptr) : Prop :=
  cqe_user_data c = PRead lfd ->
  has_row s (cqe_res c) /\ clients (rs_mem s) + 1 < 2 ^ 31 /\
  (registerfiles o = true -> cqe_res c < Z.of_nat (length (registered_files (rs_mem s)))).

(** What registering a connection changes: one row of [registered_files]. *)
Lemma v3_register_frame fd (s s' : st) :
  register_conn fd s = Ok tt s' ->
  rs_sq s' = rs_sq s /\ same_view (rs_kern s) (rs_kern s') /\
  exists l, rs_mem s' = set_registered l (rs_mem s) /\ length l = length (registered_files (rs_mem s)).
Proof.
  intros Hrun. destruct (register_conn_cases _ _ _ _ _ _ Hrun) as [->|(_ & k & Hk & ->)]; (split_and!; [done..|]).
  - exists (registered_files (rs_mem s)). by destruct (rs_mem s).
  - eexists. split; [done|]. by rewrite length_insert.
Qed.

(** ** The handler returns *)

Lemma v3_handle_no_ub c rest s :
  v3_inv lfd o s (c :: rest) -> (length (rs_sq s) + needs c <= entries)%nat -> acceptable s c ->
  no_ub (handle_cqe lfd c s).
Proof.
  intros Hi Hroom Hacc. destruct (head_answer _ _ _ _ _ _ Hi) as [Ht Ha].
  pose proof (vi_tables _ _ _ _ _ Hi) as Htab. pose proof (truthful_row _ _ Htab Ht) as Hrow.
  rewrite (v3_handle_entry _ _ _ _ Ht), (to_opt _ _ Htab). unfold needs, acceptable in *. cbv zeta.
  destruct Ha as [Hi32 Hne|fd Hne Hfd Hi32 Hr|fd Hne Hfd|fd Hne Hfd]; simpl in *.
  - rewrite Z.eqb_refl. simpl. destruct (Hacc eq_refl) as (Hres & Hcl & Hreg).
    unfold accept_at in Hroom. rewrite decide_True in Hroom by done. unfold has_row in *.
    apply bind_no_ub; [done|]. intros [] s1 [= <-]. apply bind_no_ub.
    { apply register_conn_no_ub. simpl. rewrite (to_opt _ _ Htab). intros Hon. specialize (Hreg Hon). lia. }
    intros [] s2 H2. apply v3_register_frame in H2 as (E1 & _ & l & E2 & _). simpl in E1, E2.
    assert (Htab2 : tables_ok o (rs_mem s2)) by (rewrite E2; by destruct Htab).
    destruct (builds_row_total _ (PPoll (cqe_res c)) s2 _ (v3_add_poll_spec lfd (cqe_res c) (msg_len o) s2 (proj2 Hi32)))
      as [e He]; [rewrite E1; lia|rewrite (table_rows _ _ Htab2), E2; done|].
    rewrite (bind_ok _ _ _ _ _ He). clear He.
    match goal with |- no_ub (_ ?t) => set (s3 := t) end.
    assert (Htab3 : tables_ok o (rs_mem s3)) by (by apply tables_ok_put).
    destruct (builds_row_total _ (PRead lfd) s3 _ (v3_add_accept_spec lfd o Hlfd s3 Htab3)) as [e' He'].
    + simpl. rewrite length_app, E1. simpl. lia.
    + rewrite (table_rows _ _ Htab3). simpl. rewrite E2. done.
    + rewrite (bind_ok _ _ _ _ _ He'). unfold count_client. mred. simpl. rewrite E2. simpl. by rewrite (proj2 (Z.ltb_lt _ _) Hcl).
  - rewrite (proj2 (Z.eqb_neq _ _) Hne). simpl. rewrite to_i32_id by auto with machine.
    destruct (cqe_res c <=? 0); (apply bind_no_ub; [done|]); intros [] s1 [= <-].
    + apply bind_no_ub; unfold shutdown; [by destruct (k_shutdown _ _ _)|]. intros r s2 _.
      apply bind_no_ub; unfold close; [by destruct (k_close _ _)|done].
    + match goal with |- no_ub (_ ?t) => set (s1 := t) end.
      destruct (builds_row_total _ (PWrite fd) s1 _ (v3_add_write_spec lfd o fd (cqe_res c) s1 (proj2 Hfd) Htab))
        as [e ->]; [simpl; lia|by rewrite (table_rows (rs_mem s1) _ Htab)|done].
  - done.
  - rewrite to_i32_id by auto with machine.
    destruct (builds_row_total _ (PRead fd) s _ (v3_add_read_spec lfd o fd (msg_len o) s (proj2 Hfd) Hne Htab))
      as [e He]; [lia|by rewrite (table_rows _ _ Htab)|]. by rewrite (bind_ok _ _ _ _ _ He).
Qed.

(** ** What the handler leaves behind *)

(** From [s] to [s'] at most [q] requests were queued and [n] clients counted,
    the completions [cq] are left and the tables keep their sizes. *)
Record leaves (cq : list (cqe conn_ptr)) (q n : nat) (s s' : st) : Prop := Leaves {
  lv_cq : k_cq (rs_kern s') = cq;
  lv_sq : (length (rs_sq s') <= length (rs_sq s) + q)%nat;
  lv_bufs : bufs (rs_mem s') = bufs (rs_mem s);
  lv_reg : length (registered_files (rs_mem s')) = length (registered_files (rs_mem s));
  lv_clients : clients (rs_mem s') = clients (rs_mem s) + Z.of_nat n
}.

Lemma leaves_trans cq1 cq2 q1 q2 n1 n2 s1 s2 s3 :
  leaves cq1 q1 n1 s1 s2 -> leaves cq2 q2 n2 s2 s3 -> leaves cq2 (q1 + q2) (n1 + n2) s1 s3.
Proof. intros [A1 A2 A3 A4 A5] [B1 B2 B3 B4 B5]. split; [done|lia|congruence|congruence|lia]. Qed.

Lemma leaves_queued e p (s : st) : leaves (k_cq (rs_kern s)) 1 0 s (queued lfd e p s).
Proof. destruct p; split; simpl; rewrite ?length_app; simpl; done || lia. Qed.

Lemma leaves_seen (s : st) : leaves (drop 1 (k_cq (rs_kern s))) 0 0 s (put_kern (k_cq_advance 1 (rs_kern s)) s).
Proof. split; simpl; [apply advance_cq|lia|done|done|lia]. Qed.

Lemma leaves_builds f p (s s' : st) :
  builds_row lfd f p s (Ok tt s') -> leaves (k_cq (rs_kern s)) 1 0 s s'.
Proof. intros (e & x & _ & ->)%builds_row_inv. apply leaves_queued. Qed.

(** Each completion is consumed by its own handler. *)
Lemma v3_handle_leaves c rest s s' :
  v3_inv lfd o s (c :: rest) -> handle_cqe lfd c s = Ok tt s' ->
  leaves (drop 1 (k_cq (rs_kern s))) (needs c) (accept_at lfd (cqe_user_data c)) s s'.
Proof.
  intros Hi. destruct (head_answer _ _ _ _ _ _ Hi) as [Ht Ha]. pose proof (leaves_seen s) as Hseen.
  pose proof (vi_tables _ _ _ _ _ Hi) as Htab.
  rewrite (v3_handle_entry _ _ _ _ Ht), (to_opt _ _ Htab). unfold needs. cbv zeta.
  destruct Ha as [Hi32 Hne|fd Hne Hfd Hi32 Hr|fd Hne Hfd|fd Hne Hfd]; simpl.
  - rewrite Z.eqb_refl. simpl. intros ([] & s1 & [= <-] & Hrun)%bind_inv_ok.
    assert (Hone : accept_at lfd (PRead lfd) = 1%nat) by (unfold accept_at; by rewrite decide_True).
    apply bind_inv_ok in Hrun as ([] & s2 & H2 & Hrun).
    apply v3_register_frame in H2 as (E1 & (_ & E3 & _) & l & E2 & E4). simpl in E1, E2, E3, E4.
    assert (Htab2 : tables_ok o (rs_mem s2)) by (rewrite E2; by destruct Htab).
    apply bind_inv_ok in Hrun as ([] & s3 & H3 & Hrun).
    pose proof (v3_add_poll_spec lfd (cqe_res c) (msg_len o) s2 (proj2 Hi32)) as B3. rewrite H3 in B3.
    apply builds_row_inv in B3 as (e3 & ? & _ & ->). apply bind_inv_ok in Hrun as ([] & s4 & H4 & Hrun).
    match type of H4 with _ ?t = _ => set (s3 := t) in * end.
    pose proof (v3_add_accept_spec lfd o Hlfd s3 (tables_ok_put _ _ _ _ Htab2)) as B4. rewrite H4 in B4.
    apply builds_row_inv in B4 as (e4 & ? & _ & ->). unfold count_client in Hrun.
    apply bind_inv_ok in Hrun as (n & s5 & [= <- <-] & Hrun). destruct (_ <? _); [|done].
    injection Hrun as <-. rewrite Hone.
    split; simpl; rewrite ?E2; simpl; [|rewrite !length_app, E1; simpl; lia|done|done|done].
    by rewrite E3, advance_cq.
  - rewrite (proj2 (Z.eqb_neq _ _) Hne). simpl. rewrite to_i32_id by auto with machine.
    assert (Hz : accept_at lfd (PRead fd) = 0%nat) by (unfold accept_at; rewrite decide_False; congruence).
    rewrite Hz. destruct (cqe_res c <=? 0); intros ([] & s1 & [= <-] & Hrun)%bind_inv_ok.
    + apply bind_inv_ok in Hrun as (r1 & s2 & Hsh & Hrun). apply bind_inv_ok in Hrun as (r2 & s3 & Hcl & [= <-]).
      pose proof (shutdown_cq _ _ _ _ _ Hsh) as C2. pose proof (close_cq _ _ _ _ Hcl) as C3.
      unfold shutdown in Hsh. destruct (k_shutdown _ _ _) as [r k]. injection Hsh as _ <-.
      unfold close in Hcl. destruct (k_close _ _) as [r' k']. injection Hcl as _ <-.
      destruct Hseen as [A1 A2 A3 A4 A5]. unfold cq_of in *. simpl in *. split; simpl; [congruence|lia|done|done|lia].
    + pose proof (v3_add_write_spec lfd o fd (cqe_res c) (put_kern (k_cq_advance 1 (rs_kern s)) s) (proj2 Hfd) Htab) as B.
      rewrite Hrun in B. apply leaves_builds in B. pose proof (leaves_trans _ _ _ _ _ _ _ _ _ Hseen B) as L.
      destruct L as [A1 A2 A3 A4 A5]. split; try done. by rewrite A1; simpl; rewrite advance_cq.
  - intros [= <-]. destruct Hseen as [A1 A2 A3 A4 A5]. split; done || lia.
  - rewrite to_i32_id by auto with machine. intros ([] & s1 & H1 & [= <-])%bind_inv_ok.
    pose proof (v3_add_read_spec lfd o fd (msg_len o) s (proj2 Hfd) Hne Htab) as B. rewrite H1 in B.
    apply leaves_builds in B. pose proof (leaves_trans _ _ _ _ _ _ _ _ _ B (leaves_seen s1)) as L.
    by rewrite (lv_cq _ _ _ _ _ B) in L.
Qed.

(** ** A whole batch *)

Definition batch_accepts (cs : list (cqe conn_ptr)) : nat := accepts lfd (cqe_user_data <$> cs).

Lemma batch_accepts_cons c cs : batch_accepts (c :: cs) = (accept_at lfd (cqe_user_data c) + batch_accepts cs)%nat.
Proof. unfold batch_accepts. rewrite fmap_cons. apply accepts_cons. Qed.

(** One accept is outstanding, so a batch holds at most one. *)
Lemma v3_batch_accepts s rest : v3_inv lfd o s rest -> (batch_accepts rest <= 1)%nat.
Proof.
  intros [[l Hl] _ _ _ _ H6]. unfold outstanding in H6. rewrite Hl, fmap_app, !accepts_app in H6.
  unfold batch_accepts. lia.
Qed.

Lemma batch_acceptable s s' cq q n rest :
  leaves cq q n s s' -> (batch_accepts rest + n <= 1)%nat ->
  Forall (acceptable s) rest -> Forall (acceptable s') rest.
Proof.
  intros [_ _ Hb Hr Hc] Hn Hall. apply Forall_forall. intros c Hin Hu.
  eapply Forall_forall in Hall; [|exact Hin]. destruct (Hall Hu) as (H1 & H2 & H3).
  assert (Hone : (1 <= batch_accepts rest)%nat).
  { apply list_elem_of_split in Hin as (l1 & l2 & ->). unfold batch_accepts.
    rewrite fmap_app, accepts_app, fmap_cons, accepts_cons, decide_True by done. lia. }
  unfold has_row. rewrite Hb, Hr, Hc. replace n with 0%nat by lia. rewrite Z.add_0_r. done.
Qed.

Lemma v3_batch_no_ub rest s :
  v3_inv lfd o s rest -> (length (rs_sq s) + length rest + batch_accepts rest <= entries)%nat ->
  Forall (acceptable s) rest -> no_ub (for_each (handle_cqe lfd) rest s).
Proof.
  revert s. induction rest as [|c rest IH]; intros s Hi Hroom Hall; [done|].
  apply Forall_cons in Hall as [Hc Hall]. pose proof (v3_batch_accepts _ _ Hi) as Hone.
  rewrite batch_accepts_cons in Hone, Hroom. simpl in Hroom. cbn [for_each]. apply bind_no_ub.
  - eapply v3_handle_no_ub; [exact Hi|unfold needs; lia|done].
  - intros [] s1 H1. pose proof (v3_handle_leaves _ _ _ _ Hi H1) as Hl. apply IH.
    + by eapply v3_inv_handle.
    + pose proof (lv_sq _ _ _ _ _ Hl). unfold needs in *. lia.
    + eapply batch_acceptable; [exact Hl|lia|done].
Qed.

(** *** Returning

    Only the registration of a connection can stop the process. *)
Lemma fixed_file_never_exits sqe : never_exits (fixed_file (K := K) sqe).
Proof. unfold fixed_file. auto 20 with exits. Qed.

Lemma add_poll_read_never_exits fd size is_poll : never_exits (add_poll_read (K := K) fd size is_poll).
Proof. pose proof fixed_file_never_exits. unfold add_poll_read, io_uring_prep, io_uring_sqe_set_flags, set_user_data, set_conn. auto 20 with exits. Qed.

Lemma v3_handle_no_exit c s :
  registerfiles (opt (rs_mem s)) = false -> no_exit (handle_cqe lfd c s).
Proof.
  intros Hf. pose proof fixed_file_never_exits. pose proof add_poll_read_never_exits.
  unfold handle_cqe. apply bind_no_exit; [apply load_never_exits|].
  intros x s1 H1. apply load_any with (g := fun s => s) in H1 as ->.
  apply bind_no_exit; [done|]. intros o' s1 [= <- <-]. cbv zeta.
  destruct (type x =? ACCEPT).
  - apply bind_no_exit; [done|]. intros [] s1 [= <-].
    apply bind_no_exit; unfold register_conn; rewrite register_conn_off by exact Hf; [done|].
    intros [] s1 [= <-].
    unfold count_client, add_accept, io_uring_prep, io_uring_sqe_set_flags, set_user_data, set_conn.
    match goal with |- no_exit (?m _) => assert (Hm : never_exits m) by auto 20 with exits; apply Hm end.
  - unfold io_uring_cqe_seen, add_socket_write, io_uring_prep, io_uring_sqe_set_flags, set_user_data, set_conn.
    match goal with |- no_exit (?m _) => assert (Hm : never_exits m) by auto 20 with exits; apply Hm end.
Qed.

Lemma v3_batch_no_exit rest s :
  registerfiles o = false -> v3_inv lfd o s rest -> no_exit (for_each (handle_cqe lfd) rest s).
Proof.
  intros Hf. revert s. induction rest as [|c rest IH]; intros s Hi; [done|]. cbn [for_each].
  apply bind_no_exit.
  - apply v3_handle_no_exit. by rewrite (to_opt _ _ (vi_tables _ _ _ _ _ Hi)).
  - intros [] s1 H1. apply IH. by eapply v3_inv_handle.
Qed.

Lemma v3_batch_drains rest s s' :
  v3_inv lfd o s rest -> for_each (handle_cqe lfd) rest s = Ok tt s' ->
  k_cq (rs_kern s') = drop (length rest) (k_cq (rs_kern s)).
Proof.
  revert s. induction rest as [|c rest IH]; intros s Hi Hrun; [by injection Hrun as <-|].
  apply bind_inv_ok in Hrun as ([] & s1 & H1 & Hrun).
  rewrite (IH s1); [|by eapply v3_inv_handle|done].
  rewrite (lv_cq _ _ _ _ _ (v3_handle_leaves _ _ _ _ Hi H1)), drop_drop. done.
Qed.

End v3_lemmas.

Section v3_theorems.
Context {K : Type} `{!Liburing address conn_ptr} `{!Kernel address conn_ptr K} `{!Setup K} `{!Register K}.
Context {entries : nat} `{!LiburingOk address conn_ptr entries} `{!MultishotOk address conn_ptr K}.
Context `{!SetupOk address conn_ptr K} `{!RegisterOk address conn_ptr K}.
Context (lfd : Z) (o : options) `{!SocketsOk (K := K) lfd}.

Local Abbreviation st := (rstate address conn_ptr K globals).

Lemma v3_state_inv s0 x s :
  is_fd lfd -> loop_entry lfd o s0 -> v3_reachable lfd s0 x -> in_state x s -> v3_inv lfd o s [].
Proof.
  intros Hfd He Hr Hs. pose proof (v3_reachable_inv lfd o Hfd _ _ He Hr) as Hi.
  eapply (bholds_in_state (fun s => v3_inv lfd o s [])); [|exact Hi|exact Hs].
  intros t n rest. apply v3_inv_weaken.
Qed.

(** A turn starts with all that waits, up to [BACKLOG] completions, and with at
    least one. *)
Lemma turn_start_batch (s : st) cqes s1 :
  turn_start s = Ok cqes s1 -> cqes <> [] /\ cqes = take (Z.to_nat BACKLOG) (k_cq (rs_kern s1)).
Proof.
  intros (ret & s2 & H2 & Hpeek)%bind_inv_ok.
  destruct (Z.ltb_spec ret 0); [done|]. unfold io_uring_peek_batch_cqe in Hpeek. injection Hpeek as <- <-.
  unfold io_uring_submit_and_wait in H2. pose proof (submit_spec (rs_sq s) 1 (rs_kern s)) as Hs.
  destruct (k_submit _ _ _) as [[r m] k]. destruct Hs as [_ Hs]. injection H2 as -> <-. simpl in *.
  specialize (Hs ltac:(lia)). split; [|done].
  destruct (k_cq k); [simpl in Hs; lia|]. unfold BACKLOG. by destruct (Z.to_nat 8192) eqn:E; [lia|].
Qed.

(** What an operation is, as a row says it. *)
Definition op_entry (op : io_op address) : option conn_info :=
  match op with
  | OpAccept fd _ _ _ => Some (ConnInfo fd ACCEPT)
  | OpRecv fd _ _ _ => Some (ConnInfo fd READ)
  | OpSend fd _ _ _ => Some (ConnInfo fd WRITE)
  | OpPollAdd fd _ => Some (ConnInfo fd POLL_IN_READY)
  | _ => None
  end.

(** The buffer an operation works on. *)
Definition op_buffer (op : io_op address) : option address :=
  match op with
  | OpRecv _ b _ _ | OpSend _ b _ _ => Some b
  | _ => None
  end.

(** C25: at every moment of every run, with any number of announcements and
    requests per connection, the row the user data of an outstanding request
    points to holds the request's own descriptor and kind, so a completion is
    always decoded as what it is; and exactly one accept is outstanding. *)
Theorem v3_tables_truthful s0 x s :
  is_fd lfd -> loop_entry lfd o s0 -> v3_reachable lfd s0 x -> in_state x s ->
  (forall e, e ∈ rs_sq s ++ k_inflight (rs_kern s) ->
     is_Some (op_entry (sqe_op e)) /\ conn_at (rs_mem s) (sqe_user_data e) = op_entry (sqe_op e)) /\
  accepts lfd (outstanding s) = 1%nat.
Proof.
  intros Hfd He Hr Hs. destruct (v3_state_inv _ _ _ Hfd He Hr Hs) as [_ _ H3 H4 _ H6].
  split; [|lia]. intros e Hin.
  assert (Ht : request_ok lfd o (rs_mem s) e).
  { apply elem_of_app in Hin as [Hin|Hin]; [eapply Forall_forall in H3|eapply Forall_forall in H4]; eauto. }
  destruct Ht as [Ht Hq]. rewrite Ht.
  destruct Hq as [->|fd Hne _ ->|fd n _ _ -> _|fd _ _ -> _]; simpl; [rewrite Z.eqb_refl; eauto| |eauto..].
  rewrite (proj2 (Z.eqb_neq _ _) Hne). eauto.
Qed.

(** C26: a batch is handled without undefined behaviour.  In any reachable
    state, if the submission queue has one entry more than there are
    completions left in the batch and a new connection has rows in the tables
    (and the count of clients fits an [int]), then handling the whole rest of
    the batch never uses a null entry or an index out of range, although the
    number of requests is not bounded by the number of connections. *)
Theorem v3_batch_safe s0 s n rest :
  is_fd lfd -> loop_entry lfd o s0 -> v3_reachable lfd s0 (Batch s n rest) ->
  (length (rs_sq s) + length rest + 1 <= entries)%nat -> Forall (acceptable lfd o s) rest ->
  no_ub (for_each (handle_cqe lfd) rest s).
Proof.
  intros Hfd He Hr Hroom Hall. pose proof (v3_reachable_inv lfd o Hfd _ _ He Hr) as Hi. simpl in Hi.
  pose proof (v3_batch_accepts _ _ _ _ Hi). apply (v3_batch_no_ub lfd o Hfd); [done|lia|done].
Qed.

(** C27: progress.  When the kernel has answered a turn's call to submit and
    wait, the turn comes to its end (without [-f], with room in the ring and
    rows for an accepted connection), has handled at least one completion and
    has consumed its whole batch: what is left in the completion queue is what
    arrived behind the batch, and nothing at all when no more than [BACKLOG]
    completions were waiting.  (The last branch of the handler consumes
    nothing; it is never taken.) *)
Theorem v3_turn_drains s0 s cqes s1 :
  is_fd lfd -> loop_entry lfd o s0 -> v3_reachable lfd s0 (BTop s) -> turn_start s = Ok cqes s1 ->
  registerfiles o = false -> (length (rs_sq s1) + length cqes + 1 <= entries)%nat ->
  Forall (acceptable lfd o s1) cqes ->
  exists s', event_loop_body lfd s = Ok tt s' /\ cqes <> [] /\
    k_cq (rs_kern s') = drop (length cqes) (k_cq (rs_kern s1)) /\
    (Z.of_nat (length (k_cq (rs_kern s1))) <= BACKLOG -> k_cq (rs_kern s') = []).
Proof.
  intros Hfd He Hr H1 Hf Hroom Hall.
  pose proof (v3_reachable_inv lfd o Hfd _ _ He Hr) as Hi. simpl in Hi.
  pose proof (v3_inv_start lfd o _ _ _ Hi H1) as Hi1. pose proof (v3_batch_accepts _ _ _ _ Hi1).
  destruct (returns_Ok (for_each (handle_cqe lfd) cqes s1)) as ([] & s' & Hrun).
  { by apply (v3_batch_no_exit lfd o Hfd). }
  { apply (v3_batch_no_ub lfd o Hfd); [done|lia|done]. }
  pose proof (v3_batch_drains lfd o Hfd _ _ _ Hi1 Hrun) as Hd.
  destruct (turn_start_batch _ _ _ H1) as [Hne Hlen]. exists s'.
  split_and!; [by unfold event_loop_body; rewrite (bind_ok _ _ _ _ _ H1)|done|done|].
  intros Hb. rewrite Hd, Hlen, take_ge by lia. apply drop_all.
Qed.

(** C28: the race the design allows.  When a connection is announced readable
    while its last answer is still being sent, the handler gives the kernel the
    very buffer of that send as the target of a receive: both requests are
    then outstanding, and bytes of the new message may be sent in place of the
    old one.  Nothing in the server prevents it: the poll is not disarmed and
    there is one buffer per connection. *)
Theorem v3_receives_into_sent_buffer s0 s n c rest e fd b m s' :
  is_fd lfd -> loop_entry lfd o s0 -> v3_reachable lfd s0 (Batch s n (c :: rest)) ->
  cqe_user_data c = PPoll fd ->
  e ∈ rs_sq s ++ k_inflight (rs_kern s) -> sqe_op e = OpSend fd b m 0 ->
  handle_cqe lfd c s = Ok tt s' ->
  (e ∈ rs_sq s' ++ k_inflight (rs_kern s')) /\
  exists e', (e' ∈ rs_sq s') /\ sqe_op e' = OpRecv fd b (to_u32 (msg_len o)) 0.
Proof.
  intros Hfd He Hr Hu Hin Hop Hrun. pose proof (v3_reachable_inv lfd o Hfd _ _ He Hr) as Hi. simpl in Hi.
  pose proof (vi_tables _ _ _ _ _ Hi) as Htab.
  assert (Hb : b = ABuf fd).
  { destruct Hi as [_ _ H3 H4 _ _].
    assert (Hq : request lfd o e (sqe_user_data e)).
    { apply elem_of_app in Hin as [Hin|Hin]; [eapply Forall_forall in H3|eapply Forall_forall in H4]; try done;
        [apply H3|apply H4]. }
    destruct Hq; congruence. }
  destruct (head_answer _ _ _ _ _ _ Hi) as [Ht Ha]. rewrite (v3_handle_entry _ _ _ _ Ht), Hu in Hrun.
  rewrite Hu in Ha. inversion Ha as [| | |fd' Hne Hpos]; subst. simpl in Hrun.
  rewrite to_i32_id, (to_opt _ _ Htab) in Hrun by auto with machine.
  apply bind_inv_ok in Hrun as ([] & s1 & H1 & [= <-]).
  pose proof (v3_add_read_spec lfd o fd (msg_len o) s (proj2 Hpos) Hne Htab) as B. rewrite H1 in B.
  apply builds_row_inv in B as (e0 & ? & _ & ->). simpl. destruct (advance_frame 1 (rs_kern s)) as (-> & _). split.
  - apply elem_of_app in Hin as [?|?]; rewrite !elem_of_app; auto.
  - eexists. split; [apply elem_of_app; right; by left|]. apply v3_built_op.
Qed.

(** The announcements of a connection keep coming from the poll queued when it
    was accepted: no other completion queues a poll, not even the last
    completion of a poll, which comes without IORING_CQE_F_MORE. *)
Lemma v3_polls_once s0 s n c rest s' :
  is_fd lfd -> loop_entry lfd o s0 -> v3_reachable lfd s0 (Batch s n (c :: rest)) ->
  cqe_user_data c <> PRead lfd -> handle_cqe lfd c s = Ok tt s' ->
  forall fd mask e, e ∈ rs_sq s' -> sqe_op e = OpPollAdd fd mask -> e ∈ rs_sq s.
Proof.
  intros Hfd He Hr Hu Hrun fd mask e Hin Hop. pose proof (v3_reachable_inv lfd o Hfd _ _ He Hr) as Hi. simpl in Hi.
  pose proof (vi_tables _ _ _ _ _ Hi) as Htab.
  destruct (head_answer _ _ _ _ _ _ Hi) as [Ht Ha]. rewrite (v3_handle_entry _ _ _ _ Ht), (to_opt _ _ Htab) in Hrun.
  assert (Hlast : forall op p e0 (l : list (sqe address conn_ptr)), e ∈ l ++ [built o op p e0] ->
    (forall fd mask, op <> OpPollAdd fd mask) -> e ∈ l).
  { intros op p e0 l [?|He0]%elem_of_app Hne; [done|]. apply list_elem_of_singleton in He0 as ->.
    rewrite v3_built_op in Hop. by destruct (Hne fd mask). }
  cbv zeta in Hrun. destruct Ha as [Hi32 Hne|cfd Hne Hc Hi32 Hres|cfd Hne Hc|cfd Hne Hc]; simpl in Hrun.
  - done.
  - rewrite (proj2 (Z.eqb_neq _ _) Hne) in Hrun. simpl in Hrun. rewrite to_i32_id in Hrun by auto with machine.
    destruct (cqe_res c <=? 0); apply bind_inv_ok in Hrun as ([] & s1 & [= <-] & Hrun).
    + apply bind_inv_ok in Hrun as (r1 & s2 & Hsh & Hrun). apply bind_inv_ok in Hrun as (r2 & s3 & Hcl & [= <-]).
      unfold shutdown in Hsh. destruct (k_shutdown _ _ _) as [r k]. injection Hsh as _ <-.
      unfold close in Hcl. destruct (k_close _ _) as [r' k']. by injection Hcl as _ <-.
    + pose proof (v3_add_write_spec lfd o cfd (cqe_res c) (put_kern (k_cq_advance 1 (rs_kern s)) s) (proj2 Hc) Htab) as B.
      rewrite Hrun in B. apply builds_row_inv in B as (e0 & ? & _ & ->). eapply Hlast; [exact Hin|by intros ? ? [=]].
  - by injection Hrun as <-.
  - rewrite to_i32_id in Hrun by auto with machine. apply bind_inv_ok in Hrun as ([] & s1 & H1 & [= <-]).
    pose proof (v3_add_read_spec lfd o cfd (msg_len o) s (proj2 Hc) Hne Htab) as B. rewrite H1 in B.
    apply builds_row_inv in B as (e0 & ? & _ & ->). eapply Hlast; [exact Hin|by intros ? ? [=]].
Qed.

End v3_theorems.

Section v3_startup.
Context {K : Type} `{!Liburing address conn_ptr} `{!Kernel address conn_ptr K} `{!Setup K} `{!Register K}.
Context {entries : nat} `{!LiburingOk address conn_ptr entries}.
Context `{!SetupOk address conn_ptr K} `{!RegisterOk address conn_ptr K}.

(** When start-up returns, the three tables and the buffers have
    [max_connections] rows (the option plus 32), one accept is queued whose row
    says so, and nothing is in flight: the state from which the invariants of
    the loop hold. *)
Theorem v3_startup_ready argv (s s' : rstate address conn_ptr K globals) lfd :
  pristine s -> startup argv s = Ok lfd s' -> is_fd lfd ->
  exists o, loop_entry lfd o s' /\ length (bufs (rs_mem s')) = Z.to_nat (max_connections o).
Proof. apply v3_startup_entry. Qed.

End v3_startup.

(** ** A concrete instance *)

Module V3Demo.

Definition blank : sqe address conn_ptr := Sqe (OpPollAdd 0 0) 0 0 0 (PRead 0).
Definition lfd : Z := 3.

Lemma v3_lfd_ok : is_fd lfd.
Proof. unfold is_fd, lfd. lia. Qed.

Definition sane (e : sqe address conn_ptr) (c : cqe conn_ptr) : Prop :=
  match sqe_op e with
  | OpAccept _ _ _ _ => cqe_res c <> lfd
  | OpRecv _ _ n _ => cqe_res c <= n
  | _ => True
  end.

#[global] Instance sane_dec e c : Decision (sane e c).
Proof. unfold sane. destruct (sqe_op e); apply _. Defined.

(** When the server waits: two clients connect, as descriptors 5 and 6. *)
Definition answer (k : ref_kernel address conn_ptr) : nat * Z * Z :=
  match rk_conns k with [] => (0%nat, 5, 0) | _ => (1%nat, 6, 0) end.

#[global] Instance lib : Liburing address conn_ptr := ref_liburing 64 blank.
#[global] Instance lib_ok : LiburingOk address conn_ptr 64 := ref_liburing_ok 64 blank.
#[global] Instance kern : Kernel address conn_ptr (ref_kernel address conn_ptr) := multi_kernel_ops sane answer.
#[global] Instance kern_ok : MultishotOk address conn_ptr (ref_kernel address conn_ptr) := multi_kernel_ok sane answer.
#[global] Instance setup : Setup (ref_kernel address conn_ptr) := ref_setup lfd.
#[global] Instance setup_ok : SetupOk address conn_ptr (ref_kernel address conn_ptr) := ref_setup_ok lfd.
#[global] Instance reg : Register (ref_kernel address conn_ptr) := ref_register 32.
#[global] Instance reg_ok : RegisterOk address conn_ptr (ref_kernel address conn_ptr) := ref_register_ok 32 ltac:(lia).

#[global] Instance sockets_ok : SocketsOk (K := ref_kernel address conn_ptr) lfd.
Proof.
  assert (Hsane : forall (k k' : ref_kernel address conn_ptr) e c, k_post k k' -> posts k k' e c -> sane e c).
  { intros k k' e c (e' & c' & [Hp|Hp] & Hs) Hp'.
    - by destruct (posts_functional _ _ _ _ _ _ Hp' Hp) as [-> ->].
    - destruct Hp as (_ & _ & Hinf & _), Hp' as (Hinf' & _). simpl in *. rewrite Hinf in Hinf'.
      apply Permutation_length in Hinf'. simpl in Hinf'. lia. }
  split; intros k k' e c; [intros fd a l fl Hk Hp Hop|intros fd b n fl Hk Hp Hop _];
    specialize (Hsane _ _ _ _ Hk Hp); unfold sane in Hsane; by rewrite Hop in Hsane.
Qed.

Lemma v3_demo_post i res flags k k' : multi_post sane i res flags k = Some k' -> k_post k k'.
Proof. apply multi_post_ok. Qed.

Definition options_of : options := Options 8884 false 8 2046.
Definition rows (n : nat) : list conn_info := replicate n (ConnInfo 0 0).

Definition s0 : rstate address conn_ptr (ref_kernel address conn_ptr) globals :=
  RState [built options_of (OpAccept lfd AClientAddr AClientLen 0) (PRead lfd) blank]
    (RefK [] [] (fun _ => []) [])
    (Globals options_of (<[3%nat := ConnInfo lfd ACCEPT]> (rows 8)) (rows 8) (rows 8) (ABuf <$> seqZ 0 8) [] 0).

Lemma v3_s0_entry : loop_entry lfd options_of s0.
Proof. split; [by split| |done..]. eexists. split_and!; [done..|]. split; [done|]. by apply request_accept. Qed.

(** The batch of the turn in which the second client connects. *)
Definition second : list (cqe conn_ptr) := [Cqe (PRead lfd) 6 0].

Definition demo_run (acts : list action) :=
  brun (multi_post sane) turn_start (handle_cqe lfd) turn_end acts (BTop s0).
Definition at_end (acts : list action) := bstate_of s0 (demo_run acts).

Lemma v3_demo_reachable acts : v3_reachable lfd s0 (demo_run acts).
Proof. apply (brun_steps (multi_post sane) _ _ _ v3_demo_post). Qed.

Lemma v3_demo_batch acts n rest :
  batch_of (demo_run acts) = Some (n, rest) -> v3_reachable lfd s0 (Batch (at_end acts) n rest).
Proof. intros Hn. unfold at_end. rewrite <- (batch_of_eq _ _ _ _ Hn). apply v3_demo_reachable. Qed.

(** Two clients; the first sends twice, the second message is announced while
    the first is echoed. *)
Definition F_MORE : Z := IORING_CQE_F_MORE.
Definition announced : list action :=
  [Start; Handle; End; Start; Handle; Finish 0 1 F_MORE; End; Start].
Definition sending : list action :=
  announced ++ [Handle; Finish 0 1 F_MORE; End; Start; Finish 3 100 0; Handle; End; Start; Handle;
                Finish 0 1 F_MORE; End; Start].

End V3Demo.

Lemma v3_tables_truthful_witness :
  let s := V3Demo.at_end V3Demo.sending in
  conn_at (rs_mem s) (PWrite 5) = Some (ConnInfo 5 WRITE) /\ accepts V3Demo.lfd (outstanding s) = 1%nat.
Proof.
  intros s. destruct (v3_tables_truthful V3Demo.lfd V3Demo.options_of V3Demo.s0
    (V3Demo.demo_run V3Demo.sending) s) as [Ht Ha].
  - apply V3Demo.v3_lfd_ok.
  - apply V3Demo.v3_s0_entry.
  - apply V3Demo.v3_demo_reachable.
  - right. do 2 eexists. vm_compute. reflexivity.
  - split; [|exact Ha]. destruct (rs_sq s ++ k_inflight (rs_kern s)) as [|e1 [|e2 [|e3 [|e4 [|e5 l]]]]] eqn:Hq;
      [by vm_compute in Hq..|]. destruct (Ht e5) as [_ H5]; [do 4 right; left|].
    vm_compute in Hq. injection Hq as <- <- <- <- <- <-. exact H5.
Defined.

Lemma v3_batch_safe_witness :
  no_ub (for_each (handle_cqe V3Demo.lfd) [Cqe (PPoll 5) 1 2] (V3Demo.at_end V3Demo.sending)).
Proof.
  eapply (v3_batch_safe (entries := 64) V3Demo.lfd V3Demo.options_of V3Demo.s0 (V3Demo.at_end V3Demo.sending) 0).
  - apply V3Demo.v3_lfd_ok.
  - apply V3Demo.v3_s0_entry.
  - apply V3Demo.v3_demo_batch. vm_compute. reflexivity.
  - change (0 + 1 + 1 <= 64)%nat. lia.
  - by apply Forall_singleton.
Defined.

Lemma v3_turn_drains_witness :
  let s := V3Demo.at_end [Start; Handle; End] in
  exists s', event_loop_body V3Demo.lfd s = Ok tt s' /\ V3Demo.second <> [] /\
    k_cq (rs_kern s') = drop 1 (k_cq (rs_kern (final (turn_start s)))) /\
    (Z.of_nat (length (k_cq (rs_kern (final (turn_start s))))) <= BACKLOG -> k_cq (rs_kern s') = []).
Proof.
  intros s. apply (v3_turn_drains V3Demo.lfd V3Demo.options_of V3Demo.s0 s V3Demo.second).
  - apply V3Demo.v3_lfd_ok.
  - apply V3Demo.v3_s0_entry.
  - apply (V3Demo.v3_demo_reachable [Start; Handle; End]).
  - vm_compute. reflexivity.
  - reflexivity.
  - vm_compute. lia.
  - apply Forall_singleton. intros _. split_and!; [|reflexivity|done]. vm_compute. split; [discriminate|reflexivity].
Defined.

Lemma v3_receives_into_sent_buffer_witness :
  let s := V3Demo.at_end V3Demo.sending in
  exists e, (e ∈ rs_sq s ++ k_inflight (rs_kern s)) /\ sqe_op e = OpSend 5 (ABuf 5) 100 0 /\
    exists e', (e' ∈ rs_sq (final (handle_cqe V3Demo.lfd (Cqe (PPoll 5) 1 2) s))) /\
      sqe_op e' = OpRecv 5 (ABuf 5) (to_u32 2046) 0.
Proof.
  intros s. destruct (rs_sq s ++ k_inflight (rs_kern s)) as [|e1 [|e2 [|e3 [|e4 [|e5 l]]]]] eqn:Hq;
    [by vm_compute in Hq..|]. exists e5.
  assert (Hop : sqe_op e5 = OpSend 5 (ABuf 5) 100 0).
  { vm_compute in Hq. injection Hq as <- <- <- <- <- <-. reflexivity. }
  assert (Hin : e5 ∈ e1 :: e2 :: e3 :: e4 :: e5 :: l) by (do 4 right; left). split; [done|]. split; [done|].
  apply (v3_receives_into_sent_buffer V3Demo.lfd V3Demo.options_of V3Demo.s0 s 0 (Cqe (PPoll 5) 1 2) [] e5
    5 (ABuf 5) 100).
  - apply V3Demo.v3_lfd_ok.
  - apply V3Demo.v3_s0_entry.
  - apply V3Demo.v3_demo_batch. vm_compute. reflexivity.
  - reflexivity.
  - by rewrite Hq.
  - done.
  - vm_compute. reflexivity.
Defined.

(** [./server -p 8884 -n 4 -f] *)
Lemma v3_startup_ready_witness :
  let argv := [chars "server"; chars "-p"; chars "8884"; chars "-n"; chars "4"; chars "-f"] in
  let s := RState [] (RefK [] [] (fun _ => []) []) (Globals default_options [] [] [] [] [] 0) in
  exists o, loop_entry V3Demo.lfd o (final (startup argv s)) /\
    length (bufs (rs_mem (final (startup argv s)))) = Z.to_nat (max_connections o).
Proof.
  intros argv s. apply (v3_startup_ready argv s _ V3Demo.lfd).
  - by split.
  - vm_compute. reflexivity.
  - apply V3Demo.v3_lfd_ok.
Defined.
