(* ===== verification/Sockets.v ===== *)
(** * Programs that make blocking socket and epoll calls

    The interface of the operating system used by the programs without a
    ring, the state of such a program (the system, one message buffer, the
    calls made so far) and one monadic function per call.  The record of calls
    is what a system-call trace would show; the specifications of the programs
    are stated on it. *)

From S2P Require Import Prelude Setup.

Definition EPOLLIN : Z := 2 ^ 0.
Definition EPOLLERR : Z := 2 ^ 3.
Definition EPOLLHUP : Z := 2 ^ 4.
Definition EPOLLET : Z := 2 ^ 31.
Definition EPOLL_CTL_ADD : Z := 1.
Definition EPOLL_CTL_DEL : Z := 2.
Definition SOMAXCONN : Z := 4096.

Record epoll_event : Type := EpollEvent {
  ev_events : Z;
  ev_fd : Z
}.

(** System calls with their results, -1 on error.  [w_recv] also returns the bytes it stored, [w_epoll_wait] the
    events it reported. *)
Class Sockets (W : Type) : Type := {
  w_socket : Z -> Z -> Z -> W -> Z * W;
  w_bind : Z -> sockaddr_in -> W -> Z * W;
  w_listen : Z -> Z -> W -> Z * W;
  w_accept : Z -> Z -> W -> Z * W;
  w_recv : Z -> Z -> W -> Z * list Z * W;
  w_send : Z -> list Z -> W -> Z * W;
  w_close : Z -> W -> Z * W;
  w_shutdown : Z -> Z -> W -> Z * W;
  w_epoll_create : Z -> W -> Z * W;
  w_epoll_ctl : Z -> Z -> Z -> Z -> W -> Z * W;
  w_epoll_wait : Z -> Z -> W -> Z * list epoll_event * W
}.

(** recv(2): at most the requested number of bytes is stored, and the result
    is that number; nothing is stored on error.  epoll_wait(2): at most the
    requested number of events is reported and the result is that number,
    or -1. *)
Class SocketsLaws (W : Type) `{!Sockets W} : Prop := {
  recv_law fd n w : let '(r, data, _) := w_recv fd n w in
    (0 <= n -> r <= n) /\ Z.of_nat (length data) = Z.max 0 r;
  epoll_wait_law ep n w : let '(r, evs, _) := w_epoll_wait ep n w in
    0 < n -> (r = -1 /\ evs = []) \/ (r = Z.of_nat (length evs) /\ r <= n)
}.

(** A call with the arguments and results that matter. *)
Inductive call : Type :=
| CSocket (res : Z)
| CBind (fd port res : Z)
| CListen (fd backlog res : Z)
| CAccept (fd res : Z)
| CRecv (fd n res : Z) (data : list Z)
| CSend (fd : Z) (data : list Z) (res : Z)
| CClose (fd : Z)
| CShutdown (fd how : Z)
| CEpollCreate (res : Z)
| CEpollCtl (op fd events res : Z)
| CEpollWait (res : Z) (events : list epoll_event).

Record nstate (W : Type) : Type := NState {
  world : W;
  buffer : list Z;
  trace : list call
}.

Arguments NState {W}.
Arguments world {W}.
Arguments buffer {W}.
Arguments trace {W}.

Section socket_calls.
Context {W : Type} `{!Sockets W}.

Local Abbreviation st := (nstate W).

(** The state after a call that leaves the system in [w]. *)
Definition called (c : call) (w : W) (s : st) : st := NState w (buffer s) (trace s ++ [c]).

Definition socket (domain type protocol : Z) : M st Z := fun s =>
  let '(r, w) := w_socket domain type protocol (world s) in Ok r (called (CSocket r) w s).
Definition bind (fd : Z) (a : sockaddr_in) : M st Z := fun s =>
  let '(r, w) := w_bind fd a (world s) in Ok r (called (CBind fd (sin_port a) r) w s).
Definition listen (fd backlog : Z) : M st Z := fun s =>
  let '(r, w) := w_listen fd backlog (world s) in Ok r (called (CListen fd backlog r) w s).
Definition accept (fd flags : Z) : M st Z := fun s =>
  let '(r, w) := w_accept fd flags (world s) in Ok r (called (CAccept fd r) w s).
Definition close (fd : Z) : M st Z := fun s =>
  let '(r, w) := w_close fd (world s) in Ok r (called (CClose fd) w s).
Definition shutdown (fd how : Z) : M st Z := fun s =>
  let '(r, w) := w_shutdown fd how (world s) in Ok r (called (CShutdown fd how) w s).
Definition epoll_create (size : Z) : M st Z := fun s =>
  let '(r, w) := w_epoll_create size (world s) in Ok r (called (CEpollCreate r) w s).
Definition epoll_ctl (epfd op fd events : Z) : M st Z := fun s =>
  let '(r, w) := w_epoll_ctl epfd op fd events (world s) in Ok r (called (CEpollCtl op fd events r) w s).
Definition epoll_wait (epfd maxevents : Z) : M st (Z * list epoll_event) := fun s =>
  let '(r, evs, w) := w_epoll_wait epfd maxevents (world s) in
  Ok (r, evs) (called (CEpollWait r evs) w s).

(** [recv(fd, buffer, n, 0)] and [recvmsg] with one block: what arrives is
    stored at the start of the buffer; beyond its end it is undefined. *)
Definition recv (fd n : Z) : M st Z := fun s =>
  let '(r, data, w) := w_recv fd n (world s) in
  if (length data <=? length (buffer s))%nat
  then Ok r (NState w (data ++ drop (length data) (buffer s)) (trace s ++ [CRecv fd n r data]))
  else Ub s.

(** [send(fd, buffer, n, 0)] and [sendmsg] with one block. *)
Definition send (fd n : Z) : M st Z := fun s =>
  if (0 <=? n) && (n <=? Z.of_nat (length (buffer s))) then
    let data := take (Z.to_nat n) (buffer s) in
    let '(r, w) := w_send fd data (world s) in Ok r (called (CSend fd data r) w s)
  else Ub s.

(** A [send] of other data than the buffer. *)
Definition send_bytes (fd : Z) (data : list Z) : M st Z := fun s =>
  let '(r, w) := w_send fd data (world s) in Ok r (called (CSend fd data r) w s).

(** [buffer[i] = b] *)
Definition store_byte (i b : Z) : M st unit := fun s =>
  if (0 <=? i) && (i <? Z.of_nat (length (buffer s)))
  then Ok tt (NState (world s) (<[Z.to_nat i := b]> (buffer s)) (trace s))
  else Ub s.

(** ** What the calls do to the buffer *)

Context `{!SocketsLaws W}.

(** A receive that fits succeeds, keeps the length of the buffer and leaves
    the data at its start. *)
Lemma recv_spec fd n s :
  0 <= n <= Z.of_nat (length (buffer s)) ->
  exists r data w, recv fd n s =
      Ok r (NState w (data ++ drop (length data) (buffer s)) (trace s ++ [CRecv fd n r data])) /\
    r <= n /\ Z.of_nat (length data) = Z.max 0 r /\
    length (data ++ drop (length data) (buffer s)) = length (buffer s).
Proof.
  intros Hn. unfold recv. pose proof (recv_law fd n (world s)) as Hl.
  destruct (w_recv fd n (world s)) as [[r data] w]. destruct Hl as [Hr Hd]. specialize (Hr ltac:(lia)).
  assert (Hle : (length data <= length (buffer s))%nat) by lia.
  exists r, data, w. rewrite (proj2 (Nat.leb_le _ _)) by done. split_and!; [done..|].
  rewrite length_app, length_drop. lia.
Qed.

(** Sending back as many bytes as were received sends the bytes received. *)
Lemma send_received fd r data s :
  0 <= r -> Z.of_nat (length data) = Z.max 0 r -> (length data <= length (buffer s))%nat ->
  take (length data) (buffer s) = data ->
  exists res w, send fd r s = Ok res (called (CSend fd data res) w s).
Proof.
  intros Hr Hd Hle Htake. unfold send.
  rewrite (proj2 (Z.leb_le 0 r)), (proj2 (Z.leb_le r _)) by lia. simpl.
  replace (Z.to_nat r) with (length data) by lia. rewrite Htake.
  destruct (w_send fd data (world s)) as [res w]. eauto.
Qed.

End socket_calls.

(** ** A system that delivers given messages

    Every accept succeeds with descriptor 5; the messages arrive one per
    receive, then the stream ends; epoll reports the events of [ref_events]
    one list per wait, then fails. *)
Record ref_world : Type := RefWorld {
  ref_messages : list (list Z);
  ref_events : list (list epoll_event)
}.

Definition ref_recv (n : Z) (w : ref_world) : Z * list Z * ref_world :=
  match ref_messages w with
  | [] => (0, [], w)
  | m :: ms => let data := take (Z.to_nat n) m in
               (Z.of_nat (length data), data, RefWorld ms (ref_events w))
  end.

Definition ref_epoll_wait (n : Z) (w : ref_world) : Z * list epoll_event * ref_world :=
  match ref_events w with
  | [] => (-1, [], w)
  | evs :: rest => let evs := take (Z.to_nat n) evs in
                   (Z.of_nat (length evs), evs, RefWorld (ref_messages w) rest)
  end.

Definition ref_sockets : Sockets ref_world := {|
  w_socket := fun _ _ _ w => (3, w);
  w_bind := fun _ _ w => (0, w);
  w_listen := fun _ _ w => (0, w);
  w_accept := fun _ _ w => (5, w);
  w_recv := fun _ n w => ref_recv n w;
  w_send := fun _ data w => (Z.of_nat (length data), w);
  w_close := fun _ w => (0, w);
  w_shutdown := fun _ _ w => (0, w);
  w_epoll_create := fun _ w => (4, w);
  w_epoll_ctl := fun _ _ _ _ w => (0, w);
  w_epoll_wait := fun _ n w => ref_epoll_wait n w
|}.

Lemma ref_sockets_laws : @SocketsLaws ref_world ref_sockets.
Proof.
  split; simpl.
  - intros fd n [ms evs]. unfold ref_recv; simpl. destruct ms as [|m ms]; simpl; [lia|].
    rewrite length_take. lia.
  - intros ep n [ms evs]. unfold ref_epoll_wait; simpl. destruct evs as [|l evs]; simpl; [by left|].
    intros Hn. right. split; [done|]. rewrite length_take. lia.
Qed.
