(* ===== verification/BlockingDemo.v ===== *)
(** * The blocking demos: [demo/tcp_send_recvmsg_echo_demo.c] and
      [demo/tcp_send_recvmsg_demo.c]

    Servers that accept a connection, receive one message, answer it and close
    the connection: with the message itself, or with a fixed greeting. *)

From stdpp Require Import strings.
From S2P Require Import Prelude Libc Setup Sockets.

Definition MAX_BUFFER_SIZE : Z := 1024.
Definition PORT : Z := 8888.

Section demos.
Context {W : Type} `{!Sockets W}.

Local Abbreviation st := (nstate W).

(** [main] up to its loop; the two programs have the same text here. *)
Definition open_listener : M st Z :=
  listenfd ← socket AF_INET SOCK_STREAM 0;
  if listenfd <? 0 then exit_ 1 else
  let server_addr := SockAddrIn AF_INET (htons PORT) INADDR_ANY in
  r ← bind listenfd server_addr;
  if r <? 0 then exit_ 1 else
  r ← listen listenfd 10;
  if r <? 0 then exit_ 1 else
  mret listenfd.

(** One turn of [while (1)] of the echo server. *)
Definition echo_turn (listenfd : Z) : M st unit :=
  connfd ← accept listenfd 0;
  if connfd <? 0 then mret tt else
  bytes_received ← recv connfd (MAX_BUFFER_SIZE - 1);
  if bytes_received <? 0 then close connfd ;; mret tt else
  store_byte bytes_received 0 ;;
  bytes_sent ← send connfd bytes_received;
  if bytes_sent <? 0 then close connfd ;; mret tt else
  close connfd ;; mret tt.

Definition greeting : list Z := chars "Hello, client!".

(** One turn of the server that answers with a greeting. *)
Definition hello_turn (listenfd : Z) : M st unit :=
  connfd ← accept listenfd 0;
  if connfd <? 0 then mret tt else
  bytes_received ← recv connfd (MAX_BUFFER_SIZE - 1);
  if bytes_received <? 0 then close connfd ;; mret tt else
  store_byte bytes_received 0 ;;
  bytes_sent ← send_bytes connfd greeting;
  if bytes_sent <? 0 then close connfd ;; mret tt else
  close connfd ;; mret tt.

(** [n] turns of the loop. *)
Definition turns (turn : M st unit) (n : nat) : M st unit := for_each (fun _ => turn) (seq 0 n).

End demos.

(** ** The protocol

    What a client may rely on, as an automaton over the calls: connections are
    served one at a time; each is answered exactly once with [reply] of what
    was received, unless receiving failed; each is closed, once, before the
    next is accepted. *)
Inductive phase : Type :=
| Idle
| Accepted (fd : Z)
| Received (fd : Z) (data : list Z)
| Finished (fd : Z).

#[export] Instance call_eq_dec : EqDecision call.
Proof.
  assert (EqDecision epoll_event) by solve_decision. solve_decision.
Defined.

Section protocol.
Context (listenfd : Z) (reply : list Z -> list Z).

Definition protocol_step (p : phase) (c : call) : option phase :=
  match p, c with
  | Idle, CAccept l r =>
      if l =? listenfd then Some (if r <? 0 then Idle else Accepted r) else None
  | Accepted fd, CRecv fd' n r data =>
      if (fd =? fd') && (n <? MAX_BUFFER_SIZE) then
        Some (if r <? 0 then Finished fd else Received fd data)
      else None
  | Received fd data, CSend fd' out _ =>
      if (fd =? fd') && bool_decide (out = reply data) then Some (Finished fd) else None
  | Finished fd, CClose fd' => if fd =? fd' then Some Idle else None
  | _, _ => None
  end.

Fixpoint protocol (p : phase) (l : list call) : option phase :=
  match l with
  | [] => Some p
  | c :: l => p' ← protocol_step p c; protocol p' l
  end.

Lemma protocol_app p l k : protocol p (l ++ k) = p' ← protocol p l; protocol p' k.
Proof.
  revert p. induction l as [|c l IH]; intros p; simpl; [done|].
  destruct (protocol_step p c); simpl; auto.
Qed.

End protocol.

Section refinement.
Context {W : Type} `{!Sockets W} `{!SocketsLaws W} (listenfd : Z).

Local Abbreviation st := (nstate W).

(** [turn] is a round of the protocol: it returns, keeps the buffer's size and
    adds calls that lead from idle to idle. *)
Definition round (reply : list Z -> list Z) (turn : M st unit) : Prop :=
  forall s, Z.of_nat (length (buffer s)) = MAX_BUFFER_SIZE -> exists s' l,
    turn s = Ok tt s' /\ Z.of_nat (length (buffer s')) = MAX_BUFFER_SIZE /\
    trace s' = trace s ++ l /\ protocol listenfd reply Idle l = Some Idle.

Lemma turns_round reply turn n s :
  round reply turn -> Z.of_nat (length (buffer s)) = MAX_BUFFER_SIZE ->
  exists s' l, turns turn n s = Ok tt s' /\ Z.of_nat (length (buffer s')) = MAX_BUFFER_SIZE /\
    trace s' = trace s ++ l /\ protocol listenfd reply Idle l = Some Idle.
Proof.
  intros Hround. unfold turns. generalize 0%nat. revert s.
  induction n as [|n IH]; intros s i Hb; cbn [seq for_each].
  { exists s, []. by rewrite app_nil_r. }
  destruct (Hround s Hb) as (s1 & l1 & H1 & Hb1 & Ht1 & Hp1).
  destruct (IH s1 (S i) Hb1) as (s2 & l2 & H2 & Hb2 & Ht2 & Hp2).
  exists s2, (l1 ++ l2). rewrite (bind_ok _ _ _ _ _ H1). split_and!; [done..| |].
  - by rewrite Ht2, Ht1, app_assoc.
  - by rewrite protocol_app, Hp1.
Qed.

(** Both servers, with what they send as a parameter. *)
Definition serve_turn (answer : Z -> Z -> M st Z) : M st unit :=
  connfd ← accept listenfd 0;
  if connfd <? 0 then mret tt else
  bytes_received ← recv connfd (MAX_BUFFER_SIZE - 1);
  if bytes_received <? 0 then close connfd ;; mret tt else
  store_byte bytes_received 0 ;;
  bytes_sent ← answer connfd bytes_received;
  if bytes_sent <? 0 then close connfd ;; mret tt else
  close connfd ;; mret tt.

(** [answer] sends [reply data] when [data] was received. *)
Definition answers (reply : list Z -> list Z) (answer : Z -> Z -> M st Z) : Prop :=
  forall fd r data s, 0 <= r -> Z.of_nat (length data) = Z.max 0 r ->
    (length data <= length (buffer s))%nat -> take (length data) (buffer s) = data ->
    exists res w, answer fd r s = Ok res (called (CSend fd (reply data) res) w s).

Lemma close_done fd (s : st) :
  exists s', (close fd ;; mret tt) s = Ok tt s' /\
    buffer s' = buffer s /\ trace s' = trace s ++ [CClose fd].
Proof. unfold close. mred. destruct (w_close fd (world s)); by eexists. Qed.

Lemma serve_round reply answer : answers reply answer -> round reply (serve_turn answer).
Proof.
  intros Hans s Hb. unfold serve_turn. unfold accept at 1. unfold mbind at 1, M_bind at 1.
  destruct (w_accept listenfd 0 (world s)) as [connfd w1].
  set (s1 := called (CAccept listenfd connfd) w1 s). destruct (Z.ltb_spec connfd 0) as [Hneg|Hfd].
  { exists s1, [CAccept listenfd connfd]. split_and!; [done..|]. simpl.
    by rewrite Z.eqb_refl, (proj2 (Z.ltb_lt _ _) Hneg). }
  destruct (recv_spec connfd (MAX_BUFFER_SIZE - 1) s1) as (r & data & w2 & Hrecv & Hle & Hlen & Hb2).
  { unfold s1; simpl. unfold MAX_BUFFER_SIZE in *. lia. }
  change (buffer s1) with (buffer s) in *.
  rewrite (bind_ok _ _ _ _ _ Hrecv). set (s2 := NState w2 _ _).
  destruct (Z.ltb_spec r 0) as [Hr|Hr].
  { destruct (close_done connfd s2) as (s3 & -> & Hb3 & Ht3). eexists _, [_; _; _].
    split; [done|]. rewrite Hb3, Ht3. split; [simpl; by rewrite Hb2|]. split.
    - simpl. by rewrite <- !app_assoc.
    - simpl. rewrite Z.eqb_refl, (proj2 (Z.ltb_ge connfd 0)) by lia. simpl.
      rewrite Z.eqb_refl, (proj2 (Z.ltb_lt r 0)) by lia. simpl. by rewrite Z.eqb_refl. }
  assert (Hstore : store_byte r 0 s2 = Ok tt (NState w2 (<[Z.to_nat r := 0]> (buffer s2)) (trace s2))).
  { unfold store_byte, s2; simpl. rewrite Hb2.
    rewrite (proj2 (Z.leb_le 0 r)), (proj2 (Z.ltb_lt r _)) by (unfold MAX_BUFFER_SIZE in *; lia). done. }
  rewrite (bind_ok _ _ _ _ _ Hstore). set (s3 := NState w2 (<[Z.to_nat r := 0]> _) _).
  destruct (Hans connfd r data s3) as (res & w4 & Hsend); [done|done| | |].
  - simpl. rewrite length_insert, Hb2. lia.
  - simpl. replace (Z.to_nat r) with (length data) by lia.
    rewrite take_insert_ge by lia. by rewrite take_app_length.
  - rewrite (bind_ok _ _ _ _ _ Hsend).
    assert (Hend : forall t : st, exists t', (if res <? 0 then close connfd ;; mret tt else close connfd ;; mret tt) t
      = Ok tt t' /\ buffer t' = buffer t /\ trace t' = trace t ++ [CClose connfd])
      by (intros t; destruct (res <? 0); apply close_done).
    destruct (Hend (called (CSend connfd (reply data) res) w4 s3)) as (s5 & -> & Hb5 & Ht5).
    eexists _, [_; _; _; _]. split; [done|]. rewrite Hb5, Ht5. split; [simpl; by rewrite length_insert, Hb2|].
    split; [simpl; by rewrite <- !app_assoc|]. simpl.
    rewrite Z.eqb_refl, (proj2 (Z.ltb_ge connfd 0)) by lia. simpl.
    rewrite Z.eqb_refl, (proj2 (Z.ltb_ge r 0)) by lia. simpl.
    rewrite Z.eqb_refl, bool_decide_eq_true_2 by done. simpl. by rewrite Z.eqb_refl.
Qed.

Lemma echo_answers : answers (fun data => data) send.
Proof. intros fd r data s Hr Hd Hl Ht. by apply send_received. Qed.

Lemma hello_answers : answers (fun _ => greeting) (fun fd _ => send_bytes fd greeting).
Proof. intros fd r data s _ _ _ _. unfold send_bytes. destruct (w_send _ _ _); eauto. Qed.

(** C22: the blocking echo server follows the protocol for ever.  From a
    buffer of the declared size, any number of turns completes, without
    undefined behaviour (the terminating zero byte is stored inside the
    buffer) and without the process ending, and the calls made are exactly
    rounds of: accept, receive, send back the very bytes received, close, with
    the shortcuts for a failed accept or receive. *)
Theorem blocking_echo_protocol n (s : st) :
  Z.of_nat (length (buffer s)) = MAX_BUFFER_SIZE ->
  exists s' l, turns (echo_turn listenfd) n s = Ok tt s' /\ trace s' = trace s ++ l /\
    protocol listenfd (fun data => data) Idle l = Some Idle.
Proof.
  intros Hb. destruct (turns_round (fun data => data) (echo_turn listenfd) n s) as (s' & l & H1 & _ & H2 & H3);
    [|done|by exists s', l]. apply (serve_round _ _ echo_answers).
Qed.

(** The same for the greeting server: every message received is answered
    with the 14 bytes of the greeting. *)
Theorem blocking_hello_protocol n (s : st) :
  Z.of_nat (length (buffer s)) = MAX_BUFFER_SIZE ->
  exists s' l, turns (hello_turn listenfd) n s = Ok tt s' /\ trace s' = trace s ++ l /\
    protocol listenfd (fun _ => greeting) Idle l = Some Idle.
Proof.
  intros Hb. destruct (turns_round (fun _ => greeting) (hello_turn listenfd) n s) as (s' & l & H1 & _ & H2 & H3);
    [|done|by exists s', l]. apply (serve_round _ _ hello_answers).
Qed.

End refinement.

(** Two clients: one sends three bytes, the next one nothing. *)
Lemma blocking_echo_protocol_witness :
  let s : nstate ref_world := NState (RefWorld [[65; 66; 67]] []) (replicate (Z.to_nat 1024) 0) [] in
  exists s' l, turns (echo_turn (Sockets0 := ref_sockets) 3) 2 s = Ok tt s' /\ trace s' = [] ++ l /\
    protocol 3 (fun data => data) Idle l = Some Idle.
Proof.
  intros s. apply (blocking_echo_protocol (Sockets0 := ref_sockets) (SocketsLaws0 := ref_sockets_laws) 3 2 s).
  reflexivity.
Defined.

Lemma blocking_hello_protocol_witness :
  let s : nstate ref_world := NState (RefWorld [[65; 66; 67]] []) (replicate (Z.to_nat 1024) 0) [] in
  exists s' l, turns (hello_turn (Sockets0 := ref_sockets) 3) 2 s = Ok tt s' /\ trace s' = [] ++ l /\
    protocol 3 (fun _ => greeting) Idle l = Some Idle.
Proof.
  intros s. apply (blocking_hello_protocol (Sockets0 := ref_sockets) (SocketsLaws0 := ref_sockets_laws) 3 2 s).
  reflexivity.
Defined.
