(* ===== verification/EpollProtocol.v ===== *)
(** * What an epoll echo server promises

    The laws of epoll the servers rely on, the protocol they implement as an
    automaton over their system calls, and the part of the refinement proof
    that does not depend on the server: an event loop whose handler conforms
    to the protocol conforms to it for ever. *)

From S2P Require Import Prelude Setup Sockets.

(** ** Epoll

    epoll_ctl(2), epoll_wait(2), close(2): the interest list changes only
    through [epoll_ctl] and [close]; a wait reports descriptors of the interest
    list, each at most once.  accept(2): the new descriptor is not in use, so
    not watched. *)
Class Epoll (W : Type) : Type := w_interest : W -> gset Z.

Class EpollLaws (W : Type) `{!Sockets W} `{!Epoll W} : Prop := {
  interest_socket d t p w : w_interest (w_socket d t p w).2 = w_interest w;
  interest_bind fd a w : w_interest (w_bind fd a w).2 = w_interest w;
  interest_listen fd n w : w_interest (w_listen fd n w).2 = w_interest w;
  interest_create n w : w_interest (w_epoll_create n w).2 = w_interest w;
  interest_recv fd n w : w_interest (w_recv fd n w).2 = w_interest w;
  interest_send fd d w : w_interest (w_send fd d w).2 = w_interest w;
  interest_shutdown fd h w : w_interest (w_shutdown fd h w).2 = w_interest w;
  interest_close fd w : w_interest (w_close fd w).2 = w_interest w ∖ {[fd]};
  interest_accept fd fl w : let '(r, w') := w_accept fd fl w in
    w_interest w' = w_interest w /\ (r = -1 \/ r ∉ w_interest w);
  interest_ctl ep op fd evs w : let '(r, w') := w_epoll_ctl ep op fd evs w in
    w_interest w' = if op =? EPOLL_CTL_DEL then w_interest w ∖ {[fd]}
                    else if r =? -1 then w_interest w else {[fd]} ∪ w_interest w;
  interest_wait ep n w : let '(r, evs, w') := w_epoll_wait ep n w in
    w_interest w' = w_interest w /\ NoDup (ev_fd <$> evs) /\
    (forall ev, ev ∈ evs -> ev_fd ev ∈ w_interest w)
}.

(** ** The protocol

    The automaton knows which descriptors are watched.  Data is received only
    from a watched connection, at most [max_len] bytes, and whatever arrives is
    sent back, unchanged, on the same connection before anything else happens;
    a connection whose peer is gone is no longer watched and shut down; an
    error of [epoll_wait], [accept] or [epoll_ctl] stops the server.  A server
    that is [closing] also closes descriptors on which epoll reports an error
    and connections to which it cannot send. *)
Inductive ephase : Type :=
| EIdle
| EAccepted (fd : Z)
| EReceived (fd : Z) (data : list Z)
| EFailed (fd : Z)
| EHungUp (fd : Z)
| EUnwatched (fd : Z)
| EStopped.

Section eprotocol.
Context (lfd max_len : Z) (closing : bool).

Definition eprotocol_step (x : gset Z * ephase) (c : call) : option (gset Z * ephase) :=
  let '(watched, p) := x in
  match p, c with
  | EIdle, CEpollWait r _ => Some (watched, if r =? -1 then EStopped else EIdle)
  | EIdle, CAccept fd r =>
      if fd =? lfd then Some (watched, if r =? -1 then EStopped else EAccepted r) else None
  | EAccepted fd, CEpollCtl op fd' evs r =>
      if (op =? EPOLL_CTL_ADD) && (fd =? fd') && bool_decide (fd ∉ watched) then
        Some (if r =? -1 then (watched, EStopped) else ({[fd]} ∪ watched, EIdle))
      else None
  | EIdle, CRecv fd n r data =>
      if bool_decide (fd ∈ watched) && negb (fd =? lfd) && (n <=? max_len) then
        Some (watched, if r <=? 0 then EHungUp fd else EReceived fd data)
      else None
  | EReceived fd data, CSend fd' out r =>
      if (fd =? fd') && bool_decide (out = data) then
        Some (watched, if closing && (r <? 0) then EFailed fd else EIdle)
      else None
  | EHungUp fd, CEpollCtl op fd' _ _ =>
      if (op =? EPOLL_CTL_DEL) && (fd =? fd') then Some (watched, EUnwatched fd) else None
  | EUnwatched fd, CShutdown fd' how =>
      if (fd =? fd') && (how =? SHUT_RDWR) then Some (watched ∖ {[fd]}, EIdle) else None
  | EFailed fd, CClose fd' => if fd =? fd' then Some (watched ∖ {[fd]}, EIdle) else None
  | EIdle, CClose fd =>
      if closing && bool_decide (fd ∈ watched) then Some (watched ∖ {[fd]}, EIdle) else None
  | _, _ => None
  end.

Fixpoint eprotocol (x : gset Z * ephase) (l : list call) : option (gset Z * ephase) :=
  match l with
  | [] => Some x
  | c :: l => x' ← eprotocol_step x c; eprotocol x' l
  end.

Lemma eprotocol_app x l k : eprotocol x (l ++ k) = x' ← eprotocol x l; eprotocol x' k.
Proof.
  revert x. induction l as [|c l IH]; intros x; simpl; [done|].
  destruct (eprotocol_step x c); simpl; auto.
Qed.

(** ** Conforming programs *)

Context {W : Type} `{!Sockets W} `{!SocketsLaws W} `{!Epoll W} `{!EpollLaws W}.
Context (buffer_len : Z).

Local Abbreviation st := (nstate W).

(** The interest list is [watched], and the buffer has its declared size. *)
Record watching (s : st) (watched : gset Z) : Prop := Watching {
  watching_buffer : Z.of_nat (length (buffer s)) = buffer_len;
  watching_interest : w_interest (world s) = watched
}.

(** Running from [s] while watching [watched] ends as the protocol allows:
    back at idle with [Q] of what is watched then, or stopped with status 1;
    never in undefined behaviour. *)
Definition conforms (watched : gset Z) (s : st) (Q : gset Z -> Prop) (o : outcome st unit) : Prop :=
  match o with
  | Ok _ s' => exists l watched', trace s' = trace s ++ l /\
      eprotocol (watched, EIdle) l = Some (watched', EIdle) /\ watching s' watched' /\ Q watched'
  | Exit code s' => code = 1 /\ exists l watched', trace s' = trace s ++ l /\
      eprotocol (watched, EIdle) l = Some (watched', EStopped)
  | Ub _ => False
  end.

Lemma conforms_bind watched s (m k : M st unit) (Q R : gset Z -> Prop) :
  conforms watched s Q (m s) ->
  (forall s' watched', watching s' watched' -> Q watched' -> conforms watched' s' R (k s')) ->
  conforms watched s R ((m ;; k) s).
Proof.
  intros Hm Hk. unfold mbind, M_bind. destruct (m s) as [[] s1|code s1|s1]; simpl in Hm; [|done..].
  destruct Hm as (l1 & w1 & Ht1 & Hp1 & Hw1 & HQ1). specialize (Hk s1 w1 Hw1 HQ1).
  destruct (k s1) as [[] s2|code s2|s2]; simpl in *; [| |done].
  - destruct Hk as (l2 & w2 & Ht2 & Hp2 & Hw2 & HR2). exists (l1 ++ l2), w2.
    rewrite Ht2, Ht1, app_assoc, eprotocol_app, Hp1. done.
  - destruct Hk as (-> & l2 & w2 & Ht2 & Hp2). split; [done|]. exists (l1 ++ l2), w2.
    by rewrite Ht2, Ht1, app_assoc, eprotocol_app, Hp1.
Qed.

(** The other descriptors of the batch are still watched afterwards. *)
Definition keeps (watched : gset Z) (fd : Z) (watched' : gset Z) : Prop :=
  forall x, x <> fd -> x ∈ watched -> x ∈ watched'.

(** A handler that conforms on every watched descriptor. *)
Definition handler_conforms (handle : epoll_event -> M st unit) : Prop :=
  forall s watched ev, watching s watched -> ev_fd ev ∈ watched ->
    conforms watched s (keeps watched (ev_fd ev)) (handle ev s).

(** One turn of the event loop. *)
Definition event_turn (handle : epoll_event -> M st unit) (epfd max_events : Z) : M st unit :=
  r ← epoll_wait epfd max_events;
  let '(n, events) := (r : Z * list epoll_event) in
  if n =? -1 then exit_ 1 else for_each handle (take (Z.to_nat n) events).

(** ** The pieces handlers are made of *)

(** Accept a connection and watch it. *)
Definition accept_and_watch (epfd flags events : Z) : M st unit :=
  fd ← accept lfd flags;
  if fd =? -1 then exit_ 1 else
  r ← epoll_ctl epfd EPOLL_CTL_ADD fd events;
  if r =? -1 then exit_ 1 else mret tt.

Lemma accept_conforms epfd flags events s watched fd0 :
  watching s watched ->
  conforms watched s (keeps watched fd0) (accept_and_watch epfd flags events s).
Proof.
  intros [Hb Hi]. unfold accept_and_watch, accept, epoll_ctl. mred.
  pose proof (interest_accept lfd flags (world s)) as Ha.
  destruct (w_accept lfd flags (world s)) as [r w1]. destruct Ha as [Hw1 Hr].
  destruct (Z.eqb_spec r (-1)) as [->|Hne].
  { split; [done|]. exists [CAccept lfd (-1)], watched. split; [done|]. simpl. by rewrite Z.eqb_refl. }
  destruct Hr as [?|Hr]; [done|]. rewrite Hi in Hr. simpl.
  pose proof (interest_ctl epfd EPOLL_CTL_ADD r events w1) as Hc.
  destruct (w_epoll_ctl _ _ _ _ _) as [r2 w2]. change (EPOLL_CTL_ADD =? EPOLL_CTL_DEL) with false in Hc.
  set (l := [CAccept lfd r; CEpollCtl EPOLL_CTL_ADD r events r2]).
  assert (Hp : eprotocol (watched, EIdle) l =
    Some (if r2 =? -1 then (watched, EStopped) else ({[r]} ∪ watched, EIdle))).
  { simpl. rewrite !Z.eqb_refl, (proj2 (Z.eqb_neq r (-1))) by done. simpl.
    rewrite Z.eqb_refl, bool_decide_eq_true_2 by done. by destruct (r2 =? -1). }
  destruct (r2 =? -1).
  - split; [done|]. exists l, watched. split; [simpl; by rewrite <- app_assoc|done].
  - exists l, ({[r]} ∪ watched). split_and!; [simpl; by rewrite <- app_assoc|done| |unfold keeps; set_solver].
    split; [done|]. simpl. by rewrite Hc, Hw1, Hi.
Qed.

(** Stop watching a connection whose peer is gone. *)
Definition drop_conn (epfd fd : Z) : M st unit :=
  epoll_ctl epfd EPOLL_CTL_DEL fd 0 ;; shutdown fd SHUT_RDWR ;; mret tt.

(** What follows a send. *)
Definition after_send (fd res : Z) : M st unit :=
  if closing then if res <? 0 then close fd ;; mret tt else mret tt else mret tt.

(** Receive once and send back what arrived. *)
Definition echo_once (epfd fd n : Z) : M st unit :=
  r ← recv fd n;
  if r <=? 0 then drop_conn epfd fd else res ← send fd r; after_send fd res.

Lemma recv_interest fd n (s : st) r s' :
  recv fd n s = Ok r s' -> w_interest (world s') = w_interest (world s).
Proof.
  unfold recv. pose proof (interest_recv fd n (world s)) as H.
  destruct (w_recv _ _ _) as [[r' d'] w']. destruct (_ <=? _)%nat; [|done]. by intros [= _ <-].
Qed.

Lemma send_interest fd n (s : st) r s' :
  send fd n s = Ok r s' -> w_interest (world s') = w_interest (world s).
Proof.
  unfold send. destruct (_ && _); [|done].
  pose proof (interest_send fd (take (Z.to_nat n) (buffer s)) (world s)) as H.
  destruct (w_send _ _ _) as [r' w']. by intros [= _ <-].
Qed.

Lemma drop_spec epfd fd (s : st) :
  exists r s', drop_conn epfd fd s = Ok tt s' /\ buffer s' = buffer s /\
    trace s' = trace s ++ [CEpollCtl EPOLL_CTL_DEL fd 0 r; CShutdown fd SHUT_RDWR] /\
    w_interest (world s') = w_interest (world s) ∖ {[fd]}.
Proof.
  unfold drop_conn, epoll_ctl, shutdown. mred.
  pose proof (interest_ctl epfd EPOLL_CTL_DEL fd 0 (world s)) as Hc.
  destruct (w_epoll_ctl _ _ _ _ _) as [r2 w2]. rewrite Z.eqb_refl in Hc. simpl.
  pose proof (interest_shutdown fd SHUT_RDWR w2) as Hs.
  destruct (w_shutdown fd SHUT_RDWR w2) as [r3 w3]. simpl in Hs. do 2 eexists. split; [done|]. simpl.
  rewrite <- app_assoc. split_and!; [done..|congruence].
Qed.

Lemma after_send_spec fd res (s : st) :
  exists s' l, after_send fd res s = Ok tt s' /\ buffer s' = buffer s /\ trace s' = trace s ++ l /\
    (if closing && (res <? 0)
     then l = [CClose fd] /\ w_interest (world s') = w_interest (world s) ∖ {[fd]}
     else l = [] /\ w_interest (world s') = w_interest (world s)).
Proof.
  unfold after_send, close. destruct closing; simpl; [destruct (res <? 0)|].
  - mred. pose proof (interest_close fd (world s)) as Hc. destruct (w_close _ _) as [r w]. by do 2 eexists.
  - exists s, []. by rewrite app_nil_r.
  - exists s, []. by rewrite app_nil_r.
Qed.

Lemma echo_conforms epfd fd n s watched :
  watching s watched -> fd ∈ watched -> fd <> lfd -> 0 <= n <= buffer_len -> n <= max_len ->
  conforms watched s (keeps watched fd) (echo_once epfd fd n s).
Proof.
  intros [Hb Hi] Hin Hne Hn Hmax. unfold echo_once.
  destruct (recv_spec fd n s) as (r & data & w1 & Hrecv & Hle & Hlen & Hb1); [lia|].
  pose proof (recv_interest _ _ _ _ _ Hrecv) as Hw1. simpl in Hw1.
  assert (Hstep : eprotocol_step (watched, EIdle) (CRecv fd n r data) =
    Some (watched, if r <=? 0 then EHungUp fd else EReceived fd data)).
  { simpl. rewrite bool_decide_eq_true_2, (proj2 (Z.eqb_neq fd lfd)), (proj2 (Z.leb_le n max_len)) by done. done. }
  rewrite (bind_ok _ _ _ _ _ Hrecv). destruct (Z.leb_spec r 0) as [Hr|Hr].
  - destruct (drop_spec epfd fd (NState w1 (data ++ drop (length data) (buffer s)) (trace s ++ [CRecv fd n r data])))
      as (r2 & s2 & -> & Hb2 & Ht2 & Hi2).
    exists (CRecv fd n r data :: [CEpollCtl EPOLL_CTL_DEL fd 0 r2; CShutdown fd SHUT_RDWR]), (watched ∖ {[fd]}).
    split_and!; [rewrite Ht2; simpl; by rewrite <- app_assoc| | |unfold keeps; set_solver].
    + cbn [eprotocol]. rewrite Hstep. simpl. rewrite Z.eqb_refl. simpl. by rewrite Z.eqb_refl.
    + split; [rewrite Hb2; simpl; congruence|]. rewrite Hi2. simpl. by rewrite Hw1, Hi.
  - set (s1 := NState w1 _ _). destruct (send_received fd r data s1) as (res & w2 & Hsend); [lia|done|simpl; lia|simpl; by rewrite take_app_length|].
    pose proof (send_interest _ _ _ _ _ Hsend) as Hw2. simpl in Hw2. rewrite (bind_ok _ _ _ _ _ Hsend).
    destruct (after_send_spec fd res (called (CSend fd data res) w2 s1)) as (s3 & l & -> & Hb3 & Ht3 & Hl).
    exists (CRecv fd n r data :: CSend fd data res :: l), (if closing && (res <? 0) then watched ∖ {[fd]} else watched).
    split_and!.
    + rewrite Ht3. simpl. by rewrite <- !app_assoc.
    + cbn [eprotocol]. rewrite Hstep. simpl. rewrite Z.eqb_refl, bool_decide_eq_true_2 by done. simpl.
      destruct (closing && (res <? 0)); destruct Hl as [-> _]; simpl; [by rewrite Z.eqb_refl|done].
    + split; [rewrite Hb3; simpl; congruence|].
      destruct (closing && (res <? 0)); destruct Hl as [_ ->]; simpl; by rewrite Hw2, Hw1, Hi.
    + unfold keeps. destruct (closing && (res <? 0)); set_solver.
Qed.

(** ** The event loop *)

Context (handle : epoll_event -> M st unit) (Hhandle : handler_conforms handle).

Lemma events_conform evs s watched :
  watching s watched -> NoDup (ev_fd <$> evs) -> (forall ev, ev ∈ evs -> ev_fd ev ∈ watched) ->
  conforms watched s (fun _ => True) (for_each handle evs s).
Proof.
  revert s watched. induction evs as [|ev evs IH]; intros s watched Hw Hnd Hin; cbn [for_each].
  { exists [], watched. by rewrite app_nil_r. }
  apply NoDup_cons in Hnd as [Hne Hnd].
  apply (conforms_bind watched s _ _ (keeps watched (ev_fd ev))); [apply Hhandle; [done|apply Hin; left]|].
  intros s' watched' Hw' Hk. apply IH; [done|done|]. intros ev' Hev'. apply Hk.
  - intros Heq. apply Hne. rewrite <- Heq. by apply list_elem_of_fmap_2.
  - apply Hin. by right.
Qed.

Lemma turn_conforms epfd max_events s watched :
  0 < max_events -> watching s watched ->
  conforms watched s (fun _ => True) (event_turn handle epfd max_events s).
Proof.
  intros Hmax [Hb Hi]. unfold event_turn, epoll_wait. unfold mbind, M_bind.
  pose proof (interest_wait epfd max_events (world s)) as Hw.
  pose proof (epoll_wait_law epfd max_events (world s)) as Hlaw.
  destruct (w_epoll_wait epfd max_events (world s)) as [[r evs] w]. destruct Hw as (Hw & Hnd & Hin).
  specialize (Hlaw Hmax). set (s1 := called (CEpollWait r evs) w s).
  destruct (Z.eqb_spec r (-1)) as [->|Hne].
  { split; [done|]. exists [CEpollWait (-1) evs], watched. split; done. }
  destruct Hlaw as [[? _]|[-> _]]; [done|]. rewrite Nat2Z.id, take_ge by done.
  pose proof (events_conform evs s1 watched) as Hc.
  assert (Hw1 : watching s1 watched) by (split; [done|by simpl; rewrite Hw]).
  specialize (Hc Hw1 Hnd). rewrite Hi in Hin. specialize (Hc Hin).
  destruct (for_each _ evs s1) as [[] s2|code s2|s2]; simpl in *; [| |done].
  - destruct Hc as (l & watched' & Ht & Hp & Hw2 & _). exists (CEpollWait (Z.of_nat (length evs)) evs :: l), watched'.
    rewrite Ht, <- app_assoc. split_and!; [done| |done|done]. simpl. by rewrite (proj2 (Z.eqb_neq _ _) Hne).
  - destruct Hc as (-> & l & watched' & Ht & Hp). split; [done|].
    exists (CEpollWait (Z.of_nat (length evs)) evs :: l), watched'.
    rewrite Ht, <- app_assoc. split; [done|]. simpl. by rewrite (proj2 (Z.eqb_neq _ _) Hne).
Qed.

(** Any number of turns. *)
Lemma turns_conform epfd max_events n s watched :
  0 < max_events -> watching s watched ->
  conforms watched s (fun _ => True) (for_each (fun _ => event_turn handle epfd max_events) (seq 0 n) s).
Proof.
  intros Hmax. generalize 0%nat. revert s watched.
  induction n as [|n IH]; intros s watched i Hw; cbn [seq for_each].
  { exists [], watched. by rewrite app_nil_r. }
  eapply conforms_bind; [by apply turn_conforms|]. intros s' watched' Hw' _. by apply IH.
Qed.

End eprotocol.

(** ** A system that keeps the laws *)
Module EpollRef.

(** [ref_world] with an interest list and a counter for new descriptors. *)
Record eworld : Type := EWorld {
  e_base : ref_world;
  e_interest : gset Z;
  e_next : Z
}.

Definition e_accept (w : eworld) : Z * eworld :=
  if decide (e_next w ∈ e_interest w) then (-1, w)
  else (e_next w, EWorld (e_base w) (e_interest w) (e_next w + 1)).

Definition e_ctl (op fd : Z) (w : eworld) : Z * eworld :=
  (0, EWorld (e_base w)
        (if op =? EPOLL_CTL_DEL then e_interest w ∖ {[fd]} else {[fd]} ∪ e_interest w) (e_next w)).

(** Of the events scripted for this wait, those on watched descriptors. *)
Definition e_wait (n : Z) (w : eworld) : Z * list epoll_event * eworld :=
  let '(r, evs, b) := ref_epoll_wait n (e_base w) in
  let evs := filter (fun ev => ev_fd ev ∈ e_interest w) evs in
  let w' := EWorld b (e_interest w) (e_next w) in
  if r =? -1 then (-1, [], w')
  else if decide (NoDup (ev_fd <$> evs)) then (Z.of_nat (length evs), evs, w')
  else (0, [], w').

#[global] Instance sockets : Sockets eworld := {|
  w_socket := fun _ _ _ w => (3, w);
  w_bind := fun _ _ w => (0, w);
  w_listen := fun _ _ w => (0, w);
  w_accept := fun _ _ w => e_accept w;
  w_recv := fun _ n w => let '(r, d, b) := ref_recv n (e_base w) in (r, d, EWorld b (e_interest w) (e_next w));
  w_send := fun _ data w => (Z.of_nat (length data), w);
  w_close := fun fd w => (0, EWorld (e_base w) (e_interest w ∖ {[fd]}) (e_next w));
  w_shutdown := fun _ _ w => (0, w);
  w_epoll_create := fun _ w => (4, w);
  w_epoll_ctl := fun _ op fd _ w => e_ctl op fd w;
  w_epoll_wait := fun _ n w => e_wait n w
|}.

#[global] Instance interest : Epoll eworld := e_interest.

#[global] Instance laws : SocketsLaws eworld.
Proof.
  destruct (ref_sockets_laws) as [H1 H2]. split; simpl.
  - intros fd n w. specialize (H1 fd n (e_base w)). simpl in H1. by destruct (ref_recv n (e_base w)) as [[r d] b].
  - intros ep n w. specialize (H2 ep n (e_base w)). simpl in H2. unfold e_wait.
    destruct (ref_epoll_wait n (e_base w)) as [[r evs] b].
    destruct (Z.eqb_spec r (-1)); [by left|].
    case_decide; intros Hn; right; [|simpl; lia]. split; [done|].
    destruct (H2 Hn) as [[? _]|[-> Hle]]; [done|].
    pose proof (length_filter (fun ev => ev_fd ev ∈ e_interest w) evs). lia.
Qed.

#[global] Instance epoll_laws : EpollLaws eworld.
Proof.
  split; try done; simpl.
  - intros fd n w. by destruct (ref_recv n (e_base w)) as [[r d] b].
  - intros fd fl w. unfold e_accept. case_decide; [by split; [|left]|by split; [|right]].
  - intros ep n w. unfold e_wait. destruct (ref_epoll_wait n (e_base w)) as [[r evs] b].
    destruct (r =? -1); [split_and!; [done|constructor|set_solver]|].
    case_decide as Hd; [|split_and!; [done|constructor|set_solver]].
    split_and!; [done|done|]. intros ev [Hev _]%list_elem_of_filter. exact Hev.
Qed.

Definition from_base (n : Z) (b : ref_world) : nstate eworld :=
  NState (EWorld b ∅ 5) (replicate (Z.to_nat n) 0) [].

End EpollRef.
