(* ===== verification/EpollServer.v ===== *)
(** * The epoll echo server: [netpoll/echo/c-epoll-server/main.c]

    An edge-triggered event loop over the listening socket and the accepted
    connections: accept and watch, or receive once and send back. *)

From stdpp Require Import strings.
From S2P Require Import Prelude Libc Setup Sockets EpollProtocol.

Definition BACKLOG : Z := 512.
Definition MAX_EVENTS : Z := 1024.
Definition MAX_MESSAGE_LEN : Z := 2048.

Section epoll_server.
Context {W : Type} `{!Sockets W}.

Local Abbreviation st := (nstate W).

(** [error(msg)]; the message is not modelled. *)
Definition error {A} : M st A := exit_ 1.

(** [main] up to its loop: the listening socket and the epoll instance. *)
Definition epoll_startup (argv : list (list Z)) : M st (Z * Z) :=
  match argv !! 1%nat with
  | None => exit_ 0
  | Some arg =>
      let portno := to_i32 (strtol arg) in
      sock_listen_fd ← socket AF_INET SOCK_STREAM 0;
      if sock_listen_fd <? 0 then error else
      let server_addr := SockAddrIn AF_INET (htons portno) INADDR_ANY in
      r ← bind sock_listen_fd server_addr;
      if r <? 0 then error else
      r ← listen sock_listen_fd BACKLOG;
      if r <? 0 then error else
      epollfd ← epoll_create MAX_EVENTS;
      if epollfd <? 0 then error else
      r ← epoll_ctl epollfd EPOLL_CTL_ADD sock_listen_fd EPOLLIN;
      if r =? -1 then error else
      mret (sock_listen_fd, epollfd)
  end.

(** The body of the loop over the reported events. *)
Definition handle_event (sock_listen_fd epollfd : Z) (ev : epoll_event) : M st unit :=
  if ev_fd ev =? sock_listen_fd then
    sock_conn_fd ← accept sock_listen_fd SOCK_NONBLOCK;
    if sock_conn_fd =? -1 then error else
    r ← epoll_ctl epollfd EPOLL_CTL_ADD sock_conn_fd (Z.lor EPOLLIN EPOLLET);
    if r =? -1 then error else mret tt
  else
    let newsockfd := ev_fd ev in
    bytes_received ← recv newsockfd MAX_MESSAGE_LEN;
    if bytes_received <=? 0 then
      epoll_ctl epollfd EPOLL_CTL_DEL newsockfd 0 ;;
      shutdown newsockfd SHUT_RDWR ;;
      mret tt
    else send newsockfd bytes_received ;; mret tt.

(** One turn of [while (1)]. *)
Definition epoll_turn (sock_listen_fd epollfd : Z) : M st unit :=
  r ← epoll_wait epollfd MAX_EVENTS;
  let '(new_events, events) := (r : Z * list epoll_event) in
  if new_events =? -1 then error else
  for_each (handle_event sock_listen_fd epollfd) (take (Z.to_nat new_events) events).

Definition epoll_turns (sock_listen_fd epollfd : Z) (n : nat) : M st unit :=
  for_each (fun _ => epoll_turn sock_listen_fd epollfd) (seq 0 n).

End epoll_server.

Section refinement.
Context {W : Type} `{!Sockets W} `{!SocketsLaws W} `{!Epoll W} `{!EpollLaws W}.
Context (lfd epollfd : Z).

Local Abbreviation st := (nstate W).

(** The server is an event loop around the handler, in which nothing is
    closed. *)
Lemma handle_event_conforms :
  handler_conforms (W := W) lfd MAX_MESSAGE_LEN false MAX_MESSAGE_LEN (handle_event lfd epollfd).
Proof.
  intros s watched ev Hw Hin. unfold handle_event. destruct (Z.eqb_spec (ev_fd ev) lfd) as [Heq|Hne].
  - by apply (accept_conforms lfd MAX_MESSAGE_LEN false MAX_MESSAGE_LEN epollfd SOCK_NONBLOCK (Z.lor EPOLLIN EPOLLET)).
  - apply (echo_conforms lfd MAX_MESSAGE_LEN false MAX_MESSAGE_LEN epollfd (ev_fd ev) MAX_MESSAGE_LEN); done.
Qed.

(** C23: the epoll server refines its protocol.  Started with a buffer of the
    declared size while it watches [watched], any number of turns ends either
    back in the loop or in the exit with status 1 after a failed [epoll_wait],
    [accept] or [epoll_ctl], never in undefined behaviour; and the calls it
    made are those of the protocol: every message is sent back unchanged to
    its sender before anything else happens, only watched connections are
    received from, and hung-up ones are no longer watched. *)
Theorem epoll_refines_protocol n (s : st) watched :
  watching MAX_MESSAGE_LEN s watched ->
  conforms lfd MAX_MESSAGE_LEN false MAX_MESSAGE_LEN watched s (fun _ => True) (epoll_turns lfd epollfd n s).
Proof. apply (turns_conform _ _ _ _ _ handle_event_conforms). done. Qed.

(** The server never closes a connection: no run contains a [close], so a
    client that disconnects leaves its descriptor open (it is only shut
    down) until the process runs out of them. *)
Theorem epoll_never_closes n (s : st) watched fd :
  watching MAX_MESSAGE_LEN s watched ->
  exists l, trace (final (epoll_turns lfd epollfd n s)) = trace s ++ l /\ CClose fd ∉ l.
Proof.
  intros Hw. pose proof (turns_conform _ _ _ _ _ handle_event_conforms epollfd MAX_EVENTS n s watched eq_refl Hw) as Hc.
  change (for_each _ _ s) with (epoll_turns lfd epollfd n s) in Hc.
  assert (Hno : forall l x y, x.2 <> EFailed fd -> eprotocol lfd MAX_MESSAGE_LEN false x l = Some y -> CClose fd ∉ l).
  { induction l as [|c l IH]; intros [w ph] y Hne Hp; [set_solver|]. cbn [eprotocol] in Hp.
    destruct (eprotocol_step lfd MAX_MESSAGE_LEN false (w, ph) c) as [[w' ph']|] eqn:Hs; [|done].
    apply not_elem_of_cons. split.
    - intros <-. destruct ph; simpl in Hs, Hne; try done. destruct (Z.eqb_spec fd0 fd); [congruence|done].
    - apply (IH (w', ph') y); [|done]. simpl. intros ->.
      destruct ph, c; simpl in Hs; repeat case_match; simplify_eq. }
  destruct (epoll_turns lfd epollfd n s) as [[] s'|code s'|s']; simpl in *; [| |done].
  - destruct Hc as (l & w' & Ht & Hp & _). exists l. split; [done|by eapply Hno, Hp].
  - destruct Hc as (_ & l & w' & Ht & Hp). exists l. split; [done|by eapply Hno, Hp].
Qed.

(** Start-up ends with the listening socket watched and nothing else, the
    state from which the loop conforms; every failure on the way ends the
    process. *)
Theorem epoll_startup_ready argv s s' fd epfd :
  w_interest (world s) = ∅ -> Z.of_nat (length (buffer s)) = MAX_MESSAGE_LEN ->
  epoll_startup argv s = Ok (fd, epfd) s' ->
  0 <= fd /\ w_interest (world s') = {[fd]} /\ Z.of_nat (length (buffer s')) = MAX_MESSAGE_LEN.
Proof.
  intros Hi Hb. unfold epoll_startup. destruct (argv !! 1%nat) as [arg|]; [|done].
  unfold socket, bind, listen, epoll_create, epoll_ctl, error. mred.
  pose proof (interest_socket AF_INET SOCK_STREAM 0 (world s)) as H1. simpl.
  destruct (w_socket _ _ _ _) as [r1 w1]. simpl in *. destruct (Z.ltb_spec r1 0); [done|].
  match goal with |- context [w_bind ?f ?a ?w] => pose proof (interest_bind f a w) as H2; destruct (w_bind f a w) as [r2 w2] end.
  simpl in *. destruct (r2 <? 0); [done|]. simpl.
  match goal with |- context [w_listen ?f ?a ?w] => pose proof (interest_listen f a w) as H3; destruct (w_listen f a w) as [r3 w3] end.
  simpl in *. destruct (r3 <? 0); [done|]. simpl.
  match goal with |- context [w_epoll_create ?a ?w] => pose proof (interest_create a w) as H4; destruct (w_epoll_create a w) as [r4 w4] end.
  simpl in *. destruct (r4 <? 0); [done|]. simpl.
  pose proof (interest_ctl r4 EPOLL_CTL_ADD r1 EPOLLIN w4) as H5.
  destruct (w_epoll_ctl _ _ _ _ _) as [r5 w5]. change (EPOLL_CTL_ADD =? EPOLL_CTL_DEL) with false in H5.
  simpl. destruct (r5 =? -1); [done|]. intros [= <- _ <-]. simpl.
  split_and!; [done| |done]. rewrite H5, H4, H3, H2, H1, Hi. set_solver.
Qed.

End refinement.

(** ** A concrete run *)
Module EpollDemo.

(** A client connects, sends two bytes and leaves. *)
Definition s0 : nstate EpollRef.eworld :=
  EpollRef.from_base MAX_MESSAGE_LEN (RefWorld [[72; 105]; []]
    [[EpollEvent EPOLLIN 3]; [EpollEvent EPOLLIN 5]; [EpollEvent EPOLLIN 5]]).
Definition started : nstate EpollRef.eworld := final (epoll_startup [chars "server"; chars "8881"] s0).

Lemma started_watching : watching MAX_MESSAGE_LEN started {[3]}.
Proof. split; vm_compute; reflexivity. Qed.

End EpollDemo.

Lemma epoll_refines_protocol_witness :
  conforms 3 MAX_MESSAGE_LEN false MAX_MESSAGE_LEN {[3]} EpollDemo.started (fun _ => True)
    (epoll_turns 3 4 3 EpollDemo.started).
Proof.
  apply (epoll_refines_protocol 3 4 3 EpollDemo.started {[3]}). apply EpollDemo.started_watching.
Defined.

Lemma epoll_never_closes_witness :
  exists l, trace (final (epoll_turns 3 4 3 EpollDemo.started)) = trace EpollDemo.started ++ l /\ CClose 5 ∉ l.
Proof. apply (epoll_never_closes 3 4 3 EpollDemo.started {[3]} 5). apply EpollDemo.started_watching. Defined.

Lemma epoll_startup_ready_witness :
  0 <= 3 /\ w_interest (world EpollDemo.started) = {[3]} /\
  Z.of_nat (length (buffer EpollDemo.started)) = MAX_MESSAGE_LEN.
Proof.
  apply (epoll_startup_ready [chars "server"; chars "8881"] EpollDemo.s0 EpollDemo.started 3 4);
    vm_compute; reflexivity.
Defined.
