(* ===== verification/IoOp.v ===== *)
(** * The request builders of the demos: [demo/io_op.c]

    The builders the event-loop demos share.  Like those of the
    provided-buffers server they keep the state of a request in its
    [user_data]; the [sendmsg] and [recvmsg] variants also describe the
    message in a [struct msghdr] on their own stack, so the model has stack
    frames: a frame lives from the call to the return, and its address is
    never valid again. *)

From S2P Require Import Prelude Uring ConnInfo RefKernel Libc Setup Sockets.

Definition IORING_MAX_ENTRIES : Z := 4096.
Definition MAX_EVENTS : Z := 10.
Definition MAX_MESSAGE_LEN : Z := 1024.
Definition MAX_CONNECTIONS : Z := 4096.
Definition BUFFERS_COUNT : Z := MAX_CONNECTIONS.

Definition NOP : Z := 0.
Definition ACCEPT : Z := 1.
Definition READ : Z := 2.
Definition WRITE : Z := 3.
Definition PROV_BUF : Z := 4.

(** Addresses: NULL, the locals of [main], the rows of [bufs], and the local
    [msg] of a builder's stack frame. *)
Inductive address : Type :=
| ANull
| AClientAddr
| AClientLen
| ABuffer
| ABufs (bid : Z)
| AMsg (frame : nat).

(** [struct msghdr] with its single [struct iovec]. *)
Record msghdr : Type := MsgHdr {
  iov_base : address;
  iov_len : Z
}.

(** The live frames of the builders, and the next frame. *)
Record stack : Type := Stack {
  frames : gmap nat msghdr;
  next_frame : nat
}.

Section builders.
Context {K : Type} `{!Liburing address Z} `{!Kernel address Z K}.

Local Abbreviation st := (rstate address Z K stack).

(** A function with the local [msg]: its frame is pushed for [body] and popped
    when it returns. *)
Definition with_msg (msg : msghdr) (body : address -> M st unit) : M st unit :=
  s ← get;
  let id := next_frame (rs_mem s) in
  modify (put_mem (Stack (<[id := msg]> (frames (rs_mem s))) (S id))) ;;
  body (AMsg id) ;;
  modify (fun s => put_mem (Stack (delete id (frames (rs_mem s))) (next_frame (rs_mem s))) s).

(** [conn_info conn_i = {...}; memcpy(&sqe->user_data, ...)] *)
Definition set_conn_info (sqe : option nat) (fd type bid : Z) : M st unit :=
  set_user_data sqe (user_data_of_conn_info (mk_conn_info fd type bid)).

Definition add_accept (fd : Z) (client_addr client_len : address) (flags : Z) : M st unit :=
  sqe ← io_uring_get_sqe;
  io_uring_prep sqe (OpAccept fd client_addr client_len 0) ;;
  io_uring_sqe_set_flags sqe flags ;;
  set_conn_info sqe fd ACCEPT 0.

Definition add_recvmsg (fd : Z) (buff : address) (buff_size flags : Z) : M st unit :=
  with_msg (MsgHdr buff buff_size) (fun msg =>
    sqe ← io_uring_get_sqe;
    io_uring_prep sqe (OpRecvmsg fd msg 0) ;;
    io_uring_sqe_set_flags sqe flags ;;
    set_conn_info sqe fd READ 0).

Definition add_recvmsg_from_group_buff (fd gid buff_size flags : Z) : M st unit :=
  with_msg (MsgHdr ANull buff_size) (fun msg =>
    sqe ← io_uring_get_sqe;
    io_uring_prep sqe (OpRecvmsg fd msg 0) ;;
    io_uring_sqe_set_flags sqe flags ;;
    sqe_update sqe (sqe_put_buf_group gid) ;;
    set_conn_info sqe fd READ 0).

Definition add_sendmsg (fd : Z) (buff : address) (msg_size flags : Z) : M st unit :=
  with_msg (MsgHdr buff msg_size) (fun msg =>
    sqe ← io_uring_get_sqe;
    io_uring_prep sqe (OpSendmsg fd msg 0) ;;
    io_uring_sqe_set_flags sqe flags ;;
    set_conn_info sqe fd WRITE 0).

(** [&bufs[bid]] is undefined beyond the rows of [bufs]. *)
Definition add_sendmsg_from_group_buff (fd bid msg_size flags : Z) : M st unit :=
  let bid := to_u16 bid in
  if negb (bid <? BUFFERS_COUNT) then ub else
  with_msg (MsgHdr (ABufs bid) msg_size) (fun msg =>
    sqe ← io_uring_get_sqe;
    io_uring_prep sqe (OpSendmsg fd msg 0) ;;
    io_uring_sqe_set_flags sqe flags ;;
    set_conn_info sqe fd WRITE bid).

Definition provide_buffers (group_id : Z) : M st unit :=
  provide_all (ABufs 0) MAX_MESSAGE_LEN BUFFERS_COUNT group_id.

Definition add_provide_buf (bid gid : Z) : M st unit :=
  let bid := to_u16 bid in
  sqe ← io_uring_get_sqe;
  if bid <? BUFFERS_COUNT then
    io_uring_prep sqe (OpProvideBuffers (ABufs bid) MAX_MESSAGE_LEN 1 gid bid) ;;
    set_conn_info sqe 0 PROV_BUF 0
  else ub.

Definition add_recv_from_group_buff (fd gid message_size flags : Z) : M st unit :=
  sqe ← io_uring_get_sqe;
  io_uring_prep sqe (OpRecv fd ANull message_size 0) ;;
  io_uring_sqe_set_flags sqe flags ;;
  sqe_update sqe (sqe_put_buf_group gid) ;;
  set_conn_info sqe fd READ 0.

Definition add_send_from_group_buff (fd bid message_size flags : Z) : M st unit :=
  let bid := to_u16 bid in
  sqe ← io_uring_get_sqe;
  if bid <? BUFFERS_COUNT then
    io_uring_prep sqe (OpSend fd (ABufs bid) message_size 0) ;;
    io_uring_sqe_set_flags sqe flags ;;
    set_conn_info sqe fd WRITE bid
  else ub.

(** ** What the builders queue *)

(** The entry of every builder: an operation, flags, optionally a buffer
    group, and a packed [conn_info]. *)
Definition entry (op : io_op address) (flags : Z) (gid : option Z) (fd type bid : Z)
    (e : sqe address Z) : sqe address Z :=
  sqe_put_user_data (user_data_of_conn_info (mk_conn_info fd type bid))
    (match gid with
     | Some g => sqe_put_buf_group g (lib_set_flags flags (lib_prep op e))
     | None => lib_set_flags flags (lib_prep op e)
     end).

Lemma fill_plain op flags fd type bid (s : st) :
  (sqe ← io_uring_get_sqe; io_uring_prep sqe op ;; io_uring_sqe_set_flags sqe flags ;;
   set_conn_info sqe fd type bid) s = queue_one (entry op flags None fd type bid) s.
Proof. unfold set_conn_info. fill_sqe (entry op flags None fd type bid). Qed.

Lemma fill_group op flags gid fd type bid (s : st) :
  (sqe ← io_uring_get_sqe; io_uring_prep sqe op ;; io_uring_sqe_set_flags sqe flags ;;
   sqe_update sqe (sqe_put_buf_group gid) ;; set_conn_info sqe fd type bid) s =
  queue_one (entry op flags (Some gid) fd type bid) s.
Proof. unfold set_conn_info. fill_sqe (entry op flags (Some gid) fd type bid). Qed.

(** A builder with a local: the entry is queued, the frame is gone. *)
Lemma with_msg_spec msg (body : address -> M st unit) (f : address -> sqe address Z -> sqe address Z)
    (s s' : st) :
  (forall a t, body a t = queue_one (f a) t) ->
  with_msg msg body s = Ok tt s' ->
  exists e, s' = RState (rs_sq s ++ [f (AMsg (next_frame (rs_mem s))) e]) (rs_kern s)
    (Stack (delete (next_frame (rs_mem s)) (frames (rs_mem s))) (S (next_frame (rs_mem s)))).
Proof.
  intros Hbody. unfold with_msg. mred. rewrite Hbody. unfold queue_one. simpl.
  destruct (lib_get_sqe (rs_sq s)) as [e|]; [|done]. intros [= <-]. exists e. simpl.
  by rewrite delete_insert_eq.
Qed.

(** ** Dangling messages *)

(** The operation reads its message header at an address whose frame is gone. *)
Definition dangling (m : stack) (op : io_op address) : bool :=
  match op with
  | OpRecvmsg _ (AMsg id) _ | OpSendmsg _ (AMsg id) _ =>
      match frames m !! id with Some _ => false | None => true end
  | _ => false
  end.

(** The four builders with a local message header. *)
Inductive msg_builder : M st unit -> Prop :=
| mb_recvmsg fd buff n flags : msg_builder (add_recvmsg fd buff n flags)
| mb_recvmsg_group fd gid n flags : msg_builder (add_recvmsg_from_group_buff fd gid n flags)
| mb_sendmsg fd buff n flags : msg_builder (add_sendmsg fd buff n flags)
| mb_sendmsg_group fd bid n flags : msg_builder (add_sendmsg_from_group_buff fd bid n flags).

Context {entries : nat} `{!LiburingOk address Z entries}.

Lemma entry_op op flags gid fd type bid e : sqe_op (entry op flags gid fd type bid e) = op.
Proof. unfold entry. destruct gid; simpl; by rewrite set_flags_op, prep_op. Qed.

Lemma msg_builder_inv m (s s' : st) :
  msg_builder m -> m s = Ok tt s' ->
  exists e fd, rs_sq s' = rs_sq s ++ [e] /\ rs_kern s' = rs_kern s /\
    (sqe_op e = OpRecvmsg fd (AMsg (next_frame (rs_mem s))) 0 \/
     sqe_op e = OpSendmsg fd (AMsg (next_frame (rs_mem s))) 0) /\
    rs_mem s' = Stack (delete (next_frame (rs_mem s)) (frames (rs_mem s))) (S (next_frame (rs_mem s))).
Proof.
  destruct 1 as [fd b n fl|fd g n fl|fd b n fl|fd bid n fl]; intros Hrun.
  - unfold add_recvmsg in Hrun. eapply (with_msg_spec _ _ (fun a => entry (OpRecvmsg fd a 0) fl None fd READ 0)) in Hrun
      as [e ->]; [|intros; apply fill_plain]. do 2 eexists. split_and!; [done..| |done]. rewrite entry_op. eauto.
  - unfold add_recvmsg_from_group_buff in Hrun.
    eapply (with_msg_spec _ _ (fun a => entry (OpRecvmsg fd a 0) fl (Some g) fd READ 0)) in Hrun
      as [e ->]; [|intros; apply fill_group]. do 2 eexists. split_and!; [done..| |done]. rewrite entry_op. eauto.
  - unfold add_sendmsg in Hrun. eapply (with_msg_spec _ _ (fun a => entry (OpSendmsg fd a 0) fl None fd WRITE 0)) in Hrun
      as [e ->]; [|intros; apply fill_plain]. do 2 eexists. split_and!; [done..| |done]. rewrite entry_op. eauto.
  - unfold add_sendmsg_from_group_buff in Hrun. destruct (negb _); [done|].
    eapply (with_msg_spec _ _ (fun a => entry (OpSendmsg fd a 0) fl None fd WRITE (to_u16 bid))) in Hrun
      as [e ->]; [|intros; apply fill_plain]. do 2 eexists. split_and!; [done..| |done]. rewrite entry_op. eauto.
Qed.

(** All builders that only queue an entry. *)
Inductive builder : M st unit -> Prop :=
| b_msg m : msg_builder m -> builder m
| b_accept fd a l flags : builder (add_accept fd a l flags)
| b_provide bid gid : builder (add_provide_buf bid gid)
| b_recv fd gid n flags : builder (add_recv_from_group_buff fd gid n flags)
| b_send fd bid n flags : builder (add_send_from_group_buff fd bid n flags).

Definition provide_entry (bid gid : Z) (e : sqe address Z) : sqe address Z :=
  sqe_put_user_data (user_data_of_conn_info (mk_conn_info 0 PROV_BUF 0))
    (lib_prep (OpProvideBuffers (ABufs bid) MAX_MESSAGE_LEN 1 gid bid) e).

Lemma add_provide_buf_ok bid gid (s : st) :
  0 <= bid < BUFFERS_COUNT -> add_provide_buf bid gid s = queue_one (provide_entry bid gid) s.
Proof.
  intros Hb. unfold add_provide_buf.
  rewrite to_u16_id by (unfold is_u16, BUFFERS_COUNT, MAX_CONNECTIONS in *; lia).
  rewrite (proj2 (Z.ltb_lt bid BUFFERS_COUNT)) by lia. unfold set_conn_info.
  fill_sqe (provide_entry bid gid).
Qed.

Lemma add_send_ok fd bid n flags (s : st) :
  0 <= bid < BUFFERS_COUNT ->
  add_send_from_group_buff fd bid n flags s =
    queue_one (entry (OpSend fd (ABufs bid) n 0) flags None fd WRITE bid) s.
Proof.
  intros Hb. unfold add_send_from_group_buff.
  rewrite to_u16_id by (unfold is_u16, BUFFERS_COUNT, MAX_CONNECTIONS in *; lia).
  rewrite (proj2 (Z.ltb_lt bid BUFFERS_COUNT)) by lia. apply fill_plain.
Qed.

(** The queue only grows, dead frames stay dead, the kernel is not called. *)
Record extends (s s' : st) : Prop := Extends {
  extends_sq : rs_sq s `prefix_of` rs_sq s';
  extends_next : (next_frame (rs_mem s) <= next_frame (rs_mem s'))%nat;
  extends_dead id : (id < next_frame (rs_mem s))%nat ->
    frames (rs_mem s) !! id = None -> frames (rs_mem s') !! id = None;
  extends_kern : rs_kern s' = rs_kern s
}.

#[local] Instance extends_refl : Reflexive extends.
Proof. intros s. by split. Qed.

#[local] Instance extends_trans : Transitive extends.
Proof.
  intros s1 s2 s3 [A1 A2 A3 A4] [B1 B2 B3 B4]. split; [by etrans|lia| |congruence].
  intros id Hid Hn. apply B3; [lia|]. auto.
Qed.

Lemma queue_one_extends (f : sqe address Z -> sqe address Z) (s s' : st) :
  queue_one f s = Ok tt s' -> extends s s'.
Proof.
  unfold queue_one. destruct (lib_get_sqe _); [|done]. intros [= <-].
  split; simpl; [by eexists|done..].
Qed.

Lemma builder_extends m (s s' : st) : builder m -> m s = Ok tt s' -> extends s s'.
Proof.
  destruct 1 as [m Hm|fd a l fl|bid gid|fd gid n fl|fd bid n fl]; intros Hrun.
  - destruct (msg_builder_inv _ _ _ Hm Hrun) as (e & fd & Hq & Hk & _ & Hmem).
    split; rewrite ?Hmem; simpl; [rewrite Hq; by eexists|lia| |done]. intros id Hid Hn. rewrite lookup_delete_ne by lia. done.
  - unfold add_accept in Hrun. rewrite fill_plain in Hrun. by eapply queue_one_extends.
  - destruct (decide (to_u16 bid < BUFFERS_COUNT)) as [Hlt|Hge].
    + assert (Hr : 0 <= to_u16 bid) by (apply Z.mod_pos_bound; lia).
      assert (Heq : add_provide_buf bid gid s = add_provide_buf (to_u16 bid) gid s).
      { unfold add_provide_buf. by rewrite (to_u16_id (to_u16 bid)) by auto with machine. }
      rewrite Heq, add_provide_buf_ok in Hrun by lia. by eapply queue_one_extends.
    + unfold add_provide_buf in Hrun. rewrite (proj2 (Z.ltb_ge _ _)) in Hrun by lia.
      by apply bind_inv_ok in Hrun as (? & ? & _ & ?).
  - unfold add_recv_from_group_buff in Hrun. rewrite fill_group in Hrun. by eapply queue_one_extends.
  - destruct (decide (to_u16 bid < BUFFERS_COUNT)) as [Hlt|Hge].
    + assert (Hr : 0 <= to_u16 bid) by (apply Z.mod_pos_bound; lia).
      assert (Heq : add_send_from_group_buff fd bid n fl s = add_send_from_group_buff fd (to_u16 bid) n fl s).
      { unfold add_send_from_group_buff. by rewrite (to_u16_id (to_u16 bid)) by auto with machine. }
      rewrite Heq, add_send_ok in Hrun by lia. by eapply queue_one_extends.
    + unfold add_send_from_group_buff in Hrun. rewrite (proj2 (Z.ltb_ge _ _)) in Hrun by lia.
      by apply bind_inv_ok in Hrun as (? & ? & _ & ?).
Qed.

Lemma builders_extend ms (s s' : st) :
  Forall builder ms -> for_each (fun m => m) ms s = Ok tt s' -> extends s s'.
Proof.
  intros Hms. revert s. induction Hms as [|m ms Hm _ IH]; intros s Hrun; [by injection Hrun as <-|].
  apply bind_inv_ok in Hrun as ([] & s1 & H1 & Hrun). etrans; [by eapply builder_extends|by apply IH].
Qed.

(** C24: the four [msghdr] builders queue a pointer to their own stack.
    Whatever other entries are built before the next submission, the entry
    is submitted with the address of a frame that no longer exists: there is
    no way to submit it while its message header is alive. *)
Theorem msg_builders_dangle m ms (s s' : st) :
  msg_builder m -> Forall builder ms ->
  (m ;; for_each (fun b => b) ms) s = Ok tt s' ->
  exists e, e ∈ rs_sq s' /\ dangling (rs_mem s') (sqe_op e) = true.
Proof.
  intros Hm Hms ([] & s1 & H1 & Hrun)%bind_inv_ok.
  destruct (msg_builder_inv _ _ _ Hm H1) as (e & fd & Hq & _ & Hop & Hmem).
  destruct (builders_extend _ _ _ Hms Hrun) as [[l Hl] _ Hdead _]. exists e. split.
  - rewrite Hl, Hq. set_solver.
  - assert (Hnone : frames (rs_mem s') !! next_frame (rs_mem s) = None).
    { apply Hdead; rewrite Hmem; simpl; [lia|apply lookup_delete_eq]. }
    destruct Hop as [-> | ->]; simpl; by rewrite Hnone.
Qed.

(** The other builders.  With a vacant entry, each appends exactly one
    request: an accept, a receive that selects a buffer of the group, a send of
    buffer [bid], or the return of buffer [bid] to the group, on the given
    descriptor; and the completion's [user_data] decodes to the descriptor,
    the kind of request and the buffer. *)
Theorem plain_builders_queue (s : st) fd gid bid n :
  is_fd fd -> is_u16 gid -> 0 <= bid < BUFFERS_COUNT -> (length (rs_sq s) < entries)%nat ->
  (exists e, add_accept fd AClientAddr AClientLen 0 s = Ok tt (push_sqe e s) /\
     sqe_op e = OpAccept fd AClientAddr AClientLen 0 /\
     conn_info_of_user_data (sqe_user_data e) = ConnInfo fd ACCEPT 0) /\
  (exists e, add_recv_from_group_buff fd gid n IOSQE_BUFFER_SELECT s = Ok tt (push_sqe e s) /\
     sqe_op e = OpRecv fd ANull n 0 /\ sqe_flags e = IOSQE_BUFFER_SELECT /\ sqe_buf_group e = gid /\
     conn_info_of_user_data (sqe_user_data e) = ConnInfo fd READ 0) /\
  (exists e, add_send_from_group_buff fd bid n 0 s = Ok tt (push_sqe e s) /\
     sqe_op e = OpSend fd (ABufs bid) n 0 /\
     conn_info_of_user_data (sqe_user_data e) = ConnInfo fd WRITE bid) /\
  (exists e, add_provide_buf bid gid s = Ok tt (push_sqe e s) /\
     sqe_op e = OpProvideBuffers (ABufs bid) MAX_MESSAGE_LEN 1 gid bid /\
     conn_info_of_user_data (sqe_user_data e) = ConnInfo 0 PROV_BUF 0).
Proof.
  intros Hfd Hg Hb Hroom. destruct (get_sqe_room _ Hroom) as [e0 He0].
  assert (Hu : to_u32 fd = fd) by (apply to_u32_id; unfold is_fd, is_u32 in *; lia).
  assert (Hb16 : to_u16 bid = bid) by (apply to_u16_id; unfold is_u16, BUFFERS_COUNT, MAX_CONNECTIONS in *; lia).
  assert (Hq : forall f, queue_one f s = Ok tt (push_sqe (f e0) s)) by (intros f; unfold queue_one; by rewrite He0).
  unfold add_accept, add_recv_from_group_buff. rewrite fill_plain, fill_group, add_send_ok, add_provide_buf_ok by done.
  rewrite !Hq. split_and!; eexists; (split; [reflexivity|]); rewrite ?entry_op; simpl;
    rewrite ?prep_op, user_data_of_mk; unfold mk_conn_info; rewrite ?Hu, ?Hb16; try done.
  rewrite set_flags_flags. split_and!; [done|done|by apply to_u16_id|done].
Qed.

End builders.

(** ** [create_server_socket]

    It makes blocking calls only, so it is stated over [Sockets]. *)
Section server_socket.
Context {W : Type} `{!Sockets W}.

Definition create_server_socket (port : Z) : M (nstate W) Z :=
  sockfd ← socket AF_INET SOCK_STREAM 0;
  if sockfd =? -1 then mret (-1) else
  let addr := SockAddrIn AF_INET (htons port) INADDR_ANY in
  r ← bind sockfd addr;
  if r =? -1 then Sockets.close sockfd ;; mret (-1) else
  r ← listen sockfd SOMAXCONN;
  if r =? -1 then Sockets.close sockfd ;; mret (-1) else
  mret sockfd.

(** [create_server_socket] returns in every case, and either hands out a
    listening socket bound to the port, which it did not close, or returns -1
    having closed the socket it created, if any: no descriptor is lost. *)
Theorem create_server_socket_spec port (s : nstate W) :
  exists fd s' l, create_server_socket port s = Ok fd s' /\ trace s' = trace s ++ l /\
    ((fd = -1 /\ l = [CSocket (-1)]) \/
     (exists sock, fd = -1 /\ l = [CSocket sock; CBind sock (htons port) (-1); CClose sock]) \/
     (exists sock b, fd = -1 /\ l = [CSocket sock; CBind sock (htons port) b; CListen sock SOMAXCONN (-1); CClose sock]) \/
     (exists b r, fd <> -1 /\ b <> -1 /\ r <> -1 /\
        l = [CSocket fd; CBind fd (htons port) b; CListen fd SOMAXCONN r])).
Proof.
  unfold create_server_socket, socket, bind, listen, Sockets.close. mred.
  destruct (w_socket _ _ _ _) as [sock w1]. destruct (Z.eqb_spec sock (-1)) as [->|Hs].
  { do 3 eexists. split; [done|]. split; [done|]. by left. }
  simpl. destruct (w_bind _ _ _) as [b w2]. destruct (Z.eqb_spec b (-1)) as [->|Hb]; simpl.
  { destruct (w_close _ _) as [r w3]. do 3 eexists. split; [done|]. simpl. rewrite <- !app_assoc. simpl.
    split; [done|]. right; left. by exists sock. }
  destruct (w_listen _ _ _) as [r w3]. destruct (Z.eqb_spec r (-1)) as [->|Hr]; simpl.
  { destruct (w_close _ _) as [r w4]. do 3 eexists. split; [done|]. simpl. rewrite <- !app_assoc. simpl.
    split; [done|]. right; right; left. by exists sock, b. }
  do 3 eexists. split; [done|]. simpl. rewrite <- !app_assoc. simpl. split; [done|].
  right; right; right. by exists b, r.
Qed.

End server_socket.

(** ** Concrete calls *)
Module IoOpDemo.

Definition blank : sqe address Z := Sqe (OpPollAdd 0 0) 0 0 0 0.
#[global] Instance lib : Liburing address Z := ref_liburing 8 blank.
#[global] Instance lib_ok : LiburingOk address Z 8 := ref_liburing_ok 8 blank.
#[global] Instance kern : Kernel address Z (ref_kernel address Z) := ref_kernel_ops (fun _ _ => True).

Definition s0 : rstate address Z (ref_kernel address Z) stack :=
  RState [] (RefK [] [] (fun _ => []) []) (Stack ∅ 0).

End IoOpDemo.

(** What the recvmsg demo does for a new connection. *)
Lemma msg_builders_dangle_witness :
  let s' := final ((add_recvmsg 5 ABuffer MAX_MESSAGE_LEN 0 ;;
    for_each (fun b => b) [add_accept 3 AClientAddr AClientLen 0]) IoOpDemo.s0) in
  exists e, e ∈ rs_sq s' /\ dangling (rs_mem s') (sqe_op e) = true.
Proof.
  intros s'. eapply (msg_builders_dangle (entries := 8) (add_recvmsg 5 ABuffer MAX_MESSAGE_LEN 0)
    [add_accept 3 AClientAddr AClientLen 0] IoOpDemo.s0 s').
  - apply mb_recvmsg.
  - apply Forall_singleton, b_accept.
  - vm_compute. reflexivity.
Defined.

Lemma plain_builders_queue_witness :
  exists e, add_send_from_group_buff 5 7 100 0 IoOpDemo.s0 = Ok tt (push_sqe e IoOpDemo.s0) /\
    sqe_op e = OpSend 5 (ABufs 7) 100 0 /\
    conn_info_of_user_data (sqe_user_data e) = ConnInfo 5 WRITE 7.
Proof.
  refine (proj1 (proj2 (proj2 (plain_builders_queue (entries := 8) IoOpDemo.s0 5 1337 7 100 _ _ _ _)))).
  - unfold is_fd. lia.
  - unfold is_u16. lia.
  - unfold BUFFERS_COUNT, MAX_CONNECTIONS. lia.
  - simpl. lia.
Defined.
