(* ===== verification/EpollEchoDemo.v ===== *)
(** * The epoll demo: [demo/tcp_epoll_send_recvmsg_echo_demo.c]

    The same server as [EpollServer] with [recvmsg] and [sendmsg]; it also
    closes descriptors on which epoll reports an error and connections to
    which it cannot send. *)

From stdpp Require Import strings.
From S2P Require Import Prelude Libc Setup IoOp Sockets EpollProtocol.

Section epoll_demo.
Context {W : Type} `{!Sockets W}.

Local Abbreviation st := (nstate W).

(** [main] up to its loop. *)
Definition demo_startup (argv : list (list Z)) : M st (Z * Z) :=
  match argv !! 1%nat with
  | None => exit_ 1
  | Some arg =>
      sockfd ← create_server_socket (atoi arg);
      if sockfd =? -1 then exit_ 1 else
      epollfd ← epoll_create 0;
      if epollfd =? -1 then exit_ 1 else
      r ← epoll_ctl epollfd EPOLL_CTL_ADD sockfd (Z.lor EPOLLIN EPOLLET);
      if r =? -1 then exit_ 1 else
      mret (sockfd, epollfd)
  end.

(** The body of the loop over the reported events. *)
Definition demo_event (sockfd epollfd : Z) (ev : epoll_event) : M st unit :=
  if negb (Z.land (ev_events ev) EPOLLERR =? 0) || negb (Z.land (ev_events ev) EPOLLHUP =? 0) then
    close (ev_fd ev) ;; mret tt
  else if ev_fd ev =? sockfd then
    sock_conn_fd ← accept sockfd 0;
    if sock_conn_fd =? -1 then exit_ 1 else
    r ← epoll_ctl epollfd EPOLL_CTL_ADD sock_conn_fd (Z.lor EPOLLIN EPOLLET);
    if r =? -1 then exit_ 1 else mret tt
  else
    let newsockfd := ev_fd ev in
    bytes_received ← recv newsockfd (MAX_MESSAGE_LEN - 1);
    if bytes_received <=? 0 then
      epoll_ctl epollfd EPOLL_CTL_DEL newsockfd 0 ;;
      shutdown newsockfd SHUT_RDWR ;;
      mret tt
    else
      bytes_sent ← send newsockfd bytes_received;
      if bytes_sent <? 0 then close newsockfd ;; mret tt else mret tt.

(** One turn of [while (1)]. *)
Definition demo_turn (sockfd epollfd : Z) : M st unit :=
  r ← epoll_wait epollfd MAX_EVENTS;
  let '(n, events) := (r : Z * list epoll_event) in
  if n =? -1 then exit_ 1 else
  for_each (demo_event sockfd epollfd) (take (Z.to_nat n) events).

Context `{!SocketsLaws W} `{!Epoll W} `{!EpollLaws W}.

Lemma demo_event_conforms sockfd epollfd :
  handler_conforms (W := W) sockfd (MAX_MESSAGE_LEN - 1) true MAX_MESSAGE_LEN (demo_event sockfd epollfd).
Proof.
  intros s watched ev Hw Hin. unfold demo_event. destruct (_ || _).
  - destruct Hw as [Hb Hi]. unfold close. mred. pose proof (interest_close (ev_fd ev) (world s)) as Hc.
    destruct (w_close _ _) as [r w]. exists [CClose (ev_fd ev)], (watched ∖ {[ev_fd ev]}).
    split_and!; [done| | |unfold keeps; set_solver].
    + simpl. by rewrite bool_decide_eq_true_2.
    + split; [done|]. simpl in *. by rewrite Hc, Hi.
  - destruct (Z.eqb_spec (ev_fd ev) sockfd) as [Heq|Hne].
    + by apply (accept_conforms sockfd (MAX_MESSAGE_LEN - 1) true MAX_MESSAGE_LEN epollfd 0 (Z.lor EPOLLIN EPOLLET)).
    + by apply (echo_conforms sockfd (MAX_MESSAGE_LEN - 1) true MAX_MESSAGE_LEN epollfd (ev_fd ev) (MAX_MESSAGE_LEN - 1)).
Qed.

(** The epoll demo refines the protocol of a server that also closes
    descriptors in error: any number of turns ends back in the loop or with
    status 1, without undefined behaviour (a receive never exceeds the
    buffer), and every message is sent back unchanged to its sender. *)
Theorem epoll_demo_refines_protocol sockfd epollfd n (s : st) watched :
  watching MAX_MESSAGE_LEN s watched ->
  conforms sockfd (MAX_MESSAGE_LEN - 1) true MAX_MESSAGE_LEN watched s (fun _ => True)
    (for_each (fun _ => demo_turn sockfd epollfd) (seq 0 n) s).
Proof. apply (turns_conform _ _ _ _ _ (demo_event_conforms sockfd epollfd)). done. Qed.

End epoll_demo.

(** A client connects and sends a message; then epoll reports an error. *)
Module EpollEchoRun.

Definition s0 : nstate EpollRef.eworld :=
  EpollRef.from_base MAX_MESSAGE_LEN (RefWorld [[72; 105]]
    [[EpollEvent EPOLLIN 3]; [EpollEvent EPOLLIN 5]; [EpollEvent (Z.lor EPOLLIN EPOLLERR) 5]]).
Definition started : nstate EpollRef.eworld := final (demo_startup [chars "demo"; chars "8881"] s0).

End EpollEchoRun.

Lemma epoll_demo_refines_protocol_witness :
  conforms 3 (MAX_MESSAGE_LEN - 1) true MAX_MESSAGE_LEN {[3]} EpollEchoRun.started (fun _ => True)
    (for_each (fun _ => demo_turn 3 4) (seq 0 3) EpollEchoRun.started).
Proof.
  apply (epoll_demo_refines_protocol 3 4 3 EpollEchoRun.started {[3]}). split; vm_compute; reflexivity.
Defined.
