(* ===== verification/RingDemo.v ===== *)
(** * The ring-based demos

    [demo/tcp_iouring_send_recvmsg_echo_demo.c] (one message buffer for all
    connections), [demo/tcp_iouring_send_recvmsg_provide_buff_echo_demo.c] and
    [demo/tcp_iouring_send_recv_provide_buff_echo_demo.c] (buffers provided to
    the kernel): start-up, completion handler and loop of each, over the
    request builders of [IoOp]. *)

From stdpp Require Import strings.
From S2P Require Import Prelude Uring ConnInfo Libc Setup Sockets IoOp.

Definition EMSGSIZE : Z := 90.
Definition EFAULT : Z := 14.

(** The blocking calls of start-up do not touch the ring. *)
Class SocketsFrame (K : Type) `{!KernelView address Z K} `{!Sockets K} : Prop := {
  w_socket_frame d t p k : same_view k (w_socket d t p k).2;
  w_bind_frame fd a k : same_view k (w_bind fd a k).2;
  w_listen_frame fd n k : same_view k (w_listen fd n k).2
}.

Section demos.
Context {K : Type} `{!Liburing address Z} `{!Kernel address Z K} `{!Setup K} `{!Sockets K}.

Local Abbreviation st := (rstate address Z K stack).

(** A function that only makes blocking calls, on the kernel of the ring. *)
Definition blocking {X} (m : M (nstate K) X) : M st X := fun s =>
  match m (NState (rs_kern s) [] []) with
  | Ok x t => Ok x (put_kern (world t) s)
  | Exit code t => Exit code (put_kern (world t) s)
  | Ub t => Ub (put_kern (world t) s)
  end.

(** ** Start-up *)

(** The listening socket and the first accept. *)
Definition start_accepting (port : Z) : M st Z :=
  sockfd ← blocking (create_server_socket port);
  if sockfd =? -1 then exit_ 1 else
  add_accept sockfd AClientAddr AClientLen 0 ;;
  mret sockfd.

Definition recvmsg_startup (argv : list (list Z)) : M st Z :=
  match argv !! 1%nat with
  | None => exit_ 1
  | Some arg =>
      init_ring 10240 zero_params ;;
      start_accepting (atoi arg)
  end.

Definition group_group_id : Z := 1336.

Definition group_startup (argv : list (list Z)) : M st Z :=
  match argv !! 1%nat with
  | None => exit_ 1
  | Some arg =>
      init_ring 10240 zero_params ;;
      provide_buffers group_group_id ;;
      start_accepting (atoi arg)
  end.

Definition recv_group_id : Z := 1337.

(** [argv[2]] may ask for a submission-queue thread. *)
Definition recv_params (argv : list (list Z)) : io_uring_params :=
  match argv !! 2%nat with
  | Some mode =>
      if str_eqb mode (chars "sqp") then
        Params (Z.lor (p_flags zero_params) IORING_SETUP_SQPOLL) 4 10000 (p_features zero_params)
      else zero_params
  | None => zero_params
  end.

Definition recv_startup (argv : list (list Z)) : M st Z :=
  match argv !! 1%nat with
  | None => exit_ 1
  | Some arg =>
      init_ring IORING_MAX_ENTRIES (recv_params argv) ;;
      provide_buffers recv_group_id ;;
      start_accepting (atoi arg)
  end.

(** ** One buffer for all connections *)

Definition read_failed (bytes_received : Z) : bool :=
  (bytes_received <=? 0) || (bytes_received =? - ENOBUFS) || (bytes_received =? - EMSGSIZE).

(** What the demos do when a client is gone: they shut down the listening
    socket and close the connection. *)
Definition disconnect (sockfd fd : Z) : M st unit :=
  Uring.shutdown sockfd SHUT_RDWR ;; Uring.close fd ;; mret tt.

Definition recvmsg_handle (sockfd : Z) (c : cqe Z) : M st unit :=
  let conn_i := conn_info_of_user_data (cqe_user_data c) in
  let type := ci_type conn_i in
  let fd := to_i32 (ci_fd conn_i) in
  if type =? ACCEPT then
    let sock_conn_fd := cqe_res c in
    io_uring_cqe_seen ;;
    if sock_conn_fd <? 0 then mret tt else
    add_accept sockfd AClientAddr AClientLen 0 ;;
    add_recvmsg sock_conn_fd ABuffer MAX_MESSAGE_LEN 0
  else if type =? READ then
    let bytes_received := cqe_res c in
    io_uring_cqe_seen ;;
    if read_failed bytes_received then disconnect sockfd fd else
    add_sendmsg fd ABuffer bytes_received 0
  else if type =? WRITE then
    let bytes_sent := cqe_res c in
    io_uring_cqe_seen ;;
    if bytes_sent <=? 0 then disconnect sockfd fd else
    add_recvmsg fd ABuffer MAX_MESSAGE_LEN 0
  else io_uring_cqe_seen.

(** [io_uring_submit] has the kernel read the message headers of the queued
    requests, which is undefined where the header's frame is gone. *)
Definition submit : M st Z :=
  s ← get;
  if existsb (fun e => dangling (rs_mem s) (sqe_op e)) (rs_sq s) then ub else io_uring_submit.

(** The start of a turn: submit what is queued, wait for one completion. *)
Definition next_cqe : M st (list (cqe Z)) :=
  submit ;;
  r ← io_uring_wait_cqe;
  let '(ret, cqe) := (r : Z * option (cqe Z)) in
  if ret <? 0 then exit_ 1 else
  match cqe with
  | None => ub
  | Some c => mret [c]
  end.

(** One turn of [while (1)]. *)
Definition recvmsg_turn (sockfd : Z) : M st unit :=
  cqes ← next_cqe; for_each (recvmsg_handle sockfd) cqes.

(** ** Provided buffers, [sendmsg] and [recvmsg]

    [sock_conn_fd] is declared in the first case of the [switch]; the case of
    a completed send uses it without giving it a value, which is undefined. *)

Definition group_handle (sockfd : Z) (c : cqe Z) : M st unit :=
  let conn_i := conn_info_of_user_data (cqe_user_data c) in
  let type := ci_type conn_i in
  let fd := to_i32 (ci_fd conn_i) in
  if type =? ACCEPT then
    let sock_conn_fd := cqe_res c in
    io_uring_cqe_seen ;;
    if sock_conn_fd <? 0 then mret tt else
    add_accept sockfd AClientAddr AClientLen 0 ;;
    add_recvmsg_from_group_buff sock_conn_fd group_group_id MAX_MESSAGE_LEN IOSQE_BUFFER_SELECT
  else if type =? READ then
    let bytes_received := cqe_res c in
    let bid := to_i32 (Z.shiftr (cqe_flags c) 16) in
    io_uring_cqe_seen ;;
    if read_failed bytes_received then
      add_provide_buf bid group_group_id ;;
      disconnect sockfd fd
    else add_sendmsg_from_group_buff fd bid bytes_received 0
  else if type =? WRITE then
    add_provide_buf (ci_bid conn_i) group_group_id ;;
    let bytes_sent := cqe_res c in
    io_uring_cqe_seen ;;
    if bytes_sent <=? 0 then disconnect sockfd fd else ub
  else if type =? PROV_BUF then
    if cqe_res c <? 0 then mret tt else io_uring_cqe_seen
  else io_uring_cqe_seen.

Definition group_turn (sockfd : Z) : M st unit :=
  cqes ← next_cqe; for_each (group_handle sockfd) cqes.

(** ** Provided buffers, [send] and [recv] *)

(** [io_uring_wait_cqe(&ring, 1)]: liburing stores the completion it finds, or
    NULL before it waits for one, through a pointer that points nowhere. *)
Definition wait_cqe_nowhere : M st Z := ub.

Definition recv_failed (bytes_received : Z) : bool :=
  (bytes_received =? - EFAULT) || (bytes_received =? - ENOBUFS) ||
  (bytes_received =? - EMSGSIZE) || (bytes_received <=? 0).

Definition recv_handle (sockfd : Z) (c : cqe Z) : M st unit :=
  let conn_i := conn_info_of_user_data (cqe_user_data c) in
  let type := ci_type conn_i in
  let fd := to_i32 (ci_fd conn_i) in
  if cqe_res c =? - ENOBUFS then exit_ 1 else
  if type =? ACCEPT then
    let sock_conn_fd := cqe_res c in
    if sock_conn_fd <? 0 then mret tt else
    add_accept sockfd AClientAddr AClientLen 0 ;;
    add_recv_from_group_buff sock_conn_fd recv_group_id MAX_MESSAGE_LEN IOSQE_BUFFER_SELECT
  else if type =? READ then
    let bytes_received := cqe_res c in
    let bid := to_i32 (Z.shiftr (cqe_flags c) 16) in
    if recv_failed bytes_received then
      add_provide_buf bid recv_group_id ;;
      disconnect sockfd fd
    else add_send_from_group_buff fd bid bytes_received 0
  else if type =? WRITE then
    add_provide_buf (ci_bid conn_i) recv_group_id ;;
    let bytes_sent := cqe_res c in
    if bytes_sent <=? 0 then disconnect sockfd fd else ub
  else mret tt.

(** One turn: all completions that are there, then one advance. *)
Definition recv_turn (sockfd : Z) : M st unit :=
  ret ← wait_cqe_nowhere;
  if ret <? 0 then exit_ 1 else
  s ← get;
  let cqes := k_cq (rs_kern s) in
  for_each (recv_handle sockfd) cqes ;;
  io_uring_cq_advance (length cqes).

End demos.
