(* ===== verification/RingDemoTheorems.v ===== *)
(** * What the ring-based demos do

    The two demos with [sendmsg] and [recvmsg] have no defined run in which a
    client is served: the first accepted connection queues a request whose
    message header is gone, and the next submission hands it to the kernel. *)

From stdpp Require Import strings.
From S2P Require Import Prelude Uring ConnInfo BatchLoop RefKernel Script BatchScript Libc Setup Options Startup.
From S2P Require Import Sockets IoOp RingDemo.

(** The two demos: with provided buffers ([true]) or one buffer for all. *)
Definition msg_startup {K} `{!Liburing address Z} `{!Kernel address Z K} `{!Setup K} `{!Sockets K}
    (group : bool) (argv : list (list Z)) : M (rstate address Z K stack) Z :=
  if group then group_startup argv else recvmsg_startup argv.

Section msg_demos.
Context {K : Type} `{!Liburing address Z} `{!Kernel address Z K} `{!KernelOk address Z K}.
Context {entries : nat} `{!LiburingOk address Z entries} (group : bool) (lfd : Z).

Local Abbreviation st := (rstate address Z K stack).

Definition msg_handle (c : cqe Z) : M st unit :=
  if group then group_handle lfd c else recvmsg_handle lfd c.

Definition nothing_left (_ : nat) : M st unit := mret tt.

(** The loop, interleaved with the kernel. *)
Definition msg_step := bstep (Kernel0 := Kernel0) next_cqe msg_handle nothing_left.
Definition msg_reachable := breachable (Kernel0 := Kernel0) next_cqe msg_handle nothing_left.

(** ** The invariant of the defined runs *)

Definition is_accept (e : sqe address Z) : Prop :=
  kind (sqe_user_data e) = ACCEPT /\ exists fd a l fl, sqe_op e = OpAccept fd a l fl.

Lemma accept_entry flags fd e :
  is_accept (entry (OpAccept fd AClientAddr AClientLen 0) flags None fd ACCEPT 0 e).
Proof.
  split; [|rewrite entry_op; eauto].
  change (kind (user_data_of_conn_info (mk_conn_info fd ACCEPT 0)) = ACCEPT). unfold kind. by rewrite user_data_of_mk.
Qed.

(** With no frame live, a request of a [msghdr] builder is dangling. *)
Definition broken (e : sqe address Z) : Prop := dangling (Stack ∅ 0) (sqe_op e) = true.

(** No builder is active; what is in flight and what has completed are
    accepts, and what is queued are accepts and dangling requests. *)
Record defined (s : st) (rest : list (cqe Z)) : Prop := Defined {
  df_rest : rest `prefix_of` k_cq (rs_kern s);
  df_frames : frames (rs_mem s) = ∅;
  df_sq : Forall (fun e => is_accept e \/ broken e) (rs_sq s);
  df_inflight : Forall is_accept (k_inflight (rs_kern s));
  df_cq : Forall (fun c => kind (cqe_user_data c) = ACCEPT) (k_cq (rs_kern s))
}.

Lemma dangling_broken m (e : sqe address Z) : frames m = ∅ -> dangling m (sqe_op e) = dangling (Stack ∅ 0) (sqe_op e).
Proof. intros Hm. unfold dangling. by rewrite Hm. Qed.

(** A turn submits accepts only. *)
Lemma submit_accepts (s : st) r s' :
  defined s [] -> RingDemo.submit s = Ok r s' ->
  Forall is_accept (rs_sq s) /\ io_uring_submit s = Ok r s'.
Proof.
  intros Hd. unfold RingDemo.submit. mred. destruct (existsb _ _) eqn:He; [done|]. intros Hrun. split; [|done].
  apply Forall_forall. intros e Hin. pose proof (df_sq _ _ Hd) as Hs. rewrite Forall_forall in Hs.
  destruct (Hs e Hin) as [|Hb]; [done|]. exfalso. apply not_true_iff_false in He. apply He.
  apply existsb_exists. exists e. split; [by apply list_elem_of_In|].
  rewrite dangling_broken by apply Hd. exact Hb.
Qed.

Lemma broken_undefined (s : st) :
  frames (rs_mem s) = ∅ -> Exists broken (rs_sq s) -> next_cqe s = Ub s.
Proof.
  intros Hf (e & Hin & Hb)%Exists_exists. apply bind_ub. unfold RingDemo.submit. mred.
  replace (existsb _ (rs_sq s)) with true; [done|]. symmetry. apply existsb_exists. exists e.
  split; [by apply list_elem_of_In|]. rewrite dangling_broken by done. exact Hb.
Qed.

Lemma defined_post s rest k' : defined s rest -> k_post (rs_kern s) k' -> defined (put_kern k' s) rest.
Proof.
  intros [[l H1] H2 H3 H4 H5] (e & c & Hin & Hq & Hu & _)%post_spec.
  rewrite Hin in H4. apply Forall_cons in H4 as [He H4].
  split; simpl; try done; rewrite Hq.
  - rewrite H1. exists (l ++ [c]). by rewrite app_assoc.
  - apply Forall_app_2; [done|]. apply Forall_singleton. rewrite Hu. apply He.
Qed.

Lemma defined_posts s rest k' : defined s rest -> rtc k_post (rs_kern s) k' -> defined (put_kern k' s) rest.
Proof.
  intros Hd Hr. remember (rs_kern s) as k eqn:Hk. revert s Hd Hk.
  induction Hr as [k|k k1 k' H1 _ IH]; intros s Hd ->; [by destruct s|].
  apply (IH (put_kern k1 s)); [|done]. by apply defined_post.
Qed.

Lemma defined_start s cqes s' : defined s [] -> next_cqe s = Ok cqes s' -> defined s' cqes.
Proof.
  intros Hd (r & s1 & H1 & Hrun)%bind_inv_ok. apply submit_accepts in H1 as [Hacc H1]; [|done].
  assert (Hd1 : defined s1 []).
  { unfold io_uring_submit, io_uring_submit_and_wait in H1. pose proof (submit_spec (rs_sq s) 0 (rs_kern s)) as Hs.
    destruct (k_submit _ _ _) as [[ret m] k']. injection H1 as _ <-.
    destruct Hs as [(k1 & (Hi & Hq & _) & Hposts) _].
    apply (defined_posts (put_sq (drop m (rs_sq s)) (put_kern k1 s))); [|done].
    destruct Hd as [_ D2 D3 D4 D5]. split; simpl; rewrite ?Hi, ?Hq; try done.
    - apply prefix_nil.
    - by apply Forall_drop.
    - apply Forall_app_2; [done|]. by apply Forall_take. }
  apply bind_inv_ok in Hrun as ([ret oc] & s2 & H2 & Hrun). unfold io_uring_wait_cqe in H2.
  pose proof (wait_spec (rs_kern s1)) as Hw. destruct (k_wait _) as [ret' k]. injection H2 as -> <- <-.
  destruct Hw as [Hw _]. apply (defined_posts _ _ _ Hd1) in Hw. destruct (ret <? 0); [done|].
  destruct (k_cq k) as [|c q] eqn:Hq; [done|]. injection Hrun as <- <-.
  destruct Hw as [W1 W2 W3 W4 W5]. split; try done. simpl. rewrite Hq. by exists q.
Qed.

(** Both handlers on the completion of an accept. *)
Lemma msg_handle_accept c :
  kind (cqe_user_data c) = ACCEPT ->
  exists m, msg_builder m /\
    msg_handle c = (io_uring_cqe_seen ;; if cqe_res c <? 0 then mret tt else
      add_accept lfd AClientAddr AClientLen 0 ;; m).
Proof.
  intros Hk. unfold msg_handle, group_handle, recvmsg_handle. cbv zeta. fold (kind (cqe_user_data c)). rewrite Hk.
  destruct group; eexists; (split; [|reflexivity]); constructor.
Qed.

Lemma defined_handle s c rest s' :
  defined s (c :: rest) -> msg_handle c s = Ok tt s' ->
  defined s' rest /\ rs_sq s `prefix_of` rs_sq s' /\ (0 <= cqe_res c -> Exists broken (rs_sq s')).
Proof.
  intros [[l H1] H2 H3 H4 H5] Hrun. rewrite H1 in H5. simpl in H5. apply Forall_cons in H5 as [Hk H5].
  destruct (msg_handle_accept c Hk) as (m & Hm & Heq). rewrite Heq in Hrun. clear Heq.
  apply bind_inv_ok in Hrun as ([] & s1 & [= <-] & Hrun).
  destruct (advance_frame 1 (rs_kern s)) as (Ai & _). pose proof (advance_cq 1 (rs_kern s)) as Aq.
  rewrite H1 in Aq. simpl in Aq. rewrite drop_0 in Aq.
  assert (Hd : defined (put_kern (k_cq_advance 1 (rs_kern s)) s) rest).
  { split; simpl; rewrite ?Ai, ?Aq; try done. by exists l. }
  destruct (Z.ltb_spec (cqe_res c) 0).
  { injection Hrun as <-. split_and!; [done|done|lia]. }
  apply bind_inv_ok in Hrun as ([] & s1 & Ha & Hrun). unfold add_accept in Ha. rewrite fill_plain in Ha.
  unfold queue_one in Ha. destruct (lib_get_sqe _) as [e|]; [|done]. injection Ha as <-.
  destruct (msg_builder_inv (entries := entries) _ _ _ Hm Hrun) as (e' & fd & Hq & Hkern & Hop & Hmem). simpl in *.
  assert (Hb : broken e') by (unfold broken; destruct Hop as [-> | ->]; done).
  destruct Hd as [D1 D2 D3 D4 D5]. split_and!; rewrite ?Hq.
  - split; rewrite ?Hkern, ?Hmem, ?Hq; try done.
    + simpl. by rewrite H2, delete_empty.
    + repeat apply Forall_app_2; [done|..]; apply Forall_singleton; [left; apply accept_entry|by right].
  - rewrite <- app_assoc. by eexists.
  - intros _. apply Exists_app. right. by constructor.
Qed.

(** The state in which the loop is entered: one accept is queued. *)
Record demo_entry (s : st) : Prop := DemoEntry {
  de_sq : exists e, rs_sq s = [e] /\ is_accept e;
  de_frames : frames (rs_mem s) = ∅;
  de_inflight : k_inflight (rs_kern s) = [];
  de_cq : k_cq (rs_kern s) = []
}.

Lemma demo_entry_defined s : demo_entry s -> defined s [].
Proof.
  intros [(e & Hq & He) Hf Hi Hc]. split; rewrite ?Hq, ?Hi, ?Hc; try done.
  apply Forall_singleton. by left.
Qed.

Lemma defined_weaken s rest : defined s rest -> defined s [].
Proof. intros [? ? ? ? ?]. split; try done. apply prefix_nil. Qed.

Lemma msg_defined s0 x :
  demo_entry s0 -> msg_reachable s0 x -> bholds (fun s => defined s []) (fun s _ rest => defined s rest) x.
Proof.
  intros He. apply batch_invariant.
  - intros s k'. apply defined_post.
  - intros s n rest k'. apply defined_post.
  - apply defined_start.
  - intros s n c rest s' Hd Hrun. by destruct (defined_handle _ _ _ _ Hd Hrun) as [? _].
  - by intros s n s' Hd [= <-].
  - by apply demo_entry_defined.
Qed.

(** A dangling request stays queued, and no further turn starts. *)
Lemma broken_stays x y :
  rtc msg_step x y ->
  bholds (fun s => defined s [] /\ Exists broken (rs_sq s)) (fun s _ rest => defined s rest /\ Exists broken (rs_sq s)) x ->
  bholds (fun s => defined s [] /\ Exists broken (rs_sq s)) (fun s _ rest => defined s rest /\ Exists broken (rs_sq s)) y.
Proof.
  apply batch_preserves.
  - intros s k' [Hd Hb] Hp. split; [by apply defined_post|done].
  - intros s n rest k' [Hd Hb] Hp. split; [by apply defined_post|done].
  - intros s cqes s' [Hd Hb]. rewrite broken_undefined by (done || apply Hd). done.
  - intros s n c rest s' [Hd Hb] Hrun. destruct (defined_handle _ _ _ _ Hd Hrun) as (? & [l Hl] & _).
    split; [done|]. rewrite Hl. apply Exists_app. by left.
  - by intros s n s' Hd [= <-].
Qed.

End msg_demos.

(** ** Start-up *)

Section demo_startup.
Context {K : Type} `{!Liburing address Z} `{!Kernel address Z K} `{!Setup K} `{!Sockets K}.
Context `{!KernelOk address Z K} {entries : nat} `{!LiburingOk address Z entries}.
Context `{!SetupOk address Z K} `{!SocketsFrame K}.

Local Abbreviation st := (rstate address Z K stack).

Lemma server_socket_view port (s s' : nstate K) fd :
  create_server_socket port s = Ok fd s' -> fd <> -1 -> same_view (world s) (world s').
Proof.
  unfold create_server_socket, Sockets.socket, Sockets.bind, Sockets.listen, Sockets.close. mred.
  pose proof (w_socket_frame AF_INET SOCK_STREAM 0 (world s)) as F1.
  destruct (w_socket _ _ _ _) as [sock w1]. destruct (Z.eqb_spec sock (-1)) as [->|]; [by intros [= <- <-]|]. simpl.
  pose proof (w_bind_frame sock (SockAddrIn AF_INET (htons port) INADDR_ANY) w1) as F2.
  destruct (w_bind _ _ _) as [b w2]. destruct (b =? -1); [by destruct (w_close _ _); intros [= <- <-]|]. simpl.
  pose proof (w_listen_frame sock SOMAXCONN w2) as F3.
  destruct (w_listen _ _ _) as [r w3]. destruct (r =? -1); [by destruct (w_close _ _); intros [= <- <-]|].
  intros [= <- <-] _. simpl in *. by do 2 (eapply same_view_trans; [eassumption|]).
Qed.

(** The state before and after calls that leave the ring alone. *)
Lemma demo_view_pristine (s s' : st) :
  pristine s -> rs_sq s' = rs_sq s -> same_view (rs_kern s) (rs_kern s') -> pristine s'.
Proof. intros [H1 H2 H3 H4] Hq (Vi & Vc & Vn & _). unfold same_conns in Vn. split; congruence. Qed.

Lemma init_ring_pristine n p (s s' : st) : pristine s -> init_ring n p s = Ok tt s' -> pristine s'.
Proof.
  intros Hp (r & s1 & H1 & Hrun)%bind_inv_ok. destruct (r.1 <? 0); [done|]. destruct (negb _); [done|].
  apply bind_inv_ok in Hrun as (probe & s2 & H2 & Hrun).
  destruct probe as [supported|]; [|done]. destruct (supported _); [|done]. injection Hrun as <-.
  apply syscall_view in H1 as (E1 & _ & V1); [|apply queue_init_frame].
  apply syscall_view in H2 as (E2 & _ & V2); [|apply probe_frame].
  eapply demo_view_pristine; [by eapply demo_view_pristine|done..].
Qed.

(** What start-up leaves of the stack. *)
Lemma init_ring_mem n p (s s' : st) : init_ring n p s = Ok tt s' -> rs_mem s' = rs_mem s.
Proof.
  intros (r & s1 & H1 & Hrun)%bind_inv_ok. destruct (r.1 <? 0); [done|]. destruct (negb _); [done|].
  apply bind_inv_ok in Hrun as (probe & s2 & H2 & Hrun).
  destruct probe as [supported|]; [|done]. destruct (supported _); [|done]. injection Hrun as <-.
  apply (syscall_mem_of id) in H1, H2. unfold mem_of in *. simpl in *. congruence.
Qed.

Lemma start_accepting_entry port lfd (s s' : st) :
  pristine s -> frames (rs_mem s) = ∅ -> start_accepting port s = Ok lfd s' -> demo_entry s'.
Proof.
  intros Hp Hf (fd & s1 & H1 & Hrun)%bind_inv_ok. destruct (Z.eqb_spec fd (-1)); [done|].
  apply bind_inv_ok in Hrun as ([] & s2 & H2 & [= <- <-]). unfold blocking in H1.
  destruct (create_server_socket _ _) as [x t| |] eqn:Hc; [|done..]. injection H1 as -> <-.
  apply server_socket_view in Hc; [|done]. simpl in Hc.
  destruct (demo_view_pristine s (put_kern (world t) s) Hp eq_refl Hc) as [Q1 Q2 Q3 Q4].
  unfold add_accept in H2. rewrite fill_plain in H2. unfold queue_one in H2.
  destruct (lib_get_sqe _) as [e|]; [|done]. injection H2 as <-. split; try done.
  eexists. simpl in *. rewrite Q1. split; [done|]. apply accept_entry.
Qed.

(** Both demos enter their loop in the state the invariant starts from. *)
Lemma msg_startup_entry group argv lfd (s s' : st) :
  pristine s -> frames (rs_mem s) = ∅ -> msg_startup group argv s = Ok lfd s' -> demo_entry s'.
Proof.
  intros Hp Hf. unfold msg_startup, group_startup, recvmsg_startup.
  destruct (argv !! 1%nat); [|by destruct group].
  destruct group; intros ([] & s1 & H1 & Hrun)%bind_inv_ok;
    pose proof (init_ring_pristine _ _ _ _ Hp H1) as Hp1; pose proof (init_ring_mem _ _ _ _ H1) as Hm1.
  - apply bind_inv_ok in Hrun as ([] & s2 & H2 & Hrun). destruct Hp1 as [P1 P2 P3 P4].
    destruct (provide_all_ok _ _ _ _ _ _ P1 P2 P3 H2) as (? & ? & ? & ? & _ & Hm2).
    eapply start_accepting_entry; [|by rewrite Hm2, Hm1|exact Hrun]. split; congruence.
  - eapply start_accepting_entry; [exact Hp1|by rewrite Hm1|exact Hrun].
Qed.

(** C31: neither demo with [sendmsg] and [recvmsg] has a defined run in which
    a client is served.  In every state of every run from start-up, however
    the program and the kernel interleave, only accepts are in flight and only
    accepts have completed: no receive or send is ever submitted.  And from the moment a
    completion that brings a connection has been handled, starting another turn
    is undefined, whatever the kernel does in between: the submission has the
    kernel read the message header of the receive just queued, in a stack frame
    that is gone. *)
Theorem msg_demos_never_serve group argv lfd (s s0 : st) x t :
  pristine s -> frames (rs_mem s) = ∅ -> msg_startup group argv s = Ok lfd s0 ->
  msg_reachable group lfd s0 x -> in_state x t ->
  Forall is_accept (k_inflight (rs_kern t)) /\
  Forall (fun c => kind (cqe_user_data c) = ACCEPT) (k_cq (rs_kern t)) /\
  (forall n c rest t' y u, x = Batch t n (c :: rest) -> 0 <= cqe_res c ->
     msg_handle group lfd c t = Ok tt t' ->
     rtc (msg_step group lfd) (Batch t' (S n) rest) y -> in_state y u -> next_cqe u = Ub u).
Proof.
  intros Hp Hf Hrun Hr Ht. pose proof (msg_startup_entry _ _ _ _ _ Hp Hf Hrun) as He.
  pose proof (msg_defined (entries := entries) _ _ _ _ He Hr) as Hd.
  assert (Hdt : defined t []).
  { eapply (bholds_in_state (fun s => defined s [])); [|exact Hd|exact Ht]. intros v m l. apply defined_weaken. }
  split_and!; [apply (df_inflight _ _ Hdt)|apply (df_cq _ _ Hdt)|].
  - intros n c rest t' y u -> Hc Hh Hy Hu. simpl in Hd.
    destruct (defined_handle (entries := entries) _ _ _ _ _ _ Hd Hh) as (Hd' & _ & Hb).
    pose proof (broken_stays (entries := entries) _ _ _ _ Hy (conj Hd' (Hb Hc))) as Hend.
    assert (Hu' : defined u [] /\ Exists broken (rs_sq u)).
    { eapply (bholds_in_state (fun s => defined s [] /\ Exists broken (rs_sq s))); [|exact Hend|exact Hu].
      intros v m l [Hv ?]. split; [by eapply defined_weaken|done]. }
    destruct Hu' as [Hdu Hbu]. apply broken_undefined; [apply Hdu|done].
Qed.

End demo_startup.

Module RingRun.

Definition blank : sqe address Z := Sqe (OpPollAdd 0 0) 0 0 0 0.
Definition any (e : sqe address Z) (c : cqe Z) : Prop := True.

#[global] Instance any_dec e c : Decision (any e c).
Proof. by left. Defined.

(** The buffers are accepted when all are provided at once; one client
    connects, as descriptor 5, and leaves at once; a single buffer is refused. *)
Definition answer (k : ref_kernel address Z) : nat * Z * Z :=
  match rk_inflight k with
  | [e] => (0%nat, match sqe_op e with OpProvideBuffers _ _ _ _ _ => 0 | _ => 5 end, 0)
  | [_; e] => (1%nat, match sqe_op e with OpProvideBuffers _ _ _ _ _ => - EFAULT | _ => 0 end, 0)
  | _ => (0%nat, 0, 0)
  end.

Definition kernel : Type := ref_kernel address Z.

#[global] Instance lib : Liburing address Z := ref_liburing 64 blank.
#[global] Instance lib_ok : LiburingOk address Z 64 := ref_liburing_ok 64 blank.
#[global] Instance kern : Kernel address Z kernel := waiting_kernel_ops any answer.
#[global] Instance kern_ok : KernelOk address Z kernel := waiting_kernel_ok any answer.
#[global] Instance setup : Setup kernel := ref_setup 3.
#[global] Instance setup_ok : SetupOk address Z kernel := ref_setup_ok 3.

(** Blocking calls that succeed and have no effect on the ring. *)
#[global] Instance socks : Sockets kernel := {|
  w_socket := fun _ _ _ k => (3, k);
  w_bind := fun _ _ k => (0, k);
  w_listen := fun _ _ k => (0, k);
  w_accept := fun _ _ k => (5, k);
  w_recv := fun _ _ k => (0, [], k);
  w_send := fun _ data k => (Z.of_nat (length data), k);
  w_close := fun _ k => (0, k);
  w_shutdown := fun _ _ k => (0, k);
  w_epoll_create := fun _ k => (4, k);
  w_epoll_ctl := fun _ _ _ _ k => (0, k);
  w_epoll_wait := fun _ _ k => (-1, [], k)
|}.

#[global] Instance socks_frame : SocketsFrame kernel.
Proof. by split. Qed.

Definition argv : list (list Z) := [chars "demo"; chars "8881"].
Definition fresh : rstate address Z kernel stack := RState [] (RefK [] [] (fun _ => []) []) (Stack ∅ 0).

Lemma demo_fresh_pristine : pristine fresh.
Proof. by split. Qed.


Lemma demo_post i res flags (k k' : kernel) : ref_post any i res flags k = Some k' -> k_post k k'.
Proof. apply ref_post_posts. Qed.

Definition msg_s0 (group : bool) : rstate address Z kernel stack := final (msg_startup group argv fresh).
Definition msg_run (group : bool) (acts : list action) :=
  brun (ref_post any) next_cqe (msg_handle group 3) nothing_left acts (BTop (msg_s0 group)).
Definition msg_at (group : bool) (acts : list action) := bstate_of (msg_s0 group) (msg_run group acts).

End RingRun.

(** The first client is accepted; the turn ends; there is no next one. *)
Lemma msg_demos_never_serve_witness :
  Forall is_accept (k_inflight (rs_kern (RingRun.msg_at true [Start]))) /\
  let t := RingRun.msg_at true [Start; Handle; End] in next_cqe t = Ub t.
Proof.
  destruct (msg_demos_never_serve (entries := 64) true RingRun.argv 3 RingRun.fresh (RingRun.msg_s0 true)
    (RingRun.msg_run true [Start]) (RingRun.msg_at true [Start])) as (H1 & _ & H2).
  - apply RingRun.demo_fresh_pristine.
  - reflexivity.
  - apply returns_final. vm_compute. reflexivity.
  - apply (brun_steps (ref_post RingRun.any) _ _ _ RingRun.demo_post).
  - right. do 2 eexists. vm_compute. reflexivity.
  - split; [exact H1|]. intros t.
    refine (H2 0%nat (Cqe (user_data_of_conn_info (mk_conn_info 3 ACCEPT 0)) 5 0) [] t (BTop t) t _ _ _ _ _).
    + vm_compute. reflexivity.
    + simpl. lia.
    + vm_compute. reflexivity.
    + apply rtc_once. exact (bstep_end next_cqe (msg_handle true 3) nothing_left t 1).
    + by left.
Defined.
