(* ===== verification/CoServer.v ===== *)
(** * The coroutine echo server

    [netpoll/echo/cpp-coroutine-iouring-server/coroutine_io_uring_echo_server.cpp]:
    one coroutine per connection.  A coroutine is a state machine whose state
    is the point at which it is suspended and its promise; resuming it runs the
    code between two suspension points.  [echo_add_buffer] resumes its
    coroutine from within [await_suspend], so it is no suspension point from
    the outside. *)

From stdpp Require Import strings.
From S2P Require Import Prelude Uring ConnInfo EventLoop Libc Setup EchoServer.

Definition MAX_CONNECTIONS : Z := 4096.
Definition BACKLOG : Z := 512.
Definition MAX_MESSAGE_LEN : Z := 2048.
Definition BUFFERS_COUNT : Z := MAX_CONNECTIONS.
Definition group_id : Z := 1337.

Definition ACCEPT : Z := 0.
Definition READ : Z := 1.
Definition WRITE : Z := 2.
Definition PROV_BUF : Z := 3.

(** Where [handle_echo] is suspended: before its first statement, in
    [co_await echo_read], in [co_await echo_write]. *)
Inductive point : Type := AtStart | AfterRead | AfterWrite.

(** A coroutine: its parameter [fd], where it is suspended, and its promise
    ([conn_info] and [res]; there is only one ring). *)
Record task : Type := Task {
  co_fd : Z;
  co_point : point;
  co_info : conn_info;
  co_res : Z (* size_t *)
}.

Definition put_type (type : Z) (i : conn_info) : conn_info := ConnInfo (ci_fd i) (to_u16 type) (ci_bid i).
Definition put_fd (fd : Z) (i : conn_info) : conn_info := ConnInfo (to_u32 fd) (ci_type i) (ci_bid i).
Definition put_bid (bid : Z) (i : conn_info) : conn_info := ConnInfo (ci_fd i) (ci_type i) (to_u16 bid).

(** [p.conn_info.type = type] *)
Definition set_type (type : Z) (t : task) : task := Task (co_fd t) (co_point t) (put_type type (co_info t)) (co_res t).
Definition suspend_at (p : point) (t : task) : task := Task (co_fd t) p (co_info t) (co_res t).

(** [std::map<int, conn_task> connections] *)
Abbreviation connections_map := (gmap Z task).

Section coroutine_server.
Context {K : Type} `{!Liburing address Z} `{!Kernel address Z K} `{!Setup K}.

(** The contents of a new promise, which are not initialised. *)
Context (new_info : conn_info) (new_res : Z).

Local Abbreviation st := (rstate address Z K connections_map).

(** ** The awaitables: what [await_suspend] does

    [message_size] is a [size_t]; the entry's [len] is a [__u32]. *)

Definition echo_read (t : task) (message_size flags : Z) : M st task :=
  sqe ← io_uring_get_sqe;
  io_uring_prep sqe (OpRecv (to_i32 (ci_fd (co_info t))) ANull (to_u32 message_size) 0) ;;
  io_uring_sqe_set_flags sqe flags ;;
  sqe_update sqe (sqe_put_buf_group group_id) ;;
  let t := set_type READ t in
  set_user_data sqe (user_data_of_conn_info (co_info t)) ;;
  mret (suspend_at AfterRead t).

(** [&bufs[bid]] is undefined beyond the rows of [bufs]. *)
Definition echo_write (t : task) (message_size flags : Z) : M st task :=
  sqe ← io_uring_get_sqe;
  if ci_bid (co_info t) <? BUFFERS_COUNT then
    io_uring_prep sqe (OpSend (to_i32 (ci_fd (co_info t))) (ABufs (ci_bid (co_info t))) (to_u32 message_size) 0) ;;
    io_uring_sqe_set_flags sqe flags ;;
    let t := set_type WRITE t in
    set_user_data sqe (user_data_of_conn_info (co_info t)) ;;
    mret (suspend_at AfterWrite t)
  else ub.

Definition echo_add_buffer (t : task) : M st task :=
  sqe ← io_uring_get_sqe;
  if ci_bid (co_info t) <? BUFFERS_COUNT then
    io_uring_prep sqe (OpProvideBuffers (ABufs (ci_bid (co_info t))) MAX_MESSAGE_LEN 1 group_id (ci_bid (co_info t))) ;;
    let t := set_type PROV_BUF t in
    set_user_data sqe (user_data_of_conn_info (co_info t)) ;;
    mret t
  else ub.

(** ** The coroutine *)

(** [handle_echo] from the point where it is suspended to the next one;
    [None]: it has returned and its frame is gone. *)
Definition handle_echo (t : task) : M st (option task) :=
  match co_point t with
  | AtStart =>
      t ← echo_read t MAX_MESSAGE_LEN IOSQE_BUFFER_SELECT; mret (Some t)
  | AfterRead =>
      let size_r := co_res t in
      if size_r <=? 0 then
        t ← echo_add_buffer t;
        shutdown (co_fd t) SHUT_RDWR ;;
        modify (fun s => put_mem (delete (co_fd t) (rs_mem s)) s) ;;
        mret None
      else
        t ← echo_write t size_r 0; mret (Some t)
  | AfterWrite =>
      t ← echo_add_buffer t;
      t ← echo_read t MAX_MESSAGE_LEN IOSQE_BUFFER_SELECT; mret (Some t)
  end.

(** [connections.at(fd)] throws, and ends the process, when there is none. *)
Definition connections_at (fd : Z) : M st task :=
  s ← get;
  match (rs_mem s : connections_map) !! fd with
  | Some t => mret t
  | None => exit_ 134
  end.

(** [h.resume()] of the coroutine [t] of connection [fd]. *)
Definition resume (fd : Z) (t : task) : M st unit :=
  r ← handle_echo t;
  match r with
  | Some t' => modify (fun s => put_mem (<[fd := t']> (rs_mem s : connections_map)) s)
  | None => mret tt
  end.

(** [connections.emplace(fd, handle_echo(fd))] keeps an entry that is there. *)
Definition emplace (fd : Z) : M st unit :=
  modify (fun s =>
    match (rs_mem s : connections_map) !! fd with
    | Some _ => s
    | None => put_mem (<[fd := Task fd AtStart new_info new_res]> (rs_mem s : connections_map)) s
    end).

Definition add_accept (fd : Z) (client_addr client_len : address) (flags : Z) : M st unit :=
  sqe ← io_uring_get_sqe;
  io_uring_prep sqe (OpAccept fd client_addr client_len 0) ;;
  io_uring_sqe_set_flags sqe flags ;;
  set_user_data sqe (user_data_of_conn_info (mk_conn_info fd ACCEPT 0)).

(** The body of [io_uring_for_each_cqe]. *)
Definition handle_cqe (sock_listen_fd : Z) (c : cqe Z) : M st unit :=
  let conn_i := conn_info_of_user_data (cqe_user_data c) in
  let type := ci_type conn_i in
  let fd := to_i32 (ci_fd conn_i) in
  if cqe_res c =? - ENOBUFS then exit_ 1
  else if type =? PROV_BUF then
    if cqe_res c <? 0 then exit_ 1 else mret tt
  else if type =? ACCEPT then
    let sock_conn_fd := cqe_res c in
    (if 0 <=? sock_conn_fd then
       emplace sock_conn_fd ;;
       t ← connections_at sock_conn_fd;
       resume sock_conn_fd (Task (co_fd t) (co_point t) (put_fd sock_conn_fd (co_info t)) (co_res t))
     else mret tt) ;;
    add_accept sock_listen_fd AClientAddr AClientLen 0
  else if type =? READ then
    t ← connections_at fd;
    resume fd (Task (co_fd t) (co_point t) (put_bid (Z.shiftr (cqe_flags c) 16) (co_info t)) (to_u64 (cqe_res c)))
  else if type =? WRITE then
    t ← connections_at fd;
    resume fd t
  else mret tt.

Definition turn_start : M st unit := io_uring_submit_and_wait 1 ;; mret tt.
Definition turn_end (count : nat) : M st unit := io_uring_cq_advance count.

(** One turn of [while (1)]. *)
Definition event_loop_body (sock_listen_fd : Z) : M st unit :=
  io_uring_submit_and_wait 1 ;;
  s ← get;
  let cqes := k_cq (rs_kern s) in
  for_each (handle_cqe sock_listen_fd) cqes ;;
  io_uring_cq_advance (length cqes).

Definition co_reachable (sock_listen_fd : Z) :=
  reachable turn_start (handle_cqe sock_listen_fd) turn_end.

(** ** Start-up *)

Definition setup_socket (portno : Z) : M st Z :=
  sock_listen_fd ← socket AF_INET SOCK_STREAM 0;
  setsockopt sock_listen_fd SOL_SOCKET SO_REUSEADDR 1 ;;
  let serv_addr := SockAddrIn AF_INET (htons portno) INADDR_ANY in
  r ← bind sock_listen_fd serv_addr;
  if r <? 0 then exit_ 1 else
  r ← listen sock_listen_fd BACKLOG;
  if r <? 0 then exit_ 1 else
  mret sock_listen_fd.

Definition setup_ring : M st unit :=
  r ← io_uring_queue_init_params 4096 zero_params;
  if r.1 <? 0 then exit_ 1 else
  if negb (has_flag (p_features r.2) IORING_FEAT_FAST_POLL) then exit_ 0 else
  probe ← io_uring_get_probe_ring;
  match (probe : option (Z -> bool)) with
  | None => exit_ 0
  | Some supported => if supported IORING_OP_PROVIDE_BUFFERS then mret tt else exit_ 0
  end.

Definition register_buffers : M st unit :=
  provide_all (ABufs 0) MAX_MESSAGE_LEN BUFFERS_COUNT group_id.

Definition startup (argv : list (list Z)) : M st Z :=
  match argv !! 1%nat with
  | None => exit_ 0
  | Some arg =>
      let portno := to_i32 (strtol arg) in
      sock_listen_fd ← setup_socket portno;
      setup_ring ;;
      register_buffers ;;
      add_accept sock_listen_fd AClientAddr AClientLen 0 ;;
      mret sock_listen_fd
  end.

End coroutine_server.
