(* ===== verification/CoServerInv.v ===== *)
(** * Coroutines and requests

    The invariant of the coroutine echo server.  A coroutine is resumed by the
    completion of the request it queued before it was suspended, and finds out
    about it only through its own promise; so each live coroutine must have
    exactly one outstanding request, be suspended where it waits for that kind
    of request, and its promise must say what the request's [user_data] says. *)

From S2P Require Import Prelude Uring ConnInfo EventLoop Setup EchoServer CoServer.

(** The connection a request serves; the connection a completion delivers. *)
Definition serves (u : Z) : list Z := if (kind u =? READ) || (kind u =? WRITE) then [owner u] else [].
Definition delivered (c : cqe Z) : list Z :=
  if (kind (cqe_user_data c) =? ACCEPT) && (0 <=? cqe_res c) then [cqe_res c] else [].

(** The coroutine [t] waits for the request [u]. *)
Record awaits (t : task) (u : Z) : Prop := Awaits {
  aw_fd : co_fd t = owner u;
  aw_info : conn_info_of_user_data u = co_info t;
  aw_ok : conn_info_ok (co_info t);
  aw_point : co_point t = (if kind u =? READ then AfterRead else AfterWrite);
  aw_bid : kind u = WRITE -> ci_bid (co_info t) < BUFFERS_COUNT
}.

Definition awaited (m : connections_map) (u : Z) : Prop :=
  forall fd, fd ∈ serves u -> is_fd fd /\ exists t, m !! fd = Some t /\ awaits t u.

(** What the server asks for. *)
Inductive request (e : sqe address Z) : Prop :=
| req_accept fd a l fl : sqe_op e = OpAccept fd a l fl -> kind (sqe_user_data e) = ACCEPT -> request e
| req_read fd b n fl : sqe_op e = OpRecv fd b n fl -> has_flag (sqe_flags e) IOSQE_BUFFER_SELECT = true ->
    sqe_buf_group e = group_id -> kind (sqe_user_data e) = READ -> request e
| req_write fd b n fl : sqe_op e = OpSend fd b n fl -> kind (sqe_user_data e) = WRITE -> request e
| req_provide b n i : sqe_op e = OpProvideBuffers b n 1 group_id i -> 0 <= i < BUFFERS_COUNT ->
    kind (sqe_user_data e) = PROV_BUF -> request e.

(** The buffer number the handler reads from a completion. *)
Definition reported (c : cqe Z) : Z := to_u16 (Z.shiftr (cqe_flags c) 16).

(** A completion: an [int] result, and one of the four kinds; a receive comes
    with the number of a buffer (0 when it reports none). *)
Definition known (u : Z) : Prop := kind u = ACCEPT \/ kind u = READ \/ kind u = WRITE \/ kind u = PROV_BUF.
Definition answer (c : cqe Z) : Prop :=
  is_i32 (cqe_res c) /\ known (cqe_user_data c) /\ (kind (cqe_user_data c) = READ -> reported c < BUFFERS_COUNT).

Lemma request_known e : request e -> known (sqe_user_data e).
Proof. unfold known. destruct 1; auto. Qed.

Section co_inv.
Context {K : Type} `{!Liburing address Z} `{!Kernel address Z K} `{!KernelOk address Z K}.

Local Abbreviation st := (rstate address Z K connections_map).

Definition requests (s : st) : list (sqe address Z) := rs_sq s ++ k_inflight (rs_kern s).

(** The [user_data] of everything outstanding, when the first [n] completions
    have been handled, and the connections they serve. *)
Definition outstanding (s : st) (n : nat) : list Z :=
  (sqe_user_data <$> requests s) ++ (cqe_user_data <$> drop n (k_cq (rs_kern s))).
Definition served (s : st) (n : nat) : list Z := outstanding s n ≫= serves.

(** Accepted connections without a coroutine yet. *)
Definition arriving (s : st) (n : nat) : list Z := drop n (k_cq (rs_kern s)) ≫= delivered.

(** The invariant while the handler works for the connections [held], which
    have a coroutine and no request, and [new], which have neither. *)
Record holding (s : st) (n : nat) (held new : list Z) : Prop := Holding {
  co_requests : Forall request (requests s);
  co_answers : Forall answer (drop n (k_cq (rs_kern s)));
  co_delivered : Forall is_fd (arriving s n);
  co_awaited : Forall (awaited (rs_mem s)) (outstanding s n);
  co_keys fd : is_Some (rs_mem s !! fd) <-> fd ∈ served s n ++ held;
  co_nodup : NoDup (k_conns (rs_kern s));
  co_conns : served s n ++ held ++ new ++ arriving s n ⊆+ k_conns (rs_kern s);
  co_handled : (n <= length (k_cq (rs_kern s)))%nat;
  co_range : Forall (fun bid => 0 <= bid < BUFFERS_COUNT) (k_group (rs_kern s) group_id)
}.

Definition co_inv (s : st) (n : nat) : Prop := holding s n [] [].

(** ** The program's steps *)

(** A held connection is served by nothing outstanding. *)
Lemma held_unserved s n fd held new : holding s n (fd :: held) new -> fd ∉ served s n.
Proof.
  intros [_ _ _ _ _ Hn Hs _ _]. eapply NoDup_of_submseteq in Hs; [|done]. apply NoDup_app in Hs as (_ & Hs & _).
  intros Hin. apply (Hs fd); [done|]. set_solver.
Qed.

Lemma new_unknown s n held fd new : holding s n held (fd :: new) -> rs_mem s !! fd = None.
Proof.
  intros [_ _ _ _ Hk Hn Hs _ _]. apply eq_None_not_Some. rewrite Hk, elem_of_app. eapply NoDup_of_submseteq in Hs; [|done].
  apply NoDup_app in Hs as (_ & Hs1 & Hs). apply NoDup_app in Hs as (_ & Hs2 & _).
  intros [Hin|Hin]; [apply (Hs1 fd)|apply (Hs2 fd)]; set_solver.
Qed.

Lemma awaited_insert m u fd t : awaited m u -> fd ∉ serves u -> awaited (<[fd := t]> m) u.
Proof.
  intros Hu Hf fd' Hin. destruct (Hu fd' Hin) as (Hfd & t' & Ht & Ha). split; [done|]. exists t'.
  rewrite lookup_insert_ne by (intros ->; done). done.
Qed.

Lemma all_awaited_insert m l fd t :
  Forall (awaited m) l -> fd ∉ (l ≫= serves) -> Forall (awaited (<[fd := t]> m)) l.
Proof.
  intros Hl Hf. apply Forall_forall. intros u Hu. eapply Forall_forall in Hl; [|exact Hu].
  apply awaited_insert; [done|]. intros Hin. apply Hf, list_elem_of_bind. eauto.
Qed.

Lemma outstanding_push e s n : outstanding (push_sqe e s) n ≡ₚ sqe_user_data e :: outstanding s n.
Proof. unfold outstanding, requests; simpl. rewrite !fmap_app; simpl. solve_Permutation. Qed.

Lemma served_push e s n : served (push_sqe e s) n ≡ₚ serves (sqe_user_data e) ++ served s n.
Proof. unfold served. by rewrite outstanding_push, bind_cons. Qed.

(** A request that serves no connection. *)
Lemma hold_other s n held new e :
  request e -> serves (sqe_user_data e) = [] -> holding s n held new -> holding (push_sqe e s) n held new.
Proof.
  intros He Hs [H1 H0 H2 H3 H4 H5 H6 H7 H8].
  assert (Hsv : served (push_sqe e s) n ≡ₚ served s n) by (by rewrite served_push, Hs).
  split; try done.
  - unfold requests in *. simpl. rewrite <- app_assoc. apply Forall_app in H1 as [? ?].
    apply Forall_app_2; [done|]. by constructor.
  - rewrite outstanding_push. constructor; [|done]. intros fd. rewrite Hs. by intros ?%elem_of_nil.
  - intros fd. simpl. by rewrite Hsv.
  - by rewrite Hsv.
Qed.

(** The request a held connection's coroutine awaits. *)
Lemma hold_await s n fd held new e t :
  request e -> serves (sqe_user_data e) = [fd] -> is_fd fd -> awaits t (sqe_user_data e) ->
  holding s n (fd :: held) new -> holding (put_mem (<[fd := t]> (rs_mem s)) (push_sqe e s)) n held new.
Proof.
  intros He Hs Hfd Ha Hh. pose proof (held_unserved _ _ _ _ _ Hh) as Hf. destruct Hh as [H1 H0 H2 H3 H4 H5 H6 H7 H8].
  pose proof (served_push e s n) as Hsv. rewrite Hs in Hsv.
  split; try done.
  - unfold requests in *. simpl. rewrite <- app_assoc. apply Forall_app in H1 as [? ?].
    apply Forall_app_2; [done|]. by constructor.
  - change (Forall (awaited (<[fd := t]> (rs_mem s))) (outstanding (push_sqe e s) n)).
    rewrite outstanding_push. constructor; [|by apply all_awaited_insert].
    intros fd'. rewrite Hs. intros ->%list_elem_of_singleton. split; [done|]. exists t. by rewrite lookup_insert_eq.
  - intros fd'. change (is_Some (<[fd := t]> (rs_mem s) !! fd') <-> fd' ∈ served (push_sqe e s) n ++ held).
    rewrite Hsv. rewrite lookup_insert_is_Some, H4. rewrite !elem_of_app, !elem_of_cons, elem_of_nil.
    clear. destruct (decide (fd = fd')); naive_solver.
  - change (served (push_sqe e s) n ++ held ++ new ++ arriving s n ⊆+ k_conns (rs_kern s)).
    rewrite Hsv. etrans; [|exact H6]. apply Permutation_submseteq. solve_Permutation.
Qed.

(** A coroutine returns. *)
Lemma hold_erase s n fd held new :
  holding s n (fd :: held) new -> holding (put_mem (delete fd (rs_mem s)) s) n held new.
Proof.
  intros Hh. pose proof (held_unserved _ _ _ _ _ Hh) as Hf. destruct Hh as [H1 H0 H2 H3 H4 H5 H6 H7 H8].
  assert (Hnd : fd ∉ held).
  { eapply NoDup_of_submseteq in H6; [|done]. apply NoDup_app in H6 as (_ & _ & H6).
    apply NoDup_cons in H6 as [? _]. set_solver. }
  split; try done.
  - apply Forall_forall. intros u Hu. eapply Forall_forall in H3; [|exact Hu]. intros fd' Hin.
    destruct (H3 fd' Hin) as (? & t & Ht & ?). split; [done|]. exists t. simpl.
    rewrite lookup_delete_ne; [done|]. intros ->. apply Hf. apply list_elem_of_bind. eauto.
  - intros fd'. simpl. change (served (put_mem _ s) n) with (served s n).
    rewrite lookup_delete_is_Some, H4, !elem_of_app, elem_of_cons. clear -Hf Hnd. destruct (decide (fd = fd')); naive_solver.
  - etrans; [|exact H6]. change (served (put_mem _ s) n) with (served s n).
    apply submseteq_app; [done|]. by apply submseteq_cons.
Qed.

(** A new coroutine. *)
Lemma hold_new s n held fd new t :
  holding s n held (fd :: new) -> holding (put_mem (<[fd := t]> (rs_mem s)) s) n (fd :: held) new.
Proof.
  intros Hh. pose proof (new_unknown _ _ _ _ _ Hh) as Hnone. destruct Hh as [H1 H0 H2 H3 H4 H5 H6 H7 H8].
  assert (Hf : fd ∉ served s n).
  { intros Hin. assert (Hs : is_Some (rs_mem s !! fd)) by (apply H4; set_solver). rewrite Hnone in Hs. by destruct Hs. }
  split; try done.
  - by apply all_awaited_insert.
  - intros fd'. simpl. change (served (put_mem _ s) n) with (served s n).
    rewrite lookup_insert_is_Some, H4, !elem_of_app, elem_of_cons. clear. destruct (decide (fd = fd')); naive_solver.
  - etrans; [|exact H6]. change (served (put_mem _ s) n) with (served s n).
    apply Permutation_submseteq. solve_Permutation.
Qed.

Lemma hold_kern s n held new k' :
  holding s n held new -> k_inflight k' = k_inflight (rs_kern s) -> k_cq k' = k_cq (rs_kern s) ->
  same_conns (rs_kern s) k' -> same_groups (rs_kern s) k' -> holding (put_kern k' s) n held new.
Proof.
  intros [H1 H0 H2 H3 H4 H5 H6 H7 H8] Vi Vc Vn Vg. unfold same_conns in Vn.
  split; unfold served, arriving, outstanding, requests in *; simpl; rewrite ?Vi, ?Vc, ?Vn, ?Vg; done.
Qed.

(** The next completion is taken. *)
Lemma hold_take_next s n c :
  co_inv s n -> k_cq (rs_kern s) !! n = Some c ->
  holding s (S n) (serves (cqe_user_data c)) (delivered c).
Proof.
  intros [H1 H0 H2 H3 H4 H5 H6 H7 H8] Hc. pose proof (drop_S _ _ _ Hc) as Hd.
  assert (Ho : outstanding s n ≡ₚ cqe_user_data c :: outstanding s (S n)).
  { unfold outstanding. rewrite Hd, fmap_cons. solve_Permutation. }
  assert (Hs : served s n ≡ₚ serves (cqe_user_data c) ++ served s (S n)).
  { unfold served. by rewrite Ho, bind_cons. }
  assert (Ha : arriving s n = delivered c ++ arriving s (S n)) by (unfold arriving; by rewrite Hd).
  rewrite Hd in H0. apply Forall_cons in H0 as [_ H0]. rewrite Ho in H3. rewrite Ha in H2, H6. apply Forall_cons in H3 as [_ H3]. apply Forall_app in H2 as [_ H2].
  split; try done.
  - intros fd. rewrite H4, Hs, !elem_of_app. set_solver.
  - etrans; [|exact H6]. rewrite Hs. apply Permutation_submseteq. solve_Permutation.
  - apply lookup_lt_Some in Hc. lia.
Qed.

Lemma head_awaited s n c :
  co_inv s n -> k_cq (rs_kern s) !! n = Some c -> awaited (rs_mem s) (cqe_user_data c).
Proof.
  intros [_ _ _ H3 _ _ _ _ _] Hc. eapply Forall_forall in H3; [exact H3|].
  unfold outstanding. rewrite (drop_S _ _ _ Hc), fmap_cons. set_solver.
Qed.

Lemma co_head_answer s n c : co_inv s n -> k_cq (rs_kern s) !! n = Some c -> answer c.
Proof. intros Hi Hc. pose proof (co_answers _ _ _ _ Hi) as Ha. rewrite (drop_S _ _ _ Hc) in Ha. by apply Forall_cons in Ha as [? _]. Qed.

Lemma hold_consume s n : co_inv s n -> co_inv (put_kern (k_cq_advance n (rs_kern s)) s) 0.
Proof.
  intros [H1 H0 H2 H3 H4 H5 H6 H7 H8]. destruct (advance_frame n (rs_kern s)) as (Ai & Ac & Ag).
  unfold same_conns in Ac. pose proof (advance_cq n (rs_kern s)) as Aq.
  split; unfold served, arriving, outstanding, requests in *; simpl; rewrite ?drop_0, ?Ai, ?Ac, ?Aq, ?Ag; try done. lia.
Qed.

(** ** The kernel's steps *)

(** What a completion reports and leaves in the group are buffers of [bufs]. *)
Lemma range_post (k k' : K) e c :
  request e -> Forall (fun bid => 0 <= bid < BUFFERS_COUNT) (k_group k group_id) -> completes e c k k' ->
  Forall (fun bid => 0 <= bid < BUFFERS_COUNT) (k_group k' group_id) /\
  (kind (sqe_user_data e) = READ -> reported c < BUFFERS_COUNT).
Proof.
  intros Hreq Hg Hc. unfold completes in Hc.
  destruct Hreq as [fd a l fl Hop Hk|fd b m fl Hop Hf Hgr Hk|fd b m fl Hop Hk|b m i Hop Hi Hk]; rewrite Hop in Hc; rewrite Hk.
  - destruct Hc as [Hs _]. by rewrite Hs.
  - rewrite Hf, Hgr in Hc. destruct Hc as (_ & _ & [(bid & Hrep & _ & Hp)|[(_ & _ & -> & H0)|(_ & _ & -> & H0)]]).
    + rewrite Hp in Hg. apply Forall_cons in Hg as [Hb Hg]. split; [done|]. intros _. unfold reported.
      rewrite (shiftr_reported _ _ Hrep), to_u16_id by apply Hrep. lia.
    + split; [constructor|]. intros _. unfold reported. by rewrite H0.
    + split; [done|]. intros _. unfold reported. by rewrite H0.
  - destruct Hc as [_ Hs]. by rewrite Hs.
  - destruct Hc as [_ [(_ & Hp & _)|[_ Hs]]]; [|by rewrite Hs]. split; [|done]. rewrite Hp. apply Forall_app_2; [done|].
    change 1 with (Z.succ 0). rewrite seqZ_cons by lia. by constructor.
Qed.

Lemma co_inv_post s n k' : co_inv s n -> k_post (rs_kern s) k' -> co_inv (put_kern k' s) n.
Proof.
  intros [H1 H0 H2 H3 H4 H5 H6 H7 H8] (e & c & Hin & Hq & Hu & Hi32 & Hc)%post_spec.
  assert (Hreq : request e).
  { unfold requests in H1. rewrite Hin in H1. apply Forall_app in H1 as [_ H1]. by apply Forall_cons in H1 as [? _]. }
  destruct (range_post _ _ _ _ Hreq H8 Hc) as [Hrg Hrep].
  assert (Hd : drop n (k_cq k') = drop n (k_cq (rs_kern s)) ++ [c]) by (rewrite Hq; by apply drop_app_le).
  assert (Hnew : (delivered c = [] /\ k_conns k' = k_conns (rs_kern s)) \/
    (is_fd (cqe_res c) /\ (cqe_res c ∉ k_conns (rs_kern s)) /\ delivered c = [cqe_res c] /\
     k_conns k' = cqe_res c :: k_conns (rs_kern s))).
  { unfold completes in Hc. unfold delivered. rewrite Hu.
    destruct Hreq as [fd a l fl Hop Hk|fd b m fl Hop _ _ Hk|fd b m fl Hop Hk|b m i Hop _ Hk]; rewrite Hop in Hc; rewrite Hk; simpl.
    - destruct Hc as [_ [(Hr & Hn & Hc)|[Hneg Hc]]].
      + right. rewrite (proj2 (Z.leb_le _ _)) by apply Hr. done.
      + left. by rewrite (proj2 (Z.leb_gt _ _)).
    - left. split; [done|]. destruct (has_flag _ _); apply Hc.
    - left. split; [done|]. apply Hc.
    - left. split; [done|]. apply Hc. }
  assert (Ho : outstanding (put_kern k' s) n ≡ₚ outstanding s n).
  { unfold outstanding, requests; simpl. rewrite Hd, Hin, !fmap_app; simpl. rewrite Hu. solve_Permutation. }
  assert (Hs : served (put_kern k' s) n ≡ₚ served s n) by (unfold served; by rewrite Ho).
  assert (Ha : arriving (put_kern k' s) n = arriving s n ++ delivered c).
  { unfold arriving; simpl. rewrite Hd. apply list_bind_snoc. }
  split; [|simpl; rewrite Hd; apply Forall_app_2; [done|]; apply Forall_singleton; split;
    [done|rewrite Hu; split; [by apply request_known|done]]| |by rewrite Ho|intros fd; simpl; by rewrite Hs| |
    |simpl; rewrite Hq, length_app; simpl; lia|done].
  - unfold requests in *; simpl. rewrite Hin in H1. apply Forall_app in H1 as [? H1].
    apply Forall_cons in H1 as [_ ?]. by apply Forall_app_2.
  - rewrite Ha. apply Forall_app_2; [done|]. destruct Hnew as [[-> _]|(Hr & _ & -> & _)]; [constructor|by apply Forall_singleton].
  - simpl. destruct Hnew as [[_ ->]|(_ & Hr & _ & ->)]; [done|by constructor].
  - rewrite Hs, Ha; simpl in *. destruct Hnew as [[-> ->]|(_ & _ & -> & ->)]; [by rewrite app_nil_r|].
    rewrite app_assoc. rewrite <- Permutation_cons_append. by apply submseteq_skip.
Qed.

Lemma co_inv_posts s n k' : co_inv s n -> rtc k_post (rs_kern s) k' -> co_inv (put_kern k' s) n.
Proof.
  intros Hi Hr. remember (rs_kern s) as k eqn:Hk. revert s Hi Hk.
  induction Hr as [k|k k1 k' H1 _ IH]; intros s Hi ->; [by destruct s|].
  apply (IH (put_kern k1 s)); [|done]. by apply co_inv_post.
Qed.

Lemma co_inv_submit s w r s' :
  co_inv s 0 -> io_uring_submit_and_wait w s = Ok r s' -> co_inv s' 0.
Proof.
  intros [H1 H0 H2 H3 H4 H5 H6 H7 H8] Hrun. unfold io_uring_submit_and_wait in Hrun.
  pose proof (submit_spec (rs_sq s) w (rs_kern s)) as Hs.
  destruct (k_submit _ _ _) as [[ret m] k']. injection Hrun as _ <-.
  destruct Hs as [(k1 & (Hinf & Hq & Hc & Hg) & Hposts) _]. unfold same_conns in Hc.
  apply (co_inv_posts (put_sq (drop m (rs_sq s)) (put_kern k1 s)) 0 k'); [|done].
  assert (Hr : requests (put_sq (drop m (rs_sq s)) (put_kern k1 s)) ≡ₚ requests s).
  { unfold requests; simpl. rewrite Hinf. rewrite <- (take_drop m (rs_sq s)) at 3. solve_Permutation. }
  assert (Ho : outstanding (put_sq (drop m (rs_sq s)) (put_kern k1 s)) 0 ≡ₚ outstanding s 0).
  { unfold outstanding; simpl. by rewrite Hr, Hq. }
  assert (Hsv : served (put_sq (drop m (rs_sq s)) (put_kern k1 s)) 0 ≡ₚ served s 0) by (unfold served; by rewrite Ho).
  split; simpl; rewrite ?Hr, ?Ho, ?Hsv; try done; unfold arriving in *; simpl; rewrite ?Hq, ?Hc, ?Hg; try done.
  intros fd. by rewrite Hsv.
Qed.

End co_inv.
