(* ===== verification/CoServerTheorems.v ===== *)
(** * What the coroutine echo server does

    The invariant of [CoServerInv] holds in every run; compared with the
    provided-buffers server in C the coroutines ask for the same things, except
    when a receive fails. *)

From stdpp Require Import strings.
From S2P Require Import Prelude Uring ConnInfo EventLoop RefKernel Script Libc Setup EchoServer CoServer CoServerInv.

Section co_server.
Context {K : Type} `{!Liburing address Z} `{!Kernel address Z K} `{!KernelOk address Z K}.
Context {entries : nat} `{!LiburingOk address Z entries}.
Context (new_info : conn_info) (new_res : Z) (lfd : Z).

Local Abbreviation st := (rstate address Z K connections_map).
Local Abbreviation handle := (handle_cqe new_info new_res lfd).

(** ** The requests of a coroutine *)

Definition read_entry (t : task) (n flags : Z) (e : sqe address Z) : sqe address Z :=
  sqe_put_user_data (user_data_of_conn_info (put_type READ (co_info t)))
    (sqe_put_buf_group group_id (lib_set_flags flags (lib_prep (OpRecv (to_i32 (ci_fd (co_info t))) ANull (to_u32 n) 0) e))).

Definition write_entry (t : task) (n flags : Z) (e : sqe address Z) : sqe address Z :=
  sqe_put_user_data (user_data_of_conn_info (put_type WRITE (co_info t)))
    (lib_set_flags flags (lib_prep (OpSend (to_i32 (ci_fd (co_info t))) (ABufs (ci_bid (co_info t))) (to_u32 n) 0) e)).

Definition provide_entry (t : task) (e : sqe address Z) : sqe address Z :=
  sqe_put_user_data (user_data_of_conn_info (put_type PROV_BUF (co_info t)))
    (lib_prep (OpProvideBuffers (ABufs (ci_bid (co_info t))) MAX_MESSAGE_LEN 1 group_id (ci_bid (co_info t))) e).

Definition accept_entry (e : sqe address Z) : sqe address Z :=
  sqe_put_user_data (user_data_of_conn_info (mk_conn_info lfd ACCEPT 0))
    (lib_set_flags 0 (lib_prep (OpAccept lfd AClientAddr AClientLen 0) e)).

Lemma echo_read_spec t n fl (s : st) :
  echo_read t n fl s = (queue_one (read_entry t n fl) ;; mret (suspend_at AfterRead (set_type READ t))) s.
Proof. fill_sqe_ret (read_entry t n fl) (suspend_at AfterRead (set_type READ t)). Qed.

Lemma echo_write_spec t n fl (s : st) :
  ci_bid (co_info t) < BUFFERS_COUNT ->
  echo_write t n fl s = (queue_one (write_entry t n fl) ;; mret (suspend_at AfterWrite (set_type WRITE t))) s.
Proof.
  intros Hb. unfold echo_write. rewrite (proj2 (Z.ltb_lt _ _) Hb).
  fill_sqe_ret (write_entry t n fl) (suspend_at AfterWrite (set_type WRITE t)).
Qed.

Lemma echo_add_buffer_spec t (s : st) :
  ci_bid (co_info t) < BUFFERS_COUNT ->
  echo_add_buffer t s = (queue_one (provide_entry t) ;; mret (set_type PROV_BUF t)) s.
Proof.
  intros Hb. unfold echo_add_buffer. rewrite (proj2 (Z.ltb_lt _ _) Hb).
  fill_sqe_ret (provide_entry t) (set_type PROV_BUF t).
Qed.

Lemma co_accept_spec (s : st) :
  add_accept lfd AClientAddr AClientLen 0 s = queue_one accept_entry s.
Proof. fill_sqe accept_entry. Qed.

(** Queueing an entry succeeds when there is a vacant one. *)
Lemma queue_ret_inv {X} f (x y : X) (s s' : st) :
  (queue_one f ;; mret x) s = Ok y s' -> exists e, y = x /\ s' = push_sqe (f e) s /\ lib_get_sqe (rs_sq s) = Some e.
Proof.
  unfold mbind, M_bind, queue_one. destruct (lib_get_sqe _) as [e|]; [|done]. intros [= <- <-]. eauto.
Qed.

Lemma echo_read_inv t n fl (s : st) t' s' :
  echo_read t n fl s = Ok t' s' ->
  exists e, t' = suspend_at AfterRead (set_type READ t) /\ s' = push_sqe (read_entry t n fl e) s.
Proof. rewrite echo_read_spec. intros (e & -> & -> & _)%queue_ret_inv. eauto. Qed.

Lemma bid_checked {X} (t : task) (m : option nat -> M st X) (s : st) x s' :
  (sqe ← io_uring_get_sqe; if ci_bid (co_info t) <? BUFFERS_COUNT then m sqe else ub) s = Ok x s' ->
  ci_bid (co_info t) < BUFFERS_COUNT.
Proof. intros (sqe & s1 & _ & Hrun)%bind_inv_ok. destruct (Z.ltb_spec (ci_bid (co_info t)) BUFFERS_COUNT); done. Qed.

Lemma echo_write_inv t n fl (s : st) t' s' :
  echo_write t n fl s = Ok t' s' -> ci_bid (co_info t) < BUFFERS_COUNT /\
  exists e, t' = suspend_at AfterWrite (set_type WRITE t) /\ s' = push_sqe (write_entry t n fl e) s.
Proof.
  intros Hrun. pose proof (bid_checked _ _ _ _ _ Hrun) as Hb. rewrite echo_write_spec in Hrun by done.
  apply queue_ret_inv in Hrun as (e & -> & -> & _). eauto.
Qed.

Lemma echo_add_buffer_inv t (s : st) t' s' :
  echo_add_buffer t s = Ok t' s' -> ci_bid (co_info t) < BUFFERS_COUNT /\
  exists e, t' = set_type PROV_BUF t /\ s' = push_sqe (provide_entry t e) s.
Proof.
  intros Hrun. pose proof (bid_checked _ _ _ _ _ Hrun) as Hb. rewrite echo_add_buffer_spec in Hrun by done.
  apply queue_ret_inv in Hrun as (e & -> & -> & _). eauto.
Qed.

(** ** Coroutines of a connection *)

(** The coroutine belongs to [fd]. *)
Record belongs (fd : Z) (t : task) : Prop := Belongs {
  be_fd : co_fd t = fd;
  be_is_fd : is_fd fd;
  be_info : ci_fd (co_info t) = to_u32 fd;
  be_ok : conn_info_ok (co_info t)
}.

Lemma belongs_fd fd t : belongs fd t -> to_i32 (ci_fd (co_info t)) = fd.
Proof. intros [_ Hfd -> _]. by apply fd_roundtrip. Qed.

Lemma belongs_type fd t type : belongs fd t -> belongs fd (set_type type t).
Proof. intros [H1 H2 H3 (F1 & F2 & F3)]. split; try done. split_and!; try done. apply to_u16_range. Qed.

(** The [user_data] such a coroutine writes. *)
Lemma tag_info fd t type :
  belongs fd t ->
  conn_info_of_user_data (user_data_of_conn_info (put_type type (co_info t))) = put_type type (co_info t).
Proof. intros Hb. apply user_data_roundtrip. apply (be_ok _ _ (belongs_type _ _ type Hb)). Qed.

Lemma tag_kind fd t type :
  belongs fd t -> is_u16 type -> kind (user_data_of_conn_info (put_type type (co_info t))) = type.
Proof. intros Hb Ht. unfold kind. rewrite (tag_info _ _ _ Hb). by apply to_u16_id. Qed.

Lemma tag_owner fd t type :
  belongs fd t -> owner (user_data_of_conn_info (put_type type (co_info t))) = fd.
Proof. intros Hb. unfold owner. rewrite (tag_info _ _ _ Hb). by apply belongs_fd. Qed.

Lemma tag_awaits fd t type p :
  belongs fd t -> (type = READ /\ p = AfterRead) \/ (type = WRITE /\ p = AfterWrite /\ ci_bid (co_info t) < BUFFERS_COUNT) ->
  serves (user_data_of_conn_info (put_type type (co_info t))) = [fd] /\
  awaits (suspend_at p (set_type type t)) (user_data_of_conn_info (put_type type (co_info t))).
Proof.
  intros Hb Htp. assert (Ht : is_u16 type) by (destruct Htp as [[-> _]|[-> _]]; done).
  pose proof (tag_kind _ _ _ Hb Ht) as Hk. pose proof (tag_owner _ _ type Hb) as Ho.
  split; [unfold serves; rewrite Hk, Ho; by destruct Htp as [[-> _]|[-> _]]|].
  split; rewrite ?Ho, ?Hk; [apply (be_fd _ _ Hb)|by eapply tag_info|apply (be_ok _ _ (belongs_type _ _ type Hb))|..].
  - by destruct Htp as [[-> ->]|(-> & -> & _)].
  - intros ->. by destruct Htp as [[? _]|(_ & _ & ?)].
Qed.

Lemma awaits_belongs t u fd : fd ∈ serves u -> is_fd fd -> awaits t u -> belongs fd t.
Proof.
  intros Hs Hfd [A1 A2 A3 _ _]. unfold serves in Hs. destruct (_ || _); [|by apply elem_of_nil in Hs].
  apply list_elem_of_singleton in Hs as ->. split; [done|done| |done].
  unfold owner in *. rewrite A2. destruct A3 as (Hu & _). unfold is_u32 in Hu. unfold to_u32, to_i32.
  rewrite Zminus_mod, Zmod_mod, <- Zminus_mod. rewrite Z.add_simpl_r. by rewrite Z.mod_small.
Qed.

(** ** The steps of the coroutine keep the invariant *)

Lemma provide_other fd t e :
  belongs fd t -> ci_bid (co_info t) < BUFFERS_COUNT ->
  request (provide_entry t e) /\ serves (sqe_user_data (provide_entry t e)) = [].
Proof.
  intros Hb Hbid. pose proof (tag_kind _ _ PROV_BUF Hb ltac:(done)) as Hk. split.
  - eapply req_provide; [apply prep_op| |done]. split; [|done]. destruct (be_ok _ _ Hb) as (_ & _ & F3). apply F3.
  - unfold serves. change (sqe_user_data (provide_entry t e)) with (user_data_of_conn_info (put_type PROV_BUF (co_info t))).
    by rewrite Hk.
Qed.

Lemma accept_other e : request (accept_entry e) /\ serves (sqe_user_data (accept_entry e)) = [].
Proof.
  assert (Hk : kind (sqe_user_data (accept_entry e)) = ACCEPT).
  { change (kind (user_data_of_conn_info (mk_conn_info lfd ACCEPT 0)) = ACCEPT). unfold kind. by rewrite user_data_of_mk. }
  split; [|unfold serves; by rewrite Hk]. eapply req_accept; [simpl; by rewrite set_flags_op, prep_op|done].
Qed.

Lemma hold_echo_read s n fd held new t m t' s' :
  belongs fd t -> holding s n (fd :: held) new -> echo_read t m IOSQE_BUFFER_SELECT s = Ok t' s' ->
  holding (put_mem (<[fd := t']> (rs_mem s')) s') n held new.
Proof.
  intros Hb Hh (e & -> & ->)%echo_read_inv.
  destruct (tag_awaits fd t READ AfterRead Hb) as [Hs Ha]; [by left|].
  apply (hold_await s n fd held new (read_entry t m IOSQE_BUFFER_SELECT e)); [|done|apply (be_is_fd _ _ Hb)|done|done].
  eapply req_read; [simpl; by rewrite set_flags_op, prep_op|simpl; by rewrite set_flags_flags|done|]. by apply (tag_kind fd).
Qed.

Lemma hold_echo_write s n fd held new t m fl t' s' :
  belongs fd t -> holding s n (fd :: held) new -> echo_write t m fl s = Ok t' s' ->
  holding (put_mem (<[fd := t']> (rs_mem s')) s') n held new.
Proof.
  intros Hb Hh [Hbid (e & -> & ->)]%echo_write_inv.
  destruct (tag_awaits fd t WRITE AfterWrite Hb) as [Hs Ha]; [by right|].
  apply (hold_await s n fd held new (write_entry t m fl e)); [|done|apply (be_is_fd _ _ Hb)|done|done].
  eapply req_write; [simpl; by rewrite set_flags_op, prep_op|]. by apply (tag_kind fd).
Qed.

Lemma hold_add_buffer s n fd held new t t' s' :
  belongs fd t -> holding s n held new -> echo_add_buffer t s = Ok t' s' ->
  holding s' n held new /\ belongs fd t'.
Proof.
  intros Hb Hh [Hbid (e & -> & ->)]%echo_add_buffer_inv. destruct (provide_other _ _ e Hb Hbid) as [Hr Hs].
  split; [by apply hold_other|by apply belongs_type].
Qed.

Lemma hold_resume s n fd held new t s' :
  belongs fd t -> holding s n (fd :: held) new -> resume fd t s = Ok tt s' -> holding s' n held new.
Proof.
  intros Hb Hh (r & s1 & H1 & Hrun)%bind_inv_ok. unfold handle_echo in H1. destruct (co_point t).
  - apply bind_inv_ok in H1 as (t1 & s2 & H2 & [= <- <-]). injection Hrun as <-. by eapply hold_echo_read.
  - destruct (co_res t <=? 0).
    + apply bind_inv_ok in H1 as (t1 & s2 & H2 & H1). destruct (hold_add_buffer _ _ _ _ _ _ _ _ Hb Hh H2) as [Hh2 Hb2].
      apply bind_inv_ok in H1 as (r' & s3 & H3 & H1). apply bind_inv_ok in H1 as ([] & s4 & [= <-] & [= <- <-]).
      injection Hrun as <-. rewrite (be_fd _ _ Hb2). apply hold_erase.
      unfold shutdown in H3. pose proof (shutdown_spec (co_fd t1) SHUT_RDWR (rs_kern s2)) as Hs.
      destruct (k_shutdown _ _ _) as [ret k]. injection H3 as _ <-. destruct Hs as (? & ? & ? & ?). by apply hold_kern.
    + apply bind_inv_ok in H1 as (t1 & s2 & H2 & [= <- <-]). injection Hrun as <-. by eapply hold_echo_write.
  - apply bind_inv_ok in H1 as (t1 & s2 & H2 & H1). destruct (hold_add_buffer _ _ _ _ _ _ _ _ Hb Hh H2) as [Hh2 Hb2].
    apply bind_inv_ok in H1 as (t2 & s3 & H3 & [= <- <-]). injection Hrun as <-. by eapply hold_echo_read.
Qed.

Lemma hold_co_accept s n held new s' :
  holding s n held new -> add_accept lfd AClientAddr AClientLen 0 s = Ok tt s' -> holding s' n held new.
Proof.
  intros Hh. rewrite co_accept_spec. unfold queue_one. destruct (lib_get_sqe _) as [e|]; [|done].
  intros [= <-]. destruct (accept_other e). by apply hold_other.
Qed.

(** ** The handler *)

(** The coroutine a completion resumes, with the promise as the handler leaves
    it. *)
Definition with_result (c : cqe Z) (t : task) : task :=
  Task (co_fd t) (co_point t) (put_bid (Z.shiftr (cqe_flags c) 16) (co_info t)) (to_u64 (cqe_res c)).

Lemma belongs_result fd c t : belongs fd t -> belongs fd (with_result c t).
Proof. intros [H1 H2 H3 (F1 & F2 & F3)]. split; try done. split_and!; try done. apply to_u16_range. Qed.

(** The coroutine of a new connection. *)
Definition newborn (fd : Z) : task := Task fd AtStart (put_fd fd new_info) new_res.

Lemma belongs_newborn fd : conn_info_ok new_info -> is_fd fd -> belongs fd (newborn fd).
Proof. intros (F1 & F2 & F3) Hfd. split; try done. split_and!; try done. apply to_u32_range. Qed.

(** The handler by the kind of the completion. *)
Lemma co_handle_data s n c :
  co_inv s n -> k_cq (rs_kern s) !! n = Some c -> cqe_res c <> - ENOBUFS ->
  kind (cqe_user_data c) = READ \/ kind (cqe_user_data c) = WRITE ->
  let fd := owner (cqe_user_data c) in
  exists t, serves (cqe_user_data c) = [fd] /\ rs_mem s !! fd = Some t /\ belongs fd t /\
    awaits t (cqe_user_data c) /\
    handle c s = resume fd (if kind (cqe_user_data c) =? READ then with_result c t else t) s.
Proof.
  intros Hi Hc Hne Hk fd. pose proof (head_awaited _ _ _ Hi Hc) as Ha.
  assert (Hs : serves (cqe_user_data c) = [fd]) by (unfold serves; destruct Hk as [-> | ->]; done).
  destruct (Ha fd) as (Hfd & t & Ht & Hw); [rewrite Hs; by left|]. exists t.
  split_and!; try done; [eapply awaits_belongs; [|done|exact Hw]; rewrite Hs; by left|].
  unfold handle_cqe. cbv zeta. fold (kind (cqe_user_data c)) (owner (cqe_user_data c)). fold fd.
  rewrite (proj2 (Z.eqb_neq _ _) Hne). unfold connections_at.
  destruct Hk as [-> | ->]; simpl; mred; by rewrite Ht.
Qed.

Lemma co_handle_accept s n c :
  co_inv s n -> k_cq (rs_kern s) !! n = Some c -> cqe_res c <> - ENOBUFS -> kind (cqe_user_data c) = ACCEPT ->
  0 <= cqe_res c ->
  is_fd (cqe_res c) /\ delivered c = [cqe_res c] /\ rs_mem s !! cqe_res c = None /\
  handle c s =
    (resume (cqe_res c) (newborn (cqe_res c)) ;; add_accept lfd AClientAddr AClientLen 0)
      (put_mem (<[cqe_res c := Task (cqe_res c) AtStart new_info new_res]> (rs_mem s)) s).
Proof.
  intros Hi Hc Hne Hk Hpos.
  assert (Hd : delivered c = [cqe_res c]) by (unfold delivered; by rewrite Hk, (proj2 (Z.leb_le _ _) Hpos)).
  assert (Hfd : is_fd (cqe_res c)).
  { pose proof (co_delivered _ _ _ _ Hi) as Hf. unfold arriving in Hf. rewrite (drop_S _ _ _ Hc), bind_cons, Hd in Hf.
    by apply Forall_cons in Hf as [? _]. }
  pose proof (hold_take_next _ _ _ Hi Hc) as Hh. rewrite Hd in Hh. apply new_unknown in Hh as Hnone.
  split_and!; try done. unfold handle_cqe. cbv zeta. fold (kind (cqe_user_data c)).
  rewrite (proj2 (Z.eqb_neq _ _) Hne), Hk, (proj2 (Z.leb_le _ _) Hpos). simpl.
  unfold emplace, connections_at. mred. rewrite Hnone. simpl. by rewrite lookup_insert_eq.
Qed.

Lemma co_inv_handle s n c s' :
  conn_info_ok new_info -> co_inv s n -> k_cq (rs_kern s) !! n = Some c -> handle c s = Ok tt s' -> co_inv s' (S n).
Proof.
  intros Hnew Hi Hc Hrun. pose proof (hold_take_next _ _ _ Hi Hc) as Hh.
  assert (Hne : cqe_res c <> - ENOBUFS) by (intros E; unfold handle_cqe in Hrun; by rewrite E in Hrun).
  destruct (decide (kind (cqe_user_data c) = READ \/ kind (cqe_user_data c) = WRITE)) as [Hk|Hk].
  { destruct (co_handle_data _ _ _ Hi Hc Hne Hk) as (t & Hs & _ & Hb & _ & Heq). rewrite Heq in Hrun. rewrite Hs in Hh.
    assert (Hd : delivered c = []) by (unfold delivered; destruct Hk as [-> | ->]; done). rewrite Hd in Hh.
    eapply hold_resume; [|exact Hh|exact Hrun]. destruct (_ =? _); [by apply belongs_result|done]. }
  assert (Hs : serves (cqe_user_data c) = []).
  { unfold serves. destruct (Z.eqb_spec (kind (cqe_user_data c)) READ), (Z.eqb_spec (kind (cqe_user_data c)) WRITE); naive_solver. }
  rewrite Hs in Hh. destruct (decide (kind (cqe_user_data c) = ACCEPT /\ 0 <= cqe_res c)) as [[Ha Hpos]|Ha].
  - destruct (co_handle_accept _ _ _ Hi Hc Hne Ha Hpos) as (Hfd & Hd & Hnone & Heq). rewrite Heq in Hrun. rewrite Hd in Hh.
    apply bind_inv_ok in Hrun as ([] & s1 & H1 & H2). eapply hold_co_accept; [|exact H2].
    eapply hold_resume; [by apply belongs_newborn|by apply hold_new|exact H1].
  - assert (Hd : delivered c = []).
    { unfold delivered. destruct (Z.eqb_spec (kind (cqe_user_data c)) ACCEPT), (Z.leb_spec 0 (cqe_res c)); naive_solver. }
    rewrite Hd in Hh. unfold handle_cqe in Hrun. cbv zeta in Hrun. fold (kind (cqe_user_data c)) in Hrun.
    rewrite (proj2 (Z.eqb_neq _ _) Hne) in Hrun. destruct (_ =? PROV_BUF).
    { destruct (cqe_res c <? 0); [done|]. by injection Hrun as <-. }
    destruct (Z.eqb_spec (kind (cqe_user_data c)) ACCEPT).
    { rewrite (proj2 (Z.leb_gt 0 _)) in Hrun by naive_solver lia.
      apply bind_inv_ok in Hrun as ([] & s1 & [= <-] & H2). by eapply hold_co_accept. }
    destruct (Z.eqb_spec (kind (cqe_user_data c)) READ); [naive_solver|].
    destruct (Z.eqb_spec (kind (cqe_user_data c)) WRITE); [naive_solver|]. by injection Hrun as <-.
Qed.

(** The state in which the loop is entered. *)
Record co_entry (s : st) : Prop := CoEntry {
  ce_sq : exists e, rs_sq s = [accept_entry e];
  ce_inflight : k_inflight (rs_kern s) = [];
  ce_cq : k_cq (rs_kern s) = [];
  ce_conns : k_conns (rs_kern s) = [];
  ce_mem : rs_mem s = ∅;
  ce_group : Forall (fun bid => 0 <= bid < BUFFERS_COUNT) (k_group (rs_kern s) group_id)
}.

Lemma co_entry_inv s : co_entry s -> co_inv s 0.
Proof.
  intros [[e Hsq] Hi Hc Hn Hm Hg]. destruct (accept_other e) as [Hr Hs].
  assert (Hsv : served s 0 = []).
  { unfold served, outstanding, requests. rewrite Hsq, Hi, Hc.
    change (serves (sqe_user_data (accept_entry e)) ++ [] = []). by rewrite Hs. }
  split; rewrite ?Hsv; unfold arriving, outstanding, requests; rewrite ?Hsq, ?Hi, ?Hc, ?Hn, ?Hm; try done.
  - by apply Forall_singleton.
  - apply Forall_singleton. intros fd. rewrite Hs. by intros ?%elem_of_nil.
  - intros fd. rewrite lookup_empty. split; [by intros []|]. by intros ?%elem_of_nil.
  - constructor.
Qed.

Lemma co_reachable_inv s0 x :
  conn_info_ok new_info -> co_entry s0 -> co_reachable new_info new_res lfd s0 x -> holds co_inv x.
Proof.
  intros Hnew He Hr. eapply loop_invariant; [..|exact Hr].
  - intros s n k'. apply co_inv_post.
  - intros s s' Hi (r & s1 & H1 & [= <-])%bind_inv_ok. by eapply co_inv_submit.
  - intros s n c s' Hi Hc Hrun. by eapply co_inv_handle.
  - intros s n s' Hi _ [= <-]. by apply hold_consume.
  - by apply co_entry_inv.
Qed.

(** ** Totality *)

Lemma queue_ret_ok {X} f (x : X) (s : st) :
  (length (rs_sq s) < entries)%nat -> exists e, (queue_one f ;; mret x) s = Ok x (push_sqe (f e) s).
Proof. intros Hr. destruct (get_sqe_room _ Hr) as [e He]. exists e. mred. unfold queue_one. by rewrite He. Qed.

Lemma length_push e (s : st) : length (rs_sq (push_sqe e s)) = S (length (rs_sq s)).
Proof. simpl. rewrite length_app. simpl. lia. Qed.

(** A coroutine that is resumed comes to its next suspension point, or to its
    end, if two entries are vacant and its buffer exists; the first time one
    entry is enough. *)
Lemma resume_total fd t (s : st) :
  (co_point t = AtStart \/ ci_bid (co_info t) < BUFFERS_COUNT) -> (length (rs_sq s) + 2 <= entries)%nat ->
  exists s', resume fd t s = Ok tt s' /\ (co_point t = AtStart -> length (rs_sq s') = S (length (rs_sq s))).
Proof.
  intros Hbid Hroom. unfold resume, handle_echo. destruct (co_point t) eqn:Hp.
  - destruct (queue_ret_ok (read_entry t MAX_MESSAGE_LEN IOSQE_BUFFER_SELECT)
      (suspend_at AfterRead (set_type READ t)) s) as [e He]; [lia|]. rewrite <- echo_read_spec in He.
    mred. rewrite He. eexists. split; [done|]. intros _. apply length_push.
  - destruct Hbid as [?|Hbid]; [done|]. destruct (co_res t <=? 0).
    + destruct (queue_ret_ok (provide_entry t) (set_type PROV_BUF t) s) as [e He]; [lia|].
      rewrite <- echo_add_buffer_spec in He by done. mred. rewrite He. unfold shutdown.
      destruct (k_shutdown _ _ _) as [r k]. by eexists.
    + destruct (queue_ret_ok (write_entry t (co_res t) 0) (suspend_at AfterWrite (set_type WRITE t)) s) as [e He]; [lia|].
      rewrite <- echo_write_spec in He by done. mred. rewrite He. by eexists.
  - destruct Hbid as [?|Hbid]; [done|].
    destruct (queue_ret_ok (provide_entry t) (set_type PROV_BUF t) s) as [e He]; [lia|].
    rewrite <- echo_add_buffer_spec in He by done. mred. rewrite He.
    destruct (queue_ret_ok (read_entry (set_type PROV_BUF t) MAX_MESSAGE_LEN IOSQE_BUFFER_SELECT)
      (suspend_at AfterRead (set_type READ (set_type PROV_BUF t))) (push_sqe (provide_entry t e) s)) as [e' He'];
      [rewrite length_push; lia|].
    rewrite <- echo_read_spec in He'. rewrite He'. by eexists.
Qed.

(** ** Theorems *)

(** A running system and the number of completions handled. *)
Definition at_state (x : sys address Z K connections_map) (s : st) (n : nat) : Prop :=
  (x = AtTop s /\ n = 0%nat) \/ x = Draining s n.

Lemma at_state_inv s0 x s n :
  conn_info_ok new_info -> co_entry s0 -> co_reachable new_info new_res lfd s0 x -> at_state x s n -> co_inv s n.
Proof.
  intros Hnew He Hr Hs. pose proof (co_reachable_inv _ _ Hnew He Hr) as Hi. by destruct Hs as [[-> ->]| ->].
Qed.

(** C32: coroutines and requests match.  At every moment of every run the live
    coroutines are those of the connections with an outstanding receive or
    send; no connection has two; and the coroutine of an outstanding request is
    suspended where it waits for a request of that kind, with a promise that
    equals what the completion will carry. *)
Theorem co_coroutines_match s0 x s n :
  conn_info_ok new_info -> co_entry s0 -> co_reachable new_info new_res lfd s0 x -> at_state x s n ->
  NoDup (served s n) /\ (forall fd, is_Some (rs_mem s !! fd) <-> fd ∈ served s n) /\
  (forall u fd, u ∈ outstanding s n -> fd ∈ serves u -> exists t, rs_mem s !! fd = Some t /\ awaits t u).
Proof.
  intros Hnew He Hr Hs. destruct (at_state_inv _ _ _ _ Hnew He Hr Hs) as [_ _ _ H3 H4 H5 H6 _ _]. split_and!.
  - eapply NoDup_of_submseteq in H6; [|done]. by apply NoDup_app in H6 as [? _].
  - intros fd. by rewrite H4, app_nil_r.
  - intros u fd Hu Hfd. eapply Forall_forall in H3; [|exact Hu]. by destruct (H3 fd Hfd) as [_ ?].
Qed.

(** C34: the handler is safe.  In every reachable state with two vacant entries
    in the submission queue, a completion is handled without undefined
    behaviour (every buffer number it is given is one of [bufs]) and without an
    exception from [connections.at]; the process ends only where [main] says
    so. *)
Theorem co_handler_safe s0 s n c :
  conn_info_ok new_info -> co_entry s0 -> co_reachable new_info new_res lfd s0 (Draining s n) ->
  k_cq (rs_kern s) !! n = Some c -> (length (rs_sq s) + 2 <= entries)%nat ->
  match handle c s with
  | Ok _ _ => True
  | Exit code _ => code = 1 /\ (cqe_res c = - ENOBUFS \/ (kind (cqe_user_data c) = PROV_BUF /\ cqe_res c < 0))
  | Ub _ => False
  end.
Proof.
  intros Hnew He Hr Hc Hroom. pose proof (co_reachable_inv _ _ Hnew He Hr) as Hi. simpl in Hi.
  destruct (decide (cqe_res c = - ENOBUFS)) as [Hne|Hne]; [unfold handle_cqe; cbv zeta; rewrite Hne, Z.eqb_refl; simpl; by auto|].
  destruct (decide (kind (cqe_user_data c) = READ \/ kind (cqe_user_data c) = WRITE)) as [Hk|Hk].
  { destruct (co_handle_data _ _ _ Hi Hc Hne Hk) as (t & _ & _ & _ & Ha & ->).
    destruct (resume_total (owner (cqe_user_data c)) (if kind (cqe_user_data c) =? READ then with_result c t else t) s)
      as (s' & -> & _); [right|done|done].
    destruct (Z.eqb_spec (kind (cqe_user_data c)) READ) as [Hk'|Hk']; [by apply (co_head_answer _ _ _ Hi Hc)|].
    apply (aw_bid _ _ Ha). naive_solver. }
  destruct (decide (kind (cqe_user_data c) = ACCEPT /\ 0 <= cqe_res c)) as [[Ha Hpos]|Ha].
  { destruct (co_handle_accept _ _ _ Hi Hc Hne Ha Hpos) as (_ & _ & _ & ->). mred.
    destruct (resume_total (cqe_res c) (newborn (cqe_res c)) (put_mem (<[cqe_res c := Task (cqe_res c) AtStart new_info new_res]> (rs_mem s)) s))
      as (s' & -> & Hl); [by left|done|]. specialize (Hl eq_refl). simpl in Hl.
    rewrite co_accept_spec. unfold queue_one. destruct (get_sqe_room (rs_sq s')) as [e ->]; [lia|done]. }
  unfold handle_cqe. cbv zeta. fold (kind (cqe_user_data c)). rewrite (proj2 (Z.eqb_neq _ _) Hne).
  destruct (Z.eqb_spec (kind (cqe_user_data c)) PROV_BUF). { destruct (Z.ltb_spec (cqe_res c) 0); simpl; auto. }
  destruct (Z.eqb_spec (kind (cqe_user_data c)) ACCEPT).
  { rewrite (proj2 (Z.leb_gt 0 _)) by naive_solver lia. mred. simpl. rewrite co_accept_spec. unfold queue_one.
    destruct (get_sqe_room (rs_sq s)) as [e' ->]; [lia|done]. }
  destruct (Z.eqb_spec (kind (cqe_user_data c)) READ); [naive_solver|].
  destruct (Z.eqb_spec (kind (cqe_user_data c)) WRITE); [naive_solver|done].
Qed.

(** C35: a failed receive is answered with a huge send.  [size_r] is a [size_t],
    so the test [size_r <= 0] never sees a negative result: the coroutine asks
    to send [2^64 + res] bytes, of which the 32 bits of the entry's length keep
    [2^32 + res], starting in the buffer the completion seems to report, instead
    of giving up the connection. *)
Theorem co_failed_receive_sends s0 s n c s' :
  conn_info_ok new_info -> co_entry s0 -> co_reachable new_info new_res lfd s0 (Draining s n) ->
  k_cq (rs_kern s) !! n = Some c -> kind (cqe_user_data c) = READ -> cqe_res c < 0 -> handle c s = Ok tt s' ->
  exists e, rs_sq s' = rs_sq s ++ [e] /\
    sqe_op e = OpSend (owner (cqe_user_data c)) (ABufs (to_u16 (Z.shiftr (cqe_flags c) 16))) (2 ^ 32 + cqe_res c) 0.
Proof.
  intros Hnew He Hr Hc Hk Hneg Hrun. pose proof (co_reachable_inv _ _ Hnew He Hr) as Hi. simpl in Hi.
  assert (Hne : cqe_res c <> - ENOBUFS) by (intros E; unfold handle_cqe in Hrun; by rewrite E in Hrun).
  assert (H32 : is_i32 (cqe_res c)).
  { apply (co_head_answer _ _ _ Hi Hc). }
  assert (Hres : to_u64 (cqe_res c) = 2 ^ 64 + cqe_res c).
  { unfold is_i32 in H32. unfold to_u64. rewrite <- (Z.mod_add _ 1) by lia. rewrite Z.mod_small; lia. }
  assert (Hlen : to_u32 (to_u64 (cqe_res c)) = 2 ^ 32 + cqe_res c).
  { rewrite Hres. unfold is_i32 in H32. symmetry. apply (Z.mod_unique _ _ (2 ^ 32 - 1)); lia. }
  destruct (co_handle_data _ _ _ Hi Hc Hne (or_introl Hk)) as (t & _ & _ & Hb & Ha & Heq). rewrite Heq, Hk in Hrun.
  simpl in Hrun. apply bind_inv_ok in Hrun as (r & s1 & H1 & Hrun). unfold handle_echo in H1.
  simpl in H1. rewrite (aw_point _ _ Ha), Hk in H1. simpl in H1.
  rewrite (proj2 (Z.leb_gt _ _)) in H1 by (rewrite Hres; unfold is_i32 in H32; lia).
  apply bind_inv_ok in H1 as (t1 & s2 & [_ (e & -> & ->)]%echo_write_inv & [= <- <-]). injection Hrun as <-.
  eexists. split; [done|]. simpl. rewrite set_flags_op, prep_op, Hlen. f_equal. by apply (belongs_fd _ _ Hb).
Qed.

End co_server.
