(* ===== verification/CoEquivalence.v ===== *)
(** * The coroutine server against the provided-buffers server in C

    Both programs serve the same protocol with the same buffer group.  They
    differ in what they put into [user_data] (the coroutine keeps the number of
    its last buffer there), in the length they give to a receive, and in what
    they do when a connection ends.  As long as receives bring data, they ask
    the kernel for the same operations, in the same order. *)

From S2P Require Import Prelude Uring ConnInfo EventLoop RefKernel Setup EchoServer CoServer CoServerInv CoServerTheorems.

(** The [user_data] the C server has where the coroutine server has [u]: the
    type and the descriptor, the buffer number only for a send, neither for the
    return of a buffer. *)
Definition forget (u : Z) : Z :=
  let i := conn_info_of_user_data u in
  user_data_of_conn_info
    (if kind u =? PROV_BUF then ConnInfo 0 PROV_BUF 0
     else if kind u =? WRITE then ConnInfo (ci_fd i) WRITE (ci_bid i)
     else ConnInfo (ci_fd i) (kind u) 0).

(** The completion the C server gets for the same event. *)
Definition forget_cqe (c : cqe Z) : cqe Z := Cqe (forget (cqe_user_data c)) (cqe_res c) (cqe_flags c).

(** The same operation, of which the C server leaves the length of a receive to
    the buffer that is selected. *)
Definition same_op (op op' : io_op address) : Prop :=
  match op with
  | OpRecv fd b n fl => n = MAX_MESSAGE_LEN /\ op' = OpRecv fd b 0 fl
  | _ => op' = op
  end.

(** The same request: operation, descriptor, buffer, length (but for a receive)
    and flags, the buffer group where a buffer is selected, and [user_data] with
    the same type, and the descriptor and buffer that the C server keeps there. *)
Record same_request (e e' : sqe address Z) : Prop := SameRequest {
  sr_op : same_op (sqe_op e) (sqe_op e');
  sr_flags : sqe_flags e' = sqe_flags e;
  sr_group : has_flag (sqe_flags e) IOSQE_BUFFER_SELECT = true -> sqe_buf_group e' = sqe_buf_group e;
  sr_user_data : sqe_user_data e' = forget (sqe_user_data e)
}.

Section equivalence.
Context {K K' : Type} `{!Liburing address Z} `{!Kernel address Z K} `{!Kernel address Z K'} `{!KernelOk address Z K}.
Context {entries : nat} `{!LiburingOk address Z entries}.
Context (new_info : conn_info) (new_res : Z) (lfd : Z).

Local Abbreviation st := (rstate address Z K connections_map).
Local Abbreviation stc := (rstate address Z K' unit).
Local Abbreviation handle := (handle_cqe new_info new_res lfd).
Local Abbreviation handle_c := (EchoServer.handle_cqe lfd).

(** ** Entries *)

Lemma forget_tag fd t type :
  belongs fd t -> is_u16 type -> type <> PROV_BUF ->
  forget (user_data_of_conn_info (put_type type (co_info t))) =
  user_data_of_conn_info (mk_conn_info fd type (if type =? WRITE then ci_bid (co_info t) else 0)).
Proof.
  intros Hb Ht Hne. unfold forget. rewrite (tag_kind _ _ _ Hb Ht), (tag_info _ _ _ Hb).
  rewrite (proj2 (Z.eqb_neq _ _) Hne). destruct Hb as [_ _ Hf (_ & _ & F3)]. unfold mk_conn_info. f_equal.
  rewrite (to_u16_id type Ht). destruct (Z.eqb_spec type WRITE) as [->|]; simpl; rewrite Hf, ?to_u16_id; done.
Qed.

Lemma same_read fd t fl e e' :
  belongs fd t -> same_request (read_entry t MAX_MESSAGE_LEN fl e) (read_sqe fd group_id fl e').
Proof.
  intros Hb. split; simpl; rewrite ?set_flags_op, ?prep_op, ?set_flags_flags; simpl.
  - by rewrite (belongs_fd _ _ Hb).
  - done.
  - done.
  - symmetry. by apply (forget_tag fd t READ Hb).
Qed.

Lemma same_write fd t n e e' :
  belongs fd t -> is_u32 n -> same_request (write_entry t n 0 e) (write_sqe fd (ci_bid (co_info t)) n 0 e').
Proof.
  intros Hb Hn. split; simpl; rewrite ?set_flags_op, ?prep_op, ?set_flags_flags; simpl.
  - by rewrite (belongs_fd _ _ Hb), to_u32_id.
  - done.
  - done.
  - symmetry. by apply (forget_tag fd t WRITE Hb).
Qed.

Lemma same_provide fd t e e' :
  belongs fd t -> same_request (provide_entry t e) (provide_sqe (ci_bid (co_info t)) group_id e').
Proof.
  intros Hb. split; simpl; rewrite ?prep_op, ?prep_flags; [done..|].
  change (user_data_of_conn_info (ConnInfo 0 PROV_BUF 0) = forget (user_data_of_conn_info (put_type PROV_BUF (co_info t)))).
  unfold forget. by rewrite (tag_kind _ _ PROV_BUF Hb).
Qed.

Lemma same_accept e e' : same_request (accept_entry lfd e) (accept_sqe lfd AClientAddr AClientLen 0 e').
Proof.
  split; simpl; rewrite ?set_flags_op, ?prep_op, ?set_flags_flags; [done..|].
  change (user_data_of_conn_info (mk_conn_info lfd ACCEPT 0) = forget (user_data_of_conn_info (mk_conn_info lfd ACCEPT 0))).
  unfold forget, kind. by rewrite user_data_of_mk.
Qed.

(** ** Queues *)

Lemma same_queue f g (s : st) (t : stc) e :
  lib_get_sqe (rs_sq s) = Some e -> Forall2 same_request (rs_sq s) (rs_sq t) ->
  (forall e1 e2, same_request (f e1) (g e2)) ->
  exists e', queue_one g t = Ok tt (push_sqe (g e') t) /\
    Forall2 same_request (rs_sq (push_sqe (f e) s)) (rs_sq (push_sqe (g e') t)).
Proof.
  intros He Hq Hfg. assert (Hroom : (length (rs_sq s) < entries)%nat).
  { destruct (decide (length (rs_sq s) < entries)%nat); [done|]. rewrite get_sqe_full in He by lia. done. }
  rewrite (Forall2_length _ _ _ Hq) in Hroom. destruct (get_sqe_room _ Hroom) as [e' He']. exists e'.
  unfold queue_one. rewrite He'. split; [done|]. simpl. apply Forall2_app; [done|]. by constructor.
Qed.

(** A builder of each side, seen through its specification. *)
Lemma same_step {X} (x y : X) f g (s s' : st) (t : stc) :
  (queue_one f ;; mret x) s = Ok y s' -> Forall2 same_request (rs_sq s) (rs_sq t) ->
  (forall e1 e2, same_request (f e1) (g e2)) ->
  y = x /\ (exists e, s' = push_sqe (f e) s) /\
  exists t', queue_one g t = Ok tt t' /\ Forall2 same_request (rs_sq s') (rs_sq t').
Proof.
  intros (e & -> & -> & He)%queue_ret_inv Hq Hfg. destruct (same_queue f g s t e He Hq Hfg) as (e' & H1 & H2). eauto 6.
Qed.

(** ** The handlers *)

Lemma c_handle_read fd c (t : stc) :
  is_fd fd -> cqe_user_data c = user_data_of_conn_info (mk_conn_info fd READ 0) -> 0 < cqe_res c ->
  to_u16 (Z.shiftr (cqe_flags c) 16) < BUFFERS_COUNT ->
  handle_c c t = queue_one (write_sqe fd (to_u16 (Z.shiftr (cqe_flags c) 16)) (cqe_res c) 0) t.
Proof.
  intros Hfd Hu Hr Hb. unfold EchoServer.handle_cqe. rewrite Hu, user_data_of_mk.
  rewrite (proj2 (Z.eqb_neq _ _)) by (unfold ENOBUFS; lia).
  decode_type. rewrite (proj2 (Z.leb_gt _ _) Hr), fd_roundtrip by done.
  assert (H0 : 0 <= to_u16 (Z.shiftr (cqe_flags c) 16)) by apply to_u16_range.
  rewrite <- (add_socket_write_spec fd _ (cqe_res c) 0 t) by done. unfold add_socket_write.
  by rewrite (to_u16_id (to_u16 _)) by apply to_u16_range.
Qed.

(** What is left of a completion's [user_data] for a coroutine of [fd]. *)
Lemma forget_awaited fd t u :
  belongs fd t -> awaits t u -> kind u = READ \/ kind u = WRITE ->
  forget u = user_data_of_conn_info (mk_conn_info fd (kind u) (if kind u =? WRITE then ci_bid (co_info t) else 0)).
Proof.
  intros [_ _ Hf (_ & _ & F3)] [_ Hi _ _ _] Hk. unfold forget. rewrite Hi.
  destruct Hk as [-> | ->]; simpl; unfold mk_conn_info; rewrite Hf; [done|]. by rewrite (to_u16_id _ F3).
Qed.

Lemma same_data (s : st) n c (s' : st) (t : stc) :
  co_inv s n -> k_cq (rs_kern s) !! n = Some c -> cqe_res c <> - ENOBUFS ->
  kind (cqe_user_data c) = READ \/ kind (cqe_user_data c) = WRITE ->
  (kind (cqe_user_data c) = READ -> 0 < cqe_res c) ->
  Forall2 same_request (rs_sq s) (rs_sq t) -> handle c s = Ok tt s' ->
  exists t', handle_c (forget_cqe c) t = Ok tt t' /\ Forall2 same_request (rs_sq s') (rs_sq t').
Proof.
  intros Hi Hc Hne Hk Hpos Hq Hrun. pose proof (co_head_answer _ _ _ Hi Hc) as [H32 _].
  destruct (co_handle_data new_info new_res lfd _ _ _ Hi Hc Hne Hk) as (tk & _ & _ & Hb & Ha & Heq). rewrite Heq in Hrun.
  pose proof (forget_awaited _ _ _ Hb Ha Hk) as Hu. pose proof (aw_point _ _ Ha) as Hp.
  apply bind_inv_ok in Hrun as (r & s1 & H1 & Hrun). unfold handle_echo in H1.
  destruct Hk as [Hk|Hk]; rewrite Hk in Hp, H1, Hu, Hpos; cbn [Z.eqb READ WRITE Pos.eqb] in Hp, H1, Hu.
  - change (co_point (with_result c tk)) with (co_point tk) in H1. rewrite Hp in H1.
    specialize (Hpos eq_refl). cbn [with_result co_res] in H1.
    unfold to_u64 in H1. rewrite Z.mod_small in H1 by (unfold is_i32 in H32; lia).
    assert (Hn : is_u32 (cqe_res c)) by (unfold is_i32 in H32; unfold is_u32; lia).
    rewrite (proj2 (Z.leb_gt _ _) Hpos) in H1. apply bind_inv_ok in H1 as (t1 & s2 & H2 & [= <- <-]). injection Hrun as <-.
    pose proof (belongs_result _ c _ Hb) as Hb'. pose proof (proj1 (echo_write_inv _ _ _ _ _ _ H2)) as Hbid.
    rewrite echo_write_spec in H2 by done.
    destruct (same_step _ _ _ _ _ _ t H2 Hq (fun e1 e2 => same_write _ _ _ e1 e2 Hb' Hn)) as (_ & _ & t' & Ht & Hq').
    exists t'. split; [|exact Hq']. by rewrite c_handle_read with (fd := owner (cqe_user_data c)); [| apply (be_is_fd _ _ Hb)|..].
  - rewrite Hp in H1. apply bind_inv_ok in H1 as (t1 & s2 & H2 & H1). pose proof (proj1 (echo_add_buffer_inv _ _ _ _ H2)) as Hbid.
    rewrite echo_add_buffer_spec in H2 by done.
    destruct (same_step _ _ _ _ _ _ t H2 Hq (fun e1 e2 => same_provide _ _ e1 e2 Hb)) as (-> & _ & t2 & Ht2 & Hq2).
    apply bind_inv_ok in H1 as (t3 & s3 & H3 & [= <- <-]). injection Hrun as <-. rewrite echo_read_spec in H3.
    destruct (same_step _ _ _ _ _ _ t2 H3 Hq2 (fun e1 e2 => same_read _ _ _ e1 e2 (belongs_type _ _ PROV_BUF Hb)))
      as (_ & _ & t' & Ht & Hq').
    exists t'. split; [|exact Hq']. destruct (be_ok _ _ Hb) as (_ & _ & F3).
    rewrite (handle_write lfd (owner (cqe_user_data c)) (ci_bid (co_info tk))); [|apply (be_is_fd _ _ Hb)|split; [apply F3|done]|done|done].
    by rewrite (bind_ok _ _ _ _ _ Ht2).
Qed.

(** The accept is queued again. *)
Lemma same_reaccept (s s' : st) (t : stc) :
  CoServer.add_accept lfd AClientAddr AClientLen 0 s = Ok tt s' -> Forall2 same_request (rs_sq s) (rs_sq t) ->
  exists t', queue_one (accept_sqe lfd AClientAddr AClientLen 0) t = Ok tt t' /\ Forall2 same_request (rs_sq s') (rs_sq t').
Proof.
  rewrite co_accept_spec. unfold queue_one at 1. destruct (lib_get_sqe (rs_sq s)) as [e|] eqn:He; [|done].
  intros [= <-] Hq. destruct (same_queue _ _ s t e He Hq same_accept) as (e' & H1 & H2). eauto.
Qed.

Lemma same_accepted (s : st) n c (s' : st) (t : stc) :
  conn_info_ok new_info -> co_inv s n -> k_cq (rs_kern s) !! n = Some c -> cqe_res c <> - ENOBUFS ->
  kind (cqe_user_data c) = ACCEPT -> Forall2 same_request (rs_sq s) (rs_sq t) -> handle c s = Ok tt s' ->
  exists t', handle_c (forget_cqe c) t = Ok tt t' /\ Forall2 same_request (rs_sq s') (rs_sq t').
Proof.
  intros Hnew Hi Hc Hne Hk Hq Hrun. set (fd := ci_fd (conn_info_of_user_data (cqe_user_data c))).
  assert (Hu : cqe_user_data (forget_cqe c) = user_data_of_conn_info (mk_conn_info fd ACCEPT 0)).
  { cbn [forget_cqe cqe_user_data]. unfold forget. rewrite Hk. cbn [Z.eqb ACCEPT PROV_BUF WRITE].
    unfold mk_conn_info. rewrite to_u32_id; [done|]. apply conn_info_of_user_data_ok. }
  rewrite (handle_accept _ _ _ _ Hu) by done. cbn [forget_cqe cqe_res].
  destruct (Z.leb_spec 0 (cqe_res c)) as [Hpos|Hneg].
  - destruct (co_handle_accept new_info new_res lfd _ _ _ Hi Hc Hne Hk Hpos) as (Hfd & _ & _ & Heq). rewrite Heq in Hrun.
    apply bind_inv_ok in Hrun as ([] & s1 & H1 & H2). apply bind_inv_ok in H1 as (r & s3 & H3 & H1).
    apply bind_inv_ok in H3 as (t1 & s4 & H3 & [= <- <-]). injection H1 as <-. rewrite echo_read_spec in H3.
    pose proof (belongs_newborn new_info new_res _ Hnew Hfd) as Hb.
    destruct (same_step _ _ _ _ _ _ t H3 Hq (fun e1 e2 => same_read _ _ _ e1 e2 Hb)) as (_ & _ & t1' & Ht1 & Hq1).
    rewrite (bind_ok _ _ _ _ _ Ht1). by eapply same_reaccept.
  - unfold handle_cqe in Hrun. cbv zeta in Hrun. fold (kind (cqe_user_data c)) in Hrun.
    rewrite (proj2 (Z.eqb_neq _ _) Hne), Hk, (proj2 (Z.leb_gt _ _) Hneg) in Hrun. cbn [Z.eqb ACCEPT PROV_BUF] in Hrun.
    apply bind_inv_ok in Hrun as ([] & s1 & [= <-] & H2). mred. by eapply same_reaccept.
Qed.

Lemma same_handle (s : st) n c (s' : st) (t : stc) :
  conn_info_ok new_info -> co_inv s n -> k_cq (rs_kern s) !! n = Some c ->
  (kind (cqe_user_data c) = READ -> 0 < cqe_res c) ->
  Forall2 same_request (rs_sq s) (rs_sq t) -> handle c s = Ok tt s' ->
  exists t', handle_c (forget_cqe c) t = Ok tt t' /\ Forall2 same_request (rs_sq s') (rs_sq t').
Proof.
  intros Hnew Hi Hc Hpos Hq Hrun.
  assert (Hne : cqe_res c <> - ENOBUFS) by (intros E; unfold handle_cqe in Hrun; by rewrite E in Hrun).
  pose proof (co_head_answer _ _ _ Hi Hc) as (_ & Hkn & _).
  destruct Hkn as [Hk|[Hk|[Hk|Hk]]]; [by eapply same_accepted|eapply same_data; eauto..|].
  assert (Hu : cqe_user_data (forget_cqe c) = user_data_of_conn_info (mk_conn_info 0 PROV_BUF 0)).
  { cbn [forget_cqe cqe_user_data]. unfold forget. by rewrite Hk. }
  rewrite (handle_prov_buf _ _ _ Hu). unfold handle_cqe in Hrun. cbv zeta in Hrun. fold (kind (cqe_user_data c)) in Hrun.
  rewrite (proj2 (Z.eqb_neq _ _) Hne), Hk in Hrun. cbn [Z.eqb PROV_BUF Pos.eqb forget_cqe cqe_res] in *.
  destruct (cqe_res c <? 0); [done|]. injection Hrun as <-. eauto.
Qed.

(** ** Batches *)

(** The handler does not consume completions. *)
#[local] Hint Extern 1 (preserving _ (modify _)) => solve [by intros ? ? ? [= _ <-]] : frame.
#[local] Hint Extern 1 (preserving _ get) => solve [by intros ? ? ? [= _ <-]] : frame.

Lemma echo_read_cq t n fl : preserving cq_of (echo_read (K := K) t n fl).
Proof. unfold echo_read, io_uring_prep, io_uring_sqe_set_flags, set_user_data. auto 20 with frame. Qed.

Lemma echo_write_cq t n fl : preserving cq_of (echo_write (K := K) t n fl).
Proof. unfold echo_write, io_uring_prep, io_uring_sqe_set_flags, set_user_data. auto 20 with frame. Qed.

Lemma echo_add_buffer_cq t : preserving cq_of (echo_add_buffer (K := K) t).
Proof. unfold echo_add_buffer, io_uring_prep, io_uring_sqe_set_flags, set_user_data. auto 20 with frame. Qed.

Lemma resume_cq fd t : preserving cq_of (resume (K := K) fd t).
Proof.
  pose proof echo_read_cq. pose proof echo_write_cq. pose proof echo_add_buffer_cq.
  assert (forall fd how, preserving (cq_of (Mem := connections_map) (K := K)) (shutdown fd how)) by (intros; apply shutdown_cq).
  unfold resume, handle_echo. apply preserving_bind; [destruct (co_point t); auto 20 with frame|].
  intros [t'|]; auto with frame.
Qed.

Lemma connections_at_cq fd : preserving cq_of (connections_at (K := K) fd).
Proof. apply preserving_bind; [auto with frame|]. intros s. destruct (rs_mem s !! fd); auto with frame. Qed.

Lemma emplace_cq fd : preserving cq_of (emplace (K := K) new_info new_res fd).
Proof. intros s a s' [= _ <-]. by destruct (rs_mem s !! fd). Qed.

Lemma co_handle_cq c : preserving (cq_of (K := K)) (handle c).
Proof.
  pose proof resume_cq. pose proof connections_at_cq. pose proof emplace_cq.
  unfold handle_cqe, CoServer.add_accept, io_uring_prep, io_uring_sqe_set_flags, set_user_data. cbv zeta.
  auto 20 with frame.
Qed.

(** C33: the two servers are equivalent while connections last.  Take any
    reachable state of the coroutine server, all completions it has still to
    handle, none of them a receive without data, and a C server that has queued
    the same requests.  If the coroutines handle them, the C server handles the
    same events, returns as well, and again both have queued the same requests
    in the same order: operation, descriptor, buffer, length, flags, buffer
    group and type are equal, except that the coroutine asks for 2048 bytes
    where the C server asks for 0, and that the coroutine's [user_data] also
    carries the buffer it used last. *)
Theorem co_equivalent_to_c s0 (s : st) n (s' : st) (t : stc) :
  conn_info_ok new_info -> co_entry lfd s0 -> co_reachable new_info new_res lfd s0 (Draining s n) ->
  Forall (fun c => kind (cqe_user_data c) = READ -> 0 < cqe_res c) (drop n (k_cq (rs_kern s))) ->
  Forall2 same_request (rs_sq s) (rs_sq t) ->
  for_each handle (drop n (k_cq (rs_kern s))) s = Ok tt s' ->
  exists t', for_each handle_c (forget_cqe <$> drop n (k_cq (rs_kern s))) t = Ok tt t' /\
    Forall2 same_request (rs_sq s') (rs_sq t').
Proof.
  intros Hnew He Hr. pose proof (co_reachable_inv new_info new_res lfd _ _ Hnew He Hr) as Hi. simpl in Hi. clear Hr.
  remember (drop n (k_cq (rs_kern s))) as cqes eqn:Hd. revert s n t Hi Hd.
  induction cqes as [|c cqes IH]; intros s n t Hi Hd Hall Hq Hrun; [injection Hrun as <-; by exists t|].
  apply Forall_cons in Hall as [Hpos Hall]. apply bind_inv_ok in Hrun as ([] & s1 & H1 & Hrun).
  assert (Hc : k_cq (rs_kern s) !! n = Some c) by (rewrite <- (Nat.add_0_r n), <- lookup_drop, <- Hd; done).
  destruct (same_handle _ _ _ _ t Hnew Hi Hc Hpos Hq H1) as (t1 & Ht1 & Hq1).
  destruct (IH s1 (S n) t1) as (t' & Ht' & Hq'); [by eapply co_inv_handle| |done|done|done|].
  { pose proof (co_handle_cq _ _ _ _ H1) as Hcq. unfold cq_of in Hcq. rewrite Hcq.
    rewrite (drop_S _ _ _ Hc) in Hd. by injection Hd. }
  exists t'. split; [|exact Hq']. rewrite fmap_cons. cbn [for_each]. by rewrite (bind_ok _ _ _ _ _ Ht1).
Qed.

End equivalence.
