(* ===== verification/CoServerMain.v ===== *)
(** * Start-up of the coroutine echo server, and concrete runs *)

From stdpp Require Import strings.
From S2P Require Import Prelude Uring ConnInfo EventLoop RefKernel Script Libc Tables Setup Options Startup EchoServer.
From S2P Require Import CoServer CoServerInv CoServerTheorems CoEquivalence.

Section co_main.
Context {K : Type} `{!Liburing address Z} `{!Kernel address Z K} `{!Setup K}.
Context {entries : nat} `{!LiburingOk address Z entries} `{!KernelOk address Z K} `{!SetupOk address Z K}.

Local Abbreviation st := (rstate address Z K connections_map).
Local Abbreviation map_of := (mem_of (A := address) (U := Z) (K := K) (fun m : connections_map => m)).

Lemma co_socket_frame port :
  preserving view_of (CoServer.setup_socket (K := K) port) /\ preserving map_of (CoServer.setup_socket port) /\
  preserving (group_of group_id) (CoServer.setup_socket (K := K) port).
Proof. unfold CoServer.setup_socket, socket, setsockopt, bind, listen. split_and!; auto 20 with frame. Qed.

Lemma co_ring_frame :
  preserving view_of (CoServer.setup_ring (K := K)) /\ preserving map_of CoServer.setup_ring /\
  preserving (group_of group_id) (CoServer.setup_ring (K := K)).
Proof.
  split_and!; intros s [] s' (r & s1 & H1 & Hrun)%bind_inv_ok; (destruct (r.1 <? 0); [done|]); (destruct (negb _); [done|]);
    apply bind_inv_ok in Hrun as (probe & s2 & H2 & Hrun); (destruct probe as [supported|]; [|done]);
    (destruct (supported _); [|done]); injection Hrun as <-.
  - rewrite (syscall_view_of _ probe_frame _ _ _ H2). apply (syscall_view_of _ (queue_init_frame _ _) _ _ _ H1).
  - rewrite (syscall_mem_of _ _ _ _ _ H2). apply (syscall_mem_of _ _ _ _ _ H1).
  - rewrite (syscall_group_of _ _ probe_frame _ _ _ H2). apply (syscall_group_of _ _ (queue_init_frame _ _) _ _ _ H1).
Qed.

(** When start-up returns, the loop starts from the state its invariant
    starts from: one accept is queued and there are no coroutines. *)
Lemma co_startup_entry argv lfd (s s' : st) :
  pristine s -> rs_mem s = ∅ -> k_group (rs_kern s) group_id = [] ->
  CoServer.startup argv s = Ok lfd s' -> co_entry lfd s'.
Proof.
  intros [P1 P2 P3 P4] Pm Pg. unfold CoServer.startup. destruct (argv !! 1%nat) as [arg|]; [|done].
  intros (fd & s1 & H1 & Hrun)%bind_inv_ok. apply bind_inv_ok in Hrun as ([] & s2 & H2 & Hrun).
  apply bind_inv_ok in Hrun as ([] & s3 & H3 & Hrun). apply bind_inv_ok in Hrun as ([] & s4 & H4 & [= -> <-]).
  destruct (co_socket_frame (to_i32 (strtol arg))) as (F1 & F2 & F3). pose proof (F3 _ _ _ H1) as G1. pose proof (F1 _ _ _ H1) as V1. pose proof (F2 _ _ _ H1) as M1.
  pose proof (proj1 co_ring_frame _ _ _ H2) as V2. pose proof (proj1 (proj2 co_ring_frame) _ _ _ H2) as M2.
  pose proof (proj2 (proj2 co_ring_frame) _ _ _ H2) as G2. unfold group_of in G1, G2.
  rewrite V1 in V2. unfold mem_of in M1, M2. unfold view_of in V2. injection V2 as Q1 Q2 Q3 Q4.
  rewrite P1 in Q1. rewrite P2 in Q2. rewrite P3 in Q3. rewrite P4 in Q4.
  destruct (provide_all_ok _ _ _ _ _ _ Q1 Q2 Q3 H3) as (R1 & R2 & R3 & R4 & Rg & R5).
  rewrite co_accept_spec in H4. unfold queue_one in H4. destruct (lib_get_sqe _) as [e|]; [|done]. injection H4 as <-.
  split; simpl; try congruence; [exists e; by rewrite R1|].
  rewrite Rg, G2, G1, Pg. apply Forall_forall. intros bid Hbid. by apply elem_of_seqZ in Hbid.
Qed.

End co_main.

(** ** Concrete runs *)

Module CoDemo.

Definition blank : sqe address Z := Sqe (OpPollAdd 0 0) 0 0 0 0.
Definition any (e : sqe address Z) (c : cqe Z) : Prop := True.

#[global] Instance any_dec e c : Decision (any e c).
Proof. by left. Defined.

#[global] Instance lib : Liburing address Z := ref_liburing 64 blank.
#[global] Instance lib_ok : LiburingOk address Z 64 := ref_liburing_ok 64 blank.
#[global] Instance kern : Kernel address Z (ref_kernel address Z) := ref_kernel_ops any.
#[global] Instance kern_ok : KernelOk address Z (ref_kernel address Z) := ref_kernel_ok any.

Definition lfd : Z := 3.

(** What happens to be in a new promise. *)
Definition junk : conn_info := ConnInfo 0 0 99.

Lemma co_junk_ok : conn_info_ok junk.
Proof. unfold conn_info_ok, is_u32, is_u16; simpl. lia. Qed.

(** The start of the loop, with buffers 7 and 8 in the group. *)
Definition s0 : rstate address Z (ref_kernel address Z) connections_map :=
  RState [accept_entry lfd blank] (RefK [] [] (fun _ => [7; 8]) []) ∅.

Lemma co_s0_entry : co_entry lfd s0.
Proof.
  split; [by exists blank|done..|]. unfold BUFFERS_COUNT, MAX_CONNECTIONS. repeat constructor; lia.
Qed.

Definition demo_run (acts : list action) :=
  run any turn_start (handle_cqe junk 0 lfd) turn_end acts (AtTop s0).
Definition at_end (acts : list action) := state_of s0 (demo_run acts).

Lemma co_demo_reachable acts : co_reachable junk 0 lfd s0 (demo_run acts).
Proof. apply run_steps. Qed.

Lemma co_demo_draining acts n :
  draining_at (demo_run acts) = Some n -> co_reachable junk 0 lfd s0 (Draining (at_end acts) n).
Proof. intros Hn. unfold at_end. rewrite <- (draining_at_eq s0 _ _ Hn). apply co_demo_reachable. Qed.

(** Client 5 connects; then a message of 100 bytes arrives in buffer 7, or the
    connection is reset. *)
Definition connected : list action := [Start; Finish 0 5 0; Handle].
Definition message : list action := connected ++ [End; Start; Finish 0 100 (Z.lor 1 (Z.shiftl 7 16))].
Definition reset : list action := connected ++ [End; Start; Finish 0 (-104) 0].
Definition read_tag : Z := user_data_of_conn_info (ConnInfo 5 READ 99).

(** A C server with nothing queued. *)
Definition c_state : rstate address Z (ref_kernel address Z) unit := RState [] (RefK [] [] (fun _ => [7; 8]) [5]) tt.

End CoDemo.

Lemma co_coroutines_match_witness :
  let s := CoDemo.at_end CoDemo.connected in
  NoDup (served s 1) /\ (forall fd, is_Some (rs_mem s !! fd) <-> fd ∈ served s 1) /\
  (forall u fd, u ∈ outstanding s 1 -> fd ∈ serves u -> exists t, rs_mem s !! fd = Some t /\ awaits t u).
Proof.
  intros s. apply (co_coroutines_match (entries := 64) CoDemo.junk 0 CoDemo.lfd CoDemo.s0 (CoDemo.demo_run CoDemo.connected)).
  - apply CoDemo.co_junk_ok.
  - apply CoDemo.co_s0_entry.
  - apply CoDemo.co_demo_reachable.
  - right. vm_compute. reflexivity.
Defined.

Lemma co_handler_safe_witness :
  let s := CoDemo.at_end CoDemo.message in
  match handle_cqe CoDemo.junk 0 CoDemo.lfd (Cqe CoDemo.read_tag 100 (Z.lor 1 (Z.shiftl 7 16))) s with
  | Ok _ _ => True
  | Exit code _ => code = 1 /\ (100 = - ENOBUFS \/ (kind CoDemo.read_tag = PROV_BUF /\ 100 < 0))
  | Ub _ => False
  end.
Proof.
  intros s. apply (co_handler_safe (entries := 64) CoDemo.junk 0 CoDemo.lfd CoDemo.s0 s 0
    (Cqe CoDemo.read_tag 100 (Z.lor 1 (Z.shiftl 7 16)))).
  - apply CoDemo.co_junk_ok.
  - apply CoDemo.co_s0_entry.
  - apply CoDemo.co_demo_draining. vm_compute. reflexivity.
  - vm_compute. reflexivity.
  - vm_compute. lia.
Defined.

Lemma co_failed_receive_sends_witness :
  let s := CoDemo.at_end CoDemo.reset in
  let c := Cqe CoDemo.read_tag (-104) 0 in
  exists e, rs_sq (final (handle_cqe CoDemo.junk 0 CoDemo.lfd c s)) = rs_sq s ++ [e] /\
    sqe_op e = OpSend (owner CoDemo.read_tag) (ABufs (to_u16 (Z.shiftr 0 16))) (2 ^ 32 + -104) 0.
Proof.
  intros s c. apply (co_failed_receive_sends (entries := 64) CoDemo.junk 0 CoDemo.lfd CoDemo.s0 s 0 c).
  - apply CoDemo.co_junk_ok.
  - apply CoDemo.co_s0_entry.
  - apply CoDemo.co_demo_draining. vm_compute. reflexivity.
  - vm_compute. reflexivity.
  - vm_compute. reflexivity.
  - reflexivity.
  - vm_compute. reflexivity.
Defined.

Lemma co_equivalent_to_c_witness :
  let s := CoDemo.at_end CoDemo.message in
  let cqes := drop 0 (k_cq (rs_kern s)) in
  exists t', for_each (EchoServer.handle_cqe CoDemo.lfd) (forget_cqe <$> cqes) CoDemo.c_state = Ok tt t' /\
    Forall2 same_request (rs_sq (final (for_each (handle_cqe CoDemo.junk 0 CoDemo.lfd) cqes s))) (rs_sq t').
Proof.
  intros s cqes. apply (co_equivalent_to_c (entries := 64) CoDemo.junk 0 CoDemo.lfd CoDemo.s0 s 0).
  - apply CoDemo.co_junk_ok.
  - apply CoDemo.co_s0_entry.
  - apply CoDemo.co_demo_draining. vm_compute. reflexivity.
  - apply Forall_forall. intros c Hc. vm_compute in Hc. apply list_elem_of_singleton in Hc as ->. done.
  - vm_compute. constructor.
  - vm_compute. reflexivity.
Defined.
