(* ===== verification/EpollRing.v ===== *)
(** * The epoll demo with a ring: [demo/tcp_epoll_send_recvmsg_iouring_echo_demo.c]

    The epoll demo with its [recvmsg] and [sendmsg] carried out by a ring, one
    request at a time: each is queued, submitted, waited for and consumed
    before the program goes on.  The results of the submission and of the wait
    are not looked at. *)

From stdpp Require Import strings.
From S2P Require Import Prelude Uring RefKernel Libc Setup Sockets IoOp EpollProtocol EpollEchoDemo.

(** The two message headers of the loop body. *)
Inductive header : Type := HMsg | HSMsg.

#[global] Instance header_eq_dec : EqDecision header.
Proof. solve_decision. Defined.

#[global] Instance address_eq_dec : EqDecision address.
Proof. solve_decision. Defined.

#[global] Instance msghdr_eq_dec : EqDecision msghdr.
Proof. solve_decision. Defined.

(** The address of a header, with the block the header describes: the kernel
    reads it there when the request is submitted. *)
Inductive msg_address : Type := AtHeader (h : header) (m : msghdr).

(** The memory of [main]: the message buffer, the calls and transfers made so
    far, and the locals of the loop body: [iov[0]], which both headers point
    to, and which headers are in scope. *)
Record dmem : Type := DMem {
  d_buffer : list Z;
  d_trace : list call;
  d_iov : option msghdr;
  d_scope : list header
}.

(** What the last completed receive has put into its block. *)
Class Transfers (K : Type) : Type := k_delivered : K -> list Z.

Section epoll_ring.
Context {K : Type} `{!Liburing msg_address Z} `{!Kernel msg_address Z K} `{!Setup K} `{!Sockets K} `{!Transfers K}.

Local Abbreviation st := (rstate msg_address Z K dmem).

(** ** Calls *)

(** The program without its ring. *)
Definition without_ring (s : st) : nstate K := NState (rs_kern s) (d_buffer (rs_mem s)) (d_trace (rs_mem s)).

Definition with_ring (t : nstate K) (s : st) : st :=
  RState (rs_sq s) (world t) (DMem (buffer t) (trace t) (d_iov (rs_mem s)) (d_scope (rs_mem s))).

(** A blocking call. *)
Definition os {X} (m : M (nstate K) X) : M st X := fun s =>
  match m (without_ring s) with
  | Ok x t => Ok x (with_ring t s)
  | Exit code t => Exit code (with_ring t s)
  | Ub t => Ub (with_ring t s)
  end.

(** The header of a queued request is in scope and describes [iov[0]]. *)
Definition header_valid (m : dmem) (e : sqe msg_address Z) : bool :=
  match sqe_op e with
  | OpRecvmsg _ (AtHeader h b) _ | OpSendmsg _ (AtHeader h b) _ =>
      bool_decide (h ∈ d_scope m) && bool_decide (d_iov m = Some b)
  | _ => true
  end.

(** [io_uring_submit] reads the headers of the requests. *)
Definition submit : M st Z :=
  s ← get;
  if forallb (header_valid (rs_mem s)) (rs_sq s) then io_uring_submit else ub.

(** [cqe->res] after [io_uring_cqe_seen]: the entry belongs to the kernel
    again, which may store the next completion there; nothing can happen to it
    as long as no request is in flight. *)
Definition released_res (c : cqe Z) : M st Z :=
  s ← get;
  match k_inflight (rs_kern s) with
  | [] => mret (cqe_res c)
  | _ => ub
  end.

(** One request from [io_uring_get_sqe] to [cqe->res].  A failed wait leaves a
    null pointer, through which [cqe->res] is undefined. *)
Definition transfer (o : io_op msg_address) : M st Z :=
  sqe ← io_uring_get_sqe;
  io_uring_prep sqe o ;;
  submit ;;
  r ← io_uring_wait_cqe;
  match snd (r : Z * option (cqe Z)) with
  | None => ub
  | Some c => io_uring_cqe_seen ;; released_res c
  end.

(** [struct msghdr h] comes into scope and [iov[0]] is set; it goes out of scope. *)
Definition enter (h : header) (b : msghdr) : M st unit :=
  modify (fun s => put_mem (DMem (d_buffer (rs_mem s)) (d_trace (rs_mem s)) (Some b) (h :: d_scope (rs_mem s))) s).
Definition leave : M st unit :=
  modify (fun s => put_mem (DMem (d_buffer (rs_mem s)) (d_trace (rs_mem s)) (d_iov (rs_mem s)) (tail (d_scope (rs_mem s)))) s).

(** The kernel stores [data] at the start of the buffer. *)
Definition stored (fd n r : Z) (data : list Z) (m : dmem) : dmem :=
  DMem (data ++ drop (length data) (d_buffer m)) (d_trace m ++ [CRecv fd n r data]) (d_iov m) (d_scope m).

(** [recvmsg] of [msg] through the ring; beyond the end of the buffer it is undefined. *)
Definition ring_recvmsg (fd : Z) (b : msghdr) : M st Z :=
  r ← transfer (OpRecvmsg fd (AtHeader HMsg b) 0);
  s ← get;
  let data := k_delivered (rs_kern s) in
  if (length data <=? length (d_buffer (rs_mem s)))%nat
  then modify (put_mem (stored fd (iov_len b) r data (rs_mem s))) ;; mret r
  else ub.

Definition logged (c : call) (m : dmem) : dmem := DMem (d_buffer m) (d_trace m ++ [c]) (d_iov m) (d_scope m).

(** [sendmsg] of [s_msg] through the ring. *)
Definition ring_sendmsg (fd : Z) (b : msghdr) : M st Z :=
  s ← get;
  if (0 <=? iov_len b) && (iov_len b <=? Z.of_nat (length (d_buffer (rs_mem s)))) then
    let data := take (Z.to_nat (iov_len b)) (d_buffer (rs_mem s)) in
    r ← transfer (OpSendmsg fd (AtHeader HSMsg b) 0);
    modify (fun s => put_mem (logged (CSend fd data r) (rs_mem s)) s) ;;
    mret r
  else ub.

(** ** The program *)

(** [argv[2]] may ask for a submission-queue thread. *)
Definition ring_params (argv : list (list Z)) : io_uring_params :=
  match argv !! 2%nat with
  | Some mode =>
      if str_eqb mode (chars "sqp") then
        Params (Z.lor (p_flags zero_params) IORING_SETUP_SQPOLL) 4 10000 (p_features zero_params)
      else zero_params
  | None => zero_params
  end.

Definition ring_startup (argv : list (list Z)) : M st (Z * Z) :=
  match argv !! 1%nat with
  | None => exit_ 1
  | Some arg =>
      init_ring 10240 (ring_params argv) ;;
      sockfd ← os (create_server_socket (atoi arg));
      if sockfd =? -1 then exit_ 1 else
      epollfd ← os (epoll_create 0);
      if epollfd =? -1 then exit_ 1 else
      r ← os (epoll_ctl epollfd EPOLL_CTL_ADD sockfd (Z.lor EPOLLIN EPOLLET));
      if r =? -1 then exit_ 1 else
      mret (sockfd, epollfd)
  end.

(** The answer to a message of [bytes_received] bytes. *)
Definition answer (newsockfd bytes_received : Z) : M st unit :=
  let iov := MsgHdr ABuffer bytes_received in
  enter HSMsg iov ;;
  bytes_sent ← ring_sendmsg newsockfd iov;
  (if bytes_sent <? 0 then os (close newsockfd) ;; mret tt else mret tt) ;;
  leave.

(** The body of the loop over the reported events. *)
Definition ring_event (sockfd epollfd : Z) (ev : epoll_event) : M st unit :=
  if negb (Z.land (ev_events ev) EPOLLERR =? 0) || negb (Z.land (ev_events ev) EPOLLHUP =? 0) then
    os (close (ev_fd ev)) ;; mret tt
  else if ev_fd ev =? sockfd then
    sock_conn_fd ← os (accept sockfd 0);
    if sock_conn_fd =? -1 then exit_ 1 else
    r ← os (epoll_ctl epollfd EPOLL_CTL_ADD sock_conn_fd (Z.lor EPOLLIN EPOLLET));
    if r =? -1 then exit_ 1 else mret tt
  else
    let newsockfd := ev_fd ev in
    let iov := MsgHdr ABuffer (MAX_MESSAGE_LEN - 1) in
    enter HMsg iov ;;
    bytes_received ← ring_recvmsg newsockfd iov;
    (if bytes_received <=? 0 then
       os (epoll_ctl epollfd EPOLL_CTL_DEL newsockfd 0) ;;
       os (shutdown newsockfd SHUT_RDWR) ;;
       mret tt
     else answer newsockfd bytes_received) ;;
    leave.

(** One turn of [while (1)]. *)
Definition ring_turn (sockfd epollfd : Z) : M st unit :=
  r ← os (epoll_wait epollfd MAX_EVENTS);
  let '(n, events) := (r : Z * list epoll_event) in
  if n =? -1 then exit_ 1 else
  for_each (ring_event sockfd epollfd) (take (Z.to_nat n) events).

End epoll_ring.
