(* ===== verification/EpollRingTheorems.v ===== *)
(** * The epoll demo with a ring refines the protocol of the epoll demo

    As long as its waits find a completion, the demo with a ring makes the
    calls of the epoll demo on the system whose [recv] and [send] are requests
    on the ring ([ring_sockets]); hence it refines the same protocol.  Between
    two transfers the ring is idle: nothing is queued, in flight or unread. *)

From stdpp Require Import strings.
From S2P Require Import Prelude Uring RefKernel Libc Setup Sockets IoOp EpollProtocol EpollEchoDemo EpollRing.

(** recvmsg(2): at most the length of the block is received, and the result
    says how much was stored. *)
Class TransfersOk (K : Type) `{!Kernel msg_address Z K} `{!Transfers K} : Prop := {
  delivered_advance n k : k_delivered (k_cq_advance n k) = k_delivered k;
  recvmsg_delivers k k' e c fd h b fl :
    k_post k k' -> posts k k' e c -> sqe_op e = OpRecvmsg fd (AtHeader h b) fl -> sqe_flags e = 0 ->
    (0 <= iov_len b -> cqe_res c <= iov_len b) /\ Z.of_nat (length (k_delivered k')) = Z.max 0 (cqe_res c)
}.

(** No request is in flight and no completion unread. *)
Definition idle {K} `{!KernelView msg_address Z K} (k : K) : bool :=
  match k_inflight k, k_cq k with [], [] => true | _, _ => false end.

(** The blocking calls do not touch the ring, and using the ring does not
    change what epoll watches. *)
Class RingApart (K : Type) `{!Kernel msg_address Z K} `{!Sockets K} `{!Epoll K} : Prop := {
  accept_idle fd fl k : idle (w_accept fd fl k).2 = idle k;
  close_idle fd k : idle (w_close fd k).2 = idle k;
  shutdown_idle fd h k : idle (w_shutdown fd h k).2 = idle k;
  ctl_idle ep op fd evs k : idle (w_epoll_ctl ep op fd evs k).2 = idle k;
  epoll_wait_idle ep n k : idle (w_epoll_wait ep n k).2 = idle k;
  submit_interest q w k : w_interest (k_submit q w k).2 = w_interest k;
  wait_interest k : w_interest (k_wait k).2 = w_interest k;
  advance_interest n k : w_interest (k_cq_advance n k) = w_interest k
}.

Section equivalence.
Context {K : Type} `{!Liburing msg_address Z} `{!Kernel msg_address Z K} `{S : !Sockets K} `{!Transfers K} `{!Epoll K}.

Local Abbreviation st := (rstate msg_address Z K dmem).
Local Abbreviation nst := (nstate K).

(** ** Transfers through the ring as system calls *)

(** What one request does to the system; a ring in use is left alone. *)
Definition ring_transfer (o : io_op msg_address) (k : K) : Z * K :=
  if idle k then
    match lib_get_sqe [] with
    | None => (-1, k)
    | Some e =>
        let k1 := (k_submit [lib_prep o e] 0 k).2 in
        let k2 := (k_wait k1).2 in
        match head (k_cq k2) with
        | None => (-1, k2)
        | Some c => (cqe_res c, k_cq_advance 1 k2)
        end
    end
  else (-1, k).

Definition ring_recv (fd n : Z) (k : K) : Z * list Z * K :=
  let '(r, k') := ring_transfer (OpRecvmsg fd (AtHeader HMsg (MsgHdr ABuffer n)) 0) k in
  (r, if r <=? 0 then [] else k_delivered k', k').

Definition ring_send (fd : Z) (data : list Z) (k : K) : Z * K :=
  ring_transfer (OpSendmsg fd (AtHeader HSMsg (MsgHdr ABuffer (Z.of_nat (length data)))) 0) k.

(** The system with its transfers carried out by the ring. *)
Definition ring_sockets : Sockets K := {|
  w_socket := w_socket; w_bind := w_bind; w_listen := w_listen; w_accept := w_accept;
  w_recv := ring_recv; w_send := ring_send;
  w_close := w_close; w_shutdown := w_shutdown;
  w_epoll_create := w_epoll_create; w_epoll_ctl := w_epoll_ctl; w_epoll_wait := w_epoll_wait
|}.

(** ** Simulation *)

(** Nothing is queued either. *)
Definition quiet (s : st) : Prop := rs_sq s = [] /\ idle (rs_kern s) = true.

(** The same result, and the same system, buffer and calls, with a quiet ring
    when the program goes on; or the demo with a ring has waited in vain and
    goes no further, after calls that the other one makes as well. *)
Definition same_outcome {X} (s0 : st) (o : outcome st X) (o' : outcome nst X) : Prop :=
  match o, o' with
  | Ok x s, Ok x' t => x = x' /\ t = without_ring s /\ quiet s
  | Exit code s, Exit code' t => code = code' /\ t = without_ring s
  | Ub _, Ub _ => True
  | Ub s, _ => k_cq (rs_kern s) = [] /\ d_trace (rs_mem s0) `prefix_of` d_trace (rs_mem s) /\
      d_trace (rs_mem s) `prefix_of` trace (final o')
  | _, _ => False
  end.

(** Calls are added to the trace, never removed. *)
Definition grows {X} (m : M nst X) : Prop := forall t, trace t `prefix_of` trace (final (m t)).

Definition simulates {X} (m : M st X) (m' : M nst X) : Prop :=
  grows m' /\ forall s, quiet s -> same_outcome s (m s) (m' (without_ring s)).

Create HintDb grows.

Lemma grows_ret {X} (x : X) : grows (mret x).
Proof. by intros t. Qed.

Lemma grows_exit {X} code : grows (exit_ code : M nst X).
Proof. by intros t. Qed.

Lemma grows_bind {X Y} (m : M nst X) (k : X -> M nst Y) :
  grows m -> (forall x, grows (k x)) -> grows (m ≫= k).
Proof.
  intros Hm Hk t. specialize (Hm t). unfold mbind, M_bind. destruct (m t) as [x t1|code t1|t1]; [|done..].
  simpl in Hm. etrans; [exact Hm|apply Hk].
Qed.

#[local] Hint Resolve grows_ret grows_exit grows_bind : grows.

Lemma grows_for_each {A} (body : A -> M nst unit) l :
  (forall a, grows (body a)) -> grows (for_each body l).
Proof. intros Hb. induction l as [|a l IH]; cbn [for_each]; auto with grows. Qed.

Section calls.
Context `{Sockets K}.

Lemma grows_close fd : grows (close fd).
Proof. intros t. unfold close. destruct (w_close _ _). by eexists. Qed.
Lemma grows_shutdown fd how : grows (shutdown fd how).
Proof. intros t. unfold shutdown. destruct (w_shutdown _ _ _). by eexists. Qed.
Lemma grows_accept fd fl : grows (accept fd fl).
Proof. intros t. unfold accept. destruct (w_accept _ _ _). by eexists. Qed.
Lemma grows_ctl ep op fd evs : grows (epoll_ctl ep op fd evs).
Proof. intros t. unfold epoll_ctl. destruct (w_epoll_ctl _ _ _ _ _). by eexists. Qed.
Lemma grows_wait ep n : grows (epoll_wait ep n).
Proof. intros t. unfold epoll_wait. destruct (w_epoll_wait _ _ _) as [[r evs] w]. by eexists. Qed.
Lemma grows_recv fd n : grows (recv fd n).
Proof. intros t. unfold recv. destruct (w_recv _ _ _) as [[r d] w]. destruct (_ <=? _)%nat; [by eexists|done]. Qed.
Lemma grows_send fd n : grows (send fd n).
Proof. intros t. unfold send. destruct (_ && _); [|done]. destruct (w_send _ _ _) as [r w]. by eexists. Qed.

End calls.

#[local] Hint Resolve grows_close grows_shutdown grows_accept grows_ctl grows_wait grows_recv grows_send : grows.
#[local] Hint Extern 2 (grows (if ?b then _ else _)) => destruct b : grows.

(** A computation that is already beyond repair makes no difference. *)
Lemma stalled_bind {X Y} (s0 s : st) (o : outcome nst X) (k : X -> M nst Y) :
  (forall x, grows (k x)) -> same_outcome s0 (Ub s : outcome st X) o ->
  same_outcome s0 (Ub s : outcome st Y) (match o with Ok x t => k x t | Exit c t => Exit c t | Ub t => Ub t end).
Proof.
  intros Hk Ho. destruct o as [x t|code t|t]; [|done..]. destruct Ho as (Hc & H0 & Hp). simpl in Hp.
  pose proof (Hk x t) as Hg. destruct (k x t) as [y t'|code t'|t'] eqn:E; simpl in *; [| |done]; (split_and!; [done..|by etrans]).
Qed.

(** The calls made before count as well. *)
Lemma same_outcome_from {X} (s0 s : st) (o : outcome st X) o' :
  d_trace (rs_mem s0) `prefix_of` d_trace (rs_mem s) -> same_outcome s o o' -> same_outcome s0 o o'.
Proof.
  intros Hp. destruct o as [x s1|code s1|s1], o' as [x' t|code' t|t]; try done; simpl; intros (? & ? & ?); (split_and!; [done|by etrans|done]).
Qed.

Lemma simulates_bind {X Y} (m : M st X) m' (k : X -> M st Y) k' :
  simulates m m' -> (forall x, simulates (k x) (k' x)) -> simulates (m ≫= k) (m' ≫= k').
Proof.
  intros [Hg Hm] Hk. split; [apply grows_bind; [done|apply Hk]|].
  intros s Hs. specialize (Hm s Hs). specialize (Hg (without_ring s)). unfold mbind, M_bind.
  destruct (m s) as [x s1|code s1|s1]; [| |by apply stalled_bind; [apply Hk|]];
    destruct (m' (without_ring s)) as [x' t1|code' t1|t1]; try done.
  destruct Hm as (-> & -> & Hs1). apply (same_outcome_from _ s1); [done|]. by apply Hk.
Qed.

Lemma simulates_ret {X} (x : X) : simulates (mret x) (mret x).
Proof. split; [auto with grows|by intros s Hs]. Qed.

Lemma simulates_exit {X} code : simulates (exit_ code : M st X) (exit_ code).
Proof. split; [auto with grows|by intros s Hs]. Qed.

Lemma simulates_for_each {A} (body : A -> M st unit) body' l :
  (forall a, simulates (body a) (body' a)) -> simulates (for_each body l) (for_each body' l).
Proof.
  intros Hb. induction l as [|a l IH]; cbn [for_each]; [apply simulates_ret|].
  apply simulates_bind; [apply Hb|by intros ?].
Qed.

(** A blocking call that leaves the ring alone. *)
Lemma simulates_os {X} (m : M nst X) :
  grows m -> (forall t x t', m t = Ok x t' -> idle (world t') = idle (world t)) -> simulates (os m) m.
Proof.
  intros Hg Hm. split; [done|]. intros s [Hq Hi]. unfold os. pose proof (Hm (without_ring s)) as Hm'.
  destruct (m (without_ring s)) as [x [w b tr]|code [w b tr]|t]; [|done..]. split_and!; [done..|].
  split; [done|]. simpl. rewrite <- Hi. by apply (Hm' x (NState w b tr)).
Qed.

(** A transfer on behalf of a header that has come into scope. *)
Lemma simulates_enter {X Y} h b (m : M st X) m' (k : X -> M st Y) k' :
  grows m' ->
  (forall s, quiet s -> h ∈ d_scope (rs_mem s) -> d_iov (rs_mem s) = Some b ->
     same_outcome s (m s) (m' (without_ring s))) ->
  (forall x, simulates (k x) (k' x)) ->
  simulates (enter h b ;; x ← m; k x) (x ← m'; k' x).
Proof.
  intros Hg Hm Hk. split; [apply grows_bind; [done|apply Hk]|]. intros s [Hq Hi]. unfold enter. mred.
  specialize (Hm (put_mem (DMem (d_buffer (rs_mem s)) (d_trace (rs_mem s)) (Some b) (h :: d_scope (rs_mem s))) s)
    (conj Hq Hi) ltac:(left) eq_refl).
  change (without_ring (put_mem _ s)) with (without_ring s) in Hm.
  apply (same_outcome_from s) in Hm; [|done]. specialize (Hg (without_ring s)).
  destruct (m _) as [x s1|code s1|s1]; [| |by apply stalled_bind; [apply Hk|]];
    destruct (m' (without_ring s)) as [x' t1|code' t1|t1]; try done.
  destruct Hm as (-> & -> & Hs1). apply (same_outcome_from _ s1); [done|]. by apply Hk.
Qed.

Lemma simulates_leave m m' : simulates m m' -> simulates (m ;; leave) m'.
Proof.
  intros [Hg Hm]. split; [done|]. intros s Hs. specialize (Hm s Hs). unfold leave. mred.
  destruct (m s) as [[] s1|code s1|s1], (m' (without_ring s)) as [[] t1|code' t1|t1]; done.
Qed.

Create HintDb simulates.

#[local] Hint Resolve simulates_ret simulates_exit : simulates.

(** ** One transfer *)

Context {entries : nat} `{!LiburingOk msg_address Z entries} (Hentries : (0 < entries)%nat).
Context `{!KernelOk msg_address Z K} `{!TransfersOk K} `{!RingApart K}.

Lemma idle_spec (k : K) : idle k = true <-> k_inflight k = [] /\ k_cq k = [].
Proof. unfold idle. destruct (k_inflight k), (k_cq k); naive_solver. Qed.

(** On an idle ring a request is the only one: the wait that follows its
    submission finds its completion, or none. *)
Lemma ring_round o k :
  idle k = true -> exists e k2,
    lib_get_sqe [] = Some e /\ (k_wait (k_submit [lib_prep o e] 0 k).2).2 = k2 /\
    (k_cq k2 = [] \/
     exists k1 c, drop (k_submit [lib_prep o e] 0 k).1.2 [lib_prep o e] = [] /\
       k_post k1 k2 /\ posts k1 k2 (lib_prep o e) c /\ k_cq k2 = [c] /\ k_inflight k2 = []).
Proof.
  intros [Hi Hc]%idle_spec. destruct (get_sqe_room (entries := entries) ([] : list (sqe msg_address Z)) Hentries) as [e He].
  destruct (k_submit [lib_prep o e] 0 k) as [[ret n] k'] eqn:Hsub. destruct (k_wait k') as [w k2] eqn:Hwait.
  exists e, k2. rewrite Hsub. simpl. rewrite Hwait. split_and!; [done..|].
  destruct (one_request _ _ _ _ _ _ _ Hi Hc Hsub Hwait) as [?|(k1 & c & Hn & _ & Hpost & Hp & Hc2 & Hi2)]; [by left|].
  right. exists k1, c. done.
Qed.

(** What a transfer is, as a step of the system. *)
Lemma ring_transfer_spec o k :
  w_interest (ring_transfer o k).2 = w_interest k /\
  ((ring_transfer o k).1 = -1 \/
   exists e k1 k2 c, ring_transfer o k = (cqe_res c, k_cq_advance 1 k2) /\ k_post k1 k2 /\ posts k1 k2 (lib_prep o e) c).
Proof.
  unfold ring_transfer. destruct (idle k) eqn:Hi; [|split; [done|by left]].
  destruct (ring_round o k Hi) as (e & k2 & He & Hw & Hround). rewrite He, Hw.
  assert (Hint : w_interest k2 = w_interest k) by (rewrite <- Hw, wait_interest; apply submit_interest).
  destruct Hround as [->|(k1 & c & _ & Hpost & Hp & -> & _)]; simpl; [split; [done|by left]|].
  split; [by rewrite advance_interest|]. right. by exists e, k1, k2, c.
Qed.

(** The program's transfer is that step, unless it waits in vain. *)
Lemma transfer_run o (s : st) :
  quiet s -> (forall e, sqe_op e = o -> header_valid (rs_mem s) e = true) ->
  (exists s', transfer o s = Ub s' /\ k_cq (rs_kern s') = [] /\ rs_mem s' = rs_mem s) \/
  (transfer o s = Ok (ring_transfer o (rs_kern s)).1 (put_kern (ring_transfer o (rs_kern s)).2 s) /\
   idle (ring_transfer o (rs_kern s)).2 = true /\
   exists e k1 k2 c, ring_transfer o (rs_kern s) = (cqe_res c, k_cq_advance 1 k2) /\
     k_post k1 k2 /\ posts k1 k2 (lib_prep o e) c).
Proof.
  intros [Hq Hi] Hv. destruct (ring_round o (rs_kern s) Hi) as (e & k2 & He & Hw & Hround).
  unfold transfer, io_uring_get_sqe. mred. rewrite Hq, He. unfold io_uring_prep, sqe_update, push_sqe. simpl.
  rewrite Hq. simpl. unfold submit. mred. simpl. rewrite Hv by apply prep_op. simpl.
  unfold io_uring_submit, io_uring_submit_and_wait. simpl.
  unfold ring_transfer. rewrite Hi, He. destruct (k_submit [lib_prep o e] 0 (rs_kern s)) as [[ret n] k']. simpl in *.
  unfold io_uring_wait_cqe. simpl. destruct (k_wait k') as [w k3]. simpl in *. subst k3.
  destruct Hround as [Hc|(k1 & c & Hn & Hpost & Hp & Hc & Hinf)]; rewrite Hc; simpl.
  { left. eexists. split_and!; [reflexivity|done..]. }
  right. unfold io_uring_cqe_seen, io_uring_cq_advance, released_res. mred. simpl.
  destruct (advance_frame 1 k2) as [Ha _]. rewrite Ha, Hinf, Hn. split; [by destruct s as [q k m]; simpl in *; rewrite Hq|].
  split; [|by exists e, k1, k2, c]. apply idle_spec. by rewrite Ha, advance_cq, Hc, Hinf.
Qed.

Lemma simulates_recvmsg fd n (s : st) :
  quiet s -> HMsg ∈ d_scope (rs_mem s) -> d_iov (rs_mem s) = Some (MsgHdr ABuffer n) ->
  same_outcome s (ring_recvmsg fd (MsgHdr ABuffer n) s) (recv (Sockets0 := ring_sockets) fd n (without_ring s)).
Proof.
  intros Hs Hin Hiov. pose proof (grows_recv (H := ring_sockets) fd n (without_ring s)) as Hg. unfold ring_recvmsg.
  set (o := OpRecvmsg fd _ 0). destruct (transfer_run o s Hs) as [(s' & Ht & Hc & Hm)|(Ht & Hi & e & k1 & k2 & c & He & Hpost & Hp)].
  { intros e He. unfold header_valid. rewrite He. simpl. by rewrite !bool_decide_eq_true_2. }
  { rewrite (bind_ub _ _ _ _ Ht). destruct (recv _ _ _); [split_and!; [done|by rewrite Hm|by rewrite Hm]..|done]. }
  rewrite (bind_ok _ _ _ _ _ Ht). unfold recv. simpl. unfold ring_recv. fold o. rewrite He in *. mred. simpl in *.
  destruct (recvmsg_delivers _ _ _ _ fd HMsg (MsgHdr ABuffer n) 0 Hpost Hp) as [_ Hd]; [apply prep_op|apply prep_flags|].
  assert (Hdata : (if cqe_res c <=? 0 then [] else k_delivered (k_cq_advance 1 k2)) = k_delivered (k_cq_advance 1 k2)).
  { rewrite delivered_advance. destruct (Z.leb_spec (cqe_res c) 0); [|done].
    destruct (k_delivered k2); [done|simpl in Hd; lia]. }
  rewrite Hdata. destruct (_ <=? _)%nat; [|done]. split_and!; [done..|]. split; [apply Hs|done].
Qed.

Lemma simulates_sendmsg fd n (s : st) :
  quiet s -> HSMsg ∈ d_scope (rs_mem s) -> d_iov (rs_mem s) = Some (MsgHdr ABuffer n) ->
  same_outcome s (ring_sendmsg fd (MsgHdr ABuffer n) s) (send (Sockets0 := ring_sockets) fd n (without_ring s)).
Proof.
  intros Hs Hin Hiov. pose proof (grows_send (H := ring_sockets) fd n (without_ring s)) as Hg.
  unfold ring_sendmsg. unfold send in *. mred. simpl in *.
  destruct (_ && _) eqn:Hb; [|done]. apply andb_true_iff in Hb as [H0%Z.leb_le H1%Z.leb_le].
  unfold ring_send in *. rewrite length_take, Nat.min_l, Z2Nat.id in * by lia.
  set (o := OpSendmsg fd _ 0) in *. destruct (transfer_run o s Hs) as [(s' & Ht & Hc & Hm)|(Ht & Hi & _)].
  { intros e He. unfold header_valid. rewrite He. simpl. by rewrite !bool_decide_eq_true_2. }
  { rewrite Ht. destruct (ring_transfer o (rs_kern s)). simpl in *. split_and!; [done|by rewrite Hm|by rewrite Hm]. }
  rewrite Ht. destruct (ring_transfer o (rs_kern s)). simpl in *. split_and!; [done..|]. split; [apply Hs|done].
Qed.

(** ** The whole program *)

Lemma simulates_close fd : simulates (os (close fd)) (close fd).
Proof.
  apply simulates_os; [auto with grows|]. intros t x t'. unfold close. pose proof (close_idle fd (world t)) as H.
  destruct (w_close _ _) as [r w]. by intros [= _ <-].
Qed.

Lemma simulates_shutdown fd how : simulates (os (shutdown fd how)) (shutdown fd how).
Proof.
  apply simulates_os; [auto with grows|]. intros t x t'. unfold shutdown. pose proof (shutdown_idle fd how (world t)) as H.
  destruct (w_shutdown _ _ _) as [r w]. by intros [= _ <-].
Qed.

Lemma simulates_accept fd fl : simulates (os (accept fd fl)) (accept fd fl).
Proof.
  apply simulates_os; [auto with grows|]. intros t x t'. unfold accept. pose proof (accept_idle fd fl (world t)) as H.
  destruct (w_accept _ _ _) as [r w]. by intros [= _ <-].
Qed.

Lemma simulates_ctl ep op fd evs : simulates (os (epoll_ctl ep op fd evs)) (epoll_ctl ep op fd evs).
Proof.
  apply simulates_os; [auto with grows|]. intros t x t'. unfold epoll_ctl. pose proof (ctl_idle ep op fd evs (world t)) as H.
  destruct (w_epoll_ctl _ _ _ _ _) as [r w]. by intros [= _ <-].
Qed.

Lemma simulates_wait ep n : simulates (os (epoll_wait ep n)) (epoll_wait ep n).
Proof.
  apply simulates_os; [auto with grows|]. intros t x t'. unfold epoll_wait. pose proof (epoll_wait_idle ep n (world t)) as H.
  destruct (w_epoll_wait _ _ _) as [[r evs] w]. by intros [= _ <-].
Qed.

#[local] Hint Resolve simulates_bind simulates_close simulates_shutdown simulates_accept simulates_ctl
  simulates_wait : simulates.
#[local] Hint Extern 2 (simulates (if ?b then _ else _) _) => destruct b : simulates.

Lemma simulates_answer fd r :
  simulates (answer fd r)
    (res ← send (Sockets0 := ring_sockets) fd r; if res <? 0 then close fd ;; mret tt else mret tt).
Proof.
  unfold answer. apply simulates_enter; [apply grows_send|by apply simulates_sendmsg|]. intros res. apply simulates_leave.
  auto with simulates.
Qed.

Lemma simulates_event sockfd epollfd ev :
  simulates (ring_event sockfd epollfd ev) (demo_event (Sockets0 := ring_sockets) sockfd epollfd ev).
Proof.
  unfold ring_event, demo_event. destruct (_ || _); [|destruct (ev_fd ev =? sockfd)].
  - apply simulates_bind; [apply simulates_close|auto with simulates].
  - apply simulates_bind; [apply simulates_accept|]. intros fd. destruct (fd =? -1); [auto with simulates|].
    apply simulates_bind; [apply simulates_ctl|]. intros r. destruct (r =? -1); auto with simulates.
  - apply simulates_enter; [apply grows_recv|by apply simulates_recvmsg|]. intros r. apply simulates_leave.
    destruct (r <=? 0); [|apply simulates_answer].
    apply simulates_bind; [apply simulates_ctl|]. intros _. apply simulates_bind; [apply simulates_shutdown|].
    auto with simulates.
Qed.

Lemma simulates_turns sockfd epollfd n :
  simulates (for_each (fun _ => ring_turn sockfd epollfd) (seq 0 n))
    (for_each (fun _ => demo_turn (Sockets0 := ring_sockets) sockfd epollfd) (seq 0 n)).
Proof.
  apply simulates_for_each. intros _. apply simulates_bind; [apply simulates_wait|]. intros [r evs].
  destruct (r =? -1); [auto with simulates|]. apply simulates_for_each, simulates_event.
Qed.

(** ** The protocol *)

Context `{!SocketsLaws K} `{!EpollLaws K}.

Lemma ring_recv_spec fd n k :
  let '(r, data, k') := ring_recv fd n k in
  ((0 <= n -> r <= n) /\ Z.of_nat (length data) = Z.max 0 r) /\ w_interest k' = w_interest k.
Proof.
  unfold ring_recv. set (o := OpRecvmsg fd _ 0). destruct (ring_transfer_spec o k) as [Hw Hr].
  destruct Hr as [Hr|(e & k1 & k2 & c & He & Hpost & Hp)].
  - destruct (ring_transfer o k) as [r k']. simpl in *. subst r. split; [|done]. simpl. lia.
  - rewrite He in *. split; [|done].
    destruct (recvmsg_delivers _ _ _ _ fd HMsg (MsgHdr ABuffer n) 0 Hpost Hp) as [Hn Hd]; [apply prep_op|apply prep_flags|].
    split; [done|]. rewrite delivered_advance. destruct (Z.leb_spec (cqe_res c) 0); [simpl; lia|done].
Qed.

Lemma ring_sockets_laws : SocketsLaws K (Sockets0 := ring_sockets).
Proof.
  split; [|exact (epoll_wait_law (Sockets0 := S))]. intros fd n k. simpl. pose proof (ring_recv_spec fd n k) as H.
  destruct (ring_recv fd n k) as [[r data] k']. apply H.
Qed.

Lemma ring_epoll_laws : EpollLaws K (Sockets0 := ring_sockets).
Proof.
  destruct EpollLaws0 as [L1 L2 L3 L4 _ _ L7 L8 L9 L10 L11].
  split; [exact L1|exact L2|exact L3|exact L4| | |exact L7|exact L8|exact L9|exact L10|exact L11].
  - intros fd n k. simpl. pose proof (ring_recv_spec fd n k) as H. destruct (ring_recv fd n k) as [[r data] k']. apply H.
  - intros fd data k. simpl. unfold ring_send. apply ring_transfer_spec.
Qed.

(** Where the demo stops, its calls are the beginning of a conforming run. *)
Lemma stalled_conforms sockfd watched (s s' : st) (t : nst) l x :
  k_cq (rs_kern s') = [] /\ d_trace (rs_mem s) `prefix_of` d_trace (rs_mem s') /\ d_trace (rs_mem s') `prefix_of` trace t ->
  trace t = d_trace (rs_mem s) ++ l -> eprotocol sockfd (MAX_MESSAGE_LEN - 1) true (watched, EIdle) l = Some x ->
  k_cq (rs_kern s') = [] /\ exists l' x', d_trace (rs_mem s') = d_trace (rs_mem s) ++ l' /\
    eprotocol sockfd (MAX_MESSAGE_LEN - 1) true (watched, EIdle) l' = Some x'.
Proof.
  intros (Hc & [l1 H1] & [l2 H2]) Ht Hp. split; [done|].
  rewrite Ht, H1, <- app_assoc in H2. apply (inj (app _)) in H2 as ->. rewrite eprotocol_app in Hp.
  destruct (eprotocol _ _ _ _ l1) as [x'|] eqn:E; [|done]. by exists l1, x'.
Qed.

(** C36: the demo with a ring refines the protocol.  Started with a quiet ring
    and a buffer of the declared size while epoll watches [watched], any number
    of turns ends with a quiet ring back in the loop, or with status 1, or in
    undefined behaviour, and the last only when a wait has returned without a
    completion, because the submission or the wait failed: the demo checks
    neither.  The calls and transfers it has made until then follow the
    protocol in each case: every message is sent back unchanged to its sender
    before anything else happens, and a connection whose peer is gone is no
    longer watched. *)
Theorem epoll_ring_refines_protocol sockfd epollfd n (s : st) watched :
  quiet s -> watching MAX_MESSAGE_LEN (without_ring s) watched ->
  match for_each (fun _ => ring_turn sockfd epollfd) (seq 0 n) s with
  | Ok _ s' => quiet s' /\ exists l watched', d_trace (rs_mem s') = d_trace (rs_mem s) ++ l /\
      eprotocol sockfd (MAX_MESSAGE_LEN - 1) true (watched, EIdle) l = Some (watched', EIdle) /\
      watching MAX_MESSAGE_LEN (without_ring s') watched'
  | Exit code s' => code = 1 /\ exists l watched', d_trace (rs_mem s') = d_trace (rs_mem s) ++ l /\
      eprotocol sockfd (MAX_MESSAGE_LEN - 1) true (watched, EIdle) l = Some (watched', EStopped)
  | Ub s' => k_cq (rs_kern s') = [] /\ exists l x, d_trace (rs_mem s') = d_trace (rs_mem s) ++ l /\
      eprotocol sockfd (MAX_MESSAGE_LEN - 1) true (watched, EIdle) l = Some x
  end.
Proof.
  intros Hs Hw. pose proof (proj2 (simulates_turns sockfd epollfd n) s Hs) as Hsim.
  pose proof (turns_conform (SocketsLaws0 := ring_sockets_laws) (EpollLaws0 := ring_epoll_laws) _ _ _ _ _
    (demo_event_conforms (SocketsLaws0 := ring_sockets_laws) (EpollLaws0 := ring_epoll_laws) sockfd epollfd) epollfd MAX_EVENTS n (without_ring s) watched ltac:(done) Hw) as Hc.
  change (for_each _ _ (without_ring s)) with
    (for_each (fun _ => demo_turn (Sockets0 := ring_sockets) sockfd epollfd) (seq 0 n) (without_ring s)) in Hc.
  destruct (for_each _ _ s) as [[] s'|code s'|s'], (for_each _ _ (without_ring s)) as [[] t|code' t|t]; try done; simpl in *.
  - destruct Hsim as (_ & -> & Hq). destruct Hc as (l & watched' & H1 & H2 & H3 & _). split; [done|]. by exists l, watched'.
  - by destruct Hsim as [-> ->].
  - destruct Hc as (l & watched' & H1 & H2 & _). by apply (stalled_conforms _ _ _ _ t l _ Hsim H1 H2).
  - destruct Hc as (_ & l & watched' & H1 & H2). by apply (stalled_conforms _ _ _ _ t l _ Hsim H1 H2).
Qed.

End equivalence.
