(* ===== verification/EpollRingMain.v ===== *)
(** * Start-up of the epoll demo with a ring, and a concrete run *)

From stdpp Require Import strings.
From S2P Require Import Prelude Uring RefKernel Libc Setup Sockets IoOp EpollProtocol EpollEchoDemo EpollRing EpollRingTheorems.

(** What start-up does besides leaves the ring idle, and epoll alone. *)
Class StartupApart (K : Type) `{!Kernel msg_address Z K} `{!Sockets K} `{!Setup K} `{!Epoll K} : Prop := {
  socket_idle d t p k : idle (w_socket d t p k).2 = idle k;
  bind_idle fd a k : idle (w_bind fd a k).2 = idle k;
  listen_idle fd n k : idle (w_listen fd n k).2 = idle k;
  create_idle n k : idle (w_epoll_create n k).2 = idle k;
  queue_init_interest n p k : w_interest (k_queue_init n p k).2 = w_interest k;
  probe_interest k : w_interest (k_probe k).2 = w_interest k
}.

Section startup.
Context {K : Type} `{!Liburing msg_address Z} `{!Kernel msg_address Z K} `{!Sockets K} `{!Transfers K} `{!Epoll K} `{!Setup K}.
Context `{!RingApart K} `{!StartupApart K} `{!EpollLaws K} `{!SetupOk msg_address Z K}.

Local Abbreviation st := (rstate msg_address Z K dmem).

(** What the loop relies on, in terms of the state of the program without its ring. *)
Definition ready (watched : gset Z) (t : nstate K) : Prop :=
  idle (world t) = true /\ watching MAX_MESSAGE_LEN t watched.

(** A call that keeps it. *)
Definition keeps_ready {X} (watched watched' : gset Z) (m : M (nstate K) X) (P : X -> Prop) : Prop :=
  forall t x t', ready watched t -> m t = Ok x t' -> P x -> ready watched' t'.

Lemma create_ready watched port : keeps_ready watched watched (create_server_socket port) (fun fd => fd <> -1).
Proof.
  intros t x t' [Hi [Hb Hw]]. unfold create_server_socket, socket, bind, listen, Sockets.close. mred.
  pose proof (socket_idle AF_INET SOCK_STREAM 0 (world t)) as I1. pose proof (interest_socket AF_INET SOCK_STREAM 0 (world t)) as E1.
  destruct (w_socket _ _ _ _) as [r1 w1]. simpl in *. destruct (r1 =? -1); [by intros [= <- _]|]. simpl.
  match goal with |- context [w_bind ?f ?a ?w] =>
    pose proof (bind_idle f a w) as I2; pose proof (interest_bind f a w) as E2; destruct (w_bind f a w) as [r2 w2] end.
  simpl in *. destruct (r2 =? -1); simpl; [destruct (w_close _ _); by intros [= <- _]|].
  match goal with |- context [w_listen ?f ?a ?w] =>
    pose proof (listen_idle f a w) as I3; pose proof (interest_listen f a w) as E3; destruct (w_listen f a w) as [r3 w3] end.
  simpl in *. destruct (r3 =? -1); simpl; [destruct (w_close _ _); by intros [= <- _]|].
  intros [= _ <-] _. split; [simpl; congruence|]. split; [done|]. simpl. congruence.
Qed.

Lemma epoll_create_ready watched n : keeps_ready watched watched (epoll_create n) (fun _ => True).
Proof.
  intros t x t' [Hi [Hb Hw]]. unfold epoll_create. pose proof (create_idle n (world t)) as I.
  pose proof (interest_create n (world t)) as E. destruct (w_epoll_create _ _) as [r w]. intros [= _ <-] _.
  split; [simpl in *; congruence|]. split; [done|]. simpl in *. congruence.
Qed.

Lemma epoll_add_ready ep fd evs : keeps_ready ∅ {[fd]} (epoll_ctl ep EPOLL_CTL_ADD fd evs) (fun r => r <> -1).
Proof.
  intros t x t' [Hi [Hb Hw]]. unfold epoll_ctl. pose proof (ctl_idle ep EPOLL_CTL_ADD fd evs (world t)) as I.
  pose proof (interest_ctl ep EPOLL_CTL_ADD fd evs (world t)) as E. destruct (w_epoll_ctl _ _ _ _ _) as [r w].
  intros [= <- <-] Hne. change (EPOLL_CTL_ADD =? EPOLL_CTL_DEL) with false in E. rewrite (proj2 (Z.eqb_neq r (-1)) Hne) in E.
  split; [simpl in *; congruence|]. split; [done|]. simpl in *. rewrite E, Hw. set_solver.
Qed.

(** The same of the ring: nothing is queued in addition. *)
Definition ready_ring (watched : gset Z) (s : st) : Prop := rs_sq s = [] /\ ready watched (without_ring s).

Lemma os_ready {X} watched watched' (m : M (nstate K) X) P s x s' :
  keeps_ready watched watched' m P -> ready_ring watched s -> os m s = Ok x s' -> P x -> ready_ring watched' s'.
Proof.
  intros Hm [Hq Hr]. unfold os. pose proof (Hm (without_ring s)) as H.
  destruct (m (without_ring s)) as [x1 [w b tr]|code t|t]; [|done..]. intros [= <- <-] Hx. split; [done|]. by eapply H.
Qed.

Lemma init_ready watched n p s s' : ready_ring watched s -> init_ring n p s = Ok tt s' -> ready_ring watched s'.
Proof.
  intros [Hq [Hi [Hb Hw]]] (r & s1 & H1 & Hrun)%bind_inv_ok. destruct (r.1 <? 0); [done|]. destruct (negb _); [done|].
  apply bind_inv_ok in Hrun as (pr & s2 & H2 & Hrun). destruct pr as [sup|]; [|done]. destruct (sup _); [|done].
  injection Hrun as <-. unfold io_uring_queue_init_params, io_uring_get_probe_ring, syscall in H1, H2.
  pose proof (queue_init_frame n p (rs_kern s)) as (F1 & F2 & _). pose proof (queue_init_interest n p (rs_kern s)) as E1.
  destruct (k_queue_init n p (rs_kern s)) as [r1 k1]. injection H1 as <- <-. simpl in *.
  pose proof (probe_frame k1) as (F3 & F4 & _). pose proof (probe_interest k1) as E2.
  destruct (k_probe k1) as [r2 k2]. injection H2 as _ <-. simpl in *.
  unfold idle in Hi. simpl in Hi. rewrite <- F1, <- F2, <- F3, <- F4 in Hi.
  split; [done|]. split; [done|]. split; [done|]. simpl in *. congruence.
Qed.

(** When start-up returns, the ring is quiet and epoll watches the listening
    socket: the state the loop's theorems start from. *)
Lemma ring_startup_ready argv (s s' : st) sockfd epollfd :
  quiet s -> w_interest (rs_kern s) = ∅ -> Z.of_nat (length (d_buffer (rs_mem s))) = MAX_MESSAGE_LEN ->
  ring_startup argv s = Ok (sockfd, epollfd) s' ->
  quiet s' /\ watching MAX_MESSAGE_LEN (without_ring s') {[sockfd]}.
Proof.
  intros [Hq Hi] Hw Hb. assert (H0 : ready_ring ∅ s) by (split_and!; done).
  unfold ring_startup. destruct (argv !! 1%nat) as [arg|]; [|done].
  intros ([] & s1 & H1 & Hrun)%bind_inv_ok. apply bind_inv_ok in Hrun as (fd & s2 & H2 & Hrun).
  destruct (Z.eqb_spec fd (-1)) as [|Hfd]; [done|]. apply bind_inv_ok in Hrun as (ep & s3 & H3 & Hrun).
  destruct (ep =? -1); [done|]. apply bind_inv_ok in Hrun as (r & s4 & H4 & Hrun).
  destruct (Z.eqb_spec r (-1)) as [|Hr]; [done|]. injection Hrun as <- <- <-.
  pose proof (init_ready _ _ _ _ _ H0 H1) as R1.
  pose proof (os_ready _ _ _ _ _ _ _ (create_ready _ _) R1 H2 Hfd) as R2.
  pose proof (os_ready _ _ _ _ _ _ _ (epoll_create_ready _ _) R2 H3 I) as R3.
  destruct (os_ready _ _ _ _ _ _ _ (epoll_add_ready _ _ _) R3 H4 Hr) as [Q [Q1 Q2]]. by split.
Qed.

End startup.

(** ** A system that keeps the laws *)
Module EpollRingRef.

(** The sockets of [EpollRef], a ring, and what was received last. *)
Record dkernel : Type := DK {
  dk_ring : ref_kernel msg_address Z;
  dk_sys : EpollRef.eworld;
  dk_last : list Z
}.

(** Carry out a request: its result, the data received, the sockets then. *)
Definition perform (e : sqe msg_address Z) (w : EpollRef.eworld) : Z * list Z * EpollRef.eworld :=
  match sqe_op e with
  | OpRecvmsg fd (AtHeader _ b) _ =>
      let '(r, data, w') := w_recv fd (iov_len b) w in
      if (sqe_flags e =? 0) && (r <? 2 ^ 31) then (r, data, w') else (-1, [], w)
  | OpSendmsg _ (AtHeader _ b) _ =>
      if (0 <=? iov_len b) && (iov_len b <? 2 ^ 31) then (iov_len b, [], w) else (-1, [], w)
  | _ => (-1, [], w)
  end.

(** The oldest request completes. *)
Definition complete (k : dkernel) : option dkernel :=
  match rk_inflight (dk_ring k) with
  | [] => None
  | e :: rest =>
      let '(r, data, w) := perform e (dk_sys k) in
      Some (DK (RefK rest (rk_cq (dk_ring k) ++ [Cqe (sqe_user_data e) r 0]) (rk_group (dk_ring k)) (rk_conns (dk_ring k))) w data)
  end.

Definition on_ring (r : ref_kernel msg_address Z) (k : dkernel) : dkernel := DK r (dk_sys k) (dk_last k).

Definition d_wait (k : dkernel) : Z * dkernel :=
  match rk_cq (dk_ring k) with
  | [] => match complete k with Some k' => (0, k') | None => (-4, k) end
  | _ => (0, k)
  end.

#[global] Instance view : KernelView msg_address Z dkernel := {|
  k_inflight k := rk_inflight (dk_ring k);
  k_cq k := rk_cq (dk_ring k);
  k_group k := rk_group (dk_ring k);
  k_conns k := rk_conns (dk_ring k)
|}.

#[global] Instance kern : Kernel msg_address Z dkernel := {|
  kernel_view := view;
  k_submit q w k := let '(ret, n, r) := ref_submit q w (dk_ring k) in (ret, n, on_ring r k);
  k_cq_advance n k := on_ring (ref_advance n (dk_ring k)) k;
  k_wait := d_wait;
  k_close fd k := let '(ret, r) := ref_close fd (dk_ring k) in (ret, on_ring r k);
  k_shutdown _ _ k := (0, k);
  k_post k k' := complete k = Some k'
|}.

(** A call on the sockets. *)
Definition on_sys {R} (f : EpollRef.eworld -> R * EpollRef.eworld) (k : dkernel) : R * dkernel :=
  let '(r, w) := f (dk_sys k) in (r, DK (dk_ring k) w (dk_last k)).

#[global] Instance sockets : Sockets dkernel := {|
  w_socket d t p := on_sys (w_socket d t p);
  w_bind fd a := on_sys (w_bind fd a);
  w_listen fd n := on_sys (w_listen fd n);
  w_accept fd fl := on_sys (w_accept fd fl);
  w_recv fd n := on_sys (w_recv fd n);
  w_send fd d := on_sys (w_send fd d);
  w_close fd := on_sys (w_close fd);
  w_shutdown fd h := on_sys (w_shutdown fd h);
  w_epoll_create n := on_sys (w_epoll_create n);
  w_epoll_ctl ep op fd evs := on_sys (w_epoll_ctl ep op fd evs);
  w_epoll_wait ep n := on_sys (w_epoll_wait ep n)
|}.

#[global] Instance interest : Epoll dkernel := fun k => w_interest (dk_sys k).
#[global] Instance transfers : Transfers dkernel := dk_last.
#[global] Instance setup : Setup dkernel := ref_setup 3.

Lemma on_sys_idle {R} (f : EpollRef.eworld -> R * EpollRef.eworld) k : idle (on_sys f k).2 = idle k.
Proof. unfold on_sys. by destruct (f (dk_sys k)). Qed.

(** What a request returns: a 32-bit number, and as much data as it says. *)
Lemma perform_spec e w r data w' :
  perform e w = (r, data, w') ->
  -1 <= r < 2 ^ 31 /\ w_interest w' = w_interest w /\
  (forall fd h b fl, sqe_op e = OpRecvmsg fd (AtHeader h b) fl -> sqe_flags e = 0 ->
     (0 <= iov_len b -> r <= iov_len b) /\ Z.of_nat (length data) = Z.max 0 r).
Proof.
  unfold perform. destruct (sqe_op e) as [| | |fd [h b] fl|fd [h b] fl| | | | |];
    try (intros [= <- <- <-]; split_and!; [lia|lia|done|done]).
  - pose proof (recv_law fd (iov_len b) w) as Hl. pose proof (interest_recv fd (iov_len b) w) as Hi.
    destruct (w_recv fd (iov_len b) w) as [[r1 d1] w1] eqn:Hrecv.
    assert (Hm : 0 <= r1).
    { simpl in Hrecv. unfold ref_recv in Hrecv. destruct (ref_messages _); [by simplify_eq|]. injection Hrecv as <- _ _. lia. }
    destruct (Z.eqb_spec (sqe_flags e) 0); [destruct (Z.ltb_spec r1 (2 ^ 31))|]; simpl; intros [= <- <- <-].
    + split_and!; [lia|done|done|]. intros ? ? ? ? [= -> -> -> ->] _. exact Hl.
    + split_and!; [lia|lia|done|]. intros ? ? ? ? _ _. simpl. lia.
    + split_and!; [lia|lia|done|]. done.
  - destruct (Z.leb_spec 0 (iov_len b)); [destruct (Z.ltb_spec (iov_len b) (2 ^ 31))|]; simpl; intros [= <- <- <-];
      (split_and!; [lia|lia|done|done]).
Qed.

(** Other requests fail, which changes nothing. *)
Lemma perform_completes e k r data w :
  perform e (dk_sys k) = (r, data, w) -> forall rest,
  let k' := DK (RefK rest (rk_cq (dk_ring k) ++ [Cqe (sqe_user_data e) r 0]) (rk_group (dk_ring k)) (rk_conns (dk_ring k))) w data in
  completes e (Cqe (sqe_user_data e) r 0) k k'.
Proof.
  unfold perform, completes. intros Hp rest. destruct (sqe_op e) as [| | |fd [h b] fl| | | | | |]; try done.
  - injection Hp as <- <- <-. split; [done|]. by right.
  - injection Hp as <- <- <-. destruct (has_flag _ _); [|done]. split_and!; [done..|]. right. by right.
  - destruct (w_recv _ _ _) as [[r1 d1] w1]. destruct (Z.eqb_spec (sqe_flags e) 0) as [->|]; simpl in Hp; [done|].
    injection Hp as <- <- <-. destruct (has_flag _ _); [|done]. split_and!; [done..|]. right. by right.
  - injection Hp as <- <- <-. split; [done|]. by right.
Qed.

Lemma complete_posts k k' : complete k = Some k' -> exists e c, posts k k' e c.
Proof.
  unfold complete. destruct (rk_inflight (dk_ring k)) as [|e rest] eqn:Hi; [done|].
  destruct (perform e (dk_sys k)) as [[r data] w] eqn:Hp. intros [= <-].
  exists e, (Cqe (sqe_user_data e) r 0). pose proof (perform_spec _ _ _ _ _ Hp) as [Hr _].
  split_and!; [simpl; by rewrite Hi|done|done|unfold is_i32; simpl; lia|by apply perform_completes].
Qed.

#[global] Instance kern_ok : KernelOk msg_address Z dkernel.
Proof.
  split; [split|exact complete_posts].
  - intros q w k. simpl. split.
    + eexists. split; [|constructor]. unfold queues; simpl. by rewrite take_ge.
    + intros Hr. destruct (Nat.leb_spec w (length (rk_cq (dk_ring k)))); [done|lia].
  - done.
  - done.
  - intros k. simpl. unfold d_wait. destruct (rk_cq (dk_ring k)) as [|c l] eqn:Hc; [|simpl; by rewrite Hc].
    destruct (complete k) as [k'|] eqn:Hk; [|done]. split; [by apply rtc_once|].
    apply complete_posts in Hk as (e & c & _ & Hq & _). simpl in Hq |- *. rewrite Hq. by destruct (rk_cq (dk_ring k)).
  - done.
  - done.
Qed.

#[global] Instance transfers_ok : TransfersOk dkernel.
Proof.
  split.
  - done.
  - intros k k' e c fd h b fl Hpost Hp He Hf. simpl in Hpost. unfold complete in Hpost.
    destruct (rk_inflight (dk_ring k)) as [|e' rest] eqn:Hi; [done|].
    destruct (perform e' (dk_sys k)) as [[r data] w] eqn:Hperf. injection Hpost as <-.
    destruct Hp as (Hin & Hcq & _). simpl in Hin, Hcq. rewrite Hi in Hin.
    apply (Permutation_app_inv_r rest [e'] [e]) in Hin. apply Permutation_length_1 in Hin as ->.
    apply app_inj_2 in Hcq as [_ [= <-]]; [|done]. by eapply perform_spec.
Qed.

#[global] Instance apart : RingApart dkernel.
Proof.
  split; try (intros; apply on_sys_idle); try done. intros k. simpl. unfold d_wait, complete.
  destruct (rk_cq _); [|done]. destruct (rk_inflight _) as [|e rest]; [done|].
  destruct (perform e (dk_sys k)) as [[r d] w] eqn:Hp. simpl. unfold w_interest, interest. simpl. by apply perform_spec in Hp as (_ & ? & _).
Qed.

#[global] Instance startup_apart : StartupApart dkernel.
Proof. split; try (intros; apply on_sys_idle); done. Qed.

#[global] Instance laws : SocketsLaws dkernel.
Proof.
  split; [intros fd n k; change (w_recv fd n k) with (on_sys (w_recv fd n) k)|
          intros ep n k; change (w_epoll_wait ep n k) with (on_sys (w_epoll_wait ep n) k)]; unfold on_sys.
  - pose proof (recv_law fd n (dk_sys k)) as H. by destruct (w_recv fd n (dk_sys k)) as [[r d] w].
  - pose proof (epoll_wait_law ep n (dk_sys k)) as H. by destruct (w_epoll_wait ep n (dk_sys k)) as [[r evs] w].
Qed.

(** A call on the sockets watches what it makes them watch. *)
Lemma on_sys_interest {R} (f : EpollRef.eworld -> R * EpollRef.eworld) k :
  w_interest (on_sys f k).2 = w_interest (f (dk_sys k)).2.
Proof. unfold on_sys. by destruct (f (dk_sys k)). Qed.

#[global] Instance epoll_laws : EpollLaws dkernel.
Proof.
  split; try done.
  - intros fd n k. change (w_recv fd n k) with (on_sys (w_recv fd n) k). rewrite on_sys_interest.
    apply (interest_recv fd n (dk_sys k)).
  - intros fd fl k. pose proof (interest_accept fd fl (dk_sys k)) as H.
    change (w_accept fd fl k) with (on_sys (w_accept fd fl) k). unfold on_sys. by destruct (w_accept fd fl (dk_sys k)).
  - intros ep n k. pose proof (interest_wait ep n (dk_sys k)) as H.
    change (w_epoll_wait ep n k) with (on_sys (w_epoll_wait ep n) k). unfold on_sys.
    by destruct (w_epoll_wait ep n (dk_sys k)) as [[r evs] w].
Qed.

#[global] Instance lib : Liburing msg_address Z := ref_liburing 8 (Sqe (OpPollAdd 0 0) 0 0 0 0).
#[global] Instance lib_ok : LiburingOk msg_address Z 8 := ref_liburing_ok 8 _.

(** A client connects, sends two bytes and leaves. *)
Definition s0 : rstate msg_address Z dkernel dmem :=
  RState [] (DK (RefK [] [] (fun _ => []) [])
      (EpollRef.EWorld (RefWorld [[72; 105]; []]
         [[EpollEvent EPOLLIN 3]; [EpollEvent EPOLLIN 5]; [EpollEvent EPOLLIN 5]]) ∅ 5) [])
    (DMem (replicate 1024 0) [] None []).

Definition started : rstate msg_address Z dkernel dmem := final (ring_startup [chars "demo"; chars "8882"] s0).

Lemma ring_started_quiet : quiet started.
Proof. split; vm_compute; reflexivity. Qed.

Lemma ring_started_watching : watching MAX_MESSAGE_LEN (without_ring started) {[3]}.
Proof. split; vm_compute; reflexivity. Qed.

End EpollRingRef.

(** Three turns return. *)
Lemma epoll_ring_refines_protocol_witness :
  match for_each (fun _ => ring_turn 3 4) (seq 0 3) EpollRingRef.started with Ok _ _ => True | _ => False end /\
  match for_each (fun _ => ring_turn 3 4) (seq 0 3) EpollRingRef.started with
  | Ok _ s' => quiet s' /\ exists l watched', d_trace (rs_mem s') = d_trace (rs_mem EpollRingRef.started) ++ l /\
      eprotocol 3 (MAX_MESSAGE_LEN - 1) true ({[3]}, EIdle) l = Some (watched', EIdle) /\
      watching MAX_MESSAGE_LEN (without_ring s') watched'
  | Exit code s' => code = 1 /\ exists l watched', d_trace (rs_mem s') = d_trace (rs_mem EpollRingRef.started) ++ l /\
      eprotocol 3 (MAX_MESSAGE_LEN - 1) true ({[3]}, EIdle) l = Some (watched', EStopped)
  | Ub s' => k_cq (rs_kern s') = [] /\ exists l x, d_trace (rs_mem s') = d_trace (rs_mem EpollRingRef.started) ++ l /\
      eprotocol 3 (MAX_MESSAGE_LEN - 1) true ({[3]}, EIdle) l = Some x
  end.
Proof.
  split; [vm_compute; exact I|].
  apply (epoll_ring_refines_protocol (entries := 8) ltac:(lia) 3 4 3 EpollRingRef.started {[3]}).
  - apply EpollRingRef.ring_started_quiet.
  - apply EpollRingRef.ring_started_watching.
Defined.
