(* ===== verification/BenchDemo.v ===== *)
(** * The poll benchmark: [demo/bench.c]

    Rounds of 32 polls on the reading end of a pipe: queue and submit them, make
    the pipe readable for a moment, wait for the completions and count them,
    until ten seconds have passed.  No poll is lost or counted twice. *)

From S2P Require Import Prelude Uring RefKernel Setup.

Definition POLLIN : Z := 1.
Definition IORING_SETUP_SINGLE_ISSUER : Z := 2 ^ 12.
Definition runtime_ms : Z := 10000.
Definition qd : nat := 32.

(** The calls of the benchmark: a pipe, one byte through it, the time of day
    as seconds and microseconds. *)
Class BenchCalls (K : Type) : Type := {
  k_pipe : K -> Z * (Z * Z) * K;
  k_write1 : Z -> K -> Z * K;
  k_read1 : Z -> K -> Z * K;
  k_gettimeofday : K -> (Z * Z) * K
}.

Section bench.
Context {K : Type} `{!Liburing unit Z} `{!Kernel unit Z K} `{!RingSetup K} `{!Register K} `{!BenchCalls K}.

(** The memory is the counter [nr_reqs], an [unsigned long]. *)
Local Abbreviation st := (rstate unit Z K Z).

(** [tv_sec * 1000 + tv_usec / 1000] in [long], where overflow is undefined. *)
Definition gettimeofday_ms : M st Z :=
  tv ← syscall k_gettimeofday;
  let sec_ms := fst (tv : Z * Z) * 1000 in
  let ms := sec_ms + Z.quot (snd (tv : Z * Z)) 1000 in
  if bool_decide (- 2 ^ 63 <= sec_ms < 2 ^ 63 /\ - 2 ^ 63 <= ms < 2 ^ 63) then mret (to_u64 ms) else ub.

Definition add_poll : M st unit :=
  sqe ← io_uring_get_sqe;
  io_uring_prep sqe (OpPollAdd 0 POLLIN) ;;
  sqe_update sqe (sqe_or_flags IOSQE_FIXED_FILE) ;;
  set_user_data sqe 1.

(** Wait for [n] completions; a failed wait ends the loop. *)
Fixpoint wait_cqes (n : nat) : M st unit :=
  match n with
  | O => mret tt
  | S n =>
      r ← io_uring_wait_cqe;
      if fst (r : Z * option (cqe Z)) <? 0 then mret tt else
      io_uring_cqe_seen ;;
      modify (fun s => put_mem (to_u64 (rs_mem s + 1)) s) ;;
      wait_cqes n
  end.

(** The body of [do ... while]: [Some r] where [bench_do] returns [r]. *)
Definition round (pipe1 : Z * Z) : M st (option Z) :=
  for_each (fun _ => add_poll) (seq 0 qd) ;;
  ret ← io_uring_submit;
  if negb (ret =? Z.of_nat qd) then mret (Some 1) else
  ret ← syscall (k_write1 (snd pipe1));
  if negb (ret =? 1) then mret (Some 1) else
  ret ← syscall (k_read1 (fst pipe1));
  if negb (ret =? 1) then mret (Some 1) else
  wait_cqes qd ;;
  mret None.

(** The loop, for at most [fuel] rounds; [None] when they are used up. *)
Fixpoint rounds (fuel : nat) (pipe1 : Z * Z) (tstop : Z) : M st (option Z) :=
  match fuel with
  | O => mret None
  | S fuel =>
      r ← round pipe1;
      match r with
      | Some r => mret (Some r)
      | None =>
          now ← gettimeofday_ms;
          if now <? tstop then rounds fuel pipe1 tstop else mret (Some 0)
      end
  end.

(** The ring is passed by value; [main] does not use its own copy afterwards. *)
Definition bench_do (fuel : nat) : M st (option Z) :=
  r ← syscall k_pipe;
  let '(ret, pipe1) := (r : Z * (Z * Z)) in
  if negb (ret =? 0) then mret (Some 1) else
  ret ← syscall (k_register_files [fst pipe1; snd pipe1]);
  if ret <? 0 then mret (Some 1) else
  now ← gettimeofday_ms;
  let tstop := to_u64 (now + runtime_ms) in
  rounds fuel pipe1 tstop.

(** The status of the process and the rate it prints. *)
Definition bench_main (fuel : nat) : M st (option (Z * option Z)) :=
  ret ← io_uring_queue_init 1024 IORING_SETUP_SINGLE_ISSUER;
  ret ← (if ret =? - EINVAL then io_uring_queue_init 1024 0 else mret ret);
  if negb (ret =? 0) then mret (Some (1, None)) else
  ret ← io_uring_register_ring_fd;
  if ret <? 0 then mret (Some (1, None)) else
  r ← bench_do fuel;
  match r with
  | None => mret None
  | Some ret =>
      if ret =? 1 then mret (Some (1, None)) else
      s ← get;
      mret (Some (0, Some (to_u64 (rs_mem s * 1000) / runtime_ms)))
  end.

End bench.

(** ** Laws *)

(** While a call is made, requests may complete; nothing else happens to the ring. *)
Definition progress {A U K} `{!Kernel A U K} (k k' : K) : Prop := exists k1, rtc k_post k k1 /\ same_view k1 k'.

(** io_uring_submit(3) returns the number of entries submitted; the other calls
    are not about the ring. *)
Class BenchOk (K : Type) `{!Kernel unit Z K} `{!BenchCalls K} : Prop := {
  submit_count q k : let '(ret, n, _) := k_submit q 0 k in 0 <= ret -> ret = Z.of_nat n /\ (n <= length q)%nat;
  write1_progress fd k : progress k (k_write1 fd k).2;
  read1_progress fd k : progress k (k_read1 fd k).2
}.

Section bench_theorems.
Context {K : Type} `{!Liburing unit Z} `{!Kernel unit Z K} `{!RingSetup K} `{!Register K} `{!BenchCalls K}.
Context {entries : nat} `{!LiburingOk unit Z entries} `{!KernelOk unit Z K} `{!BenchOk K}.

Local Abbreviation st := (rstate unit Z K Z).

(** ** Every poll is counted once *)

(** The requests in flight and the completions not consumed. *)
Definition load (k : K) : Z := Z.of_nat (length (k_inflight k)) + Z.of_nat (length (k_cq k)).

Lemma posts_load (k k' : K) : rtc k_post k k' -> load k' = load k.
Proof.
  induction 1 as [|k k1 k' Hp _ IH]; [done|]. rewrite IH. apply post_spec in Hp as (e & c & Hi & Hc & _).
  unfold load. rewrite Hi, Hc, length_app. simpl. lia.
Qed.

Lemma view_load (k k' : K) : same_view k k' -> load k' = load k.
Proof. intros (Hi & Hc & _). unfold load. by rewrite Hi, Hc. Qed.

Lemma progress_load (k k' : K) : progress k k' -> load k' = load k.
Proof. intros (k1 & Hp & Hv). rewrite (view_load _ _ Hv). by apply posts_load. Qed.

(** The entry a poll fills in. *)
Definition poll_entry (e : sqe unit Z) : sqe unit Z :=
  sqe_put_user_data 1 (sqe_or_flags IOSQE_FIXED_FILE (lib_prep (OpPollAdd 0 POLLIN) e)).

Lemma add_poll_spec (s : st) : add_poll s = queue_one poll_entry s.
Proof. unfold add_poll. fill_sqe poll_entry. Qed.

Lemma polls_run n i (s : st) :
  (length (rs_sq s) + n <= entries)%nat ->
  exists l, length l = n /\ for_each (fun _ => add_poll) (seq i n) s = Ok tt (put_sq (rs_sq s ++ l) s).
Proof.
  revert i s. induction n as [|n IH]; intros i s Hn; cbn [seq for_each].
  { exists []. rewrite app_nil_r. by destruct s. }
  destruct (get_sqe_room (entries := entries) (rs_sq s)) as [e He]; [lia|].
  destruct (IH (S i) (push_sqe (poll_entry e) s)) as (l & Hl & Hrun); [simpl; rewrite length_app; simpl; lia|].
  exists (poll_entry e :: l). split; [simpl; lia|].
  assert (H1 : add_poll s = Ok tt (push_sqe (poll_entry e) s)) by (rewrite add_poll_spec; unfold queue_one; by rewrite He).
  rewrite (bind_ok _ _ _ _ _ H1), Hrun. unfold push_sqe, put_sq. simpl. by rewrite <- app_assoc.
Qed.

(** What is queued is submitted, or stays queued. *)
Lemma submit_load (s : st) r s' :
  io_uring_submit s = Ok r s' ->
  load (rs_kern s') + Z.of_nat (length (rs_sq s')) = load (rs_kern s) + Z.of_nat (length (rs_sq s)) /\
  rs_mem s' = rs_mem s /\ (r = Z.of_nat (length (rs_sq s)) -> rs_sq s' = []).
Proof.
  unfold io_uring_submit, io_uring_submit_and_wait.
  pose proof (submit_spec (rs_sq s) 0 (rs_kern s)) as Hs. pose proof (submit_count (rs_sq s) (rs_kern s)) as Hn.
  destruct (k_submit _ _ _) as [[ret n] k]. destruct Hs as [(k1 & (Hi & Hc & _) & Hp) _]. intros [= <- <-]. simpl.
  apply posts_load in Hp. unfold load in *. rewrite Hi, Hc, length_app, length_take in Hp. rewrite length_drop.
  split_and!; [lia|done|]. intros ->. apply nil_length_inv. rewrite length_drop. lia.
Qed.

(** A call that is not about the ring. *)
Lemma syscall_load {R} (f : K -> R * K) (s : st) r s' :
  (forall k, progress k (f k).2) -> syscall f s = Ok r s' ->
  load (rs_kern s') = load (rs_kern s) /\ rs_mem s' = rs_mem s /\ rs_sq s' = rs_sq s.
Proof.
  intros Hf. unfold syscall. specialize (Hf (rs_kern s)). destruct (f (rs_kern s)) as [r' k'].
  apply progress_load in Hf. by intros [= _ <-].
Qed.

(** The counter follows the completions consumed, at most [n]. *)
Lemma wait_cqes_counts n (s : st) :
  0 <= rs_mem s < 2 ^ 64 ->
  exists s' d, wait_cqes n s = Ok tt s' /\ 0 <= d <= Z.of_nat n /\ rs_mem s' = to_u64 (rs_mem s + d) /\
    d + load (rs_kern s') = load (rs_kern s) /\ rs_sq s' = rs_sq s.
Proof.
  revert s. induction n as [|n IH]; intros s Hm; cbn [wait_cqes].
  { exists s, 0. unfold to_u64. rewrite Z.add_0_r, Z.mod_small by done. split_and!; done. }
  mred. unfold io_uring_wait_cqe. pose proof (wait_spec (rs_kern s)) as Hw.
  destruct (k_wait (rs_kern s)) as [ret k]. destruct Hw as (Hp & Hle & Hne). apply posts_load in Hp. simpl.
  destruct (Z.ltb_spec ret 0) as [|Hr].
  { exists (put_kern k s), 0. unfold to_u64. rewrite Z.add_0_r, Z.mod_small by done. split_and!; simpl; done || lia. }
  specialize (Hne ltac:(lia)). destruct (advance_frame 1 k) as [Hi _].
  assert (Ha : load (k_cq_advance 1 k) = load k - 1).
  { unfold load. rewrite Hi, advance_cq, length_drop. destruct (k_cq k); [done|]. simpl in *. lia. }
  match goal with |- context [wait_cqes n ?t] => destruct (IH t) as (s' & d & Hrun & Hd & Hc & Hl & Hq) end.
  { simpl. apply Z.mod_pos_bound. lia. }
  simpl in *. exists s', (1 + d). split_and!; [done|lia|lia| |lia|done].
  rewrite Hc. unfold to_u64. by rewrite Zplus_mod_idemp_l, Z.add_assoc.
Qed.

Context (Hroom : (qd <= entries)%nat).

(** C37: a round of the benchmark loses no poll and counts none twice.  Begun
    with an empty submission queue, it never goes through a missing entry.  If
    it returns, it has queued 32 polls: those it counted (at most 32, and none
    when it gives up with 1), the requests the kernel still has, the
    completions not consumed and the entries not submitted are 32 more than
    the requests and completions there were; the counter has grown, modulo
    [2^64], by what it counted; and when the loop goes on, the submission
    queue is empty again. *)
Theorem bench_counts_polls p (s : st) :
  rs_sq s = [] -> 0 <= rs_mem s < 2 ^ 64 ->
  no_ub (round p s) /\
  forall r s', round p s = Ok r s' ->
    exists counted, 0 <= counted <= 32 /\ rs_mem s' = to_u64 (rs_mem s + counted) /\
      counted + load (rs_kern s') + Z.of_nat (length (rs_sq s')) = load (rs_kern s) + 32 /\
      (r = None /\ rs_sq s' = [] \/ r = Some 1 /\ counted = 0).
Proof.
  intros Hq Hm. destruct (polls_run qd 0 s) as (l & Hl & H1); [by rewrite Hq|]. rewrite Hq in H1. simpl app in H1.
  assert (Hid : to_u64 (rs_mem s + 0) = rs_mem s) by (unfold to_u64; rewrite Z.add_0_r; by apply Z.mod_small).
  unfold round. rewrite (bind_ok _ _ _ _ _ H1).
  destruct (io_uring_submit (put_sq l s)) as [ret s2| |] eqn:H2; [|by unfold io_uring_submit, io_uring_submit_and_wait in H2; destruct (k_submit _ _ _) as [[? ?] ?]..].
  rewrite (bind_ok _ _ _ _ _ H2). apply submit_load in H2 as (L2 & M2 & Q2). simpl in L2, M2, Q2. rewrite Hl in *.
  change (Z.of_nat qd) with 32 in *.
  assert (Hgive : forall t : st, load (rs_kern t) = load (rs_kern s2) -> rs_mem t = rs_mem s2 -> rs_sq t = rs_sq s2 ->
    no_ub ((mret (Some 1) : M st (option Z)) t) /\
    forall r s', (mret (Some 1) : M st (option Z)) t = Ok r s' ->
    exists counted, 0 <= counted <= 32 /\ rs_mem s' = to_u64 (rs_mem s + counted) /\
      counted + load (rs_kern s') + Z.of_nat (length (rs_sq s')) = load (rs_kern s) + 32 /\
      (r = None /\ rs_sq s' = [] \/ r = Some 1 /\ counted = 0)).
  { intros t Lt Mt Qt. split; [done|]. intros r s' [= <- <-]. exists 0. rewrite Qt. split_and!; [lia|lia|congruence|lia|by right]. }
  destruct (Z.eqb_spec ret 32) as [Hret|]; cbn [negb]; [|by apply Hgive]. specialize (Q2 Hret).
  destruct (syscall (k_write1 p.2) s2) as [r3 s3| |] eqn:H3; [|by unfold syscall in H3; destruct (k_write1 _ _)..].
  rewrite (bind_ok _ _ _ _ _ H3). apply syscall_load in H3 as (L3 & M3 & Q3); [|apply write1_progress].
  destruct (negb (r3 =? 1)); [by apply Hgive|].
  destruct (syscall (k_read1 p.1) s3) as [r4 s4| |] eqn:H4; [|by unfold syscall in H4; destruct (k_read1 _ _)..].
  rewrite (bind_ok _ _ _ _ _ H4). apply syscall_load in H4 as (L4 & M4 & Q4); [|apply read1_progress].
  destruct (negb (r4 =? 1)); [apply Hgive; congruence|].
  destruct (wait_cqes_counts qd s4) as (s5 & d & H5 & Hd & M5 & L5 & Q5); [rewrite M4, M3, M2; done|].
  rewrite (bind_ok _ _ _ _ _ H5). split; [done|]. intros r s' [= <- <-]. exists d. change (Z.of_nat qd) with 32 in *.
  assert (Hq5 : rs_sq s5 = []) by congruence. rewrite Hq5, M5, M4, M3, M2. simpl. rewrite Q2 in L2. simpl in L2.
  split_and!; [lia|lia|done|lia|by left].
Qed.

End bench_theorems.
