(* ===== verification/BenchRun.v ===== *)
(** * Concrete runs of the poll benchmark

    The kernel of [RefKernel] with a clock beside it. *)

From S2P Require Import Prelude Uring RefKernel Setup BenchDemo.

(** ** A kernel with a state of its own beside the ring *)
Section beside.
Context {A U K E : Type} `{KK : !Kernel A U K}.

Definition beside_view : KernelView A U (K * E) := {|
  k_inflight k := k_inflight k.1;
  k_cq k := k_cq k.1;
  k_group k := k_group k.1;
  k_conns k := k_conns k.1
|}.

Definition beside_kernel : Kernel A U (K * E) := {|
  kernel_view := beside_view;
  k_submit q w k := let '(ret, n, r) := k_submit q w k.1 in (ret, n, (r, k.2));
  k_cq_advance n k := (k_cq_advance n k.1, k.2);
  k_wait k := let '(ret, r) := k_wait k.1 in (ret, (r, k.2));
  k_close fd k := let '(ret, r) := k_close fd k.1 in (ret, (r, k.2));
  k_shutdown fd how k := let '(ret, r) := k_shutdown fd how k.1 in (ret, (r, k.2));
  k_post k k' := k_post k.1 k'.1 /\ k'.2 = k.2
|}.

Lemma beside_posts (k k' : K) (e : E) :
  rtc k_post k k' -> rtc (k_post (Kernel := beside_kernel)) (k, e) (k', e).
Proof. induction 1 as [|k k1 k' H1 _ IH]; [done|]. eapply rtc_l; [|exact IH]. by split. Qed.

Lemma beside_ok : KernelOk A U K -> KernelOk A U (K * E) (Kernel0 := beside_kernel).
Proof.
  intros [[H1 H2 H3 H4 H5 H6] H7]. split; [split|].
  - intros q w [k e]. simpl. specialize (H1 q w k). destruct (k_submit q w k) as [[ret n] k'].
    destruct H1 as [(k1 & Hq & Hp) Hw]. split; [|done]. exists (k1, e). split; [done|]. by apply beside_posts.
  - intros n [k e]. apply H2.
  - intros n [k e]. apply H3.
  - intros [k e]. simpl. specialize (H4 k). destruct (k_wait k) as [ret k'].
    destruct H4 as [Hp Hw]. split; [|done]. by apply beside_posts.
  - intros fd [k e]. simpl. specialize (H5 fd k). by destruct (k_close fd k).
  - intros fd how [k e]. simpl. specialize (H6 fd how k). by destruct (k_shutdown fd how k).
  - intros [k e] [k' e'] [Hp _]. destruct (H7 _ _ Hp) as (s & c & Hs). by exists s, c.
Qed.

End beside.

Module BenchRef.

Definition any (e : sqe unit Z) (c : cqe Z) : Prop := True.

#[global] Instance any_dec e c : Decision (any e c).
Proof. by left. Defined.

(** Requests complete in order, with result 1, when they are waited for. *)
Definition ring : Kernel unit Z (ref_kernel unit Z) := waiting_kernel_ops any (fun _ => (0%nat, 1, 0)).

(** A ring and a clock. *)
Abbreviation bkernel := (ref_kernel unit Z * Z)%type.

#[global] Instance kern : Kernel unit Z bkernel := beside_kernel (KK := ring).
#[global] Instance kern_ok : KernelOk unit Z bkernel := beside_ok (KK := ring) (waiting_kernel_ok any _).
#[global] Instance lib : Liburing unit Z := ref_liburing 64 (Sqe (OpPollAdd 0 0) 0 0 0 0).
#[global] Instance lib_ok : LiburingOk unit Z 64 := ref_liburing_ok 64 _.
#[global] Instance register : Register bkernel := ref_register 1024.
#[global] Instance register_ok : RegisterOk unit Z bkernel := ref_register_ok 1024 ltac:(lia).

(** What the clock shows: within its range. *)
Definition shown (c : Z) : Z := Z.max 0 (Z.min (2 ^ 60) c).

(** Each reading takes three seconds. *)
Definition read_clock (k : bkernel) : (Z * Z) * bkernel :=
  let c := shown (shown k.2 + 3000000) in ((c / 10 ^ 6, c `mod` 10 ^ 6), (k.1, c)).

#[global] Instance calls : BenchCalls bkernel := {|
  k_pipe k := (0, (3, 4), k);
  k_write1 _ k := (1, k);
  k_read1 _ k := (1, k);
  k_gettimeofday := read_clock
|}.

Lemma same_progress (k k' : bkernel) : k.1 = k'.1 -> progress k k'.
Proof. intros H. exists k. split; [done|]. destruct k as [r c], k' as [r' c']. simpl in H. by subst r'. Qed.

#[global] Instance calls_ok : BenchOk bkernel.
Proof.
  split; try (intros; by apply same_progress).
  intros q [k c]. simpl. done.
Qed.

Definition s0 : rstate unit Z bkernel Z := RState [] (RefK [] [] (fun _ => []) [], 1700000000000000) 0.

(** Four rounds, then the time is up. *)
Definition finished : rstate unit Z bkernel Z := final (bench_do 5 s0).

Lemma finished_run : bench_do 5 s0 = Ok (Some 0) finished.
Proof. vm_compute. reflexivity. Qed.

Example finished_count : rs_mem finished = 128.
Proof. vm_compute. reflexivity. Qed.

End BenchRef.

(** The first round counts its 32 polls. *)
Lemma bench_counts_polls_witness :
  let s' := final (round (3, 4) BenchRef.s0) in
  no_ub (round (3, 4) BenchRef.s0) /\
  exists counted, 0 <= counted <= 32 /\ rs_mem s' = to_u64 (0 + counted) /\
    counted + load (rs_kern s') + Z.of_nat (length (rs_sq s')) = load (rs_kern BenchRef.s0) + 32 /\
    rs_sq s' = [].
Proof.
  intros s'. destruct (bench_counts_polls (entries := 64) ltac:(apply Nat.leb_le; vm_compute; reflexivity) (3, 4) BenchRef.s0)
    as [H1 H2]; [reflexivity|simpl; lia|]. split; [exact H1|].
  destruct (H2 None s') as (d & Hd & Hm & Hl & [[_ Hq]|[[=] _]]); [vm_compute; reflexivity|].
  exists d. split_and!; [apply Hd|apply Hd|exact Hm|exact Hl|exact Hq].
Defined.
