(* ===== verification/EventfdDemo.v ===== *)
(** * Two processes and an eventfd: [demo/eventfd.c]

    The child writes the numbers of the command line to an eventfd, the parent
    reads it once and prints what it read.  The two run concurrently: the
    [sleep] of the parent orders nothing. *)

From stdpp Require Import strings.
From S2P Require Import Prelude Libc.

(** eventfd(2), in blocking mode.  [None]: the call blocks. *)
Class Eventfd (E : Type) : Type := {
  ev_counter : E -> Z;
  ev_write : Z -> E -> option (Z * E);
  ev_read : E -> option (Z * Z * E)
}.

(** A write adds to the counter, unless that would exceed [2^64 - 2], when it
    blocks; the number [2^64 - 1] is refused.  A read returns the counter and
    resets it; it blocks while the counter is 0. *)
Class EventfdOk (E : Type) `{!Eventfd E} : Prop := {
  write_refused e : exists e', ev_write ULLONG_MAX e = Some (-1, e') /\ ev_counter e' = ev_counter e;
  write_blocks v e : 0 <= v < ULLONG_MAX -> ULLONG_MAX <= ev_counter e + v -> ev_write v e = None;
  write_adds v e : 0 <= v < ULLONG_MAX -> ev_counter e + v < ULLONG_MAX ->
    exists e', ev_write v e = Some (8, e') /\ ev_counter e' = ev_counter e + v;
  read_blocks e : ev_counter e = 0 -> ev_read e = None;
  read_resets e : 0 < ev_counter e -> exists e', ev_read e = Some (8, ev_counter e, e') /\ ev_counter e' = 0
}.

(** The child: the arguments it has still to write, or its status. *)
Inductive child_state : Type := Writing (args : list (list Z)) | ChildExited (code : Z).

(** The parent: before its read, or its status and what it printed. *)
Inductive parent_state : Type := Reading | ParentExited (code : Z) (printed : option Z).

Record procs (E : Type) : Type := Procs {
  efd : E;
  child : child_state;
  parent : parent_state
}.

Arguments Procs {E}.
Arguments efd {E}.
Arguments child {E}.
Arguments parent {E}.

Section eventfd.
Context {E : Type} `{!Eventfd E}.

(** [main] up to the [fork], given what [eventfd] and [fork] return: the status
    it stops with, or the two processes. *)
Definition start (argv : list (list Z)) (new_efd : option E) (forked : bool) : Z + procs E :=
  if (length argv <? 2)%nat then inl 1 else
  match new_efd with
  | None => inl 1
  | Some e => if forked then inr (Procs e (Writing (tail argv)) Reading) else inl 1
  end.

(** One iteration of the child's loop, or its exit; [None] when it cannot run. *)
Definition child_step (p : procs E) : option (procs E) :=
  match child p with
  | Writing [] => Some (Procs (efd p) (ChildExited 0) (parent p))
  | Writing (arg :: args) =>
      '(s, e) ← ev_write (strtoull arg) (efd p);
      Some (Procs e (if s =? 8 then Writing args else ChildExited 1) (parent p))
  | ChildExited _ => None
  end.

Definition parent_step (p : procs E) : option (procs E) :=
  match parent p with
  | Reading =>
      '(s, u, e) ← ev_read (efd p);
      Some (Procs e (child p) (if s =? 8 then ParentExited 0 (Some u) else ParentExited 1 None))
  | ParentExited _ _ => None
  end.

(** The processes run in any order. *)
Inductive step (p p' : procs E) : Prop :=
| ChildStep : child_step p = Some p' -> step p p'
| ParentStep : parent_step p = Some p' -> step p p'.

(** ** The counter *)

Context `{!EventfdOk E} (args : list (list Z)).

Definition total (l : list (list Z)) : Z := foldr (fun a n => strtoull a + n) 0 l.

Lemma total_app l k : total (l ++ k) = total l + total k.
Proof. induction l as [|a l IH]; simpl; [done|]. unfold total in *. rewrite IH. lia. Qed.

Lemma strtoull_range s : 0 <= strtoull s <= ULLONG_MAX.
Proof.
  unfold strtoull. set (x := match skip_space s with [] => _ | _ => _ end). destruct x as [neg l].
  assert (Hd : forall b l acc, 0 <= b -> 0 <= acc -> 0 <= digits_in b acc l).
  { intros b m. induction m as [|c m IH]; intros acc Hb Hacc; simpl; [done|].
    destruct (digit_value c) as [d|] eqn:Hv; [|done]. destruct (d <? b); [|done]. apply IH; [done|].
    assert (0 <= d); [|nia]. unfold digit_value, isdigit in Hv.
    repeat (match type of Hv with context [if ?t then _ else _] => destruct t eqn:? end); simplify_eq;
      rewrite andb_true_iff, !Z.leb_le in *; lia. }
  assert (H0 : 0 <= any_base l).
  { unfold any_base. repeat case_match; try lia; apply Hd; lia. }
  destruct (Z.ltb_spec ULLONG_MAX (any_base l)); [unfold ULLONG_MAX; lia|].
  destruct neg; [|lia]. unfold to_u64, ULLONG_MAX. pose proof (Z.mod_pos_bound (- any_base l) (2 ^ 64)). lia.
Qed.

Lemma total_nonneg l : 0 <= total l.
Proof. induction l as [|a l IH]; simpl; [done|]. pose proof (strtoull_range a). unfold total in *. lia. Qed.

(** The child has written a prefix of the numbers.  The parent has not read
    yet and the counter is their sum, or it has read and printed the sum of a
    smaller prefix. *)
Definition invariant (p : procs E) : Prop :=
  exists written rest, args = written ++ rest /\
    (child p = Writing rest \/ child p = ChildExited 1 \/ (child p = ChildExited 0 /\ rest = [])) /\
    ((parent p = Reading /\ ev_counter (efd p) = total written) \/
     (exists l k, written = l ++ k /\ parent p = ParentExited 0 (Some (total l)) /\ 0 < total l /\
        ev_counter (efd p) = total k)).

(** What a write that returns has done. *)
Lemma write_inv v e s e' :
  0 <= v <= ULLONG_MAX -> ev_write v e = Some (s, e') ->
  (s = 8 /\ ev_counter e' = ev_counter e + v) \/ (s = -1 /\ ev_counter e' = ev_counter e).
Proof.
  intros Hv Hw. destruct (decide (v = ULLONG_MAX)) as [->|Hne].
  { destruct (write_refused e) as (e1 & H1 & H2). right. by simplify_eq. }
  destruct (Z.lt_ge_cases (ev_counter e + v) ULLONG_MAX) as [Hlt|Hge].
  - destruct (write_adds v e) as (e1 & H1 & H2); [lia|done|]. left. by simplify_eq.
  - by rewrite write_blocks in Hw by lia.
Qed.

Lemma total_snoc l a : total (l ++ [a]) = total l + strtoull a.
Proof. rewrite total_app. simpl. lia. Qed.

Lemma child_step_inv p p' : invariant p -> child_step p = Some p' -> invariant p'.
Proof.
  intros (written & rest & Hargs & Hc & Hp). unfold child_step. destruct (child p) as [[|a rest']|] eqn:Hch; [| |done].
  - intros [= <-]. exists written, rest. split; [done|]. split; [|done]. right; right. split; [done|].
    by destruct Hc as [[= <-]|[?|[? _]]].
  - destruct (ev_write (strtoull a) (efd p)) as [[s e]|] eqn:Hw; [|done]. intros [= <-].
    destruct Hc as [[= <-]|[?|[? _]]]; [|done..].
    destruct (write_inv _ _ _ _ (strtoull_range a) Hw) as [[-> He]|[-> He]].
    + exists (written ++ [a]), rest'. split; [by rewrite <- app_assoc|]. split; [by left|]. simpl.
      destruct Hp as [[-> Hcnt]|(l & k & -> & -> & Hl & Hcnt)].
      * left. split; [done|]. by rewrite total_snoc, He, Hcnt.
      * right. exists l, (k ++ [a]). rewrite app_assoc. split_and!; [done..|]. by rewrite total_snoc, He, Hcnt.
    + exists written, (a :: rest'). split; [done|]. split; [by right; left|]. simpl. rewrite He. exact Hp.
Qed.

Lemma parent_step_inv p p' : invariant p -> parent_step p = Some p' -> invariant p'.
Proof.
  intros (written & rest & Hargs & Hc & Hp). unfold parent_step. destruct Hp as [[-> Hcnt]|(l & k & _ & -> & _)]; [|done].
  pose proof (total_nonneg written) as Hn. destruct (decide (ev_counter (efd p) = 0)) as [Hz|Hz].
  { by rewrite read_blocks. }
  destruct (read_resets (efd p)) as (e' & -> & He'); [lia|]. intros [= <-].
  exists written, rest. split; [done|]. split; [done|]. right. exists written, []. simpl.
  rewrite app_nil_r. split_and!; [done|by rewrite Hcnt|lia|done].
Qed.

Lemma step_inv p p' : invariant p -> step p p' -> invariant p'.
Proof. intros Hi [H|H]; [by eapply child_step_inv|by eapply parent_step_inv]. Qed.

Lemma eventfd_reachable_inv p p' : invariant p -> rtc step p p' -> invariant p'.
Proof. intros Hi. induction 1 as [|p p1 p' H1 _ IH]; [done|]. apply IH. by eapply step_inv. Qed.

Lemma start_inv e : ev_counter e = 0 -> invariant (Procs e (Writing args) Reading).
Proof. intros He. exists [], args. split; [done|]. split; [by left|]. by left. Qed.

Lemma start_procs prog e p0 :
  start (prog :: args) (Some e) true = inr p0 -> p0 = Procs e (Writing args) Reading.
Proof. unfold start. destruct (_ <? _)%nat; [done|]. by intros [= <-]. Qed.

(** ** What the processes do *)

(** C38: the parent prints the sum of the numbers written so far.  Whatever the
    interleaving, if it prints a number it exits with status 0, and the number
    is the sum of the first [n] arguments for some [n], not necessarily all. *)
Theorem eventfd_prints_prefix prog e p0 p code v :
  ev_counter e = 0 -> start (prog :: args) (Some e) true = inr p0 -> rtc step p0 p -> parent p = ParentExited code (Some v) ->
  code = 0 /\ 0 < v /\ exists n, v = total (take n args).
Proof.
  intros He ->%start_procs Hr Hv. destruct (eventfd_reachable_inv _ _ (start_inv e He) Hr) as (written & rest & Hargs & _ & Hp).
  destruct Hp as [[Hp _]|(l & k & -> & Hp & Hl & _)]; [congruence|]. rewrite Hp in Hv. injection Hv as <- <-.
  split_and!; [done|done|]. exists (length l). by rewrite Hargs, <- app_assoc, take_app_length.
Qed.

(** The steps that are left. *)
Definition steps_left (p : procs E) : nat :=
  (match child p with Writing l => S (length l) | ChildExited _ => 0 end +
   match parent p with Reading => 1 | ParentExited _ _ => 0 end)%nat.

Lemma step_decreases p p' : step p p' -> (steps_left p' < steps_left p)%nat.
Proof.
  unfold steps_left. intros [H|H]; revert H.
  - unfold child_step. destruct (child p) as [[|a l]|]; [intros [= <-]; simpl; destruct (parent p); lia| |done].
    destruct (ev_write _ _) as [[s e]|]; [|done]. intros [= <-]. simpl. destruct (s =? 8), (parent p); simpl; lia.
  - unfold parent_step. destruct (parent p); [|done]. destruct (ev_read _) as [[[s u] e]|]; [|done].
    intros [= <-]. simpl. destruct (s =? 8), (child p); simpl; lia.
Qed.

Lemma run_length n p p' : nsteps step n p p' -> (n + steps_left p' <= steps_left p)%nat.
Proof. induction 1 as [|n p p1 p' H1 _ IH]; [done|]. pose proof (step_decreases _ _ H1). lia. Qed.

(** No argument is refused: the child does not fail. *)
Lemma child_never_fails p p' :
  Forall (fun a => strtoull a < ULLONG_MAX) args -> invariant p -> child p <> ChildExited 1 -> step p p' ->
  child p' <> ChildExited 1.
Proof.
  intros Hall (written & rest & Hargs & Hc & _) Hne [H|H]; revert H.
  - unfold child_step. destruct (child p) as [[|a l]|]; [by intros [= <-]| |done].
    destruct Hc as [[= <-]|[?|[? _]]]; [|done..].
    assert (Ha : strtoull a < ULLONG_MAX).
    { rewrite Hargs in Hall. apply Forall_app in Hall as [_ Hall]. by apply Forall_cons in Hall as [? _]. }
    destruct (ev_write _ _) as [[s e]|] eqn:Hw; [|done]. intros [= <-]. simpl. pose proof (strtoull_range a).
    destruct (Z.lt_ge_cases (ev_counter (efd p) + strtoull a) ULLONG_MAX) as [Hlt|Hge].
    + destruct (write_adds (strtoull a) (efd p)) as (e1 & H1 & _); [lia|done|]. by simplify_eq.
    + by rewrite write_blocks in Hw by lia.
  - unfold parent_step. destruct (parent p); [|done]. destruct (ev_read _) as [[[s u] e]|]; [|done]. by intros [= <-].
Qed.

(** A state in which nothing can run is the end of both processes. *)
Lemma stuck_is_end p :
  Forall (fun a => strtoull a < ULLONG_MAX) args -> 0 < total args < ULLONG_MAX ->
  invariant p -> child p <> ChildExited 1 -> (forall p', ~ step p p') ->
  child p = ChildExited 0 /\ exists v, parent p = ParentExited 0 (Some v).
Proof.
  intros Hall Ht (written & rest & Hargs & Hc & Hp) Hne Hstuck.
  pose proof (f_equal total Hargs) as Htot. rewrite total_app in Htot.
  assert (Hcnt : ev_counter (efd p) <= total written).
  { destruct Hp as [[_ ->]|(l & k & -> & _ & Hl & ->)]; [done|]. rewrite total_app. lia. }
  destruct Hc as [Hc|[?|[Hc ->]]]; [exfalso|done|].
  - destruct rest as [|a rest].
    { eapply Hstuck. apply ChildStep. unfold child_step. by rewrite Hc. }
    pose proof (total_nonneg rest) as Hn. pose proof (strtoull_range a). simpl in Htot. fold (total rest) in Htot.
    rewrite Hargs in Hall. apply Forall_app in Hall as [_ [Ha _]%Forall_cons].
    destruct (write_adds (strtoull a) (efd p)) as (e' & Hw & _); [lia|lia|].
    eapply Hstuck. apply ChildStep. unfold child_step. by rewrite Hc, Hw.
  - split; [done|]. destruct Hp as [[Hp Hv]|(l & k & _ & -> & _)]; [exfalso|by eauto].
    simpl in Htot. destruct (read_resets (efd p)) as (e' & Hrd & _); [lia|].
    eapply Hstuck. apply ParentStep. unfold parent_step. by rewrite Hp, Hrd.
Qed.

(** C39: both processes end.  If no argument is refused, their sum fits the
    counter and is not 0, then no interleaving has more than two steps beyond
    one per argument, and where none can go on the child has exited with
    status 0 and the parent has printed a number. *)
Theorem eventfd_ends prog e p0 n p :
  ev_counter e = 0 -> start (prog :: args) (Some e) true = inr p0 -> Forall (fun a => strtoull a < ULLONG_MAX) args -> 0 < total args < ULLONG_MAX ->
  nsteps step n p0 p ->
  (n <= length args + 2)%nat /\
  ((forall p', ~ step p p') -> child p = ChildExited 0 /\ exists v, parent p = ParentExited 0 (Some v)).
Proof.
  intros He ->%start_procs Hall Ht Hrun. split; [apply run_length in Hrun; unfold steps_left at 2 in Hrun; simpl in Hrun; lia|].
  assert (Hi : invariant p /\ child p <> ChildExited 1).
  { pose proof (start_inv e He) as H0. assert (H1 : child (Procs e (Writing args) Reading) <> ChildExited 1) by done.
    revert H0 H1. induction Hrun as [|n p p1 p2 Hs _ IH]; [done|]. intros H0 H1.
    apply IH; [by eapply step_inv|by eapply child_never_fails]. }
  apply stuck_is_end; [done|done|apply Hi|apply Hi].
Qed.

(** C40: zeros leave the parent waiting.  If every argument is 0, which a write
    accepts, the read of the parent blocks in every reachable state: it never
    prints anything and never exits. *)
Theorem eventfd_zeros_block prog e p0 p :
  ev_counter e = 0 -> start (prog :: args) (Some e) true = inr p0 -> total args = 0 -> rtc step p0 p ->
  parent p = Reading /\ parent_step p = None.
Proof.
  intros He ->%start_procs Ht Hr. destruct (eventfd_reachable_inv _ _ (start_inv e He) Hr) as (written & rest & Hargs & _ & Hp).
  pose proof (f_equal total Hargs) as Htot. rewrite total_app in Htot.
  pose proof (total_nonneg written). pose proof (total_nonneg rest).
  destruct Hp as [[Hp Hc]|(l & k & -> & _ & Hl & _)].
  - split; [done|]. unfold parent_step. rewrite Hp, read_blocks; [done|lia].
  - rewrite total_app in *. pose proof (total_nonneg k). lia.
Qed.

End eventfd.

(** ** A counter that keeps the laws, and concrete runs *)
Module EventfdRef.

#[global] Instance counter : Eventfd Z := {|
  ev_counter c := c;
  ev_write v c := if v =? ULLONG_MAX then Some (-1, c) else if c + v <? ULLONG_MAX then Some (8, c + v) else None;
  ev_read c := if c =? 0 then None else Some (8, c, 0)
|}.

#[global] Instance counter_ok : EventfdOk Z.
Proof.
  split; simpl.
  - intros c. by exists c.
  - intros v c Hv Hc. rewrite (proj2 (Z.eqb_neq _ _)), (proj2 (Z.ltb_ge _ _)) by lia. done.
  - intros v c Hv Hc. rewrite (proj2 (Z.eqb_neq _ _)), (proj2 (Z.ltb_lt _ _)) by lia. by exists (c + v).
  - by intros c ->.
  - intros c Hc. rewrite (proj2 (Z.eqb_neq _ _)) by lia. by exists 0.
Qed.

Definition args : list (list Z) := [chars "1"; chars "0x10"; chars "010"].
Definition s0 : procs Z := Procs 0 (Writing args) Reading.

(** The child writes twice, the parent reads 17, the child has one to go. *)
Definition s1 : procs Z := Procs 0 (Writing [chars "010"]) (ParentExited 0 (Some 17)).

Lemma s1_run : nsteps step 3 s0 s1.
Proof.
  do 2 (eapply nsteps_l; [by apply ChildStep|]). eapply nsteps_l; [by apply ParentStep|]. constructor.
Qed.

Definition zeros : procs Z := Procs 0 (Writing [chars "0"; chars "0x0"]) Reading.
Definition zeros_end : procs Z := Procs 0 (ChildExited 0) Reading.

Lemma zeros_run : rtc step zeros zeros_end.
Proof. do 3 (eapply rtc_l; [by apply ChildStep|]). constructor. Qed.

End EventfdRef.

Lemma eventfd_prints_prefix_witness : 0 = 0 /\ 0 < 17 /\ exists n, 17 = total (take n EventfdRef.args).
Proof.
  apply (eventfd_prints_prefix EventfdRef.args (chars "eventfd") 0 EventfdRef.s0 EventfdRef.s1).
  - reflexivity.
  - reflexivity.
  - apply rtc_nsteps. exists 3%nat. apply EventfdRef.s1_run.
  - reflexivity.
Defined.

Lemma eventfd_ends_witness :
  (3 <= 3 + 2)%nat /\ ((forall p', ~ step EventfdRef.s1 p') -> child EventfdRef.s1 = ChildExited 0 /\
    exists v, parent EventfdRef.s1 = ParentExited 0 (Some v)).
Proof.
  apply (eventfd_ends EventfdRef.args (chars "eventfd") 0 EventfdRef.s0 3 EventfdRef.s1).
  - reflexivity.
  - reflexivity.
  - repeat constructor; vm_compute; reflexivity.
  - split; vm_compute; reflexivity.
  - apply EventfdRef.s1_run.
Defined.

Lemma eventfd_zeros_block_witness : parent EventfdRef.zeros_end = Reading /\ parent_step EventfdRef.zeros_end = None.
Proof.
  apply (eventfd_zeros_block [chars "0"; chars "0x0"] (chars "eventfd") 0 EventfdRef.zeros).
  - reflexivity.
  - reflexivity.
  - reflexivity.
  - apply EventfdRef.zeros_run.
Defined.
