(* ===== verification/HelloDemo.v ===== *)
(** * One write through a ring: [demo/helloworld.c] *)

From S2P Require Import Prelude Uring Setup.

Definition STDOUT_FILENO : Z := 1.

(** A failed [assert] aborts the process. *)
Definition SIGABRT_STATUS : Z := 134.

Section hello.
Context {K : Type} `{!Liburing unit Z} `{!Kernel unit Z K} `{!Setup K} `{!RingSetup K}.

(** The only address is that of the local [hello]. *)
Local Abbreviation st := (rstate unit Z K unit).

Definition assert (b : bool) : M st unit := if b then mret tt else exit_ SIGABRT_STATUS.

Definition hello_main : M st Z :=
  r ← io_uring_queue_init_params 4 zero_params;
  assert (fst r =? 0) ;;
  sqe ← io_uring_get_sqe;
  io_uring_prep sqe (OpWrite STDOUT_FILENO tt 13 0) ;;
  io_uring_submit ;;
  r ← io_uring_wait_cqe;
  let '(ret, cqe) := (r : Z * option (cqe Z)) in
  assert (ret =? 0) ;;
  match cqe with
  | None => ub
  | Some c =>
      assert (0 <? cqe_res c) ;;
      io_uring_cqe_seen ;;
      io_uring_queue_exit ;;
      mret 0
  end.

Context {entries : nat} `{!LiburingOk unit Z entries} `{!KernelOk unit Z K} `{!SetupOk unit Z K}.

(** If the program returns, the kernel has carried out exactly one request, a
    write of 13 bytes to the standard output that wrote something, and nothing
    is left on the ring when it is taken down. *)
Lemma hello_writes (s s' : st) r :
  rs_sq s = [] -> k_inflight (rs_kern s) = [] -> k_cq (rs_kern s) = [] -> hello_main s = Ok r s' ->
  r = 0 /\ exists e c k k', sqe_op e = OpWrite STDOUT_FILENO tt 13 0 /\ posts k k' e c /\ 0 < cqe_res c /\
    k_inflight k' = [] /\ k_cq (k_cq_advance 1 k') = [] /\ rs_kern s' = k_ring_exit (k_cq_advance 1 k').
Proof.
  intros Hq Hi Hc (p & s1 & H1 & Hrun)%bind_inv_ok. unfold io_uring_queue_init_params, syscall in H1.
  pose proof (queue_init_frame 4 zero_params (rs_kern s)) as (Fi & Fc & _).
  destruct (k_queue_init 4 zero_params (rs_kern s)) as [p' k1]. injection H1 as <- <-. rewrite Hi in Fi. rewrite Hc in Fc.
  apply bind_inv_ok in Hrun as ([] & s2 & H2 & Hrun). unfold assert in H2. destruct (_ =? 0); [|done]. injection H2 as <-.
  revert Hrun. unfold io_uring_get_sqe. mred. simpl. rewrite Hq. destruct (lib_get_sqe []) as [e0|]; [|done].
  unfold io_uring_prep, sqe_update. simpl. rewrite Hq. simpl. unfold io_uring_submit, io_uring_submit_and_wait. simpl.
  destruct (k_submit [lib_prep _ e0] 0 k1) as [[ret n] k2] eqn:Hsub. unfold io_uring_wait_cqe. simpl.
  destruct (k_wait k2) as [w k3] eqn:Hwait. unfold assert. destruct (w =? 0); [|done]. simpl.
  destruct (one_request _ _ _ _ _ _ _ Fi Fc Hsub Hwait) as [->|(k0 & c & _ & _ & _ & Hp & Hc3 & Hi3)]; [done|].
  rewrite Hc3. simpl. destruct (Z.ltb_spec 0 (cqe_res c)); [|done]. intros [= <- <-]. split; [done|].
  exists (lib_prep (OpWrite STDOUT_FILENO tt 13 0) e0), c, k0, k3. split; [apply prep_op|]. split; [done|].
  rewrite advance_cq, Hc3. done.
Qed.

End hello.
